(** * Looking Glass client: the streaming texture and the frame ingest

    A shallow embedding of [client/renderers/EGL/texture.c] and of the
    session, subscription, frame and cursor loops, the clipboard
    functions, the mouse sensitivity keys and the keyboard and button
    events of [client/src/main.c].

    The C functions act on one heap object (the [EGL_Texture]), on one
    function-static flag ([warnDone]) and on the outside world (OpenGL, the
    log, the shared frame buffer).  They are embedded as state-passing
    functions over a [World] that holds the texture object, the static flag
    and the history of every external call made so far, in program order.
    What the outside world answers (generated object names, mapped
    pointers, fence handles, the outcome of a fence wait) is supplied by a
    [GLdriver], an arbitrary function of that history, so that a theorem
    stated for every driver covers every behaviour of the GL
    implementation. *)

From Stdlib Require Import ZArith List String Bool Lia DecimalString.
From stdpp Require Import base list.
Import ListNotations.
Local Open Scope Z_scope.


(** ** Machine integers

    [size_t] and [GLintptr] are 64 bits wide (LP64), [int8_t] and
    [uint8_t] are 8 bits wide; C's [%] truncates towards zero ([Z.rem]). *)

Definition to_size_t (z : Z) : Z := z mod 2 ^ 64.
Definition to_GLintptr (z : Z) : Z := (z + 2 ^ 63) mod 2 ^ 64 - 2 ^ 63.
Definition to_uint8 (z : Z) : Z := z mod 256.
Definition to_int8 (z : Z) : Z := (z + 128) mod 256 - 128.

Definition TEXTURE_COUNT : Z := 3.

(** ** OpenGL vocabulary

    Object names, sync handles and pointers are numbers; the zero of each
    is "no object" / [NULL].  The enumerants are kept symbolic. *)

Abbreviation GLuint := Z (only parsing).
Abbreviation GLsync := Z (only parsing).
Abbreviation pointer := Z (only parsing).
Definition NULL : pointer := 0.

Inductive GLenum : Type :=
| GL_NONE
| GL_TEXTURE_2D
| GL_PIXEL_UNPACK_BUFFER
| GL_BGRA
| GL_RGBA
| GL_RED
| GL_RGB10_A2
| GL_UNSIGNED_BYTE
| GL_UNSIGNED_INT_2_10_10_10_REV
| GL_TEXTURE_MIN_FILTER
| GL_TEXTURE_MAG_FILTER
| GL_TEXTURE_WRAP_S
| GL_TEXTURE_WRAP_T
| GL_LINEAR
| GL_CLAMP_TO_EDGE
| GL_UNPACK_ROW_LENGTH
| GL_SYNC_GPU_COMMANDS_COMPLETE
| GL_ALREADY_SIGNALED
| GL_CONDITION_SATISFIED
| GL_TIMEOUT_EXPIRED
| GL_WAIT_FAILED
| GL_INVALID_VALUE
| GL_TEXTURE0_plus (i : Z)
| GL_enum_other (code : Z).

Definition GL_MAP_WRITE_BIT : Z := 2.
Definition GL_MAP_INVALIDATE_BUFFER_BIT : Z := 8.
Definition GL_MAP_UNSYNCHRONIZED_BIT : Z := 32.

Inductive memory_order : Type :=
| memory_order_relaxed
| memory_order_acquire
| memory_order_release.

(** The four bytes of [union TexState]. *)
Inductive state_field : Type := field_w | field_u | field_s | field_d.

(** Every call that leaves the translation unit, with its arguments. *)
Inductive event : Type :=
| glBindBuffer (target : GLenum) (buffer : GLuint)
| glMapBufferRange (target : GLenum) (offset len access : Z)
| glUnmapBuffer (target : GLenum)
| glDeleteBuffers (n : Z) (names : list GLuint)
| glGenBuffers (n : Z)
| glBufferStorage (target : GLenum) (size : Z) (data : pointer) (flags : Z)
| glDeleteSamplers (n : Z) (names : list GLuint)
| glGenSamplers (n : Z)
| glSamplerParameteri (sampler : GLuint) (pname param : GLenum)
| glDeleteTextures (n : Z) (names : list GLuint)
| glGenTextures (n : Z)
| glBindTexture (target : GLenum) (name : GLuint)
| glTexImage2D (target : GLenum) (level : Z) (internalformat : GLenum)
    (wd ht border : Z) (fmt ty : GLenum) (data : pointer)
| glTexSubImage2D (target : GLenum) (level xoffset yoffset wd ht : Z)
    (fmt ty : GLenum) (data : pointer)
| glPixelStorei (pname : GLenum) (param : Z)
| glFenceSync (condition : GLenum) (flags : Z)
| glFlush
| glClientWaitSync (sync : GLsync) (flags timeout : Z)
| glDeleteSync (sync : GLsync)
| glActiveTexture (unit : GLenum)
| glBindSampler (unit : Z) (sampler : GLuint)
| atomic_load_explicit (order : memory_order)
| atomic_store_explicit_v (value : Z) (order : memory_order)
| atomic_store_explicit (f : state_field) (value : Z) (order : memory_order)
| memcpy (dst src : pointer) (n : Z)
| framebuffer_read (frame dst : pointer) (dstpitch ht wd bpp pitch : Z)
| DEBUG_ERROR (msg : string)
| DEBUG_WARN (msg : string)
| DEBUG_BREAK
| EGL_ERROR (fmt : string) (args : list Z).

(** What the GL implementation answers, given everything that happened
    before the call. *)
Record GLdriver : Type := {
  gen_name : list event -> Z -> GLuint;
  map_buffer_range : list event -> pointer;
  fence_sync : list event -> GLsync;
  client_wait_sync : list event -> GLenum
}.

(** ** The data of texture.c *)

Inductive EGL_PixelFormat : Type :=
| EGL_PF_RGBA
| EGL_PF_BGRA
| EGL_PF_RGBA10
| EGL_PF_YUV420
| EGL_PF_other (code : Z).

Inductive EGL_TexStatus : Type :=
| EGL_TEX_STATUS_NOTREADY
| EGL_TEX_STATUS_OK
| EGL_TEX_STATUS_ERROR.

(** [struct Tex] *)
Record Tex : Type := {
  tex_t : list GLuint;
  tex_hasPBO : bool;
  tex_pbo : GLuint;
  tex_map : pointer;
  tex_sync : GLsync
}.

(** [union TexState]: the 32-bit [v] overlays the four [int8_t] fields,
    so a load of [v] is a copy of the four fields and a store of [0] to
    [v] zeroes the four of them. *)
Record TexState : Type := {
  st_w : Z;
  st_u : Z;
  st_s : Z;
  st_d : Z
}.

(** [struct EGL_Texture] *)
Record EGL_Texture : Type := {
  pixFmt : EGL_PixelFormat;
  width : Z;
  height : Z;
  stride : Z;
  bpp : Z;
  streaming : bool;
  ready : bool;
  planeCount : Z;
  samplers : list GLuint;
  planes : list (list Z);
  offsets : list Z;
  intFormat : GLenum;
  format : GLenum;
  dataType : GLenum;
  pboBufferSize : Z;
  state : TexState;
  tex : list Tex
}.

#[global] Instance Tex_inhabited : Inhabited Tex :=
  populate {| tex_t := []; tex_hasPBO := false; tex_pbo := 0;
              tex_map := NULL; tex_sync := 0 |}.

(** An index of a C array: a negative one lies outside the array, like
    one past its end. *)
Definition idx (i : Z) : nat := if i <? 0 then 3%nat else Z.to_nat i.

Definition tex_at (t : EGL_Texture) (i : Z) : Tex := tex t !!! idx i.
Definition plane_at (t : EGL_Texture) (p k : Z) : Z :=
  (planes t !!! idx p) !!! idx k.
Definition offset_at (t : EGL_Texture) (p : Z) : Z := offsets t !!! idx p.
Definition sampler_at (t : EGL_Texture) (p : Z) : GLuint :=
  samplers t !!! idx p.
Definition t_at (x : Tex) (p : Z) : GLuint := tex_t x !!! idx p.

(** Field assignments. *)
Definition set_tex_t (v : list GLuint) (x : Tex) : Tex :=
  {| tex_t := v; tex_hasPBO := tex_hasPBO x; tex_pbo := tex_pbo x;
     tex_map := tex_map x; tex_sync := tex_sync x |}.
Definition set_tex_hasPBO (v : bool) (x : Tex) : Tex :=
  {| tex_t := tex_t x; tex_hasPBO := v; tex_pbo := tex_pbo x;
     tex_map := tex_map x; tex_sync := tex_sync x |}.
Definition set_tex_pbo (v : GLuint) (x : Tex) : Tex :=
  {| tex_t := tex_t x; tex_hasPBO := tex_hasPBO x; tex_pbo := v;
     tex_map := tex_map x; tex_sync := tex_sync x |}.
Definition set_tex_map (v : pointer) (x : Tex) : Tex :=
  {| tex_t := tex_t x; tex_hasPBO := tex_hasPBO x; tex_pbo := tex_pbo x;
     tex_map := v; tex_sync := tex_sync x |}.
Definition set_tex_sync (v : GLsync) (x : Tex) : Tex :=
  {| tex_t := tex_t x; tex_hasPBO := tex_hasPBO x; tex_pbo := tex_pbo x;
     tex_map := tex_map x; tex_sync := v |}.

Definition set_st_w (v : Z) (s : TexState) : TexState :=
  {| st_w := v; st_u := st_u s; st_s := st_s s; st_d := st_d s |}.
Definition set_st_u (v : Z) (s : TexState) : TexState :=
  {| st_w := st_w s; st_u := v; st_s := st_s s; st_d := st_d s |}.
Definition set_st_s (v : Z) (s : TexState) : TexState :=
  {| st_w := st_w s; st_u := st_u s; st_s := v; st_d := st_d s |}.
Definition set_st_d (v : Z) (s : TexState) : TexState :=
  {| st_w := st_w s; st_u := st_u s; st_s := st_s s; st_d := v |}.

Definition set_params (f : EGL_PixelFormat) (wd ht sd : Z) (str : bool)
    (t : EGL_Texture) : EGL_Texture :=
  {| pixFmt := f; width := wd; height := ht; stride := sd; bpp := bpp t;
     streaming := str; ready := false; planeCount := planeCount t;
     samplers := samplers t; planes := planes t; offsets := offsets t;
     intFormat := intFormat t; format := format t; dataType := dataType t;
     pboBufferSize := pboBufferSize t; state := state t; tex := tex t |}.
Definition set_ready (v : bool) (t : EGL_Texture) : EGL_Texture :=
  {| pixFmt := pixFmt t; width := width t; height := height t;
     stride := stride t; bpp := bpp t; streaming := streaming t; ready := v;
     planeCount := planeCount t; samplers := samplers t; planes := planes t;
     offsets := offsets t; intFormat := intFormat t; format := format t;
     dataType := dataType t; pboBufferSize := pboBufferSize t;
     state := state t; tex := tex t |}.
Definition set_planeCount (v : Z) (t : EGL_Texture) : EGL_Texture :=
  {| pixFmt := pixFmt t; width := width t; height := height t;
     stride := stride t; bpp := bpp t; streaming := streaming t;
     ready := ready t; planeCount := v; samplers := samplers t;
     planes := planes t; offsets := offsets t; intFormat := intFormat t;
     format := format t; dataType := dataType t;
     pboBufferSize := pboBufferSize t; state := state t; tex := tex t |}.
Definition set_samplers (v : list GLuint) (t : EGL_Texture) : EGL_Texture :=
  {| pixFmt := pixFmt t; width := width t; height := height t;
     stride := stride t; bpp := bpp t; streaming := streaming t;
     ready := ready t; planeCount := planeCount t; samplers := v;
     planes := planes t; offsets := offsets t; intFormat := intFormat t;
     format := format t; dataType := dataType t;
     pboBufferSize := pboBufferSize t; state := state t; tex := tex t |}.
Definition set_state (v : TexState) (t : EGL_Texture) : EGL_Texture :=
  {| pixFmt := pixFmt t; width := width t; height := height t;
     stride := stride t; bpp := bpp t; streaming := streaming t;
     ready := ready t; planeCount := planeCount t; samplers := samplers t;
     planes := planes t; offsets := offsets t; intFormat := intFormat t;
     format := format t; dataType := dataType t;
     pboBufferSize := pboBufferSize t; state := v; tex := tex t |}.
Definition set_tex (v : list Tex) (t : EGL_Texture) : EGL_Texture :=
  {| pixFmt := pixFmt t; width := width t; height := height t;
     stride := stride t; bpp := bpp t; streaming := streaming t;
     ready := ready t; planeCount := planeCount t; samplers := samplers t;
     planes := planes t; offsets := offsets t; intFormat := intFormat t;
     format := format t; dataType := dataType t;
     pboBufferSize := pboBufferSize t; state := state t; tex := v |}.
(** The assignments of one [case] of the format switch. *)
Definition set_layout (b : Z) (pl : list (list Z)) (off : list Z)
    (ifmt fmt ty : GLenum) (size : Z) (t : EGL_Texture) : EGL_Texture :=
  {| pixFmt := pixFmt t; width := width t; height := height t;
     stride := stride t; bpp := b; streaming := streaming t;
     ready := ready t; planeCount := planeCount t; samplers := samplers t;
     planes := pl; offsets := off; intFormat := ifmt; format := fmt;
     dataType := ty; pboBufferSize := size; state := state t;
     tex := tex t |}.

(** [tex[i].field = v] *)
Definition upd_tex (i : Z) (f : Tex -> Tex) (t : EGL_Texture) : EGL_Texture :=
  set_tex (alter f (idx i) (tex t)) t.

(** [planes[p][k] = v] *)
Definition set_plane (p k : Z) (v : Z) (pl : list (list Z)) : list (list Z) :=
  alter (fun row => <[idx k := v]> row) (idx p) pl.

(** ** State passing

    A C function that reads and writes memory and calls out is a function
    from the state before to its result and the state after. *)

Definition St (S A : Type) : Type := S -> A * S.

Definition ret {S A} (a : A) : St S A := fun w => (a, w).
Definition bind {S A B} (m : St S A) (k : A -> St S B) : St S B :=
  fun w => let (a, w') := m w in k a w'.

Declare Scope m_scope.
Delimit Scope m_scope with M.
Notation "'let*' x ':=' m 'in' k" := (bind m (fun x => k))
  (at level 10, x name, m at level 100, k at level 200) : m_scope.
Notation "m1 ;; m2" := (bind m1 (fun _ => m2))
  (at level 100, m2 at level 200, right associativity) : m_scope.
Local Open Scope m_scope.

Definition exec {S A} (m : St S A) (w : S) : S := snd (m w).
Definition eval {S A} (m : St S A) (w : S) : A := fst (m w).

Definition when {S} (b : bool) (m : St S unit) : St S unit :=
  if b then m else ret tt.

(** [for (int i = i0; ...; ++i) body(i)], [n] iterations. *)
Fixpoint for_from {S} (i : Z) (n : nat) (body : Z -> St S unit) : St S unit :=
  match n with
  | O => ret tt
  | S k => body i ;; for_from (i + 1) k body
  end.
(** [for (int i = 0; i < n; ++i) body(i)] *)
Definition for_loop {S} (n : Z) (body : Z -> St S unit) : St S unit :=
  for_from 0 (Z.to_nat n) body.

(** ** The world of texture.c *)

Record World : Type := {
  texture : EGL_Texture;   (* the object behind the [EGL_Texture] pointer *)
  warnDone : bool;         (* [static bool warnDone] of [egl_warn_slow] *)
  history : list event     (* every external call so far, oldest first *)
}.

Definition M (A : Type) : Type := St World A.

Definition get_texture : M EGL_Texture := fun w => (texture w, w).
Definition modify_texture (f : EGL_Texture -> EGL_Texture) : M unit :=
  fun w => (tt, {| texture := f (texture w); warnDone := warnDone w;
                   history := history w |}).
Definition emit (e : event) : M unit :=
  fun w => (tt, {| texture := texture w; warnDone := warnDone w;
                   history := history w ++ [e] |}).
(** A call whose result the program uses: the driver's answer to the
    history so far, then the call joins the history. *)
Definition call {A} (answer : list event -> A) (e : event) : M A :=
  fun w => (answer (history w),
            {| texture := texture w; warnDone := warnDone w;
               history := history w ++ [e] |}).

(** [atomic_load_explicit(&texture->state.v, order)] *)
Definition load_state (order : memory_order) : M TexState :=
  emit (atomic_load_explicit order) ;;
  let* t := get_texture in ret (state t).

(** [atomic_store_explicit(&texture->state.v, 0, order)] *)
Definition store_state_v0 (order : memory_order) : M unit :=
  emit (atomic_store_explicit_v 0 order) ;;
  modify_texture (set_state {| st_w := 0; st_u := 0; st_s := 0; st_d := 0 |}).

Definition set_field (f : state_field) (v : Z) (s : TexState) : TexState :=
  match f with
  | field_w => set_st_w v s
  | field_u => set_st_u v s
  | field_s => set_st_s v s
  | field_d => set_st_d v s
  end.

(** [atomic_store_explicit(&texture->state.f, v, order)]; the field is an
    [int8_t]. *)
Definition store_field (f : state_field) (v : Z) (order : memory_order)
    : M unit :=
  emit (atomic_store_explicit f v order) ;;
  modify_texture (fun t => set_state (set_field f (to_int8 v) (state t)) t).

(** What [memset] to zero leaves in a fresh [EGL_Texture]. *)
Definition zero_Tex : Tex :=
  {| tex_t := [0; 0; 0]; tex_hasPBO := false; tex_pbo := 0;
     tex_map := NULL; tex_sync := 0 |}.
Definition zero_texture : EGL_Texture :=
  {| pixFmt := EGL_PF_other 0; width := 0; height := 0; stride := 0;
     bpp := 0; streaming := false; ready := false; planeCount := 0;
     samplers := [0; 0; 0];
     planes := [[0; 0; 0]; [0; 0; 0]; [0; 0; 0]];
     offsets := [0; 0; 0];
     intFormat := GL_NONE; format := GL_NONE; dataType := GL_NONE;
     pboBufferSize := 0;
     state := {| st_w := 0; st_u := 0; st_s := 0; st_d := 0 |};
     tex := [zero_Tex; zero_Tex; zero_Tex] |}.

(** [egl_texture_init]; whether [malloc] succeeds is the caller's luck. *)
Definition egl_texture_init (malloc_ok : bool) : M bool :=
  if malloc_ok then
    modify_texture (fun _ => zero_texture) ;; ret true
  else
    emit (DEBUG_ERROR "Failed to malloc EGL_Texture") ;; ret false.

(** [egl_texture_free].  [allocated] says whether the pointer the caller
    holds is not NULL on entry; the result says whether it is not NULL on
    return.  [free] leaves no trace in the history.  The loop bound reads
    the [streaming] field on every turn; nothing in the loop writes it. *)
Definition egl_texture_free (allocated : bool) : M bool :=
  if negb allocated then ret false
  else
    let* t := get_texture in
    when (0 <? planeCount t)
      (emit (glDeleteSamplers (planeCount t)
               (take (Z.to_nat (planeCount t)) (samplers t)))) ;;
    for_loop (if streaming t then TEXTURE_COUNT else 1) (fun i =>
      let* t := get_texture in
      when (tex_hasPBO (tex_at t i)) (
        emit (glBindBuffer GL_PIXEL_UNPACK_BUFFER (tex_pbo (tex_at t i))) ;;
        when (negb (tex_map (tex_at t i) =? NULL)) (
          emit (glUnmapBuffer GL_PIXEL_UNPACK_BUFFER) ;;
          modify_texture (upd_tex i (set_tex_map NULL))) ;;
        emit (glDeleteBuffers 1 [tex_pbo (tex_at t i)]) ;;
        when (negb (tex_sync (tex_at t i) =? 0))
          (emit (glDeleteSync (tex_sync (tex_at t i))))) ;;
      when (0 <? planeCount t)
        (emit (glDeleteTextures (planeCount t)
                 (take (Z.to_nat (planeCount t)) (tex_t (tex_at t i)))))) ;;
    emit (glBindBuffer GL_PIXEL_UNPACK_BUFFER 0) ;;
    ret false.

(** The two warnings of [egl_warn_slow], between two [DEBUG_BREAK]s. *)
Definition slow_warning : list event :=
  [DEBUG_BREAK;
   DEBUG_WARN "The guest is providing updates faster then your computer can display them";
   DEBUG_WARN "This is a hardware limitation, expect microstutters & frame skips";
   DEBUG_BREAK].

Section Texture.

Variable gl : GLdriver.

Definition map_access : Z :=
  Z.lor (Z.lor GL_MAP_WRITE_BIT GL_MAP_UNSYNCHRONIZED_BIT)
        GL_MAP_INVALIDATE_BUFFER_BIT.

(** The loop of [egl_texture_map], from slot [i], [n] slots to go. *)
Fixpoint egl_texture_map_from (i : Z) (n : nat) : M bool :=
  match n with
  | O => ret true
  | S k =>
    let* t := get_texture in
    emit (glBindBuffer GL_PIXEL_UNPACK_BUFFER (tex_pbo (tex_at t i))) ;;
    let* p := call (map_buffer_range gl)
                (glMapBufferRange GL_PIXEL_UNPACK_BUFFER 0 (pboBufferSize t)
                   map_access) in
    modify_texture (upd_tex i (set_tex_map p)) ;;
    if p =? NULL then
      emit (EGL_ERROR "glMapBufferRange failed for %d of %lu bytes"
              [i; pboBufferSize t]) ;;
      ret false
    else egl_texture_map_from (i + 1) k
  end.

Definition egl_texture_map : M bool :=
  let* ok := egl_texture_map_from 0 (Z.to_nat TEXTURE_COUNT) in
  if ok : bool then
    emit (glBindBuffer GL_PIXEL_UNPACK_BUFFER 0) ;; ret true
  else ret false.

Definition egl_texture_unmap : M unit :=
  for_loop TEXTURE_COUNT (fun i =>
    let* t := get_texture in
    if tex_map (tex_at t i) =? NULL then ret tt
    else
      emit (glBindBuffer GL_PIXEL_UNPACK_BUFFER (tex_pbo (tex_at t i))) ;;
      emit (glUnmapBuffer GL_PIXEL_UNPACK_BUFFER) ;;
      modify_texture (upd_tex i (set_tex_map NULL))).

(** [glGen*(n, arr)]: the first [n] elements of [arr] receive names. *)
Definition fill_names (h : list event) (n : Z) (arr : list GLuint)
    : list GLuint :=
  foldl (fun a k => <[k := gen_name gl h (Z.of_nat k)]> a) arr
        (seq 0 (Z.to_nat n)).
Definition gen_into (e : event) (n : Z) (arr : list GLuint)
    : M (list GLuint) :=
  call (fun h => fill_names h n arr) e.

(** The [switch (pixFmt)] of [egl_texture_setup]: the assignments of the
    matching case and the local [planeCount]; [None] is the [default]. *)
Definition switch_pixFmt (f : EGL_PixelFormat) (wd ht sd : Z)
    (t : EGL_Texture) : option (Z * EGL_Texture) :=
  let packed (ifmt fmt ty : GLenum) :=
    Some (1, set_layout 4
               (set_plane 0 2 (sd / 4)
                  (set_plane 0 1 ht (set_plane 0 0 wd (planes t))))
               (<[0%nat := 0]> (offsets t))
               ifmt fmt ty (to_size_t (ht * sd)) t) in
  match f with
  | EGL_PF_BGRA => packed GL_BGRA GL_BGRA GL_UNSIGNED_BYTE
  | EGL_PF_RGBA => packed GL_BGRA GL_RGBA GL_UNSIGNED_BYTE
  | EGL_PF_RGBA10 => packed GL_RGB10_A2 GL_RGBA GL_UNSIGNED_INT_2_10_10_10_REV
  | EGL_PF_YUV420 =>
    let off1 := to_GLintptr (to_size_t (sd * ht)) in
    let off2 := to_GLintptr (off1 + Z.quot off1 4) in
    Some (3, set_layout 4
               (set_plane 2 2 (sd / 2)
               (set_plane 2 1 (ht / 2)
               (set_plane 2 0 (wd / 2)
               (set_plane 1 2 (sd / 2)
               (set_plane 1 1 (ht / 2)
               (set_plane 1 0 (wd / 2)
               (set_plane 0 2 sd
               (set_plane 0 1 ht
               (set_plane 0 0 wd (planes t))))))))))
               (<[2%nat := off2]> (<[1%nat := off1]>
                  (<[0%nat := 0]> (offsets t))))
               (intFormat t) GL_RED GL_UNSIGNED_BYTE
               (to_size_t (off2 + Z.quot off1 4)) t)
  | EGL_PF_other _ => None
  end.

(** The body of [if (planeCount > texture->planeCount)], up to the
    assignment of the new count. *)
Definition realloc_objects (count : Z) : M unit :=
  let* t := get_texture in
  when (0 <? planeCount t)
    (emit (glDeleteSamplers (planeCount t)
             (take (Z.to_nat (planeCount t)) (samplers t)))) ;;
  for_loop TEXTURE_COUNT (fun i =>
    let* t := get_texture in
    when (0 <? planeCount t)
      (emit (glDeleteTextures (planeCount t)
               (take (Z.to_nat (planeCount t)) (tex_t (tex_at t i))))) ;;
    let* names := gen_into (glGenTextures count) count
                    (tex_t (tex_at t i)) in
    modify_texture (upd_tex i (set_tex_t names))) ;;
  let* t := get_texture in
  let* names := gen_into (glGenSamplers count) count (samplers t) in
  modify_texture (set_samplers names) ;;
  for_loop count (fun p =>
    let* t := get_texture in
    emit (glSamplerParameteri (sampler_at t p)
            GL_TEXTURE_MIN_FILTER GL_LINEAR) ;;
    emit (glSamplerParameteri (sampler_at t p)
            GL_TEXTURE_MAG_FILTER GL_LINEAR) ;;
    emit (glSamplerParameteri (sampler_at t p)
            GL_TEXTURE_WRAP_S GL_CLAMP_TO_EDGE) ;;
    emit (glSamplerParameteri (sampler_at t p)
            GL_TEXTURE_WRAP_T GL_CLAMP_TO_EDGE)).

Definition setup_realloc (count : Z) : M unit :=
  let* t := get_texture in
  when (planeCount t <? count) (
    realloc_objects count ;;
    modify_texture (set_planeCount count)).

(** The rest of [egl_texture_setup]: texture storage, then the pixel
    buffers and their mappings. *)
Definition setup_storage (count : Z) (str : bool) : M bool :=
  for_loop (if str then TEXTURE_COUNT else 1) (fun i =>
    for_loop count (fun p =>
      let* t := get_texture in
      emit (glBindTexture GL_TEXTURE_2D (t_at (tex_at t i) p)) ;;
      emit (glTexImage2D GL_TEXTURE_2D 0 (intFormat t)
              (plane_at t p 0) (plane_at t p 1) 0
              (format t) (dataType t) NULL))) ;;
  emit (glBindTexture GL_TEXTURE_2D 0) ;;
  egl_texture_unmap ;;
  (* release old PBOs and delete and re-create the buffers *)
  for_loop TEXTURE_COUNT (fun i =>
    let* t := get_texture in
    when (tex_hasPBO (tex_at t i))
      (emit (glDeleteBuffers 1 [tex_pbo (tex_at t i)])) ;;
    let* names := gen_into (glGenBuffers 1) 1 [tex_pbo (tex_at t i)] in
    modify_texture
      (upd_tex i (fun x => set_tex_hasPBO true
                             (set_tex_pbo (names !!! 0%nat) x))) ;;
    let* t := get_texture in
    emit (glBindBuffer GL_PIXEL_UNPACK_BUFFER (tex_pbo (tex_at t i))) ;;
    emit (glBufferStorage GL_PIXEL_UNPACK_BUFFER (pboBufferSize t) NULL
            GL_MAP_WRITE_BIT)) ;;
  let* ok := egl_texture_map in
  if ok : bool then ret true else ret false.

Definition egl_texture_setup (f : EGL_PixelFormat) (wd ht sd : Z)
    (str : bool) : M bool :=
  modify_texture (set_params f wd ht sd str) ;;
  store_state_v0 memory_order_relaxed ;;
  let* t := get_texture in
  match switch_pixFmt f wd ht sd t with
  | None => emit (DEBUG_ERROR "Unsupported pixel format") ;; ret false
  | Some (count, t') =>
    modify_texture (fun _ => t') ;;
    setup_realloc count ;;
    setup_storage count str
  end.

Definition egl_warn_slow : M unit :=
  fun w =>
    if warnDone w then (tt, w)
    else (tt, {| texture := texture w; warnDone := true;
                 history := history w ++ slow_warning |}).

Definition egl_texture_update (buffer : pointer) : M bool :=
  let* t := get_texture in
  if streaming t then
    let* s := load_state memory_order_acquire in
    let next := to_uint8 (Z.rem (st_w s + 1) TEXTURE_COUNT) in
    if next =? st_u s then
      egl_warn_slow ;; ret true
    else
      let* t := get_texture in
      emit (memcpy (tex_map (tex_at t (st_w s))) buffer (pboBufferSize t)) ;;
      store_field field_w next memory_order_release ;;
      ret true
  else
    (* Non streaming, this is NOT thread safe *)
    for_loop (planeCount t) (fun p =>
      let* t := get_texture in
      emit (glBindTexture GL_TEXTURE_2D (t_at (tex_at t 0) p)) ;;
      emit (glPixelStorei GL_UNPACK_ROW_LENGTH (plane_at t p 0)) ;;
      emit (glTexSubImage2D GL_TEXTURE_2D 0 0 0
              (plane_at t p 0) (plane_at t p 1)
              (format t) (dataType t) (buffer + offset_at t p))) ;;
    emit (glBindTexture GL_TEXTURE_2D 0) ;;
    ret true.

Definition egl_texture_update_from_frame (frame : pointer) : M bool :=
  let* t := get_texture in
  if negb (streaming t) then ret false
  else
    let* s := load_state memory_order_acquire in
    let next := to_uint8 (Z.rem (st_w s + 1) TEXTURE_COUNT) in
    if next =? st_u s then
      egl_warn_slow ;; ret true
    else
      let* t := get_texture in
      emit (framebuffer_read frame (tex_map (tex_at t (st_w s)))
              (stride t) (height t) (width t) (bpp t) (stride t)) ;;
      store_field field_w next memory_order_release ;;
      ret true.

Definition egl_texture_process : M EGL_TexStatus :=
  let* t := get_texture in
  if negb (streaming t) then ret EGL_TEX_STATUS_OK
  else
    let* s := load_state memory_order_acquire in
    let nextu := to_uint8 (Z.rem (st_u s + 1) TEXTURE_COUNT) in
    if (st_u s =? st_w s) || (nextu =? st_s s) || (nextu =? st_d s) then
      let* t := get_texture in
      ret (if ready t then EGL_TEX_STATUS_OK else EGL_TEX_STATUS_NOTREADY)
    else
      (* update the texture *)
      egl_texture_unmap ;;
      let* t := get_texture in
      emit (glBindBuffer GL_PIXEL_UNPACK_BUFFER
              (tex_pbo (tex_at t (st_u s)))) ;;
      for_loop (planeCount t) (fun p =>
        let* t := get_texture in
        emit (glBindTexture GL_TEXTURE_2D (t_at (tex_at t (st_u s)) p)) ;;
        emit (glPixelStorei GL_UNPACK_ROW_LENGTH (plane_at t p 2)) ;;
        emit (glTexSubImage2D GL_TEXTURE_2D 0 0 0
                (plane_at t p 0) (plane_at t p 1)
                (format t) (dataType t) (offset_at t p))) ;;
      (* create a fence to prevent usage before the update is complete *)
      let* fence := call (fence_sync gl)
                      (glFenceSync GL_SYNC_GPU_COMMANDS_COMPLETE 0) in
      modify_texture (upd_tex (st_u s) (set_tex_sync fence)) ;;
      (* we must flush to ensure the sync is in the command buffer *)
      emit glFlush ;;
      store_field field_u nextu memory_order_release ;;
      (* remap the for the next update *)
      let* _ := egl_texture_map in
      modify_texture (set_ready true) ;;
      ret EGL_TEX_STATUS_OK.

(** The fence [switch] of [egl_texture_bind]: [inl] is an early
    [return], [inr] carries the local snapshot [s] onwards. *)
Definition bind_wait (s : TexState) : M (EGL_TexStatus + TexState) :=
  let* t := get_texture in
  if tex_sync (tex_at t (st_s s)) =? 0 then ret (inr s)
  else
    let* status := call (client_wait_sync gl)
                     (glClientWaitSync (tex_sync (tex_at t (st_s s)))
                        0 20000000) in (* 20ms *)
    match status with
    | GL_ALREADY_SIGNALED | GL_CONDITION_SATISFIED =>
      emit (glDeleteSync (tex_sync (tex_at t (st_s s)))) ;;
      modify_texture (upd_tex (st_s s) (set_tex_sync 0)) ;;
      let s' := set_st_s (to_int8 (Z.rem (st_s s + 1) TEXTURE_COUNT)) s in
      store_field field_s (st_s s') memory_order_release ;;
      ret (inr s')
    | GL_TIMEOUT_EXPIRED => ret (inr s)
    | GL_WAIT_FAILED | GL_INVALID_VALUE =>
      emit (glDeleteSync (tex_sync (tex_at t (st_s s)))) ;;
      modify_texture (upd_tex (st_s s) (set_tex_sync 0)) ;;
      emit (EGL_ERROR "glClientWaitSync failed" []) ;;
      ret (inl EGL_TEX_STATUS_ERROR)
    | _ => ret (inr s)
    end.

(** The [d] advance of [egl_texture_bind], on the local snapshot. *)
Definition bind_advance_d (s : TexState) : M TexState :=
  let nextd := to_int8 (Z.rem (st_d s + 1) TEXTURE_COUNT) in
  if negb (st_d s =? st_s s) && negb (nextd =? st_s s) then
    store_field field_d nextd memory_order_release ;;
    ret (set_st_d nextd s)
  else ret s.

(** The streaming block of [egl_texture_bind]. *)
Definition bind_streaming (s : TexState) : M (EGL_TexStatus + TexState) :=
  let* t := get_texture in
  if negb (ready t) then ret (inl EGL_TEX_STATUS_NOTREADY)
  else
    let* r := bind_wait s in
    match r with
    | inl status => ret (inl status)
    | inr s => let* s := bind_advance_d s in ret (inr s)
    end.

(** The closing loop of [egl_texture_bind]: slot [s.d] goes to the
    texture units. *)
Definition bind_planes (s : TexState) : M unit :=
  let* t := get_texture in
  for_loop (planeCount t) (fun i =>
    let* t := get_texture in
    emit (glActiveTexture (GL_TEXTURE0_plus i)) ;;
    emit (glBindTexture GL_TEXTURE_2D (t_at (tex_at t (st_d s)) i)) ;;
    emit (glBindSampler i (sampler_at t i))).

Definition egl_texture_bind : M EGL_TexStatus :=
  let* s := load_state memory_order_acquire in
  let* t := get_texture in
  let* r := (if streaming t then bind_streaming s else ret (inr s)) in
  match r with
  | inl status => ret status
  | inr s => bind_planes s ;; ret EGL_TEX_STATUS_OK
  end.

Definition egl_texture_count : M Z :=
  let* t := get_texture in ret (planeCount t).

End Texture.

(** ** main.c: session start, queue subscription and the frame loop

    The loops of [lg_run] and [frameThread] call into the LGMP client
    library, SDL and the renderer.  As for the texture, every such call
    joins a history, and what the callee answers is an arbitrary function
    of the history so far.  The loops need not terminate (the host may
    never come up, the queue may stay empty), so each takes a bound on
    its number of iterations and answers [None] when the bound is hit. *)

Module Main.

Inductive LGMP_STATUS : Type :=
| LGMP_OK
| LGMP_ERR_INVALID_SESSION
| LGMP_ERR_INVALID_MAGIC
| LGMP_ERR_NO_SUCH_QUEUE
| LGMP_ERR_QUEUE_EMPTY
| LGMP_ERR_other (code : Z).

Inductive FrameType : Type :=
| FRAME_TYPE_RGBA
| FRAME_TYPE_BGRA
| FRAME_TYPE_RGBA10
| FRAME_TYPE_YUV420
| FRAME_TYPE_other (code : Z).

Inductive queue_id : Type := LGMP_Q_FRAME | LGMP_Q_POINTER.

(** The frame header read from the message. *)
Record KVMFRFrame : Type := {
  frame_type : FrameType;
  frame_width : Z;
  frame_height : Z;
  frame_stride : Z;
  frame_pitch : Z;
  frame_offset : Z
}.

Record LG_RendererFormat : Type := {
  lgr_type : FrameType;
  lgr_width : Z;
  lgr_height : Z;
  lgr_stride : Z;
  lgr_pitch : Z;
  lgr_bpp : Z
}.

Inductive event : Type :=
| SDL_SetThreadPriority_HIGH
| lgWaitEvent_startup
| lgmpClientInit
| SDL_WaitEventTimeout (timeout_ms : Z)
| lgmpClientSubscribe (q : queue_id)
| usleep (usec : Z)
| lgmpClientProcess
| lgmpClientMessageDone
| lgmpClientUnsubscribe
| SDL_SetWindowSize (w h : Z)
| updatePositionInfo
| on_frame_event (fmt : LG_RendererFormat) (fb : pointer)
| DEBUG_ERROR (msg : string)
| DEBUG_ERROR_status (msg : string) (status : LGMP_STATUS).

(** What the callees answer. *)
Record Env : Type := {
  client_init : list event -> LGMP_STATUS;
  client_subscribe : list event -> LGMP_STATUS;
  client_process : list event -> LGMP_STATUS * (pointer * KVMFRFrame);
  frame_event : list event -> bool
}.

(** The fields of [state] and [params] the two loops touch. *)
Record AppState : Type := {
  running : bool;
  srcSize_x : Z;
  srcSize_y : Z;
  haveSrcSize : bool;
  frameCount : Z
}.

Record AppParams : Type := {
  framePollInterval : Z;
  autoResize : bool
}.

Record World : Type := {
  app : AppState;
  log : list event
}.

Definition get_app : St World AppState := fun w => (app w, w).
Definition modify_app (f : AppState -> AppState) : St World unit :=
  fun w => (tt, {| app := f (app w); log := log w |}).
Definition emit (e : event) : St World unit :=
  fun w => (tt, {| app := app w; log := log w ++ [e] |}).
Definition call {A} (answer : list event -> A) (e : event) : St World A :=
  fun w => (answer (log w), {| app := app w; log := log w ++ [e] |}).

Definition set_running (v : bool) (a : AppState) : AppState :=
  {| running := v; srcSize_x := srcSize_x a; srcSize_y := srcSize_y a;
     haveSrcSize := haveSrcSize a; frameCount := frameCount a |}.
Definition set_srcSize (x y : Z) (a : AppState) : AppState :=
  {| running := running a; srcSize_x := x; srcSize_y := y;
     haveSrcSize := true; frameCount := frameCount a |}.
Definition incr_frameCount (a : AppState) : AppState :=
  {| running := running a; srcSize_x := srcSize_x a;
     srcSize_y := srcSize_y a; haveSrcSize := haveSrcSize a;
     frameCount := frameCount a + 1 |}.

(** How an iteration of a loop ends. *)
Inductive LoopCtl : Type :=
| Continue
| Break
| Return (code : Z).

(** How a bounded loop ends: it ran out of iterations, fell out of the
    loop, or returned from the function. *)
Inductive LoopEnd : Type :=
| OutOfFuel
| Finished
| Returned (code : Z).

(** [while (cond) body] *)
Fixpoint while_loop (fuel : nat) (cond : AppState -> bool)
    (body : St World LoopCtl) : St World LoopEnd :=
  match fuel with
  | O => ret OutOfFuel
  | S k =>
    let* a := get_app in
    if cond a then
      let* c := body in
      match c with
      | Continue => while_loop k cond body
      | Break => ret Finished
      | Return code => ret (Returned code)
      end
    else ret Finished
  end.

Section Loops.

Variable env : Env.
Variable params : AppParams.
(** The fields of [LG_RendererFormat] are declared outside this file; a
    product of two of them is computed modulo [field_mod], the size of
    their (promoted) type, before it is stored in the [size_t]. *)
Variable field_mod : Z.

(** [lg_run]: the loop around [lgmpClientInit]. *)
Definition client_init_iteration : St World LoopCtl :=
  let* status := call (client_init env) lgmpClientInit in
  match status with
  | LGMP_OK => ret Break
  | LGMP_ERR_INVALID_SESSION | LGMP_ERR_INVALID_MAGIC =>
    emit (SDL_WaitEventTimeout 1000) ;;
    ret Continue
  | _ =>
    emit (DEBUG_ERROR_status "lgmpClientInit Failed: %s" status) ;;
    ret (Return (-1))
  end.

Definition lg_run_client_init (fuel : nat) : St World LoopEnd :=
  while_loop fuel (fun _ => true) client_init_iteration.

(** The subscription loop of [frameThread] (and, with the pointer queue,
    of [cursorThread]). *)
Definition subscribe_iteration (q : queue_id) : St World LoopCtl :=
  let* status := call (client_subscribe env) (lgmpClientSubscribe q) in
  match status with
  | LGMP_OK => ret Break
  | LGMP_ERR_NO_SUCH_QUEUE =>
    emit (usleep 1000) ;;
    ret Continue
  | _ =>
    emit (DEBUG_ERROR_status "lgmpClientSubscribe Failed: %s" status) ;;
    modify_app (set_running false) ;;
    ret Break
  end.

(** The [switch (frame->type)] of [frameThread]: [dataSize] and the
    renderer format, or [None] when [error] is set. *)
Definition frame_switch (frame : KVMFRFrame)
    : option (Z * LG_RendererFormat) :=
  let fmt (b : Z) :=
    {| lgr_type := frame_type frame; lgr_width := frame_width frame;
       lgr_height := frame_height frame; lgr_stride := frame_stride frame;
       lgr_pitch := frame_pitch frame; lgr_bpp := b |} in
  match frame_type frame with
  | FRAME_TYPE_RGBA | FRAME_TYPE_BGRA | FRAME_TYPE_RGBA10 =>
    let dataSize :=
      to_size_t ((frame_height frame * frame_pitch frame) mod field_mod) in
    Some (dataSize, fmt 32)
  | FRAME_TYPE_YUV420 =>
    let dataSize :=
      to_size_t ((frame_height frame * frame_width frame) mod field_mod) in
    let dataSize := to_size_t (dataSize + to_size_t (dataSize / 4 * 2)) in
    Some (dataSize, fmt 12)
  | FRAME_TYPE_other _ => None
  end.

(** One turn of the frame loop of [frameThread]. *)
Definition frame_iteration : St World LoopCtl :=
  let* r := call (client_process env) lgmpClientProcess in
  let '(status, (mem, frame)) := r in
  match status with
  | LGMP_OK =>
    match frame_switch frame with
    | None =>
      emit (DEBUG_ERROR "Unsupported frameType") ;;
      emit lgmpClientMessageDone ;;
      ret Break
    | Some (_, lgrFormat) =>
      let* a := get_app in
      when (negb (frame_width frame =? srcSize_x a)
            || negb (frame_height frame =? srcSize_y a)) (
        modify_app (set_srcSize (frame_width frame) (frame_height frame)) ;;
        when (autoResize params)
          (emit (SDL_SetWindowSize (frame_width frame)
                   (frame_height frame))) ;;
        emit updatePositionInfo) ;;
      let fb := mem + frame_offset frame in
      let* ok := call (frame_event env) (on_frame_event lgrFormat fb) in
      if ok : bool then
        emit lgmpClientMessageDone ;;
        modify_app incr_frameCount ;;
        ret Continue
      else
        emit (DEBUG_ERROR "renderer on frame event returned failure") ;;
        ret Break
    end
  | LGMP_ERR_QUEUE_EMPTY =>
    emit (usleep (framePollInterval params)) ;;
    ret Continue
  | _ =>
    emit (DEBUG_ERROR_status "lgmpClientProcess Failed: %s" status) ;;
    ret Break
  end.

(** [frameThread]; [None] when a loop hit its bound. *)
Definition frameThread (fuel : nat) : St World (option Z) :=
  emit SDL_SetThreadPriority_HIGH ;;
  emit lgWaitEvent_startup ;;
  let* a := get_app in
  if negb (running a) then ret (Some 0)
  else
    (* subscribe to the frame queue *)
    let* e1 := while_loop fuel running (subscribe_iteration LGMP_Q_FRAME) in
    match e1 with
    | OutOfFuel => ret None
    | _ =>
      let* e2 := while_loop fuel running frame_iteration in
      match e2 with
      | OutOfFuel => ret None
      | _ =>
        emit lgmpClientUnsubscribe ;;
        modify_app (set_running false) ;;
        ret (Some 0)
      end
    end.

End Loops.

End Main.

(** ** main.c: the cursor thread

    [cursorThread] on its own.  [KVMFRCursor], the cursor flags of
    [msg.udata] and the renderer's cursor types are declared outside this
    file: a message is modelled by its three flags and the cursor header
    it points to.  [alignMouseWithHost] computes in floating point and is
    kept as a call; of the fields this thread reads it can change
    [cursorInView] and [updateCursor] (through [handleMouseMoveEvent]),
    and the environment says how. *)

Module Cursor.

Inductive CursorType : Type :=
| CURSOR_TYPE_COLOR
| CURSOR_TYPE_MONOCHROME
| CURSOR_TYPE_MASKED_COLOR
| CURSOR_TYPE_other (code : Z).

Inductive LG_RendererCursor : Type :=
| LG_CURSOR_COLOR
| LG_CURSOR_MONOCHROME
| LG_CURSOR_MASKED_COLOR.

Record KVMFRCursor : Type := {
  cur_x : Z;
  cur_y : Z;
  cur_type : CursorType;
  cur_width : Z;
  cur_height : Z;
  cur_pitch : Z
}.

Record LGMPMessage : Type := {
  flag_visible : bool;
  flag_position : bool;
  flag_shape : bool;
  mem : pointer;
  cursor : KVMFRCursor
}.

Inductive event : Type :=
| lgWaitEvent_startup
| lgmpClientSubscribe_POINTER
| usleep (usec : Z)
| lgmpClientProcess
| lgmpClientMessageDone
| lgmpClientUnsubscribe
| on_mouse_event (visible : bool) (x y : Z)
| on_mouse_shape (t : LG_RendererCursor) (width height pitch : Z)
    (data : pointer)
| alignMouseWithHost
| DEBUG_ERROR (msg : string)
| DEBUG_ERROR_status (msg : string) (status : Main.LGMP_STATUS).

Record Env : Type := {
  client_subscribe : list event -> Main.LGMP_STATUS;
  client_process : list event -> Main.LGMP_STATUS * LGMPMessage;
  mouse_shape : list event -> bool;
  (** [cursorInView] and [updateCursor] after [alignMouseWithHost], from
      what they were. *)
  align : list event -> bool * bool -> bool * bool
}.

Record AppState : Type := {
  running : bool;
  updateCursor : bool;
  cursorVisible : bool;
  drawCursor : bool;
  cursorInView : bool;
  cursor_x : Z;
  cursor_y : Z;
  haveCursorPos : bool;
  haveAligned : bool;
  haveSrcSize : bool;
  haveCurLocal : bool
}.

Record World : Type := {
  app : AppState;
  log : list event
}.

Definition get_app : St World AppState := fun w => (app w, w).
Definition modify_app (f : AppState -> AppState) : St World unit :=
  fun w => (tt, {| app := f (app w); log := log w |}).
Definition emit (e : event) : St World unit :=
  fun w => (tt, {| app := app w; log := log w ++ [e] |}).
Definition call {A} (answer : list event -> A) (e : event) : St World A :=
  fun w => (answer (log w), {| app := app w; log := log w ++ [e] |}).

Definition set_running (v : bool) (a : AppState) : AppState :=
  {| running := v; updateCursor := updateCursor a;
     cursorVisible := cursorVisible a; drawCursor := drawCursor a;
     cursorInView := cursorInView a; cursor_x := cursor_x a;
     cursor_y := cursor_y a; haveCursorPos := haveCursorPos a;
     haveAligned := haveAligned a; haveSrcSize := haveSrcSize a;
     haveCurLocal := haveCurLocal a |}.
Definition set_updateCursor (v : bool) (a : AppState) : AppState :=
  {| running := running a; updateCursor := v;
     cursorVisible := cursorVisible a; drawCursor := drawCursor a;
     cursorInView := cursorInView a; cursor_x := cursor_x a;
     cursor_y := cursor_y a; haveCursorPos := haveCursorPos a;
     haveAligned := haveAligned a; haveSrcSize := haveSrcSize a;
     haveCurLocal := haveCurLocal a |}.
Definition set_cursorVisible (v : bool) (a : AppState) : AppState :=
  {| running := running a; updateCursor := updateCursor a;
     cursorVisible := v; drawCursor := drawCursor a;
     cursorInView := cursorInView a; cursor_x := cursor_x a;
     cursor_y := cursor_y a; haveCursorPos := haveCursorPos a;
     haveAligned := haveAligned a; haveSrcSize := haveSrcSize a;
     haveCurLocal := haveCurLocal a |}.
Definition set_cursor_pos (x y : Z) (a : AppState) : AppState :=
  {| running := running a; updateCursor := updateCursor a;
     cursorVisible := cursorVisible a; drawCursor := drawCursor a;
     cursorInView := cursorInView a; cursor_x := x; cursor_y := y;
     haveCursorPos := true;
     haveAligned := haveAligned a; haveSrcSize := haveSrcSize a;
     haveCurLocal := haveCurLocal a |}.
Definition set_haveAligned (v : bool) (a : AppState) : AppState :=
  {| running := running a; updateCursor := updateCursor a;
     cursorVisible := cursorVisible a; drawCursor := drawCursor a;
     cursorInView := cursorInView a; cursor_x := cursor_x a;
     cursor_y := cursor_y a; haveCursorPos := haveCursorPos a;
     haveAligned := v; haveSrcSize := haveSrcSize a;
     haveCurLocal := haveCurLocal a |}.
Definition set_view (v : bool * bool) (a : AppState) : AppState :=
  {| running := running a; updateCursor := snd v;
     cursorVisible := cursorVisible a; drawCursor := drawCursor a;
     cursorInView := fst v; cursor_x := cursor_x a;
     cursor_y := cursor_y a; haveCursorPos := haveCursorPos a;
     haveAligned := haveAligned a; haveSrcSize := haveSrcSize a;
     haveCurLocal := haveCurLocal a |}.

(** [while (cond) body] *)
Fixpoint while_loop (fuel : nat) (cond : AppState -> bool)
    (body : St World Main.LoopCtl) : St World Main.LoopEnd :=
  match fuel with
  | O => ret Main.OutOfFuel
  | S k =>
    let* a := get_app in
    if cond a then
      let* c := body in
      match c with
      | Main.Continue => while_loop k cond body
      | Main.Break => ret Main.Finished
      | Main.Return code => ret (Main.Returned code)
      end
    else ret Main.Finished
  end.

Section Thread.

Variable env : Env.
Variable cursorPollInterval : Z.
(** [sizeof (KVMFRCursor)]: the shape data follow the header. *)
Variable sizeof_KVMFRCursor : Z.

Definition subscribe_iteration : St World Main.LoopCtl :=
  let* status := call (client_subscribe env) lgmpClientSubscribe_POINTER in
  match status with
  | Main.LGMP_OK => ret Main.Break
  | Main.LGMP_ERR_NO_SUCH_QUEUE =>
    emit (usleep 1000) ;;
    ret Main.Continue
  | _ =>
    emit (DEBUG_ERROR_status "lgmpClientSubscribe Failed: %s" status) ;;
    modify_app (set_running false) ;;
    ret Main.Break
  end.

(** The [switch (cursor->type)]; [None] is the [default:] case. *)
Definition renderer_cursor (t : CursorType) : option LG_RendererCursor :=
  match t with
  | CURSOR_TYPE_COLOR => Some LG_CURSOR_COLOR
  | CURSOR_TYPE_MONOCHROME => Some LG_CURSOR_MONOCHROME
  | CURSOR_TYPE_MASKED_COLOR => Some LG_CURSOR_MASKED_COLOR
  | CURSOR_TYPE_other _ => None
  end.

(** The [if (msg.udata & CURSOR_FLAG_SHAPE)] block; [false] when it ends
    in [continue]. *)
Definition cursor_shape (msg : LGMPMessage) : St World bool :=
  if flag_shape msg then
    match renderer_cursor (cur_type (cursor msg)) with
    | None =>
      emit (DEBUG_ERROR "Invalid cursor type") ;;
      emit lgmpClientMessageDone ;;
      ret false
    | Some cursorType =>
      let data := mem msg + sizeof_KVMFRCursor in
      let* ok := call (mouse_shape env)
                   (on_mouse_shape cursorType (cur_width (cursor msg))
                      (cur_height (cursor msg)) (cur_pitch (cursor msg))
                      data) in
      if ok : bool then ret true
      else
        emit (DEBUG_ERROR "Failed to update mouse shape") ;;
        emit lgmpClientMessageDone ;;
        ret false
    end
  else ret true.

(** One turn of the message loop. *)
Definition cursor_iteration : St World Main.LoopCtl :=
  let* r := call (client_process env) lgmpClientProcess in
  let '(status, msg) := r in
  match status with
  | Main.LGMP_OK =>
    modify_app (set_cursorVisible (flag_visible msg)) ;;
    when (flag_position msg) (
      modify_app (set_cursor_pos (cur_x (cursor msg)) (cur_y (cursor msg))) ;;
      let* a := get_app in
      when (negb (haveAligned a) && haveSrcSize a && haveCurLocal a) (
        let* f := call (align env) alignMouseWithHost in
        modify_app (set_view (f (cursorInView a, updateCursor a))) ;;
        modify_app (set_haveAligned true))) ;;
    let* go_on := cursor_shape msg in
    if go_on : bool then
      emit lgmpClientMessageDone ;;
      modify_app (set_updateCursor false) ;;
      let* a := get_app in
      emit (on_mouse_event (cursorVisible a && drawCursor a) (cursor_x a)
              (cursor_y a)) ;;
      ret Main.Continue
    else ret Main.Continue
  | Main.LGMP_ERR_QUEUE_EMPTY =>
    let* a := get_app in
    when (updateCursor a) (
      modify_app (set_updateCursor false) ;;
      emit (on_mouse_event
              (cursorVisible a && drawCursor a && cursorInView a)
              (cursor_x a) (cursor_y a))) ;;
    emit (usleep cursorPollInterval) ;;
    ret Main.Continue
  | _ =>
    emit (DEBUG_ERROR_status "lgmpClientProcess Failed: %s" status) ;;
    modify_app (set_running false) ;;
    ret Main.Break
  end.

(** [cursorThread]; [None] when a loop hit its bound. *)
Definition cursorThread (fuel : nat) : St World (option Z) :=
  emit lgWaitEvent_startup ;;
  let* e1 := while_loop fuel running subscribe_iteration in
  match e1 with
  | Main.OutOfFuel => ret None
  | _ =>
    let* e2 := while_loop fuel running cursor_iteration in
    match e2 with
    | Main.OutOfFuel => ret None
    | _ =>
      emit lgmpClientUnsubscribe ;;
      modify_app (set_running false) ;;
      ret (Some 0)
    end
  end.

End Thread.

End Cursor.

(** ** main.c: the clipboard between the guest and the host

    [SpiceDataType] and [LG_ClipboardData] are declared outside this
    file; the constructors are the values main.c names, and [other] any
    further value.  A buffer is the list of its bytes.  [cbRequestList] is
    the list behind [ll_push] (at the tail) and [ll_shift] (from the
    head). *)

Module Clipboard.

Inductive SpiceDataType : Type :=
| SPICE_DATA_TEXT
| SPICE_DATA_PNG
| SPICE_DATA_BMP
| SPICE_DATA_TIFF
| SPICE_DATA_JPEG
| SPICE_DATA_NONE
| SPICE_DATA_other (code : Z).

Inductive LG_ClipboardData : Type :=
| LG_CLIPBOARD_DATA_TEXT
| LG_CLIPBOARD_DATA_PNG
| LG_CLIPBOARD_DATA_BMP
| LG_CLIPBOARD_DATA_TIFF
| LG_CLIPBOARD_DATA_JPEG
| LG_CLIPBOARD_DATA_NONE
| LG_CLIPBOARD_DATA_other (code : Z).

Definition is_text (t : LG_ClipboardData) : bool :=
  match t with LG_CLIPBOARD_DATA_TEXT => true | _ => false end.
Definition is_none (t : LG_ClipboardData) : bool :=
  match t with LG_CLIPBOARD_DATA_NONE => true | _ => false end.
Definition is_spice_text (t : SpiceDataType) : bool :=
  match t with SPICE_DATA_TEXT => true | _ => false end.

Record CBRequest : Type := {
  cbr_type : SpiceDataType;
  cbr_replyFn : pointer;
  cbr_opaque : pointer
}.

Inductive event : Type :=
| DEBUG_ERROR (msg : string)
| spice_clipboard_release
| spice_clipboard_grab (t : SpiceDataType)
| spice_clipboard_data (t : SpiceDataType) (buffer : list Z) (size : Z)
| spice_clipboard_request (t : SpiceDataType)
| lgc_notice (t : LG_ClipboardData)
| lgc_release
| lgc_request (t : LG_ClipboardData)
| replyFn_call (fn opaque : pointer) (t : SpiceDataType) (buffer : list Z)
    (size : Z).

Record AppParams : Type := {
  clipboardToVM : bool;
  clipboardToLocal : bool
}.

(** [state.lgc] and three of its function pointers, each NULL or not. *)
Record AppState : Type := {
  cbType : SpiceDataType;
  cbRequestList : list CBRequest;
  lgc : bool;
  lgc_has_notice : bool;
  lgc_has_release : bool;
  lgc_has_request : bool
}.

Record World : Type := {
  app : AppState;
  log : list event
}.

Definition get_app : St World AppState := fun w => (app w, w).
Definition modify_app (f : AppState -> AppState) : St World unit :=
  fun w => (tt, {| app := f (app w); log := log w |}).
Definition emit (e : event) : St World unit :=
  fun w => (tt, {| app := app w; log := log w ++ [e] |}).

Definition set_cbType (v : SpiceDataType) (a : AppState) : AppState :=
  {| cbType := v; cbRequestList := cbRequestList a; lgc := lgc a;
     lgc_has_notice := lgc_has_notice a;
     lgc_has_release := lgc_has_release a;
     lgc_has_request := lgc_has_request a |}.
Definition set_cbRequestList (v : list CBRequest) (a : AppState) : AppState :=
  {| cbType := cbType a; cbRequestList := v; lgc := lgc a;
     lgc_has_notice := lgc_has_notice a;
     lgc_has_release := lgc_has_release a;
     lgc_has_request := lgc_has_request a |}.

Definition to_uint32 (z : Z) : Z := z mod 2 ^ 32.

Definition spice_type_to_clipboard_type (type : SpiceDataType)
    : St World LG_ClipboardData :=
  match type with
  | SPICE_DATA_TEXT => ret LG_CLIPBOARD_DATA_TEXT
  | SPICE_DATA_PNG => ret LG_CLIPBOARD_DATA_PNG
  | SPICE_DATA_BMP => ret LG_CLIPBOARD_DATA_BMP
  | SPICE_DATA_TIFF => ret LG_CLIPBOARD_DATA_TIFF
  | SPICE_DATA_JPEG => ret LG_CLIPBOARD_DATA_JPEG
  | _ =>
    emit (DEBUG_ERROR "invalid spice data type") ;;
    ret LG_CLIPBOARD_DATA_NONE
  end.

Definition clipboard_type_to_spice_type (type : LG_ClipboardData)
    : St World SpiceDataType :=
  match type with
  | LG_CLIPBOARD_DATA_TEXT => ret SPICE_DATA_TEXT
  | LG_CLIPBOARD_DATA_PNG => ret SPICE_DATA_PNG
  | LG_CLIPBOARD_DATA_BMP => ret SPICE_DATA_BMP
  | LG_CLIPBOARD_DATA_TIFF => ret SPICE_DATA_TIFF
  | LG_CLIPBOARD_DATA_JPEG => ret SPICE_DATA_JPEG
  | _ =>
    emit (DEBUG_ERROR "invalid clipboard data type") ;;
    ret SPICE_DATA_NONE
  end.

Section Functions.

Variable params : AppParams.

Definition clipboardRelease : St World unit :=
  if negb (clipboardToVM params) then ret tt
  else emit spice_clipboard_release.

Definition clipboardNotify (type : LG_ClipboardData) : St World unit :=
  if negb (clipboardToVM params) then ret tt
  else if is_none type then emit spice_clipboard_release
  else
    let* t := clipboard_type_to_spice_type type in
    emit (spice_clipboard_grab t).

(** The unix2dos loop of [clipboardData]:
    [for (uint32_t i = 0; i < size; ++i)] with [size] a [size_t], so the
    counter wraps at 2^32 while the bound does not.  The state is the
    buffer, the write position [p] in it and [newSize]; [None] when the
    loop is still running after [fuel] turns. *)
Fixpoint unix2dos (fuel : nat) (data : list Z) (size : Z) (i : Z)
    (st : list Z * Z * Z) : option (list Z * Z) :=
  match fuel with
  | O => None
  | S k =>
    let '(buffer, p, newSize) := st in
    if i <? size then
      let c := data !!! Z.to_nat i in
      let '(buffer, p, newSize) :=
        if c =? 10
        then (<[Z.to_nat p := 13]> buffer, p + 1, to_size_t (newSize + 1))
        else (buffer, p, newSize) in
      unix2dos k data size (to_uint32 (i + 1))
        (<[Z.to_nat p := c]> buffer, p + 1, to_size_t (newSize + 1))
    else Some (buffer, newSize)
  end.

(** [clipboardData]; [fresh] is the memory [malloc (size * 2)] returns. *)
Definition clipboardData (fuel : nat) (fresh : list Z)
    (type : LG_ClipboardData) (data : list Z) (size : Z)
    : St World (option unit) :=
  if negb (clipboardToVM params) then ret (Some tt)
  else
    let converted :=
      if is_text type then unix2dos fuel data size 0 (fresh, 0, 0)
      else Some (data, size) in
    match converted with
    | None => ret None
    | Some (buffer, size) =>
      let* t := clipboard_type_to_spice_type type in
      emit (spice_clipboard_data t buffer (to_uint32 size)) ;;
      ret (Some tt)
    end.

Definition clipboardRequest (replyFn opaque : pointer) : St World unit :=
  if negb (clipboardToLocal params) then ret tt
  else
    let* a := get_app in
    let cbr := {| cbr_type := cbType a; cbr_replyFn := replyFn;
                  cbr_opaque := opaque |} in
    modify_app (set_cbRequestList (cbRequestList a ++ [cbr])) ;;
    emit (spice_clipboard_request (cbType a)).

Definition spiceClipboardNotice (type : SpiceDataType) : St World unit :=
  if negb (clipboardToLocal params) then ret tt
  else
    let* a := get_app in
    if negb (lgc a) || negb (lgc_has_notice a) then ret tt
    else
      modify_app (set_cbType type) ;;
      let* t := spice_type_to_clipboard_type type in
      emit (lgc_notice t).

(** The dos2unix loop of [spiceClipboardData], in place; the counter, the
    bound and [newSize] are all [uint32_t]. *)
Fixpoint dos2unix (fuel : nat) (size : Z) (i : Z) (st : list Z * Z * Z)
    : option (list Z * Z) :=
  match fuel with
  | O => None
  | S k =>
    let '(buffer, p, newSize) := st in
    if i <? size then
      let c := buffer !!! Z.to_nat i in
      if c =? 13 then
        dos2unix k size (to_uint32 (i + 1))
          (buffer, p, to_uint32 (newSize - 1))
      else
        dos2unix k size (to_uint32 (i + 1))
          (<[Z.to_nat p := c]> buffer, p + 1, newSize)
    else Some (buffer, newSize)
  end.

Definition spiceClipboardData (fuel : nat) (type : SpiceDataType)
    (buffer : list Z) (size : Z) : St World (option unit) :=
  if negb (clipboardToLocal params) then ret (Some tt)
  else
    let converted :=
      if is_spice_text type then dos2unix fuel size 0 (buffer, 0, size)
      else Some (buffer, size) in
    match converted with
    | None => ret None
    | Some (buffer, size) =>
      let* a := get_app in
      match cbRequestList a with
      | cbr :: rest =>
        modify_app (set_cbRequestList rest) ;;
        emit (replyFn_call (cbr_replyFn cbr) (cbr_opaque cbr) type buffer
                size) ;;
        ret (Some tt)
      | [] => ret (Some tt)
      end
    end.

Definition spiceClipboardRelease : St World unit :=
  if negb (clipboardToLocal params) then ret tt
  else
    let* a := get_app in
    when (lgc a && lgc_has_release a) (emit lgc_release).

Definition spiceClipboardRequest (type : SpiceDataType) : St World unit :=
  if negb (clipboardToVM params) then ret tt
  else
    let* a := get_app in
    when (lgc a && lgc_has_request a) (
      let* t := spice_type_to_clipboard_type type in
      emit (lgc_request t)).

End Functions.

End Clipboard.

(** ** main.c: the mouse sensitivity keys

    [state.mouseSens] is set from [params.mouseSens] at the start of
    [lg_run] and then changed by the two key handlers only.  The alert is
    the text [alloc_sprintf] builds from "Sensitivity: %s%d". *)

Module Keys.

Inductive event : Type :=
| app_alert_INFO (msg : string).

Record World : Type := {
  mouseSens : Z;
  log : list event
}.

Definition get_mouseSens : St World Z := fun w => (mouseSens w, w).
Definition set_mouseSens (v : Z) : St World unit :=
  fun w => (tt, {| mouseSens := v; log := log w |}).
Definition emit (e : event) : St World unit :=
  fun w => (tt, {| mouseSens := mouseSens w; log := log w ++ [e] |}).

(** "%s%d" of the sign string and the value. *)
Definition sensitivity_message (v : Z) : string :=
  String.append "Sensitivity: "
    (String.append (if 0 <? v then "+"%string else EmptyString)
       (NilZero.string_of_int (Z.to_int v))).

(** [lg_run]: the first lines. *)
Definition lg_run_mouseSens (params_mouseSens : Z) : St World unit :=
  set_mouseSens params_mouseSens ;;
  let* v := get_mouseSens in
  if v <? -9 then set_mouseSens (-9)
  else if 9 <? v then set_mouseSens 9
  else ret tt.

Definition mouse_sens_inc : St World unit :=
  let* v := get_mouseSens in
  when (v <? 9) (set_mouseSens (v + 1)) ;;
  let* v := get_mouseSens in
  emit (app_alert_INFO (sensitivity_message v)).

Definition mouse_sens_dec : St World unit :=
  let* v := get_mouseSens in
  when (-9 <? v) (set_mouseSens (v - 1)) ;;
  let* v := get_mouseSens in
  emit (app_alert_INFO (sensitivity_message v)).

(** The two keys bound to the handlers by [register_key_binds]. *)
Inductive key : Type := SDL_SCANCODE_INSERT | SDL_SCANCODE_DELETE.

Definition press (k : key) : St World unit :=
  match k with
  | SDL_SCANCODE_INSERT => mouse_sens_inc
  | SDL_SCANCODE_DELETE => mouse_sens_dec
  end.

Definition presses (ks : list key) (w : World) : World :=
  fold_left (fun w k => snd (press k w)) ks w.

End Keys.

(** ** main.c: the keyboard and button cases of [eventFilter]

    The cases [SDL_KEYDOWN], [SDL_KEYUP], [SDL_MOUSEWHEEL],
    [SDL_MOUSEBUTTONDOWN] and [SDL_MOUSEBUTTONUP] of the event switch,
    [mapScancode], and the block of [lg_shutdown] that releases the keys
    still down.  A call to SPICE is logged with what it answered.  The
    table [usb_to_ps2] is declared outside this file; [mapScancode] lets
    a scancode equal to the table's length through to the table, where it
    reads the word after it ([beyond_table]).  An [SDL_Scancode] is never
    negative.  A key bind's callback is a function registered elsewhere:
    it is kept as a call, and the environment says what it does to the
    state. *)

Module Input.

Inductive LG_Alert : Type := LG_ALERT_SUCCESS | LG_ALERT_WARNING.

Inductive event : Type :=
| DEBUG_WARN (msg : string) (arg : Z)
| DEBUG_ERROR (msg : string)
| DEBUG_INFO (msg : string) (arg : string)
| spice_key_down (code : Z) (sent : bool)
| spice_key_up (code : Z) (sent : bool)
| spice_mouse_mode (server : bool)
| SDL_SetWindowGrab (grabbed : bool)
| app_alert (level : LG_Alert) (msg : string)
| alignMouseWithGuest
| keybind_callback (handle : pointer) (sc : Z)
| spice_mouse_position (x y : Z) (sent : bool)
| spice_mouse_press (button : Z) (sent : bool)
| spice_mouse_release (button : Z) (sent : bool)
| spice_ready (answer : bool)
| spice_disconnect
| lgJoinThread_spice.

Inductive SDL_Event : Type :=
| SDL_KEYDOWN (sc : Z)
| SDL_KEYUP (sc : Z)
| SDL_MOUSEWHEEL (y : Z)
| SDL_MOUSEBUTTONDOWN (button x y : Z)
| SDL_MOUSEBUTTONUP (button x y : Z).

Record AppState : Type := {
  escapeActive : bool;
  escapeAction : Z;
  ignoreInput : bool;
  serverMode : bool;
  cursorInView : bool;
  keyDown : list bool;
  bindings : list pointer
}.

Record AppParams : Type := {
  escapeKey : Z;
  useSpiceInput : bool
}.

Record Env : Type := {
  key_down : list event -> bool;
  key_up : list event -> bool;
  mouse_position : list event -> bool;
  mouse_press : list event -> bool;
  mouse_release : list event -> bool;
  ready : list event -> bool;
  callback : list event -> AppState -> AppState
}.

Record World : Type := {
  app : AppState;
  log : list event
}.

Definition get_app : St World AppState := fun w => (app w, w).
Definition modify_app (f : AppState -> AppState) : St World unit :=
  fun w => (tt, {| app := f (app w); log := log w |}).
Definition emit (e : event) : St World unit :=
  fun w => (tt, {| app := app w; log := log w ++ [e] |}).
(** A call that answers yes or no, logged with its answer. *)
Definition ask (answer : list event -> bool) (e : bool -> event)
    : St World bool :=
  fun w => let r := answer (log w) in
           (r, {| app := app w; log := log w ++ [e r] |}).

Definition set_escape (active : bool) (action : Z) (a : AppState)
    : AppState :=
  {| escapeActive := active; escapeAction := action;
     ignoreInput := ignoreInput a; serverMode := serverMode a;
     cursorInView := cursorInView a; keyDown := keyDown a;
     bindings := bindings a |}.
Definition set_serverMode (v : bool) (a : AppState) : AppState :=
  {| escapeActive := escapeActive a; escapeAction := escapeAction a;
     ignoreInput := ignoreInput a; serverMode := v;
     cursorInView := cursorInView a; keyDown := keyDown a;
     bindings := bindings a |}.
Definition set_keyDown (sc : Z) (v : bool) (a : AppState) : AppState :=
  {| escapeActive := escapeActive a; escapeAction := escapeAction a;
     ignoreInput := ignoreInput a; serverMode := serverMode a;
     cursorInView := cursorInView a;
     keyDown := <[Z.to_nat sc := v]> (keyDown a);
     bindings := bindings a |}.

Section Events.

Variable env : Env.
Variable params : AppParams.
Variable usb_to_ps2 : list Z.
Variable beyond_table : Z.
Variable SDL_NUM_SCANCODES : Z.

(** [usb_to_ps2[scancode]], read only when [scancode] is not above the
    table's length. *)
Definition table_at (scancode : Z) : Z :=
  if scancode =? Z.of_nat (length usb_to_ps2) then beyond_table
  else usb_to_ps2 !!! Z.to_nat scancode.

(** What [mapScancode] returns. *)
Definition ps2_of (scancode : Z) : Z :=
  if (Z.of_nat (length usb_to_ps2) <? scancode)
     || (table_at scancode =? 0)
  then 0 else table_at scancode.

Definition mapScancode (scancode : Z) : St World Z :=
  if (Z.of_nat (length usb_to_ps2) <? scancode)
     || (table_at scancode =? 0)
  then
    emit (DEBUG_WARN "Unable to map USB scan code: %x\n" scancode) ;;
    ret 0
  else ret (table_at scancode).

Definition input_off (a : AppState) : bool :=
  ignoreInput a || negb (useSpiceInput params).

(** [case SDL_KEYDOWN] *)
Definition key_down_case (sc : Z) : St World unit :=
  let* a := get_app in
  if sc =? escapeKey params then modify_app (set_escape true (-1))
  else if escapeActive a then modify_app (set_escape (escapeActive a) sc)
  else if input_off a then ret tt
  else
    let* scancode := mapScancode sc in
    if scancode =? 0 then ret tt
    else if negb (keyDown a !!! Z.to_nat sc) then
      let* sent := ask (key_down env) (spice_key_down scancode) in
      if sent : bool then modify_app (set_keyDown sc true)
      else emit (DEBUG_ERROR "SDL_KEYDOWN: failed to send message")
    else ret tt.

(** The escape block of [case SDL_KEYUP]. *)
Definition key_up_escape (sc : Z) : St World unit :=
  let* a := get_app in
  when (escapeActive a) (
    (if escapeAction a =? -1 then
       when (useSpiceInput params) (
         modify_app (set_serverMode (negb (serverMode a))) ;;
         let server := negb (serverMode a) in
         emit (spice_mouse_mode server) ;;
         emit (SDL_SetWindowGrab server) ;;
         emit (DEBUG_INFO "Server Mode: %s"
                 (if server then "on" else "off")) ;;
         emit (app_alert
                 (if server then LG_ALERT_SUCCESS else LG_ALERT_WARNING)
                 (if server then "Capture Enabled"
                  else "Capture Disabled")) ;;
         when (negb server) (emit alignMouseWithGuest))
     else
       let handle := bindings a !!! Z.to_nat sc in
       when (negb (handle =? NULL)) (
         let* w := (fun w => (w, w)) in
         emit (keybind_callback handle sc) ;;
         modify_app (callback env (log w)))) ;;
    when (sc =? escapeKey params)
      (modify_app (fun a => set_escape false (escapeAction a) a))).

(** [case SDL_KEYUP] *)
Definition key_up_case (sc : Z) : St World unit :=
  key_up_escape sc ;;
  let* a := get_app in
  if input_off a then ret tt
  else if negb (keyDown a !!! Z.to_nat sc) then ret tt
  else
    let* scancode := mapScancode sc in
    if scancode =? 0 then ret tt
    else
      let* sent := ask (key_up env) (spice_key_up scancode) in
      if sent : bool then modify_app (set_keyDown sc false)
      else emit (DEBUG_ERROR "SDL_KEYUP: failed to send message").

Definition pointer_off (a : AppState) : bool :=
  ignoreInput a || negb (useSpiceInput params) || negb (cursorInView a).

(** [case SDL_MOUSEWHEEL] *)
Definition mouse_wheel_case (y : Z) : St World unit :=
  let* a := get_app in
  if pointer_off a then ret tt
  else
    let button := if y =? 1 then 4 else 5 in
    let* pressed := ask (mouse_press env) (spice_mouse_press button) in
    if negb pressed
    then emit (DEBUG_ERROR "SDL_MOUSEWHEEL: failed to send messages")
    else
      let* released :=
        ask (mouse_release env) (spice_mouse_release button) in
      when (negb released)
        (emit (DEBUG_ERROR "SDL_MOUSEWHEEL: failed to send messages")).

(** [case SDL_MOUSEBUTTONDOWN] and [case SDL_MOUSEBUTTONUP] *)
Definition mouse_button_case (down : bool) (button x y : Z)
    : St World unit :=
  let* a := get_app in
  if pointer_off a then ret tt
  else if 3 <? button then ret tt
  else
    let* placed := ask (mouse_position env) (spice_mouse_position x y) in
    if negb placed
    then emit (DEBUG_ERROR (if down
                            then "SDL_MOUSEBUTTONDOWN: failed to send message"
                            else "SDL_MOUSEBUTTONUP: failed to send message"))
    else
      let* sent :=
        if down then ask (mouse_press env) (spice_mouse_press button)
        else ask (mouse_release env) (spice_mouse_release button) in
      when (negb sent)
        (emit (DEBUG_ERROR
                 (if down
                  then "SDL_MOUSEBUTTONDOWN: failed to send message"
                  else "SDL_MOUSEBUTTONUP: failed to send message"))).

(** [eventFilter] on these events; it returns 0. *)
Definition eventFilter (e : SDL_Event) : St World Z :=
  match e with
  | SDL_KEYDOWN sc => key_down_case sc
  | SDL_KEYUP sc => key_up_case sc
  | SDL_MOUSEWHEEL y => mouse_wheel_case y
  | SDL_MOUSEBUTTONDOWN button x y => mouse_button_case true button x y
  | SDL_MOUSEBUTTONUP button x y => mouse_button_case false button x y
  end ;;
  ret 0.

(** [lg_shutdown]: "if spice is still connected send key up events for
    any pressed keys"; [t_spice] says whether the thread handle is set. *)
Definition release_key (i : Z) : St World unit :=
  let* a := get_app in
  when (keyDown a !!! Z.to_nat i) (
    let* scancode := mapScancode i in
    if scancode =? 0 then ret tt
    else
      modify_app (set_keyDown i false) ;;
      let* _ := ask (key_up env) (spice_key_up scancode) in
      ret tt).

Definition lg_shutdown_keys (t_spice : bool) : St World unit :=
  if useSpiceInput params then
    let* connected := ask (ready env) spice_ready in
    when connected (
      for_loop SDL_NUM_SCANCODES release_key ;;
      emit spice_disconnect ;;
      when t_spice (emit lgJoinThread_spice))
  else ret tt.

(** A run of events through the filter. *)
Definition filter_events (es : list SDL_Event) (w : World) : World :=
  fold_left (fun w e => snd (eventFilter e w)) es w.

End Events.

End Input.

(** * Vocabulary of the statements *)

(** A slot index of the ring, and its successor on the ring. *)
Definition idx_ok (i : Z) : Prop := 0 <= i < TEXTURE_COUNT.
Definition ring_next (i : Z) : Z := (i + 1) mod TEXTURE_COUNT.

(** The values [0 .. n-1] of a loop counter. *)
Definition plane_range (n : Z) : list Z := Z.of_nat <$> seq 0 (Z.to_nat n).

(** The world after some more external calls / with another texture. *)
Definition with_history (w : World) (evs : list event) : World :=
  {| texture := texture w; warnDone := warnDone w;
     history := history w ++ evs |}.
Definition with_texture (w : World) (t : EGL_Texture) : World :=
  {| texture := t; warnDone := warnDone w; history := history w |}.

(** The fences of the three slots. *)
Definition syncs (t : EGL_Texture) : list GLsync := tex_sync <$> tex t.
(** The mapped pointers of the three slots. *)
Definition maps (t : EGL_Texture) : list pointer := tex_map <$> tex t.

(** What [egl_texture_unmap] does to slot [i]. *)
Definition unmap_slot (i : Z) (t : EGL_Texture) : EGL_Texture :=
  if tex_map (tex_at t i) =? NULL then t
  else upd_tex i (set_tex_map NULL) t.
Definition unmap_slot_events (i : Z) (t : EGL_Texture) : list event :=
  if tex_map (tex_at t i) =? NULL then []
  else [glBindBuffer GL_PIXEL_UNPACK_BUFFER (tex_pbo (tex_at t i));
        glUnmapBuffer GL_PIXEL_UNPACK_BUFFER].
Definition unmap_all (t : EGL_Texture) : EGL_Texture :=
  unmap_slot 2 (unmap_slot 1 (unmap_slot 0 t)).
Definition unmap_events (t : EGL_Texture) : list event :=
  unmap_slot_events 0 t
  ++ unmap_slot_events 1 (unmap_slot 0 t)
  ++ unmap_slot_events 2 (unmap_slot 1 (unmap_slot 0 t)).

(** The per-plane upload of [egl_texture_process] from the buffer object
    bound to the unpack target, into the textures of slot [u]. *)
Definition upload_plane (t : EGL_Texture) (u p : Z) : list event :=
  [glBindTexture GL_TEXTURE_2D (t_at (tex_at t u) p);
   glPixelStorei GL_UNPACK_ROW_LENGTH (plane_at t p 2);
   glTexSubImage2D GL_TEXTURE_2D 0 0 0 (plane_at t p 0) (plane_at t p 1)
     (format t) (dataType t) (offset_at t p)].
Definition upload_events (t : EGL_Texture) (u : Z) : list event :=
  flat_map (upload_plane t u) (plane_range (planeCount t)).

(** The per-plane upload of the non-streaming [egl_texture_update],
    straight from client memory at [buffer]. *)
Definition direct_plane (t : EGL_Texture) (buffer : pointer) (p : Z)
    : list event :=
  [glBindTexture GL_TEXTURE_2D (t_at (tex_at t 0) p);
   glPixelStorei GL_UNPACK_ROW_LENGTH (plane_at t p 0);
   glTexSubImage2D GL_TEXTURE_2D 0 0 0 (plane_at t p 0) (plane_at t p 1)
     (format t) (dataType t) (buffer + offset_at t p)].
Definition direct_events (t : EGL_Texture) (buffer : pointer) : list event :=
  flat_map (direct_plane t buffer) (plane_range (planeCount t)).

(** The texture and sampler bindings at the end of [egl_texture_bind],
    for slot [d]. *)
Definition bind_plane (t : EGL_Texture) (d i : Z) : list event :=
  [glActiveTexture (GL_TEXTURE0_plus i);
   glBindTexture GL_TEXTURE_2D (t_at (tex_at t d) i);
   glBindSampler i (sampler_at t i)].
Definition bind_events (t : EGL_Texture) (d : Z) : list event :=
  flat_map (bind_plane t d) (plane_range (planeCount t)).

(** The calls of the upload phase of [egl_texture_process] for slot [u]. *)
Definition upload_calls (t : EGL_Texture) (u : Z) : list event :=
  glBindBuffer GL_PIXEL_UNPACK_BUFFER (tex_pbo (tex_at t u))
  :: upload_events t u.

(** The history of an uploading [egl_texture_process] up to its last
    [glTexSubImage2D], and the fence the driver then hands out. *)
Definition upload_history (w : World) : list event :=
  let t := texture w in
  history w ++ atomic_load_explicit memory_order_acquire
               :: unmap_events t
                  ++ upload_calls (unmap_all t) (st_u (state t)).
Definition upload_fence (gl : GLdriver) (w : World) : GLsync :=
  fence_sync gl (upload_history w).

(** The world of an uploading [egl_texture_process] once the new [u] is
    published, before the buffers are mapped again. *)
Definition published_world (gl : GLdriver) (w : World) : World :=
  let t := texture w in
  let u := st_u (state t) in
  {| texture :=
       set_state (set_st_u (ring_next u) (state t))
         (upd_tex u (set_tex_sync (upload_fence gl w)) (unmap_all t));
     warnDone := warnDone w;
     history := upload_history w
                ++ [glFenceSync GL_SYNC_GPU_COMMANDS_COMPLETE 0;
                    glFlush;
                    atomic_store_explicit field_u (ring_next u)
                      memory_order_release] |}.

(** The guard of the [d] advance in [egl_texture_bind], on the local
    snapshot [s]. *)
Definition d_advances (s : TexState) : bool :=
  negb (st_d s =? st_s s) && negb (ring_next (st_d s) =? st_s s).
Definition advance_d (s : TexState) : TexState :=
  if d_advances s then set_st_d (ring_next (st_d s)) s else s.
Definition advance_d_events (s : TexState) : list event :=
  if d_advances s
  then [atomic_store_explicit field_d (ring_next (st_d s))
          memory_order_release]
  else [].
Definition commit_d (s : TexState) (t : EGL_Texture) : EGL_Texture :=
  if d_advances s
  then set_state (set_st_d (ring_next (st_d s)) (state t)) t
  else t.

(** The end of a successful [egl_texture_bind]: the [d] advance and the
    bindings, for the snapshot [s]. *)
Definition bind_finish (s : TexState) (w : World) : EGL_TexStatus * World :=
  (EGL_TEX_STATUS_OK,
   {| texture := commit_d s (texture w);
      warnDone := warnDone w;
      history := history w ++ advance_d_events s
                 ++ bind_events (commit_d s (texture w))
                      (st_d (advance_d s)) |}).

(** The three guards of the uploader, on the state word. *)
Definition u_advances (s : TexState) : bool :=
  negb ((st_u s =? st_w s) || (ring_next (st_u s) =? st_s s)
        || (ring_next (st_u s) =? st_d s)).

(** What the [switch] of [egl_texture_bind] makes of the result of
    [glClientWaitSync]. *)
Inductive WaitOutcome : Type := fence_signaled | fence_pending | fence_failed.

Definition classify_wait (status : GLenum) : WaitOutcome :=
  match status with
  | GL_ALREADY_SIGNALED | GL_CONDITION_SATISFIED => fence_signaled
  | GL_WAIT_FAILED | GL_INVALID_VALUE => fence_failed
  | _ => fence_pending
  end.

(** The wait of [egl_texture_bind] on the fence of slot [s]: 20 ms. *)
Definition wait_call (t : EGL_Texture) : event :=
  glClientWaitSync (tex_sync (tex_at t (st_s (state t)))) 0 20000000.

(** The world of [egl_texture_bind] once a signalled fence is deleted and
    the new [s] is published. *)
Definition scheduled_world (w : World) : World :=
  let t := texture w in
  let s := st_s (state t) in
  {| texture := set_state (set_st_s (ring_next s) (state t))
                  (upd_tex s (set_tex_sync 0) t);
     warnDone := warnDone w;
     history := history w ++
       [atomic_load_explicit memory_order_acquire;
        wait_call t;
        glDeleteSync (tex_sync (tex_at t s));
        atomic_store_explicit field_s (ring_next s) memory_order_release] |}.

(** The world of [egl_texture_bind] after a failed wait. *)
Definition failed_world (w : World) : World :=
  let t := texture w in
  let s := st_s (state t) in
  {| texture := upd_tex s (set_tex_sync 0) t;
     warnDone := warnDone w;
     history := history w ++
       [atomic_load_explicit memory_order_acquire;
        wait_call t;
        glDeleteSync (tex_sync (tex_at t s));
        EGL_ERROR "glClientWaitSync failed" []] |}.

(** Recognisers of events. *)
Definition is_fence_create (e : event) : bool :=
  match e with glFenceSync _ _ => true | _ => false end.
Definition is_fence_delete (e : event) : bool :=
  match e with glDeleteSync _ => true | _ => false end.
Definition is_fence_wait (e : event) : bool :=
  match e with glClientWaitSync _ _ _ => true | _ => false end.
Definition is_flush (e : event) : bool :=
  match e with glFlush => true | _ => false end.
Definition is_tex_upload (e : event) : bool :=
  match e with glTexSubImage2D _ _ _ _ _ _ _ _ _ => true | _ => false end.
Definition is_slot_write (e : event) : bool :=
  match e with
  | memcpy _ _ _ | framebuffer_read _ _ _ _ _ _ _ => true
  | _ => false
  end.
Definition is_buffer_call (e : event) : bool :=
  match e with
  | glBindBuffer _ _ | glMapBufferRange _ _ _ _ | glUnmapBuffer _ => true
  | _ => false
  end.
Definition is_unmap (e : event) : bool :=
  match e with glUnmapBuffer _ => true | _ => false end.
Definition is_map (e : event) : bool :=
  match e with glMapBufferRange _ _ _ _ => true | _ => false end.
Definition is_realloc (e : event) : bool :=
  match e with
  | glGenTextures _ | glGenSamplers _
  | glDeleteTextures _ _ | glDeleteSamplers _ _ => true
  | _ => false
  end.
(** The calls [egl_texture_map] can make. *)
Definition is_map_phase (e : event) : bool :=
  match e with
  | glBindBuffer _ _ | glMapBufferRange _ _ _ _ | EGL_ERROR _ _ => true
  | _ => false
  end.
(** The calls of [egl_texture_unmap] for a slot: none if it is not
    mapped. *)
Definition unmap_calls (t : EGL_Texture) (i : Z) : list event :=
  if tex_map (tex_at t i) =? NULL then []
  else [glBindBuffer GL_PIXEL_UNPACK_BUFFER (tex_pbo (tex_at t i));
        glUnmapBuffer GL_PIXEL_UNPACK_BUFFER].
(** The calls of [egl_texture_map] for a slot. *)
Definition map_calls (t : EGL_Texture) (i : Z) : list event :=
  [glBindBuffer GL_PIXEL_UNPACK_BUFFER (tex_pbo (tex_at t i));
   glMapBufferRange GL_PIXEL_UNPACK_BUFFER 0 (pboBufferSize t) map_access].
(** A driver whose [glMapBufferRange] never fails. *)
Definition maps_succeed (gl : GLdriver) : Prop :=
  forall h, map_buffer_range gl h <> NULL.
(** The row lengths set by the [glPixelStorei] calls of a history. *)
Definition row_lengths (evs : list event) : list Z :=
  flat_map (fun e => match e with
                     | glPixelStorei GL_UNPACK_ROW_LENGTH v => [v]
                     | _ => []
                     end) evs.
Definition count_events (p : event -> bool) (evs : list event) : nat :=
  length (filter (fun e => p e = true) evs).

(** ** Runs of the public interface *)

Inductive api_call : Type :=
| do_setup (f : EGL_PixelFormat) (wd ht sd : Z) (str : bool)
| do_update (buffer : pointer)
| do_update_from_frame (frame : pointer)
| do_process
| do_bind
| do_count.

Definition is_setup (c : api_call) : bool :=
  match c with do_setup _ _ _ _ _ => true | _ => false end.

Definition perform (gl : GLdriver) (c : api_call) : M unit :=
  match c with
  | do_setup f wd ht sd str =>
    let* _ := egl_texture_setup gl f wd ht sd str in ret tt
  | do_update buffer => let* _ := egl_texture_update buffer in ret tt
  | do_update_from_frame frame =>
    let* _ := egl_texture_update_from_frame frame in ret tt
  | do_process => let* _ := egl_texture_process gl in ret tt
  | do_bind => let* _ := egl_texture_bind gl in ret tt
  | do_count => let* _ := egl_texture_count in ret tt
  end.

Definition run (gl : GLdriver) (cs : list api_call) (w : World) : World :=
  foldl (fun w c => exec (perform gl c) w) w cs.

(** ** The state machine behind the texture

    What the ring discipline depends on: the state word, the fences of
    the slots, and the two flags. *)
Record Core : Type := {
  c_state : TexState;
  c_syncs : list GLsync;
  c_streaming : bool;
  c_ready : bool
}.

Definition core (t : EGL_Texture) : Core :=
  {| c_state := state t; c_syncs := syncs t;
     c_streaming := streaming t; c_ready := ready t |}.

Definition zero_state : TexState :=
  {| st_w := 0; st_u := 0; st_s := 0; st_d := 0 |}.

(** The moves of the machine; the fence a [glFenceSync] returns and the
    status a [glClientWaitSync] returns are the environment's choice. *)
Definition core_setup (str : bool) (c : Core) : Core :=
  {| c_state := zero_state; c_syncs := c_syncs c;
     c_streaming := str; c_ready := false |}.

Definition core_update (c : Core) : Core :=
  let s := c_state c in
  if c_streaming c && negb (ring_next (st_w s) =? st_u s)
  then {| c_state := set_st_w (ring_next (st_w s)) s; c_syncs := c_syncs c;
          c_streaming := c_streaming c; c_ready := c_ready c |}
  else c.

Definition core_process (fence : GLsync) (c : Core) : Core :=
  let s := c_state c in
  if c_streaming c && u_advances s
  then {| c_state := set_st_u (ring_next (st_u s)) s;
          c_syncs := <[idx (st_u s) := fence]> (c_syncs c);
          c_streaming := c_streaming c; c_ready := true |}
  else c.

Definition core_bind (status : GLenum) (c : Core) : Core :=
  let s := c_state c in
  if c_streaming c && c_ready c then
    if c_syncs c !!! idx (st_s s) =? 0 then
      {| c_state := advance_d s; c_syncs := c_syncs c;
         c_streaming := c_streaming c; c_ready := c_ready c |}
    else
      match classify_wait status with
      | fence_signaled =>
        {| c_state := advance_d (set_st_s (ring_next (st_s s)) s);
           c_syncs := <[idx (st_s s) := 0]> (c_syncs c);
           c_streaming := c_streaming c; c_ready := c_ready c |}
      | fence_pending =>
        {| c_state := advance_d s; c_syncs := c_syncs c;
           c_streaming := c_streaming c; c_ready := c_ready c |}
      | fence_failed =>
        {| c_state := s; c_syncs := <[idx (st_s s) := 0]> (c_syncs c);
           c_streaming := c_streaming c; c_ready := c_ready c |}
      end
  else c.

Definition core_perform (call : api_call) (fence : GLsync) (status : GLenum)
    (c : Core) : Core :=
  match call with
  | do_setup _ _ _ _ str => core_setup str c
  | do_update _ | do_update_from_frame _ => core_update c
  | do_process => core_process fence c
  | do_bind => core_bind status c
  | do_count => c
  end.

(** The indices are slots of the ring and there are three slots. *)
Definition core_ok (c : Core) : Prop :=
  idx_ok (st_w (c_state c)) /\ idx_ok (st_u (c_state c)) /\
  idx_ok (st_s (c_state c)) /\ idx_ok (st_d (c_state c)) /\
  length (c_syncs c) = 3%nat.

(** The worlds a program can be in: a texture object obtained from
    [egl_texture_init], then any calls of the interface. *)
Definition reachable (gl : GLdriver) (w : World) : Prop :=
  exists w0 cs, w = run gl cs (exec (egl_texture_init true) w0).

(** How often each index of the state word has moved. *)
Record Progress : Type := {
  adv_w : Z;
  adv_u : Z;
  adv_s : Z;
  adv_d : Z
}.

Definition no_progress : Progress :=
  {| adv_w := 0; adv_u := 0; adv_s := 0; adv_d := 0 |}.

Definition moved (a b : Z) : Z := if a =? b then 0 else 1.

Definition count_moves (before after : TexState) (c : Progress) : Progress :=
  {| adv_w := adv_w c + moved (st_w before) (st_w after);
     adv_u := adv_u c + moved (st_u before) (st_u after);
     adv_s := adv_s c + moved (st_s before) (st_s after);
     adv_d := adv_d c + moved (st_d before) (st_d after) |}.

(** A run that also counts the moves of the four indices. *)
Definition run_counting (gl : GLdriver) (cs : list api_call)
    (wc : World * Progress) : World * Progress :=
  foldl (fun wc c =>
           let w' := exec (perform gl c) (fst wc) in
           (w', count_moves (state (texture (fst wc))) (state (texture w'))
                  (snd wc)))
        wc cs.

(** The ring order [d <= s <= u <= w (mod 3)]: each index is its number
    of moves modulo the ring size, no stage has moved more often than the
    stage that feeds it, and no stage is a full lap ahead of the stages
    its guard looks at. *)
Definition ring_ordered (s : TexState) (c : Progress) : Prop :=
  st_w s = adv_w c mod TEXTURE_COUNT /\
  st_u s = adv_u c mod TEXTURE_COUNT /\
  st_s s = adv_s c mod TEXTURE_COUNT /\
  st_d s = adv_d c mod TEXTURE_COUNT /\
  0 <= adv_d c <= adv_s c /\ adv_s c <= adv_u c /\ adv_u c <= adv_w c /\
  adv_w c < adv_u c + TEXTURE_COUNT /\
  adv_u c < adv_s c + TEXTURE_COUNT /\
  adv_u c < adv_d c + TEXTURE_COUNT.

(** The slots that may hold a fence: those uploaded ([< adv_u]) and not
    yet scheduled ([>= adv_s]). *)
Definition fences_in_window (fences : list GLsync) (p : Progress) : Prop :=
  forall i, idx_ok i -> fences !!! idx i <> 0 ->
    exists k, adv_s p <= k < adv_u p /\ k mod TEXTURE_COUNT = i.

(** A texture that is not streaming has its state word at zero. *)
Definition idle_zero (c : Core) : Prop :=
  c_streaming c = false -> c_state c = zero_state.

(** The invariant: the ring order, with the fences inside their window. *)
Definition ring_inv (c : Core) (p : Progress) : Prop :=
  ring_ordered (c_state c) p /\ fences_in_window (c_syncs c) p.

(** ** Relations every step of a computation maintains *)

(** A relation between the world before and the world after that every
    step of a computation maintains. *)
Class Step (R : World -> World -> Prop) : Prop := {
  step_refl : forall w, R w w;
  step_trans : forall a b c, R a b -> R b c -> R a c
}.

Definition respects {A} (R : World -> World -> Prop) (m : M A) : Prop :=
  forall w, R w (snd (m w)).

(** The part [proj] of the texture object is left alone. *)
Definition keeps {X} (proj : EGL_Texture -> X) (w w' : World) : Prop :=
  proj (texture w') = proj (texture w).

(** Only external calls accepted by [ok] are made. *)
Definition emits_only (ok : event -> bool) (w w' : World) : Prop :=
  exists evs, history w' = history w ++ evs /\ forallb ok evs = true.

(** The static flag of [egl_warn_slow] is left alone. *)
Definition keeps_warnDone (w w' : World) : Prop := warnDone w' = warnDone w.

(** ** Sample inputs *)

Definition sample_gl : GLdriver :=
  {| gen_name := fun h k => Z.of_nat (length h) * 4 + k + 1;
     map_buffer_range := fun h => 4096 * (1 + Z.of_nat (length h));
     fence_sync := fun h => 1 + Z.of_nat (length h);
     client_wait_sync := fun _ => GL_ALREADY_SIGNALED |}.

Definition blank_world : World :=
  {| texture := zero_texture; warnDone := false; history := [] |}.

(** A freshly set up 640x480 YUV420 streaming texture. *)
Definition yuv_world : World :=
  exec (egl_texture_setup sample_gl EGL_PF_YUV420 640 480 640 true)
       (exec (egl_texture_init true) blank_world).

(** A run that fills the ring: the producer is two slots ahead of the
    uploader when it stops. *)
Definition demo_calls : list api_call :=
  [do_update 1; do_process; do_bind; do_update 2; do_process;
   do_update 3; do_update 4; do_bind; do_bind].

(** ** Vocabulary of the client loops *)

(** The answers of [lgmpClientInit] on which [lg_run] tries again. *)
Definition init_transient (s : Main.LGMP_STATUS) : bool :=
  match s with
  | Main.LGMP_ERR_INVALID_SESSION | Main.LGMP_ERR_INVALID_MAGIC => true
  | _ => false
  end.

(** The answer of [lgmpClientSubscribe] on which a thread tries again. *)
Definition subscribe_transient (s : Main.LGMP_STATUS) : bool :=
  match s with
  | Main.LGMP_ERR_NO_SUCH_QUEUE => true
  | _ => false
  end.

(** [n] rounds of the same calls. *)
Fixpoint rounds (n : nat) (evs : list Main.event) : list Main.event :=
  match n with
  | O => []
  | S k => evs ++ rounds k evs
  end.

(** The world after some more calls. *)
Definition logged (w : Main.World) (evs : list Main.event) : Main.World :=
  {| Main.app := Main.app w; Main.log := Main.log w ++ evs |}.

(** One failed attempt at [lgmpClientInit] and at [lgmpClientSubscribe]. *)
Definition init_round : list Main.event :=
  [Main.lgmpClientInit; Main.SDL_WaitEventTimeout 1000].
Definition subscribe_round (q : Main.queue_id) : list Main.event :=
  [Main.lgmpClientSubscribe q; Main.usleep 1000].

(** The world when [running] has been cleared. *)
Definition stopped (w : Main.World) : Main.World :=
  {| Main.app := Main.set_running false (Main.app w);
     Main.log := Main.log w |}.

(** The frame of the worked example: 640x480 YUV420, stride 640. *)
Definition yuv_frame : Main.KVMFRFrame :=
  {| Main.frame_type := Main.FRAME_TYPE_YUV420;
     Main.frame_width := 640; Main.frame_height := 480;
     Main.frame_stride := 640; Main.frame_pitch := 640;
     Main.frame_offset := 0 |}.

(** A host that is not up for the first two attempts. *)
Definition late_host : Main.Env :=
  {| Main.client_init := fun h =>
       if (length h <? 4)%nat then Main.LGMP_ERR_INVALID_SESSION
       else Main.LGMP_OK;
     Main.client_subscribe := fun h =>
       if (length h <? 4)%nat then Main.LGMP_ERR_NO_SUCH_QUEUE
       else Main.LGMP_OK;
     Main.client_process := fun _ => (Main.LGMP_OK, (0, yuv_frame));
     Main.frame_event := fun _ => true |}.

Definition started : Main.World :=
  {| Main.app := {| Main.running := true; Main.srcSize_x := 0;
                    Main.srcSize_y := 0; Main.haveSrcSize := false;
                    Main.frameCount := 0 |};
     Main.log := [] |}.

(** Counting the calls of a thread. *)
Definition main_count (p : Main.event -> bool) (evs : list Main.event)
    : nat :=
  length (List.filter p evs).
Definition is_client_process (e : Main.event) : bool :=
  match e with Main.lgmpClientProcess => true | _ => false end.
Definition is_message_done (e : Main.event) : bool :=
  match e with Main.lgmpClientMessageDone => true | _ => false end.
Definition is_on_frame_event (e : Main.event) : bool :=
  match e with Main.on_frame_event _ _ => true | _ => false end.
Definition is_poll_sleep (e : Main.event) : bool :=
  match e with Main.usleep _ => true | _ => false end.
Definition is_error_line (msg : string) (e : Main.event) : bool :=
  match e with
  | Main.DEBUG_ERROR m | Main.DEBUG_ERROR_status m _ => String.eqb m msg
  | _ => false
  end.
Definition is_unsubscribe (e : Main.event) : bool :=
  match e with Main.lgmpClientUnsubscribe => true | _ => false end.

(** What one turn of the frame loop of [frameThread] calls, by the way
    the turn ends: one [lgmpClientProcess], answered by exactly one of a
    poll sleep, [lgmpClientMessageDone], a frame the renderer refused and
    a failed [lgmpClientProcess]. *)
Definition frame_turn_ok (c : Main.LoopCtl) (evs : list Main.event) : Prop :=
  let n p := main_count p evs in
  let failed := n (is_error_line "lgmpClientProcess Failed: %s") in
  let refused :=
    n (is_error_line "renderer on frame event returned failure") in
  let unsupported := n (is_error_line "Unsupported frameType") in
  n is_client_process = 1%nat
  /\ (n is_poll_sleep + n is_message_done + refused + failed = 1)%nat
  /\ (n is_message_done + refused = n is_on_frame_event + unsupported)%nat
  /\ match c with
     | Main.Continue => (unsupported + refused + failed = 0)%nat
     | Main.Break => (unsupported + refused + failed = 1)%nat
     | Main.Return _ => False
     end.

(** Counting the calls of the cursor thread. *)
Definition cursor_count (p : Cursor.event -> bool) (evs : list Cursor.event)
    : nat :=
  length (List.filter p evs).
Definition is_cursor_process (e : Cursor.event) : bool :=
  match e with Cursor.lgmpClientProcess => true | _ => false end.
Definition is_cursor_done (e : Cursor.event) : bool :=
  match e with Cursor.lgmpClientMessageDone => true | _ => false end.
Definition is_cursor_sleep (e : Cursor.event) : bool :=
  match e with Cursor.usleep _ => true | _ => false end.
Definition is_mouse_event (e : Cursor.event) : bool :=
  match e with Cursor.on_mouse_event _ _ _ => true | _ => false end.
Definition is_mouse_shape (e : Cursor.event) : bool :=
  match e with Cursor.on_mouse_shape _ _ _ _ _ => true | _ => false end.
Definition is_align (e : Cursor.event) : bool :=
  match e with Cursor.alignMouseWithHost => true | _ => false end.
Definition is_cursor_error (msg : string) (e : Cursor.event) : bool :=
  match e with
  | Cursor.DEBUG_ERROR m | Cursor.DEBUG_ERROR_status m _ => String.eqb m msg
  | _ => false
  end.

(** The counts of a stretch of the cursor thread's calls. *)
Record CursorCounts : Type := {
  n_process : nat;
  n_sleep : nat;
  n_done : nat;
  n_mouse_event : nat;
  n_mouse_shape : nat;
  n_align : nat;
  n_invalid_type : nat;
  n_shape_failed : nat;
  n_process_failed : nat
}.
Definition cursor_counts (evs : list Cursor.event) : CursorCounts :=
  {| n_process := cursor_count is_cursor_process evs;
     n_sleep := cursor_count is_cursor_sleep evs;
     n_done := cursor_count is_cursor_done evs;
     n_mouse_event := cursor_count is_mouse_event evs;
     n_mouse_shape := cursor_count is_mouse_shape evs;
     n_align := cursor_count is_align evs;
     n_invalid_type :=
       cursor_count (is_cursor_error "Invalid cursor type") evs;
     n_shape_failed :=
       cursor_count (is_cursor_error "Failed to update mouse shape") evs;
     n_process_failed :=
       cursor_count (is_cursor_error "lgmpClientProcess Failed: %s") evs |}.

(** What the cursor loop keeps, over the calls [evs] it made from the
    state [a] to the state [a']. *)
Definition cursor_loop_ok (a a' : Cursor.AppState)
    (evs : list Cursor.event) : Prop :=
  let c := cursor_counts evs in
  (n_process c = n_sleep c + n_done c + n_process_failed c)%nat
  /\ (n_process_failed c <= 1)%nat
  /\ (n_invalid_type c + n_shape_failed c <= n_done c)%nat
  /\ (n_mouse_shape c <= n_done c)%nat
  /\ (n_done c <= n_mouse_event c + n_invalid_type c + n_shape_failed c)%nat
  /\ (n_mouse_event c + n_invalid_type c + n_shape_failed c
      <= n_process c - n_process_failed c)%nat
  /\ (n_align c <= 1)%nat
  /\ (Cursor.haveAligned a = true -> n_align c = 0%nat)
  /\ (n_align c = 1%nat -> Cursor.haveAligned a' = true)
  /\ (Cursor.haveAligned a = true -> Cursor.haveAligned a' = true)
  /\ Cursor.running a'
     = Cursor.running a && (n_process_failed c =? 0)%nat.

(** ** Vocabulary of the keyboard *)

(** How many of the scancodes [i .. i+n-1] are marked down in [kd] and
    map to the PS/2 code [c]; over the whole array, how many keys the
    guest holds as [c]. *)
Definition keys_down_in (usb_to_ps2 : list Z) (beyond_table : Z) (c : Z)
    (kd : list bool) (i n : nat) : nat :=
  length (List.filter
            (fun j => (kd !!! j)
                      && (Input.ps2_of usb_to_ps2 beyond_table (Z.of_nat j)
                          =? c))
            (seq i n)).
Definition keys_down_as (usb_to_ps2 : list Z) (beyond_table : Z) (c : Z)
    (kd : list bool) : nat :=
  keys_down_in usb_to_ps2 beyond_table c kd 0 (length kd).

(** Every key marked down has a PS/2 code. *)
Definition mapped_only (usb_to_ps2 : list Z) (beyond_table : Z)
    (kd : list bool) : Prop :=
  forall j, (j < length kd)%nat -> kd !!! j = true ->
            Input.ps2_of usb_to_ps2 beyond_table (Z.of_nat j) <> 0.

(** The key messages the guest took, and the key-up calls made. *)
Definition input_count (p : Input.event -> bool) (evs : list Input.event)
    : nat :=
  length (List.filter p evs).
Definition is_sent_down (c : Z) (e : Input.event) : bool :=
  match e with Input.spice_key_down c' true => c' =? c | _ => false end.
Definition is_sent_up (c : Z) (e : Input.event) : bool :=
  match e with Input.spice_key_up c' true => c' =? c | _ => false end.
Definition is_up_call (c : Z) (e : Input.event) : bool :=
  match e with Input.spice_key_up c' _ => c' =? c | _ => false end.
Definition is_spice_call (e : Input.event) : bool :=
  match e with
  | Input.spice_key_down _ _ | Input.spice_key_up _ _
  | Input.spice_mouse_mode _ | Input.spice_mouse_position _ _ _
  | Input.spice_mouse_press _ _ | Input.spice_mouse_release _ _
  | Input.spice_ready _ | Input.spice_disconnect => true
  | _ => false
  end.

(** The books balance over the calls [evs] made from the state [a] to
    the state [a']: for every PS/2 code, the keys held as that code and
    the key-ups the guest took make up for the keys held before and the
    key-downs it took. *)
Definition keys_balance (usb_to_ps2 : list Z) (beyond_table : Z)
    (a a' : Input.AppState) (evs : list Input.event) : Prop :=
  length (Input.keyDown a') = length (Input.keyDown a)
  /\ (mapped_only usb_to_ps2 beyond_table (Input.keyDown a) ->
      mapped_only usb_to_ps2 beyond_table (Input.keyDown a'))
  /\ forall c,
       (keys_down_as usb_to_ps2 beyond_table c (Input.keyDown a')
        + input_count (is_sent_up c) evs
        = keys_down_as usb_to_ps2 beyond_table c (Input.keyDown a)
          + input_count (is_sent_down c) evs)%nat.

Definition is_keybind_callback (e : Input.event) : bool :=
  match e with Input.keybind_callback _ _ => true | _ => false end.

(** The scancode of a key event lies in the [keyDown] array. *)
Definition scancode_in (n : nat) (e : Input.SDL_Event) : Prop :=
  match e with
  | Input.SDL_KEYDOWN sc | Input.SDL_KEYUP sc => 0 <= sc < Z.of_nat n
  | _ => True
  end.

(** ** Vocabulary of the layout *)

(** What [egl_texture_setup] lays out and the other calls only read. *)
Definition layout (t : EGL_Texture)
    : Z * list (list Z) * list Z * GLenum * GLenum * Z :=
  (planeCount t, planes t, offsets t, format t, dataType t, pboBufferSize t).

(** The width, height and source offset of the [glTexSubImage2D] calls of
    a history. *)
Definition upload_args (evs : list event) : list (Z * Z * Z) :=
  flat_map (fun e => match e with
                     | glTexSubImage2D _ _ _ _ w h _ _ data => [(w, h, data)]
                     | _ => []
                     end) evs.

(** The call [e] is among those made from [w] to [w']. *)
Definition makes_call (e : event) (w w' : World) : Prop :=
  exists a b, history w' = history w ++ a ++ e :: b.

(** ** Vocabulary of the release of resources *)

Definition is_debug_warn (e : event) : bool :=
  match e with DEBUG_WARN _ => true | _ => false end.
Definition is_buffer_delete (e : event) : bool :=
  match e with glDeleteBuffers _ _ => true | _ => false end.
Definition is_buffer_gen (e : event) : bool :=
  match e with glGenBuffers _ => true | _ => false end.
Definition is_texture_delete (e : event) : bool :=
  match e with glDeleteTextures _ _ => true | _ => false end.
Definition is_texture_gen (e : event) : bool :=
  match e with glGenTextures _ => true | _ => false end.

(** Which slots own a buffer object. *)
Definition hasPBOs (t : EGL_Texture) : list bool := tex_hasPBO <$> tex t.

(** The fences and the mappings the slots hold. *)
Definition live_fences (t : EGL_Texture) : nat :=
  length (List.filter (fun f => negb (f =? 0)) (syncs t)).
Definition live_maps (t : EGL_Texture) : nat :=
  length (List.filter (fun p => negb (p =? NULL)) (maps t)).

(** The warning of [egl_warn_slow] comes once: from [w] to [w'] the flag
    is only ever set, and the two [DEBUG_WARN] lines are printed when it
    is. *)
Definition warn_once (w w' : World) : Prop :=
  exists evs,
    history w' = history w ++ evs /\
    (warnDone w = true -> warnDone w' = true) /\
    count_events is_debug_warn evs
    = (if warnDone w then 0 else if warnDone w' then 2 else 0)%nat.

(** What [egl_texture_free] does for slot [i]: the calls, and the slot's
    mapping cleared when it owns a buffer that is mapped. *)
Definition free_slot_events (t : EGL_Texture) (i : Z) : list event :=
  (if tex_hasPBO (tex_at t i)
   then glBindBuffer GL_PIXEL_UNPACK_BUFFER (tex_pbo (tex_at t i))
        :: (if tex_map (tex_at t i) =? NULL then []
            else [glUnmapBuffer GL_PIXEL_UNPACK_BUFFER])
        ++ glDeleteBuffers 1 [tex_pbo (tex_at t i)]
           :: (if tex_sync (tex_at t i) =? 0 then []
               else [glDeleteSync (tex_sync (tex_at t i))])
   else [])
  ++ (if 0 <? planeCount t
      then [glDeleteTextures (planeCount t)
              (take (Z.to_nat (planeCount t)) (tex_t (tex_at t i)))]
      else []).
Definition free_slot (i : Z) (t : EGL_Texture) : EGL_Texture :=
  if tex_hasPBO (tex_at t i) && negb (tex_map (tex_at t i) =? NULL)
  then upd_tex i (set_tex_map NULL) t
  else t.
(** The calls of [egl_texture_free] before the loop over the slots. *)
Definition free_samplers (t : EGL_Texture) : list event :=
  if 0 <? planeCount t
  then [glDeleteSamplers (planeCount t)
          (take (Z.to_nat (planeCount t)) (samplers t))]
  else [].

(** ** Vocabulary of the clipboard *)

(** The types the two conversions know. *)
Definition known_spice (t : Clipboard.SpiceDataType) : bool :=
  match t with
  | Clipboard.SPICE_DATA_NONE | Clipboard.SPICE_DATA_other _ => false
  | _ => true
  end.
Definition known_clipboard (t : Clipboard.LG_ClipboardData) : bool :=
  match t with
  | Clipboard.LG_CLIPBOARD_DATA_NONE
  | Clipboard.LG_CLIPBOARD_DATA_other _ => false
  | _ => true
  end.

(** A text with a carriage return put before every line feed, and a text
    with every carriage return taken out. *)
Definition crlf (data : list Z) : list Z :=
  flat_map (fun c => if c =? 10 then [13; 10] else [c]) data.
Definition strip_cr (data : list Z) : list Z :=
  List.filter (fun c => negb (c =? 13)) data.

(** The world after some more calls. *)
Definition clip_logged (w : Clipboard.World) (evs : list Clipboard.event)
    : Clipboard.World :=
  {| Clipboard.app := Clipboard.app w;
     Clipboard.log := Clipboard.log w ++ evs |}.


(** * Proofs *)

#[global] Instance keeps_step {X} (proj : EGL_Texture -> X) : Step (keeps proj).
Proof.
  split; unfold keeps; [reflexivity | intros a b c H1 H2; congruence].
Qed.

#[global] Instance emits_only_step ok : Step (emits_only ok).
Proof.
  split.
  - intros w. exists []. rewrite app_nil_r. auto.
  - intros a b c (e1 & H1 & F1) (e2 & H2 & F2).
    exists (e1 ++ e2). rewrite H2, H1, app_assoc, forallb_app, F1, F2. auto.
Qed.

#[global] Instance keeps_warnDone_step : Step keeps_warnDone.
Proof.
  split; unfold keeps_warnDone; [reflexivity | intros a b c H1 H2; congruence].
Qed.

Section Respects.

Context (R : World -> World -> Prop) `{!Step R}.

Lemma respects_ret {A} (a : A) : respects R (ret a).
Proof. intros w. apply step_refl. Qed.

Lemma respects_bind {A B} (m : M A) (k : A -> M B) :
  respects R m -> (forall a, respects R (k a)) -> respects R (bind m k).
Proof.
  intros Hm Hk w. unfold bind. specialize (Hm w).
  destruct (m w) as [a w1]. eapply step_trans; [exact Hm | apply Hk].
Qed.

Lemma respects_when (b : bool) (m : M unit) :
  respects R m -> respects R (when b m).
Proof. intros Hm. destruct b; [exact Hm | apply respects_ret]. Qed.

Lemma respects_for_from (body : Z -> M unit) :
  (forall i, respects R (body i)) ->
  forall n i, respects R (for_from i n body).
Proof.
  intros Hb n. induction n as [|n IH]; intros i; simpl.
  - apply respects_ret.
  - apply respects_bind; [apply Hb | intros _; apply IH].
Qed.

Lemma respects_for_loop (body : Z -> M unit) n :
  (forall i, respects R (body i)) -> respects R (for_loop n body).
Proof. intros Hb. apply respects_for_from, Hb. Qed.

Lemma respects_get_texture : respects R get_texture.
Proof. intros w. apply step_refl. Qed.

End Respects.

(** Walks through a computation, leaving the primitive steps. *)
Ltac walk :=
  cbv zeta;
  lazymatch goal with
  | |- respects _ (bind _ _) =>
      apply respects_bind; [ typeclasses eauto | walk | intros; walk ]
  | |- respects _ (ret _) => apply respects_ret; typeclasses eauto
  | |- respects _ get_texture => apply respects_get_texture; typeclasses eauto
  | |- respects _ (when _ _) =>
      apply respects_when; [ typeclasses eauto | walk ]
  | |- respects _ (for_loop _ _) =>
      apply respects_for_loop; [ typeclasses eauto | intros; walk ]
  | |- respects _ (if ?b then _ else _) => destruct b; walk
  | |- respects _ (match ?x with _ => _ end) => destruct x; walk
  | |- respects _ (load_state _) => unfold load_state; walk
  | |- respects _ (store_state_v0 _) => unfold store_state_v0; walk
  | |- respects _ (store_field _ _ _) => unfold store_field; walk
  | |- respects _ (gen_into _ _ _ _) => unfold gen_into; walk
  | |- respects _ egl_texture_unmap => unfold egl_texture_unmap; walk
  | |- _ => idtac
  end.

Lemma keeps_emit {X} (proj : EGL_Texture -> X) e : respects (keeps proj) (emit e).
Proof. intros w. reflexivity. Qed.
Lemma keeps_call {X A} (proj : EGL_Texture -> X) (f : list event -> A) e :
  respects (keeps proj) (call f e).
Proof. intros w. reflexivity. Qed.
Lemma keeps_modify {X} (proj : EGL_Texture -> X) f :
  (forall t, proj (f t) = proj t) -> respects (keeps proj) (modify_texture f).
Proof. intros H w. apply H. Qed.


Lemma emits_emit ok e : ok e = true -> respects (emits_only ok) (emit e).
Proof. intros H w. exists [e]. simpl. rewrite H. auto. Qed.
Lemma emits_call {A} ok (f : list event -> A) e :
  ok e = true -> respects (emits_only ok) (call f e).
Proof. intros H w. exists [e]. simpl. rewrite H. auto. Qed.
Lemma emits_modify ok f : respects (emits_only ok) (modify_texture f).
Proof. intros w. exists []. simpl. rewrite app_nil_r. auto. Qed.

Lemma warn_emit e : respects keeps_warnDone (emit e).
Proof. intros w. reflexivity. Qed.
Lemma warn_call {A} (f : list event -> A) e : respects keeps_warnDone (call f e).
Proof. intros w. reflexivity. Qed.
Lemma warn_modify f : respects keeps_warnDone (modify_texture f).
Proof. intros w. reflexivity. Qed.

Ltac prims_get := apply respects_get_texture; typeclasses eauto.

(** Closes the primitive steps [walk] leaves. *)
Ltac prims :=
  first
    [ apply keeps_emit | apply keeps_call
    | apply keeps_modify; intros; try reflexivity
    | apply emits_emit; reflexivity | apply emits_call; reflexivity
    | apply emits_modify
    | apply warn_emit | apply warn_call | apply warn_modify ].

#[global] Arguments to_uint8 : simpl never.
#[global] Arguments to_int8 : simpl never.
#[global] Arguments to_size_t : simpl never.
#[global] Arguments to_GLintptr : simpl never.
#[global] Arguments TEXTURE_COUNT : simpl never.
#[global] Arguments ring_next : simpl never.
#[global] Arguments tex_at : simpl never.
#[global] Arguments upd_tex : simpl never.
#[global] Arguments plane_at : simpl never.
#[global] Arguments offset_at : simpl never.
#[global] Arguments sampler_at : simpl never.
#[global] Arguments t_at : simpl never.
#[global] Arguments Z.rem : simpl never.
#[global] Arguments egl_texture_unmap : simpl never.
#[global] Arguments egl_texture_map : simpl never.
#[global] Arguments for_loop : simpl never.
#[global] Arguments egl_warn_slow : simpl never.
#[global] Arguments setup_realloc : simpl never.
#[global] Arguments setup_storage : simpl never.
#[global] Arguments realloc_objects : simpl never.
#[global] Arguments switch_pixFmt : simpl never.

(** ** Ring arithmetic *)

Ltac mod_lia := Z.to_euclidean_division_equations; lia.

Lemma ring_next_ok i : idx_ok (ring_next i).
Proof. unfold idx_ok, ring_next, TEXTURE_COUNT. mod_lia. Qed.

Lemma next_uint8 i :
  idx_ok i -> to_uint8 (Z.rem (i + 1) TEXTURE_COUNT) = ring_next i.
Proof.
  unfold idx_ok, to_uint8, ring_next, TEXTURE_COUNT. intros H.
  rewrite Z.rem_mod_nonneg by lia. mod_lia.
Qed.

Lemma next_int8 i :
  idx_ok i -> to_int8 (Z.rem (i + 1) TEXTURE_COUNT) = ring_next i.
Proof.
  unfold idx_ok, to_int8, ring_next, TEXTURE_COUNT. intros H.
  rewrite Z.rem_mod_nonneg by lia. mod_lia.
Qed.

Lemma int8_ring_next i : to_int8 (ring_next i) = ring_next i.
Proof. unfold to_int8, ring_next, TEXTURE_COUNT. mod_lia. Qed.

(** ** Histories *)

Lemma with_history_nil w : with_history w [] = w.
Proof. destruct w. unfold with_history. simpl. rewrite app_nil_r. auto. Qed.

Lemma with_history_app w a b :
  with_history (with_history w a) b = with_history w (a ++ b).
Proof. unfold with_history. simpl. rewrite app_assoc. auto. Qed.

Lemma emit_eq e w : emit e w = (tt, with_history w [e]).
Proof. reflexivity. Qed.

(** A loop whose body only makes calls makes the calls of each turn, in
    order. *)
Lemma for_from_emits (f : Z -> EGL_Texture -> list event) body :
  (forall i w, body i w = (tt, with_history w (f i (texture w)))) ->
  forall n i w,
    for_from i n body w =
    (tt, with_history w
           (flat_map (fun k => f k (texture w))
              ((fun k => i + Z.of_nat k) <$> seq 0 n))).
Proof.
  intros Hb n. induction n as [|n IH]; intros i w.
  - simpl. rewrite with_history_nil. reflexivity.
  - cbn [for_from]. unfold bind. rewrite Hb, IH. cbn [texture with_history].
    rewrite with_history_app. do 2 f_equal.
    cbn [seq fmap list_fmap flat_map]. rewrite Z.add_0_r. f_equal.
    rewrite <- seq_shift, <- list_fmap_compose.
    f_equal. apply list_fmap_ext. intros _ k _. simpl. lia.
Qed.

Lemma for_loop_emits (f : Z -> EGL_Texture -> list event) body n w :
  (forall i w, body i w = (tt, with_history w (f i (texture w)))) ->
  for_loop n body w =
  (tt, with_history w (flat_map (fun k => f k (texture w)) (plane_range n))).
Proof.
  intros Hb. unfold for_loop, plane_range.
  rewrite (for_from_emits f body Hb). do 3 f_equal.
Qed.

(** Rewrites a loop whose turns only make the calls [f]. *)
Ltac loop_emits f :=
  rewrite (for_loop_emits f);
  [ | intros ? ?; unfold bind, get_texture, emit, with_history; cbn;
      rewrite <- ?app_assoc; reflexivity ].

(** ** egl_texture_unmap and egl_texture_map *)

Lemma unmap_spec w :
  egl_texture_unmap w =
  (tt, {| texture := unmap_all (texture w); warnDone := warnDone w;
          history := history w ++ unmap_events (texture w) |}).
Proof.
  assert (Hslot : forall i w,
    (let* t := get_texture in
     if tex_map (tex_at t i) =? NULL then ret tt
     else
       emit (glBindBuffer GL_PIXEL_UNPACK_BUFFER (tex_pbo (tex_at t i))) ;;
       emit (glUnmapBuffer GL_PIXEL_UNPACK_BUFFER) ;;
       modify_texture (upd_tex i (set_tex_map NULL))) w =
    (tt, {| texture := unmap_slot i (texture w); warnDone := warnDone w;
            history := history w ++ unmap_slot_events i (texture w) |})).
  { intros i [t wd h]. unfold bind, get_texture, unmap_slot, unmap_slot_events.
    cbn. destruct (tex_map (tex_at t i) =? NULL); cbn.
    - rewrite app_nil_r. reflexivity.
    - rewrite <- app_assoc. reflexivity. }
  unfold egl_texture_unmap, for_loop, unmap_all, unmap_events.
  change (Z.to_nat TEXTURE_COUNT) with 3%nat. cbn [for_from].
  do 3 (unfold bind at 1; rewrite Hslot; cbn [texture warnDone history]).
  change (0 + 1) with 1. change (1 + 1) with 2.
  rewrite <- !app_assoc. reflexivity.
Qed.

Lemma unmap_keeps {X} (proj : EGL_Texture -> X) :
  (forall i p t, proj (upd_tex i (set_tex_map p) t) = proj t) ->
  respects (keeps proj) egl_texture_unmap.
Proof. intros H. walk; prims; apply H. Qed.

Lemma map_from_respects gl R `{!Step R} :
  (forall e, respects R (emit e)) ->
  (forall f e, respects R (call (A := pointer) f e)) ->
  (forall i p, respects R (modify_texture (upd_tex i (set_tex_map p)))) ->
  forall n i, respects R (egl_texture_map_from gl i n).
Proof.
  intros He Hc Hm n. induction n as [|n IH]; intros i; cbn [egl_texture_map_from].
  - apply respects_ret; typeclasses eauto.
  - walk; auto.
Qed.

Lemma map_respects gl R `{!Step R} :
  (forall e, respects R (emit e)) ->
  (forall f e, respects R (call (A := pointer) f e)) ->
  (forall i p, respects R (modify_texture (upd_tex i (set_tex_map p)))) ->
  respects R (egl_texture_map gl).
Proof.
  intros He Hc Hm. unfold egl_texture_map.
  apply respects_bind; [typeclasses eauto | apply map_from_respects; auto |].
  intros ok. walk; auto.
Qed.

Lemma map_keeps gl {X} (proj : EGL_Texture -> X) :
  (forall i p t, proj (upd_tex i (set_tex_map p) t) = proj t) ->
  respects (keeps proj) (egl_texture_map gl).
Proof.
  intros H. apply map_respects; [typeclasses eauto | intros; prims ..].
  apply H.
Qed.

(** Changing a mapped pointer touches neither the fences nor anything
    outside the slots. *)
Lemma syncs_upd_map i p t : syncs (upd_tex i (set_tex_map p) t) = syncs t.
Proof.
  unfold syncs, upd_tex. cbn. generalize (idx i) as n.
  induction (tex t) as [|x l IH]; intros [|n]; cbn; auto.
  f_equal. apply IH.
Qed.

Lemma length_tex_upd i f t : length (tex (upd_tex i f t)) = length (tex t).
Proof. unfold upd_tex. cbn. apply length_alter. Qed.

(** ** The producer *)

Lemma warn_slow_spec w :
  egl_warn_slow w =
  (tt, {| texture := texture w; warnDone := true;
          history := history w ++
                     (if warnDone w then [] else slow_warning) |}).
Proof.
  unfold egl_warn_slow. destruct w as [t [|] h]; cbn.
  - rewrite app_nil_r. reflexivity.
  - reflexivity.
Qed.

Lemma update_overrun buffer w :
  streaming (texture w) = true ->
  idx_ok (st_w (state (texture w))) ->
  ring_next (st_w (state (texture w))) = st_u (state (texture w)) ->
  egl_texture_update buffer w =
  (true, {| texture := texture w; warnDone := true;
            history := history w ++
              atomic_load_explicit memory_order_acquire ::
              (if warnDone w then [] else slow_warning) |}).
Proof.
  intros Hs Hw Hn. unfold egl_texture_update, bind, get_texture, load_state.
  rewrite Hs. cbn. rewrite next_uint8, Hn, Z.eqb_refl by assumption.
  rewrite warn_slow_spec. cbn. rewrite <- app_assoc. reflexivity.
Qed.

Lemma update_copy buffer w :
  streaming (texture w) = true ->
  idx_ok (st_w (state (texture w))) ->
  ring_next (st_w (state (texture w))) <> st_u (state (texture w)) ->
  egl_texture_update buffer w =
  (true,
   {| texture :=
        set_state (set_st_w (ring_next (st_w (state (texture w))))
                     (state (texture w))) (texture w);
      warnDone := warnDone w;
      history := history w ++
        [atomic_load_explicit memory_order_acquire;
         memcpy (tex_map (tex_at (texture w) (st_w (state (texture w)))))
           buffer (pboBufferSize (texture w));
         atomic_store_explicit field_w
           (ring_next (st_w (state (texture w)))) memory_order_release] |}).
Proof.
  intros Hs Hw Hn. unfold egl_texture_update, bind, get_texture, load_state.
  rewrite Hs. cbn. rewrite next_uint8 by assumption.
  destruct (Z.eqb_spec (ring_next (st_w (state (texture w))))
              (st_u (state (texture w)))) as [E|_]; [contradiction|].
  cbn. rewrite int8_ring_next, <- !app_assoc. reflexivity.
Qed.

Lemma update_from_frame_overrun frame w :
  streaming (texture w) = true ->
  idx_ok (st_w (state (texture w))) ->
  ring_next (st_w (state (texture w))) = st_u (state (texture w)) ->
  egl_texture_update_from_frame frame w =
  (true, {| texture := texture w; warnDone := true;
            history := history w ++
              atomic_load_explicit memory_order_acquire ::
              (if warnDone w then [] else slow_warning) |}).
Proof.
  intros Hs Hw Hn.
  unfold egl_texture_update_from_frame, bind, get_texture, load_state.
  rewrite Hs. cbn. rewrite next_uint8, Hn, Z.eqb_refl by assumption.
  rewrite warn_slow_spec. cbn. rewrite <- app_assoc. reflexivity.
Qed.

Lemma update_from_frame_copy frame w :
  streaming (texture w) = true ->
  idx_ok (st_w (state (texture w))) ->
  ring_next (st_w (state (texture w))) <> st_u (state (texture w)) ->
  egl_texture_update_from_frame frame w =
  (true,
   {| texture :=
        set_state (set_st_w (ring_next (st_w (state (texture w))))
                     (state (texture w))) (texture w);
      warnDone := warnDone w;
      history := history w ++
        [atomic_load_explicit memory_order_acquire;
         framebuffer_read frame
           (tex_map (tex_at (texture w) (st_w (state (texture w)))))
           (stride (texture w)) (height (texture w)) (width (texture w))
           (bpp (texture w)) (stride (texture w));
         atomic_store_explicit field_w
           (ring_next (st_w (state (texture w)))) memory_order_release] |}).
Proof.
  intros Hs Hw Hn.
  unfold egl_texture_update_from_frame, bind, get_texture, load_state.
  rewrite Hs. cbn. rewrite next_uint8 by assumption.
  destruct (Z.eqb_spec (ring_next (st_w (state (texture w))))
              (st_u (state (texture w)))) as [E|_]; [contradiction|].
  cbn. rewrite int8_ring_next, <- !app_assoc. reflexivity.
Qed.

Lemma update_direct buffer w :
  streaming (texture w) = false ->
  egl_texture_update buffer w =
  (true, with_history w
           (direct_events (texture w) buffer ++
            [glBindTexture GL_TEXTURE_2D 0])).
Proof.
  intros Hs. unfold egl_texture_update, bind at 1, get_texture. rewrite Hs.
  unfold bind at 1.
  rewrite (for_loop_emits (fun p t => direct_plane t buffer p)).
  - unfold bind, emit, ret. cbn. unfold with_history. cbn.
    rewrite <- app_assoc. reflexivity.
  - intros p w'. unfold bind, get_texture, emit, with_history. cbn.
    rewrite <- !app_assoc. reflexivity.
Qed.

(** ** The uploader *)

Lemma state_unmap_all t : state (unmap_all t) = state t.
Proof.
  unfold unmap_all, unmap_slot.
  repeat match goal with |- context [if ?b then _ else _] => destruct b end;
    reflexivity.
Qed.

Lemma planeCount_unmap_all t : planeCount (unmap_all t) = planeCount t.
Proof.
  unfold unmap_all, unmap_slot.
  repeat match goal with |- context [if ?b then _ else _] => destruct b end;
    reflexivity.
Qed.

Lemma process_idle gl w :
  streaming (texture w) = false ->
  egl_texture_process gl w = (EGL_TEX_STATUS_OK, w).
Proof.
  intros Hs. unfold egl_texture_process, bind, get_texture. rewrite Hs.
  reflexivity.
Qed.

Lemma process_skip gl w :
  streaming (texture w) = true ->
  idx_ok (st_u (state (texture w))) ->
  u_advances (state (texture w)) = false ->
  egl_texture_process gl w =
  (if ready (texture w) then EGL_TEX_STATUS_OK else EGL_TEX_STATUS_NOTREADY,
   with_history w [atomic_load_explicit memory_order_acquire]).
Proof.
  intros Hs Hu Hg. unfold egl_texture_process, bind, get_texture, load_state.
  rewrite Hs. cbn. rewrite next_uint8 by assumption.
  unfold u_advances in Hg. apply negb_false_iff in Hg. rewrite Hg.
  reflexivity.
Qed.

Lemma process_upload gl w :
  streaming (texture w) = true ->
  idx_ok (st_u (state (texture w))) ->
  u_advances (state (texture w)) = true ->
  egl_texture_process gl w =
  (EGL_TEX_STATUS_OK,
   let w3 := exec (egl_texture_map gl) (published_world gl w) in
   with_texture w3 (set_ready true (texture w3))).
Proof.
  intros Hs Hu Hg. unfold egl_texture_process, bind, get_texture, load_state.
  rewrite Hs. cbn. rewrite next_uint8 by assumption.
  unfold u_advances in Hg. apply negb_true_iff in Hg. rewrite Hg.
  rewrite unmap_spec. cbn.
  rewrite (for_loop_emits
             (fun p t => upload_plane t (st_u (state (texture w))) p)).
  2:{ intros p w'. unfold bind, get_texture, emit, with_history. cbn.
      rewrite <- !app_assoc. reflexivity. }
  cbn. rewrite int8_ring_next.
  match goal with |- (let (_, _) := egl_texture_map gl ?a in _) = _ =>
    replace a with (published_world gl w) end.
  - unfold exec. destruct (egl_texture_map gl _) as [ok w3]. reflexivity.
  - unfold published_world, upload_fence, upload_history, upload_calls,
      upload_events.
    change (state (upd_tex ?i ?f ?t)) with (state t).
    rewrite state_unmap_all.
    repeat (rewrite <- app_assoc; cbn [app]). reflexivity.
Qed.

(** ** The binder *)

Lemma bind_not_streaming gl w :
  streaming (texture w) = false ->
  egl_texture_bind gl w =
  (EGL_TEX_STATUS_OK,
   with_history w (atomic_load_explicit memory_order_acquire
                   :: bind_events (texture w) (st_d (state (texture w))))).
Proof.
  intros Hs. unfold egl_texture_bind, bind, get_texture, load_state.
  cbn. rewrite Hs. cbn.
  loop_emits (fun i t => bind_plane t (st_d (state (texture w))) i).
  unfold with_history. cbn. rewrite <- app_assoc. reflexivity.
Qed.

Lemma bind_not_ready gl w :
  streaming (texture w) = true ->
  ready (texture w) = false ->
  egl_texture_bind gl w =
  (EGL_TEX_STATUS_NOTREADY,
   with_history w [atomic_load_explicit memory_order_acquire]).
Proof.
  intros Hs Hr. unfold egl_texture_bind, bind, get_texture, load_state.
  cbn. rewrite Hs. unfold bind_streaming, bind, get_texture. cbn.
  rewrite Hr. reflexivity.
Qed.

Lemma bind_planes_spec s w :
  bind_planes s w = (tt, with_history w (bind_events (texture w) (st_d s))).
Proof.
  unfold bind_planes, bind, get_texture.
  loop_emits (fun i t => bind_plane t (st_d s) i). reflexivity.
Qed.

Lemma bind_advance_d_spec s w :
  idx_ok (st_d s) ->
  bind_advance_d s w =
  (advance_d s,
   {| texture := commit_d s (texture w); warnDone := warnDone w;
      history := history w ++ advance_d_events s |}).
Proof.
  intros Hd. unfold bind_advance_d. cbv zeta.
  rewrite next_int8 by assumption.
  unfold commit_d, advance_d, advance_d_events, d_advances.
  destruct (negb (st_d s =? st_s s) && negb (ring_next (st_d s) =? st_s s)).
  - unfold bind, store_field, bind, emit, modify_texture. cbn.
    rewrite int8_ring_next. reflexivity.
  - destruct w. unfold ret. cbn. rewrite app_nil_r. reflexivity.
Qed.

Lemma bind_events_commit s t d :
  bind_events (commit_d s t) d = bind_events t d.
Proof. unfold commit_d. destruct (d_advances s); reflexivity. Qed.

#[global] Arguments bind_wait : simpl never.
#[global] Arguments bind_advance_d : simpl never.
#[global] Arguments bind_planes : simpl never.

Lemma bind_wait_none gl s w :
  tex_sync (tex_at (texture w) (st_s s)) = 0 ->
  bind_wait gl s w = (inr s, w).
Proof.
  intros H. unfold bind_wait, bind, get_texture. rewrite H. reflexivity.
Qed.

Lemma bind_wait_signaled gl s w :
  tex_sync (tex_at (texture w) (st_s s)) <> 0 ->
  idx_ok (st_s s) ->
  classify_wait (client_wait_sync gl (history w)) = fence_signaled ->
  bind_wait gl s w =
  (inr (set_st_s (ring_next (st_s s)) s),
   {| texture := set_state (set_st_s (ring_next (st_s s)) (state (texture w)))
                   (upd_tex (st_s s) (set_tex_sync 0) (texture w));
      warnDone := warnDone w;
      history := history w ++
        [glClientWaitSync (tex_sync (tex_at (texture w) (st_s s))) 0 20000000;
         glDeleteSync (tex_sync (tex_at (texture w) (st_s s)));
         atomic_store_explicit field_s (ring_next (st_s s))
           memory_order_release] |}).
Proof.
  intros H Hs Hc. unfold bind_wait, bind, get_texture.
  destruct (Z.eqb_spec (tex_sync (tex_at (texture w) (st_s s))) 0) as [E|_];
    [contradiction|].
  unfold call. cbn [history].
  destruct (client_wait_sync gl (history w)); try discriminate Hc;
    unfold emit, modify_texture, store_field, bind, emit, modify_texture, ret;
    cbn; rewrite !next_int8, !int8_ring_next by assumption;
    rewrite <- !app_assoc; reflexivity.
Qed.

Lemma bind_wait_pending gl s w :
  tex_sync (tex_at (texture w) (st_s s)) <> 0 ->
  classify_wait (client_wait_sync gl (history w)) = fence_pending ->
  bind_wait gl s w =
  (inr s,
   with_history w
     [glClientWaitSync (tex_sync (tex_at (texture w) (st_s s))) 0 20000000]).
Proof.
  intros H Hc. unfold bind_wait, bind, get_texture.
  destruct (Z.eqb_spec (tex_sync (tex_at (texture w) (st_s s))) 0) as [E|_];
    [contradiction|].
  unfold call. cbn [history].
  destruct (client_wait_sync gl (history w)); try discriminate Hc;
    reflexivity.
Qed.

Lemma bind_wait_failed gl s w :
  tex_sync (tex_at (texture w) (st_s s)) <> 0 ->
  classify_wait (client_wait_sync gl (history w)) = fence_failed ->
  bind_wait gl s w =
  (inl EGL_TEX_STATUS_ERROR,
   {| texture := upd_tex (st_s s) (set_tex_sync 0) (texture w);
      warnDone := warnDone w;
      history := history w ++
        [glClientWaitSync (tex_sync (tex_at (texture w) (st_s s))) 0 20000000;
         glDeleteSync (tex_sync (tex_at (texture w) (st_s s)));
         EGL_ERROR "glClientWaitSync failed" []] |}).
Proof.
  intros H Hc. unfold bind_wait, bind, get_texture.
  destruct (Z.eqb_spec (tex_sync (tex_at (texture w) (st_s s))) 0) as [E|_];
    [contradiction|].
  unfold call. cbn [history].
  destruct (client_wait_sync gl (history w)); try discriminate Hc;
    unfold emit, modify_texture, bind, ret; cbn;
    rewrite <- !app_assoc; reflexivity.
Qed.

(** [egl_texture_bind] on a streaming texture that is ready. *)
Lemma bind_ready gl w :
  streaming (texture w) = true ->
  ready (texture w) = true ->
  egl_texture_bind gl w =
  (let (r, w1) :=
     bind_wait gl (state (texture w))
       (with_history w [atomic_load_explicit memory_order_acquire]) in
   match r with
   | inl status => (status, w1)
   | inr s =>
     let (s', w2) := bind_advance_d s w1 in
     (EGL_TEX_STATUS_OK, exec (bind_planes s') w2)
   end).
Proof.
  intros Hs Hr. unfold egl_texture_bind, bind, get_texture, load_state.
  cbn. rewrite Hs. unfold bind_streaming, bind, get_texture. cbn.
  rewrite Hr. cbn. unfold with_history.
  destruct (bind_wait gl _ _) as [[st|s1] w1]; [reflexivity|].
  destruct (bind_advance_d s1 w1) as [s' w2]. unfold ret, exec.
  destruct (bind_planes s' w2) as [[] w3]. reflexivity.
Qed.

Lemma bind_finish_eq s w :
  idx_ok (st_d s) ->
  (let (s', w2) := bind_advance_d s w in
   (EGL_TEX_STATUS_OK, exec (bind_planes s') w2)) = bind_finish s w.
Proof.
  intros Hd. rewrite bind_advance_d_spec by assumption.
  unfold exec. rewrite bind_planes_spec. unfold bind_finish, with_history.
  cbn. rewrite <- app_assoc. reflexivity.
Qed.

Lemma bind_no_fence gl w :
  streaming (texture w) = true ->
  ready (texture w) = true ->
  idx_ok (st_d (state (texture w))) ->
  tex_sync (tex_at (texture w) (st_s (state (texture w)))) = 0 ->
  egl_texture_bind gl w =
  bind_finish (state (texture w))
    (with_history w [atomic_load_explicit memory_order_acquire]).
Proof.
  intros Hs Hr Hd H0. rewrite bind_ready by assumption.
  rewrite bind_wait_none by exact H0. apply bind_finish_eq, Hd.
Qed.

Lemma bind_signaled gl w :
  streaming (texture w) = true ->
  ready (texture w) = true ->
  idx_ok (st_s (state (texture w))) ->
  idx_ok (st_d (state (texture w))) ->
  tex_sync (tex_at (texture w) (st_s (state (texture w)))) <> 0 ->
  classify_wait
    (client_wait_sync gl
       (history w ++ [atomic_load_explicit memory_order_acquire])) =
    fence_signaled ->
  egl_texture_bind gl w =
  bind_finish (state (texture (scheduled_world w))) (scheduled_world w).
Proof.
  intros Hs Hr Hi Hd H0 Hc. rewrite bind_ready by assumption.
  rewrite bind_wait_signaled by assumption.
  rewrite bind_finish_eq by exact Hd.
  unfold scheduled_world, wait_call. cbn. rewrite <- app_assoc. reflexivity.
Qed.

Lemma bind_pending gl w :
  streaming (texture w) = true ->
  ready (texture w) = true ->
  idx_ok (st_d (state (texture w))) ->
  tex_sync (tex_at (texture w) (st_s (state (texture w)))) <> 0 ->
  classify_wait
    (client_wait_sync gl
       (history w ++ [atomic_load_explicit memory_order_acquire])) =
    fence_pending ->
  egl_texture_bind gl w =
  bind_finish (state (texture w))
    (with_history w [atomic_load_explicit memory_order_acquire;
                     wait_call (texture w)]).
Proof.
  intros Hs Hr Hd H0 Hc. rewrite bind_ready by assumption.
  rewrite bind_wait_pending by assumption.
  rewrite bind_finish_eq by exact Hd.
  rewrite with_history_app. reflexivity.
Qed.

Lemma bind_failed gl w :
  streaming (texture w) = true ->
  ready (texture w) = true ->
  tex_sync (tex_at (texture w) (st_s (state (texture w)))) <> 0 ->
  classify_wait
    (client_wait_sync gl
       (history w ++ [atomic_load_explicit memory_order_acquire])) =
    fence_failed ->
  egl_texture_bind gl w = (EGL_TEX_STATUS_ERROR, failed_world w).
Proof.
  intros Hs Hr H0 Hc. rewrite bind_ready by assumption.
  rewrite bind_wait_failed by assumption.
  unfold failed_world, wait_call. cbn. rewrite <- app_assoc. reflexivity.
Qed.

(** ** The fences under slot updates *)

Lemma syncs_upd i f t :
  (forall x, tex_sync (f x) = tex_sync x) ->
  syncs (upd_tex i f t) = syncs t.
Proof.
  intros Hf. unfold syncs, upd_tex. cbn. generalize (idx i) as n.
  induction (tex t) as [|x l IH]; intros [|n]; cbn; auto.
  - rewrite Hf. reflexivity.
  - f_equal. apply IH.
Qed.

Lemma syncs_upd_sync i v t :
  syncs (upd_tex i (set_tex_sync v) t) = <[idx i := v]> (syncs t).
Proof.
  unfold syncs, upd_tex. cbn. generalize (idx i) as n.
  induction (tex t) as [|x l IH]; intros [|n]; cbn; auto.
  f_equal. apply IH.
Qed.

Lemma sync_at t i :
  (idx i < length (tex t))%nat ->
  tex_sync (tex_at t i) = syncs t !!! idx i.
Proof.
  intros H. unfold tex_at, syncs. symmetry.
  apply list_lookup_total_fmap, H.
Qed.

Lemma syncs_unmap_all t : syncs (unmap_all t) = syncs t.
Proof.
  unfold unmap_all, unmap_slot.
  repeat match goal with |- context [if ?b then _ else _] => destruct b end;
    rewrite ?syncs_upd; auto.
Qed.

Lemma core_set_state s t :
  core (set_state s t) =
  {| c_state := s; c_syncs := syncs t; c_streaming := streaming t;
     c_ready := ready t |}.
Proof. reflexivity. Qed.

(** ** egl_texture_setup *)

Lemma setup_spec gl f wd ht sd str w :
  egl_texture_setup gl f wd ht sd str w =
  let t0 := set_state zero_state (set_params f wd ht sd str (texture w)) in
  let h0 := history w ++ [atomic_store_explicit_v 0 memory_order_relaxed] in
  match switch_pixFmt f wd ht sd t0 with
  | None =>
    (false, {| texture := t0; warnDone := warnDone w;
               history := h0 ++ [DEBUG_ERROR "Unsupported pixel format"] |})
  | Some (count, t') =>
    setup_storage gl count str
      (exec (setup_realloc gl count)
         {| texture := t'; warnDone := warnDone w; history := h0 |})
  end.
Proof.
  unfold egl_texture_setup, store_state_v0, bind, modify_texture, emit,
    get_texture. cbn.
  destruct (switch_pixFmt _ _ _ _ _) as [[count t']|]; [|reflexivity].
  unfold exec. destruct (setup_realloc gl count _) as [[] w1]. reflexivity.
Qed.

Lemma realloc_objects_keeps gl count {X} (proj : EGL_Texture -> X) :
  (forall i v t, proj (upd_tex i (set_tex_t v) t) = proj t) ->
  (forall v t, proj (set_samplers v t) = proj t) ->
  respects (keeps proj) (realloc_objects gl count).
Proof.
  intros H1 H2. unfold realloc_objects. walk; prims; auto.
Qed.

Lemma setup_realloc_keeps gl count {X} (proj : EGL_Texture -> X) :
  (forall i v t, proj (upd_tex i (set_tex_t v) t) = proj t) ->
  (forall v t, proj (set_samplers v t) = proj t) ->
  (forall v t, proj (set_planeCount v t) = proj t) ->
  respects (keeps proj) (setup_realloc gl count).
Proof.
  intros H1 H2 H3. unfold setup_realloc.
  apply respects_bind; [typeclasses eauto | prims_get |].
  intros t. apply respects_when; [typeclasses eauto|].
  apply respects_bind; [typeclasses eauto | | intros; prims; auto].
  apply realloc_objects_keeps; auto.
Qed.

Lemma setup_storage_keeps gl count str {X} (proj : EGL_Texture -> X) :
  (forall i p t, proj (upd_tex i (set_tex_map p) t) = proj t) ->
  (forall i n t,
     proj (upd_tex i (fun x => set_tex_hasPBO true (set_tex_pbo n x)) t)
     = proj t) ->
  respects (keeps proj) (setup_storage gl count str).
Proof.
  intros H1 H2. unfold setup_storage.
  walk; try prims; auto.
  apply map_keeps, H1.
Qed.

(** ** The code refines the state machine *)

Lemma exec_perform_bind {A} (m : M A) w :
  exec (let* _ := m in ret tt) w = exec m w.
Proof. unfold exec, bind. destruct (m w). reflexivity. Qed.

Lemma switch_core f wd ht sd t count t' :
  switch_pixFmt f wd ht sd t = Some (count, t') -> core t' = core t.
Proof.
  unfold switch_pixFmt. destruct f; intros H; inversion H; reflexivity.
Qed.

Lemma core_upd i f t :
  (forall x, tex_sync (f x) = tex_sync x) -> core (upd_tex i f t) = core t.
Proof. intros H. unfold core. rewrite syncs_upd by exact H. reflexivity. Qed.

Lemma setup_core gl f wd ht sd str w :
  core (texture (exec (egl_texture_setup gl f wd ht sd str) w)) =
  core_setup str (core (texture w)).
Proof.
  unfold exec. rewrite setup_spec. cbv zeta.
  destruct (switch_pixFmt _ _ _ _ _) as [[count t']|] eqn:E; [|reflexivity].
  apply switch_core in E.
  etransitivity.
  { apply (setup_storage_keeps gl count str core); intros;
      apply core_upd; reflexivity. }
  etransitivity.
  { apply (setup_realloc_keeps gl count core); intros;
      try reflexivity. apply core_upd; reflexivity. }
  cbn [texture]. rewrite E. reflexivity.
Qed.

Lemma update_core buffer w :
  idx_ok (st_w (state (texture w))) ->
  core (texture (exec (egl_texture_update buffer) w)) =
  core_update (core (texture w)).
Proof.
  intros Hw. unfold exec, core_update. cbn [core c_streaming c_state].
  destruct (streaming (texture w)) eqn:Hs.
  - destruct (Z.eqb_spec (ring_next (st_w (state (texture w))))
                (st_u (state (texture w)))) as [E|E].
    + rewrite update_overrun by assumption. cbn. reflexivity.
    + rewrite update_copy by assumption. unfold core; cbn; rewrite ?Hs; reflexivity.
  - rewrite update_direct by assumption. unfold core; cbn; rewrite ?Hs; reflexivity.
Qed.

Lemma update_from_frame_core frame w :
  idx_ok (st_w (state (texture w))) ->
  core (texture (exec (egl_texture_update_from_frame frame) w)) =
  core_update (core (texture w)).
Proof.
  intros Hw. unfold exec, core_update. cbn [core c_streaming c_state].
  destruct (streaming (texture w)) eqn:Hs.
  - destruct (Z.eqb_spec (ring_next (st_w (state (texture w))))
                (st_u (state (texture w)))) as [E|E].
    + rewrite update_from_frame_overrun by assumption. cbn. reflexivity.
    + rewrite update_from_frame_copy by assumption. unfold core; cbn;
      rewrite ?Hs; reflexivity.
  - unfold egl_texture_update_from_frame, bind, get_texture. rewrite Hs.
    unfold core; cbn; rewrite ?Hs; reflexivity.
Qed.

Lemma map_core gl w :
  core (texture (exec (egl_texture_map gl) w)) = core (texture w).
Proof.
  apply (map_keeps gl core). intros. apply core_upd. reflexivity.
Qed.

Lemma streaming_unmap_all t : streaming (unmap_all t) = streaming t.
Proof.
  unfold unmap_all, unmap_slot.
  repeat match goal with |- context [if ?b then _ else _] => destruct b end;
    reflexivity.
Qed.

Lemma ready_unmap_all t : ready (unmap_all t) = ready t.
Proof.
  unfold unmap_all, unmap_slot.
  repeat match goal with |- context [if ?b then _ else _] => destruct b end;
    reflexivity.
Qed.

Lemma core_published gl w :
  core (texture (published_world gl w)) =
  {| c_state := set_st_u (ring_next (st_u (state (texture w))))
                  (state (texture w));
     c_syncs := <[idx (st_u (state (texture w))) := upload_fence gl w]>
                  (syncs (texture w));
     c_streaming := streaming (texture w);
     c_ready := ready (texture w) |}.
Proof.
  unfold published_world, core. cbn [texture state set_state].
  change (syncs (set_state ?s ?t)) with (syncs t).
  change (streaming (set_state ?s ?t)) with (streaming t).
  change (ready (set_state ?s ?t)) with (ready t).
  rewrite syncs_upd_sync, syncs_unmap_all.
  change (streaming (upd_tex ?i ?f ?t)) with (streaming t).
  change (ready (upd_tex ?i ?f ?t)) with (ready t).
  rewrite streaming_unmap_all, ready_unmap_all. reflexivity.
Qed.

Lemma process_core gl w :
  idx_ok (st_u (state (texture w))) ->
  core (texture (exec (egl_texture_process gl) w)) =
  core_process (upload_fence gl w) (core (texture w)).
Proof.
  intros Hu. unfold core_process. cbn [core c_streaming c_state c_syncs c_ready].
  destruct (streaming (texture w)) eqn:Hs.
  - destruct (u_advances (state (texture w))) eqn:Hg.
    + unfold exec at 1. rewrite process_upload by assumption.
      cbn [snd andb]. cbv zeta. unfold with_texture. cbn [texture].
      pose proof (map_core gl (published_world gl w)) as Hk.
      rewrite core_published in Hk. unfold core in Hk.
      inversion Hk as [[H1 H2 H3 H4]]. unfold core.
      change (state (set_ready ?b ?t)) with (state t).
      change (syncs (set_ready ?b ?t)) with (syncs t).
      change (streaming (set_ready ?b ?t)) with (streaming t).
      cbn [ready set_ready]. rewrite H1, H2, H3, Hs. reflexivity.
    + unfold exec. rewrite process_skip by assumption.
      unfold core; cbn; rewrite ?Hs; reflexivity.
  - unfold exec. rewrite process_idle by assumption.
    unfold core; cbn; rewrite ?Hs; reflexivity.
Qed.

Lemma core_commit_d t :
  core (commit_d (state t) t) =
  {| c_state := advance_d (state t); c_syncs := syncs t;
     c_streaming := streaming t; c_ready := ready t |}.
Proof.
  unfold commit_d, advance_d, core. destruct (d_advances (state t));
    reflexivity.
Qed.

Lemma bind_core gl w :
  idx_ok (st_s (state (texture w))) ->
  idx_ok (st_d (state (texture w))) ->
  length (tex (texture w)) = 3%nat ->
  core (texture (exec (egl_texture_bind gl) w)) =
  core_bind
    (client_wait_sync gl
       (history w ++ [atomic_load_explicit memory_order_acquire]))
    (core (texture w)).
Proof.
  intros Hi Hd Hl. unfold core_bind.
  cbn [core c_streaming c_state c_syncs c_ready].
  assert (Hat : tex_sync (tex_at (texture w) (st_s (state (texture w)))) =
                syncs (texture w) !!! idx (st_s (state (texture w)))).
  { apply sync_at. rewrite Hl. unfold idx_ok, TEXTURE_COUNT in Hi.
    unfold idx. destruct (Z.ltb_spec (st_s (state (texture w))) 0); lia. }
  destruct (streaming (texture w)) eqn:Hs.
  - destruct (ready (texture w)) eqn:Hr; cbn [andb].
    + match goal with |- context [?x =? 0] =>
        replace x with
          (tex_sync (tex_at (texture w) (st_s (state (texture w)))))
          by exact Hat end.
      destruct (Z.eqb_spec
                  (tex_sync (tex_at (texture w) (st_s (state (texture w)))))
                  0) as [E|E].
      * unfold exec. rewrite bind_no_fence by assumption.
        unfold bind_finish. cbn [snd texture with_history].
        rewrite core_commit_d. rewrite Hs, Hr. reflexivity.
      * destruct (classify_wait _) eqn:Hc.
        -- unfold exec. rewrite bind_signaled by assumption.
           unfold bind_finish. cbn [snd texture].
           rewrite core_commit_d. unfold scheduled_world.
           cbn [texture state set_state].
           change (syncs (set_state ?s ?t)) with (syncs t).
           change (streaming (set_state ?s ?t)) with (streaming t).
           change (ready (set_state ?s ?t)) with (ready t).
           rewrite syncs_upd_sync.
           change (streaming (upd_tex ?i ?f ?t)) with (streaming t).
           change (ready (upd_tex ?i ?f ?t)) with (ready t).
           rewrite Hs, Hr. reflexivity.
        -- unfold exec. rewrite bind_pending by assumption.
           unfold bind_finish. cbn [snd texture with_history].
           rewrite core_commit_d. rewrite Hs, Hr. reflexivity.
        -- unfold exec. rewrite bind_failed by assumption.
           unfold failed_world, core. cbn [snd texture].
           rewrite syncs_upd_sync.
           change (state (upd_tex ?i ?f ?t)) with (state t).
           change (streaming (upd_tex ?i ?f ?t)) with (streaming t).
           change (ready (upd_tex ?i ?f ?t)) with (ready t).
           rewrite Hs, Hr. reflexivity.
    + unfold exec. rewrite bind_not_ready by assumption.
      unfold core; cbn; rewrite ?Hs, ?Hr; reflexivity.
  - unfold exec. rewrite bind_not_streaming by assumption.
    unfold core; cbn; rewrite ?Hs; reflexivity.
Qed.

Lemma length_syncs t : length (syncs t) = length (tex t).
Proof. unfold syncs. apply length_fmap. Qed.

(** Every call of the interface is a move of the state machine. *)
Lemma perform_core gl call w :
  core_ok (core (texture w)) ->
  core (texture (exec (perform gl call) w)) =
  core_perform call (upload_fence gl w)
    (client_wait_sync gl
       (history w ++ [atomic_load_explicit memory_order_acquire]))
    (core (texture w)).
Proof.
  intros (Hw & Hu & Hs & Hd & Hl). cbn [core c_state c_syncs] in *.
  rewrite length_syncs in Hl.
  destruct call; unfold perform; rewrite exec_perform_bind;
    cbn [core_perform].
  - apply setup_core.
  - apply update_core, Hw.
  - apply update_from_frame_core, Hw.
  - apply process_core, Hu.
  - apply bind_core; assumption.
  - reflexivity.
Qed.

(** ** Invariants of the state machine *)

Lemma advance_d_ok s :
  idx_ok (st_w s) -> idx_ok (st_u s) -> idx_ok (st_s s) -> idx_ok (st_d s) ->
  idx_ok (st_w (advance_d s)) /\ idx_ok (st_u (advance_d s)) /\
  idx_ok (st_s (advance_d s)) /\ idx_ok (st_d (advance_d s)).
Proof.
  intros. unfold advance_d. destruct (d_advances s); cbn; auto using ring_next_ok.
Qed.

Lemma core_perform_ok call fence status c :
  core_ok c -> core_ok (core_perform call fence status c).
Proof.
  intros (Hw & Hu & Hs & Hd & Hl).
  destruct call; cbn [core_perform]; unfold core_ok.
  - cbn. unfold idx_ok, TEXTURE_COUNT. repeat split; auto; lia.
  - unfold core_update.
    destruct (_ && _); cbn; auto using ring_next_ok.
  - unfold core_update.
    destruct (_ && _); cbn; auto using ring_next_ok.
  - unfold core_process.
    destruct (_ && _); cbn; rewrite ?length_insert; auto using ring_next_ok.
  - unfold core_bind.
    destruct (_ && _); [|auto].
    pose proof (advance_d_ok (c_state c) Hw Hu Hs Hd) as (a1 & a2 & a3 & a4).
    pose proof (advance_d_ok
                  (set_st_s (ring_next (st_s (c_state c))) (c_state c))
                  Hw Hu (ring_next_ok _) Hd) as (b1 & b2 & b3 & b4).
    destruct (_ =? 0); [|destruct (classify_wait status)];
      cbn [c_state c_syncs]; rewrite ?length_insert;
      do 4 (split; [assumption|]); assumption.
  - auto.
Qed.

Lemma run_cons gl call cs w :
  run gl (call :: cs) w = run gl cs (exec (perform gl call) w).
Proof. reflexivity. Qed.

Lemma run_core_ok gl cs w :
  core_ok (core (texture w)) -> core_ok (core (texture (run gl cs w))).
Proof.
  revert w. induction cs as [|call cs IH]; intros w H; [exact H|].
  rewrite run_cons. apply IH. rewrite perform_core by exact H.
  apply core_perform_ok, H.
Qed.

Lemma init_world w0 :
  texture (exec (egl_texture_init true) w0) = zero_texture.
Proof. reflexivity. Qed.

Lemma zero_core_ok : core_ok (core zero_texture).
Proof.
  unfold core_ok, idx_ok, TEXTURE_COUNT. cbn. repeat split; lia.
Qed.

Lemma reachable_core_ok gl w : reachable gl w -> core_ok (core (texture w)).
Proof.
  intros (w0 & cs & ->). apply run_core_ok. rewrite init_world.
  apply zero_core_ok.
Qed.

Lemma core_perform_idle call fence status c :
  idle_zero c -> idle_zero (core_perform call fence status c).
Proof.
  unfold idle_zero. intros H.
  destruct call; cbn [core_perform]; [reflexivity | .. | exact H];
    unfold core_update, core_process, core_bind;
    destruct (c_streaming c) eqn:Hs; cbn [andb]; try (rewrite Hs; exact H);
    repeat match goal with
           | |- context [if ?b then _ else _] => destruct b
           | |- context [match ?x with _ => _ end] => destruct x
           end;
    cbn [c_streaming c_state]; rewrite ?Hs; intros E; discriminate E.
Qed.

Lemma reachable_idle gl w : reachable gl w -> idle_zero (core (texture w)).
Proof.
  intros (w0 & cs & ->).
  assert (G : forall cs w, core_ok (core (texture w)) ->
            idle_zero (core (texture w)) ->
            idle_zero (core (texture (run gl cs w)))).
  { clear. induction cs as [|call cs IH]; intros w Hok H; [exact H|].
    rewrite run_cons. apply IH.
    - rewrite perform_core by exact Hok. apply core_perform_ok, Hok.
    - rewrite perform_core by exact Hok. apply core_perform_idle, H. }
  apply G.
  - rewrite init_world. apply zero_core_ok.
  - rewrite init_world. intros _. reflexivity.
Qed.

(** ** The ring order is an invariant of the state machine *)

Lemma idx_of_slot i : idx_ok i -> idx i = Z.to_nat i.
Proof.
  unfold idx_ok, idx. intros H. destruct (Z.ltb_spec i 0); [lia|reflexivity].
Qed.

Lemma lookup_insert_slot (fs : list GLsync) i j v :
  length fs = 3%nat -> idx_ok i -> idx_ok j ->
  <[idx i := v]> fs !!! idx j = if i =? j then v else fs !!! idx j.
Proof.
  intros Hl Hi Hj. rewrite list_lookup_total_insert.
  rewrite !idx_of_slot by assumption.
  unfold idx_ok, TEXTURE_COUNT in *.
  destruct (Z.eqb_spec i j) as [E|E]; case_decide; try reflexivity; lia.
Qed.

Lemma moved_same x : moved x x = 0.
Proof. unfold moved. rewrite Z.eqb_refl. reflexivity. Qed.

Lemma moved_next x : moved x (ring_next x) = 1.
Proof.
  unfold moved. destruct (Z.eqb_spec x (ring_next x)) as [E|E]; [|reflexivity].
  exfalso. unfold ring_next, TEXTURE_COUNT in E. mod_lia.
Qed.

Lemma ring_update c p :
  core_ok c -> ring_inv c p ->
  ring_inv (core_update c)
    (count_moves (c_state c) (c_state (core_update c)) p).
Proof.
  intros (Hw & Hu & Hs & Hd & Hl) (Hr & Hf). unfold core_update.
  destruct (c_streaming c && negb _) eqn:Hc.
  - apply andb_true_iff in Hc as (_ & Hc). apply negb_true_iff in Hc.
    apply Z.eqb_neq in Hc.
    unfold count_moves. cbn [c_state c_syncs st_w st_u st_s st_d set_st_w].
    rewrite moved_next, !moved_same. split.
    + unfold ring_ordered, ring_next, TEXTURE_COUNT in *. cbn.
      destruct Hr as (r1 & r2 & r3 & r4 & Hr). rewrite r1, r2 in Hc.
      rewrite r1. repeat split; try tauto; try mod_lia.
    + intros i Hi Hn. destruct (Hf i Hi Hn) as (k & Hk & Hk').
      exists k. cbn. split; [lia | exact Hk'].
  - unfold count_moves. rewrite !moved_same. destruct p. cbn.
    rewrite !Z.add_0_r. split; assumption.
Qed.

Lemma same_progress s p : count_moves s s p = p.
Proof.
  unfold count_moves. rewrite !moved_same. destruct p. cbn.
  rewrite !Z.add_0_r. reflexivity.
Qed.

Lemma ring_process fence c p :
  core_ok c -> ring_inv c p ->
  ring_inv (core_process fence c)
    (count_moves (c_state c) (c_state (core_process fence c)) p).
Proof.
  intros (Hw & Hu & Hs & Hd & Hl) (Hr & Hf). unfold core_process.
  destruct (c_streaming c && u_advances _) eqn:Hc.
  - apply andb_true_iff in Hc as (_ & Hc). unfold u_advances in Hc.
    apply negb_true_iff in Hc.
    apply orb_false_iff in Hc as (Hc & G3).
    apply orb_false_iff in Hc as (G1 & G2).
    apply Z.eqb_neq in G1, G2, G3.
    unfold count_moves. cbn [c_state c_syncs st_w st_u st_s st_d set_st_u].
    rewrite moved_next, !moved_same.
    destruct Hr as (r1 & r2 & r3 & r4 & Hr). split.
    + unfold ring_ordered, ring_next, TEXTURE_COUNT in *. cbn.
      rewrite r1, r2 in G1. rewrite r2, r3 in G2. rewrite r2, r4 in G3.
      rewrite r2. repeat split; try tauto; try mod_lia.
    + intros i Hi. cbn [c_syncs adv_s adv_u].
      rewrite lookup_insert_slot by assumption.
      destruct (Z.eqb_spec (st_u (c_state c)) i) as [E|E]; intros Hn.
      * exists (adv_u p). split; [lia|]. rewrite <- E. symmetry. exact r2.
      * destruct (Hf i Hi Hn) as (k & Hk & Hk'). exists k.
        split; [lia | exact Hk'].
  - rewrite same_progress. split; assumption.
Qed.

(** The [d] advance keeps the ring order. *)
Lemma ring_advance_d s p :
  idx_ok (st_d s) ->
  ring_ordered s p ->
  ring_ordered (advance_d s)
    {| adv_w := adv_w p; adv_u := adv_u p; adv_s := adv_s p;
       adv_d := adv_d p + moved (st_d s) (st_d (advance_d s)) |}.
Proof.
  intros Hd (r1 & r2 & r3 & r4 & Hr). unfold advance_d, d_advances.
  destruct (negb _ && negb _) eqn:Hc.
  - apply andb_true_iff in Hc as (G1 & G2).
    apply negb_true_iff in G1, G2. apply Z.eqb_neq in G1, G2.
    cbn [st_d set_st_d]. rewrite moved_next.
    unfold ring_ordered, ring_next, TEXTURE_COUNT in *. cbn.
    rewrite r3, r4 in G1, G2. rewrite r4.
    repeat split; try tauto; try mod_lia.
  - rewrite moved_same, Z.add_0_r. repeat split; tauto.
Qed.

Lemma advance_d_others s :
  st_w (advance_d s) = st_w s /\ st_u (advance_d s) = st_u s /\
  st_s (advance_d s) = st_s s.
Proof. unfold advance_d. destruct (d_advances s); cbn; auto. Qed.

Lemma ring_bind status c p :
  core_ok c -> ring_inv c p ->
  ring_inv (core_bind status c)
    (count_moves (c_state c) (c_state (core_bind status c)) p).
Proof.
  intros (Hw & Hu & Hs & Hd & Hl) (Hr & Hf). unfold core_bind.
  destruct (c_streaming c && c_ready c); [|rewrite same_progress; split; assumption].
  destruct (Z.eqb_spec (c_syncs c !!! idx (st_s (c_state c))) 0) as [E0|E0].
  - (* no fence on slot s *)
    cbn [c_state c_syncs]. unfold count_moves.
    destruct (advance_d_others (c_state c)) as (e1 & e2 & e3).
    rewrite e1, e2, e3, !moved_same, !Z.add_0_r. split.
    + apply ring_advance_d; assumption.
    + exact Hf.
  - destruct (classify_wait status); cbn [c_state c_syncs].
    + (* signalled: s moves on *)
      pose proof Hr as (r1 & r2 & r3 & r4 & Hr').
      destruct (Hf _ Hs E0) as (k0 & Hk0 & Hk0').
      set (s1 := set_st_s (ring_next (st_s (c_state c))) (c_state c)).
      destruct (advance_d_others s1) as (e1 & e2 & e3).
      unfold count_moves. rewrite e1, e2, e3. subst s1.
      cbn [st_w st_u st_s st_d set_st_s].
      rewrite moved_next, !moved_same, !Z.add_0_r. split.
      * apply (ring_advance_d
                 (set_st_s (ring_next (st_s (c_state c))) (c_state c))
                 {| adv_w := adv_w p; adv_u := adv_u p;
                    adv_s := adv_s p + 1; adv_d := adv_d p |}); [exact Hd|].
        unfold ring_ordered, ring_next, TEXTURE_COUNT in *. cbn.
        rewrite r3. repeat split; try tauto; try mod_lia.
      * intros i Hi. cbn [c_syncs adv_s adv_u].
        rewrite lookup_insert_slot by assumption.
        destruct (Z.eqb_spec (st_s (c_state c)) i) as [E|E]; intros Hn;
          [congruence|].
        destruct (Hf i Hi Hn) as (k & Hk & Hk'). exists k.
        split; [|exact Hk'].
        assert (k <> adv_s p); [|lia].
        intros ->. apply E. rewrite <- Hk'. exact r3.
    + (* still pending *)
      unfold count_moves.
      destruct (advance_d_others (c_state c)) as (e1 & e2 & e3).
      rewrite e1, e2, e3, !moved_same, !Z.add_0_r. split.
      * apply ring_advance_d; assumption.
      * exact Hf.
    + (* the wait failed: the fence goes, nothing moves *)
      rewrite same_progress. split; [exact Hr|].
      intros i Hi. cbn [c_syncs]. rewrite lookup_insert_slot by assumption.
      destruct (Z.eqb_spec (st_s (c_state c)) i) as [E|E]; intros Hn;
        [congruence|].
      exact (Hf i Hi Hn).
Qed.

Lemma ring_perform call fence status c p :
  is_setup call = false ->
  core_ok c -> ring_inv c p ->
  ring_inv (core_perform call fence status c)
    (count_moves (c_state c) (c_state (core_perform call fence status c)) p).
Proof.
  intros Hn Hok Hi. destruct call; cbn [core_perform]; try discriminate Hn.
  - apply ring_update; assumption.
  - apply ring_update; assumption.
  - apply ring_process; assumption.
  - apply ring_bind; assumption.
  - rewrite same_progress. exact Hi.
Qed.

(** ** Runs *)

Lemma run_counting_cons gl call cs w p :
  run_counting gl (call :: cs) (w, p) =
  run_counting gl cs
    (exec (perform gl call) w,
     count_moves (state (texture w))
       (state (texture (exec (perform gl call) w))) p).
Proof. reflexivity. Qed.

Lemma run_counting_inv gl cs :
  forallb (fun c => negb (is_setup c)) cs = true ->
  forall w p,
    core_ok (core (texture w)) -> ring_inv (core (texture w)) p ->
    core_ok (core (texture (fst (run_counting gl cs (w, p))))) /\
    ring_inv (core (texture (fst (run_counting gl cs (w, p)))))
      (snd (run_counting gl cs (w, p))).
Proof.
  induction cs as [|call cs IH]; intros Hn w p Hok Hi; [split; assumption|].
  cbn [forallb] in Hn. apply andb_true_iff in Hn as (Hc & Hn).
  apply negb_true_iff in Hc.
  rewrite run_counting_cons. apply IH; [exact Hn | |].
  - rewrite perform_core by exact Hok. apply core_perform_ok, Hok.
  - pose proof (perform_core gl call w Hok) as E.
    change (state (texture (exec (perform gl call) w)))
      with (c_state (core (texture (exec (perform gl call) w)))).
    rewrite E.
    change (state (texture w)) with (c_state (core (texture w))).
    apply ring_perform; assumption.
Qed.

(** The world a texture starts in: fresh from [egl_texture_init], set up
    once. *)
Lemma first_setup_inv gl f wd ht sd str w0 :
  let w := exec (egl_texture_setup gl f wd ht sd str)
             (exec (egl_texture_init true) w0) in
  core_ok (core (texture w)) /\ ring_inv (core (texture w)) no_progress.
Proof.
  cbv zeta. rewrite setup_core, init_world. split.
  - apply (core_perform_ok (do_setup f wd ht sd str) 0 GL_NONE).
    apply zero_core_ok.
  - split.
    + unfold ring_ordered, TEXTURE_COUNT. cbn. repeat split; lia.
    + intros i Hi. cbn. unfold idx_ok, TEXTURE_COUNT in Hi.
      rewrite idx_of_slot by exact Hi.
      assert (i = 0 \/ i = 1 \/ i = 2) as [->|[->| ->]] by lia;
        intros H; exfalso; apply H; reflexivity.
Qed.

(** What an advance of [u] by [egl_texture_process] presupposes. *)
Lemma process_advance_guard gl w :
  core_ok (core (texture w)) ->
  st_u (state (texture (exec (egl_texture_process gl) w)))
    <> st_u (state (texture w)) ->
  st_u (state (texture w)) <> st_w (state (texture w)) /\
  ring_next (st_u (state (texture w))) <> st_s (state (texture w)) /\
  ring_next (st_u (state (texture w))) <> st_d (state (texture w)) /\
  st_u (state (texture (exec (egl_texture_process gl) w))) =
    ring_next (st_u (state (texture w))).
Proof.
  intros (Hw & Hu & Hs & Hd & Hl).
  change (state (texture (exec (egl_texture_process gl) w)))
    with (c_state (core (texture (exec (egl_texture_process gl) w)))).
  rewrite process_core by exact Hu. unfold core_process.
  cbn [core c_state c_streaming].
  destruct (streaming (texture w) && u_advances _) eqn:Hc;
    cbn [c_state]; [|intros H; exfalso; apply H; reflexivity].
  intros _. apply andb_true_iff in Hc as (_ & Hc). unfold u_advances in Hc.
  apply negb_true_iff in Hc.
  apply orb_false_iff in Hc as (Hc & G3).
  apply orb_false_iff in Hc as (G1 & G2).
  apply Z.eqb_neq in G1, G2, G3. auto.
Qed.

Lemma advance_d_guard s :
  st_d (advance_d s) <> st_d s ->
  st_d s <> st_s s /\ ring_next (st_d s) <> st_s s /\
  st_d (advance_d s) = ring_next (st_d s) /\ st_s (advance_d s) = st_s s.
Proof.
  unfold advance_d, d_advances.
  destruct (negb _ && negb _) eqn:Hc; [|intros H; congruence].
  intros _. apply andb_true_iff in Hc as (G1 & G2).
  apply negb_true_iff in G1, G2. apply Z.eqb_neq in G1, G2. auto.
Qed.

(** What an advance of [d] by [egl_texture_bind] presupposes; [s] is
    read after the fence switch, as the code does. *)
Lemma bind_advance_guard gl w :
  core_ok (core (texture w)) ->
  st_d (state (texture (exec (egl_texture_bind gl) w)))
    <> st_d (state (texture w)) ->
  let s' := st_s (state (texture (exec (egl_texture_bind gl) w))) in
  st_d (state (texture w)) <> s' /\
  ring_next (st_d (state (texture w))) <> s' /\
  st_d (state (texture (exec (egl_texture_bind gl) w))) =
    ring_next (st_d (state (texture w))).
Proof.
  intros (Hw & Hu & Hs & Hd & Hl). cbn [core c_state c_syncs] in *.
  rewrite length_syncs in Hl. cbv zeta.
  change (state (texture (exec (egl_texture_bind gl) w)))
    with (c_state (core (texture (exec (egl_texture_bind gl) w)))).
  rewrite bind_core by assumption. unfold core_bind.
  cbn [core c_state c_streaming c_ready c_syncs].
  destruct (streaming (texture w) && ready (texture w));
    cbn [c_state]; [|intros H; exfalso; apply H; reflexivity].
  destruct (_ =? 0); [|destruct (classify_wait _)]; cbn [c_state];
    intros H; try (exfalso; apply H; reflexivity);
    match type of H with st_d (advance_d ?s) <> _ =>
      change (st_d (advance_d s) <> st_d s) in H end;
    apply advance_d_guard in H;
    cbn [st_d st_s set_st_s] in H; destruct H as (a & b & c & d);
    rewrite d; cbn [st_s set_st_s]; auto.
Qed.

(** Checks that a computed index is a slot of the ring. *)
Ltac slot_ok :=
  unfold idx_ok, TEXTURE_COUNT;
  match goal with
  | |- _ <= ?x < _ =>
    let v := eval vm_compute in x in
    replace x with v by (vm_compute; reflexivity)
  end; lia.

(** ** Counting calls *)

Lemma count_events_app p a b :
  count_events p (a ++ b) = (count_events p a + count_events p b)%nat.
Proof. unfold count_events. rewrite filter_app, length_app. reflexivity. Qed.

Lemma count_events_cons p e evs :
  count_events p (e :: evs) =
  ((if p e then 1 else 0) + count_events p evs)%nat.
Proof.
  unfold count_events. rewrite filter_cons.
  destruct (p e); case_decide; try congruence; reflexivity.
Qed.

Lemma count_events_none p evs :
  forallb (fun e => negb (p e)) evs = true -> count_events p evs = 0%nat.
Proof.
  induction evs as [|e evs IH]; [reflexivity|]. cbn [forallb].
  intros H. apply andb_true_iff in H as (He & H).
  rewrite count_events_cons, IH by exact H.
  apply negb_true_iff in He. rewrite He. reflexivity.
Qed.

Lemma forallb_flat_map {A} (q : event -> bool) (f : A -> list event) l :
  (forall x, forallb q (f x) = true) -> forallb q (flat_map f l) = true.
Proof.
  intros H. induction l as [|x l IH]; [reflexivity|].
  cbn [flat_map]. rewrite forallb_app, H, IH. reflexivity.
Qed.

Lemma emits_only_weaken (q q' : event -> bool) w w' :
  (forall e, q e = true -> q' e = true) ->
  emits_only q w w' -> emits_only q' w w'.
Proof.
  intros H (evs & E & F). exists evs. split; [exact E|].
  apply forallb_forall. intros e He.
  apply H. rewrite forallb_forall in F. apply F, He.
Qed.

(** ** Slots under a change of the mapped pointer *)

Lemma tex_at_upd i f t j :
  tex_at (upd_tex i f t) j = tex_at t j \/
  tex_at (upd_tex i f t) j = f (tex_at t j).
Proof.
  unfold tex_at, upd_tex. cbn [tex set_tex].
  rewrite list_lookup_total_alter. case_decide as H; [|left; reflexivity].
  right. destruct H as (-> & _). reflexivity.
Qed.

Lemma tex_at_unmap_slot i t j :
  tex_t (tex_at (unmap_slot i t) j) = tex_t (tex_at t j) /\
  tex_pbo (tex_at (unmap_slot i t) j) = tex_pbo (tex_at t j).
Proof.
  unfold unmap_slot. destruct (_ =? NULL); [split; reflexivity|].
  destruct (tex_at_upd i (set_tex_map NULL) t j) as [-> | ->];
    split; reflexivity.
Qed.

Lemma tex_at_unmap_all t j :
  tex_t (tex_at (unmap_all t) j) = tex_t (tex_at t j) /\
  tex_pbo (tex_at (unmap_all t) j) = tex_pbo (tex_at t j).
Proof.
  unfold unmap_all.
  destruct (tex_at_unmap_slot 2 (unmap_slot 1 (unmap_slot 0 t)) j) as (a & b).
  destruct (tex_at_unmap_slot 1 (unmap_slot 0 t) j) as (c & d).
  destruct (tex_at_unmap_slot 0 t j) as (e & g).
  split; congruence.
Qed.

Lemma outside_unmap_slot i t : set_tex [] (unmap_slot i t) = set_tex [] t.
Proof. unfold unmap_slot. destruct (_ =? NULL); reflexivity. Qed.

Lemma outside_unmap_all t : set_tex [] (unmap_all t) = set_tex [] t.
Proof. unfold unmap_all. rewrite !outside_unmap_slot. reflexivity. Qed.

Lemma upload_events_unmap t u :
  upload_events (unmap_all t) u = upload_events t u.
Proof.
  unfold upload_events. rewrite planeCount_unmap_all.
  apply flat_map_ext.
  intros p. unfold upload_plane, t_at.
  destruct (tex_at_unmap_all t u) as (-> & _).
  pose proof (outside_unmap_all t) as E.
  assert (planes (unmap_all t) = planes t) as Ep
    by exact (f_equal planes E).
  assert (offsets (unmap_all t) = offsets t) as Eo
    by exact (f_equal offsets E).
  assert (format (unmap_all t) = format t) as Ef
    by exact (f_equal format E).
  assert (dataType (unmap_all t) = dataType t) as Ed
    by exact (f_equal dataType E).
  unfold plane_at, offset_at. rewrite Ep, Eo, Ef, Ed. reflexivity.
Qed.

Lemma upload_calls_unmap t u :
  upload_calls (unmap_all t) u = upload_calls t u.
Proof.
  unfold upload_calls. rewrite upload_events_unmap.
  destruct (tex_at_unmap_all t u) as (_ & ->). reflexivity.
Qed.

(** ** The mapped pointers *)

Lemma maps_upd_map i v t :
  maps (upd_tex i (set_tex_map v) t) = <[idx i := v]> (maps t).
Proof.
  unfold maps, upd_tex. cbn. generalize (idx i) as n.
  induction (tex t) as [|x l IH]; intros [|n]; cbn; auto.
  f_equal. apply IH.
Qed.

Lemma maps_upd i f t :
  (forall x, tex_map (f x) = tex_map x) ->
  maps (upd_tex i f t) = maps t.
Proof.
  intros Hf. unfold maps, upd_tex. cbn. generalize (idx i) as n.
  induction (tex t) as [|x l IH]; intros [|n]; cbn; auto.
  - rewrite Hf. reflexivity.
  - f_equal. apply IH.
Qed.

Lemma length_maps t : length (maps t) = length (tex t).
Proof. unfold maps. apply length_fmap. Qed.

Lemma maps_unmap_slot i t :
  maps (unmap_slot i t) = <[idx i := NULL]> (maps t).
Proof.
  unfold unmap_slot.
  destruct (Z.eqb_spec (tex_map (tex_at t i)) NULL) as [E|E].
  - symmetry. unfold maps, tex_at in *.
    destruct (decide (idx i < length (tex t))%nat) as [Hl|Hl].
    + apply list_insert_id. rewrite list_lookup_fmap.
      rewrite (list_lookup_lookup_total_lt _ _ Hl). cbn. f_equal. exact E.
    + apply list_insert_ge. rewrite length_fmap. lia.
  - apply maps_upd_map.
Qed.

Lemma maps_unmap_all t :
  length (tex t) = 3%nat -> maps (unmap_all t) = [NULL; NULL; NULL].
Proof.
  intros Hl. unfold unmap_all. rewrite !maps_unmap_slot.
  rewrite <- length_maps in Hl.
  destruct (maps t) as [|a [|b [|c [|]]]]; try discriminate Hl. reflexivity.
Qed.

Lemma length_tex_unmap_all t : length (tex (unmap_all t)) = length (tex t).
Proof.
  unfold unmap_all, unmap_slot.
  repeat match goal with |- context [if ?b then _ else _] => destruct b end;
    rewrite ?length_tex_upd; reflexivity.
Qed.

(** A slot other than the one updated is as it was. *)
Lemma tex_at_upd_ne i f t j :
  idx i <> idx j -> tex_at (upd_tex i f t) j = tex_at t j.
Proof.
  intros H. unfold tex_at, upd_tex. cbn [tex set_tex].
  apply list_lookup_total_alter_ne, H.
Qed.

Lemma unmap_events_flat t :
  unmap_events t = unmap_calls t 0 ++ unmap_calls t 1 ++ unmap_calls t 2.
Proof.
  unfold unmap_events, unmap_slot_events, unmap_calls.
  assert (E1 : tex_at (unmap_slot 0 t) 1 = tex_at t 1).
  { unfold unmap_slot. destruct (_ =? NULL); [reflexivity|].
    apply tex_at_upd_ne. discriminate. }
  assert (E2 : tex_at (unmap_slot 1 (unmap_slot 0 t)) 2 = tex_at t 2).
  { unfold unmap_slot at 1. destruct (_ =? NULL).
    - unfold unmap_slot. destruct (_ =? NULL); [reflexivity|].
      apply tex_at_upd_ne. discriminate.
    - rewrite tex_at_upd_ne by discriminate.
      unfold unmap_slot. destruct (_ =? NULL); [reflexivity|].
      apply tex_at_upd_ne. discriminate. }
  rewrite E1, E2. reflexivity.
Qed.

Lemma unmap_events_buffer_calls t :
  forallb is_buffer_call (unmap_events t) = true.
Proof.
  rewrite unmap_events_flat. unfold unmap_calls.
  repeat match goal with |- context [if ?b then _ else _] => destruct b end;
    reflexivity.
Qed.

(** ** egl_texture_map *)

Lemma map_from_emits gl n :
  forall i, respects (emits_only is_map_phase) (egl_texture_map_from gl i n).
Proof.
  induction n as [|n IH]; intros i; cbn [egl_texture_map_from].
  - apply respects_ret; typeclasses eauto.
  - walk; try prims. apply IH.
Qed.

Lemma map_emits gl : respects (emits_only is_map_phase) (egl_texture_map gl).
Proof.
  unfold egl_texture_map.
  apply respects_bind; [typeclasses eauto | apply map_from_emits |].
  intros ok. walk; prims.
Qed.

Lemma tex_pbo_upd i f t j :
  (forall x, tex_pbo (f x) = tex_pbo x) ->
  tex_pbo (tex_at (upd_tex i f t) j) = tex_pbo (tex_at t j).
Proof.
  intros Hf. destruct (tex_at_upd i f t j) as [-> | ->]; auto.
Qed.

(** With a driver that never fails, the three slots are mapped, in
    order. *)
Lemma map_all gl w :
  maps_succeed gl ->
  let t := texture w in
  exists a0 a1 a2,
    a0 <> NULL /\ a1 <> NULL /\ a2 <> NULL /\
    egl_texture_map gl w =
    (true,
     {| texture := upd_tex 2 (set_tex_map a2)
                     (upd_tex 1 (set_tex_map a1)
                        (upd_tex 0 (set_tex_map a0) t));
        warnDone := warnDone w;
        history := history w ++ map_calls t 0 ++ map_calls t 1
                   ++ map_calls t 2
                   ++ [glBindBuffer GL_PIXEL_UNPACK_BUFFER 0] |}).
Proof.
  intros Hok. cbv zeta. unfold egl_texture_map.
  change (Z.to_nat TEXTURE_COUNT) with 3%nat. cbn [egl_texture_map_from].
  unfold bind, get_texture, emit, call, modify_texture, ret.
  cbn [texture warnDone history].
  set (a0 := map_buffer_range gl _).
  destruct (Z.eqb_spec a0 NULL) as [E|E0]; [destruct (Hok _ E)|].
  cbn [texture warnDone history].
  set (a1 := map_buffer_range gl _).
  destruct (Z.eqb_spec a1 NULL) as [E|E1]; [destruct (Hok _ E)|].
  cbn [texture warnDone history].
  set (a2 := map_buffer_range gl _).
  destruct (Z.eqb_spec a2 NULL) as [E|E2]; [destruct (Hok _ E)|].
  cbn [texture warnDone history].
  exists a0, a1, a2. repeat split; try assumption.
  f_equal. f_equal. unfold map_calls.
  change (pboBufferSize (upd_tex ?i ?f ?t)) with (pboBufferSize t).
  rewrite !tex_pbo_upd by reflexivity.
  change (0 + 1) with 1. change (1 + 1) with 2.
  rewrite <- !app_assoc. reflexivity.
Qed.

(** ** When the uploader and the binder move *)

Lemma process_advances gl w :
  core_ok (core (texture w)) ->
  st_u (state (texture (exec (egl_texture_process gl) w)))
    <> st_u (state (texture w)) ->
  streaming (texture w) = true /\ u_advances (state (texture w)) = true.
Proof.
  intros (Hw & Hu & Hs & Hd & Hl).
  change (state (texture (exec (egl_texture_process gl) w)))
    with (c_state (core (texture (exec (egl_texture_process gl) w)))).
  rewrite process_core by exact Hu. unfold core_process.
  cbn [core c_state c_streaming].
  destruct (streaming (texture w)); destruct (u_advances _); cbn [andb c_state];
    intros H; try (exfalso; apply H; reflexivity). auto.
Qed.

Lemma bind_schedules gl w :
  core_ok (core (texture w)) ->
  st_s (state (texture (exec (egl_texture_bind gl) w)))
    <> st_s (state (texture w)) ->
  streaming (texture w) = true /\ ready (texture w) = true /\
  tex_sync (tex_at (texture w) (st_s (state (texture w)))) <> 0 /\
  classify_wait
    (client_wait_sync gl
       (history w ++ [atomic_load_explicit memory_order_acquire])) =
    fence_signaled.
Proof.
  intros (Hw & Hu & Hs & Hd & Hl). cbn [core c_state c_syncs] in *.
  rewrite length_syncs in Hl.
  change (state (texture (exec (egl_texture_bind gl) w)))
    with (c_state (core (texture (exec (egl_texture_bind gl) w)))).
  rewrite bind_core by assumption. unfold core_bind.
  cbn [core c_state c_streaming c_ready c_syncs].
  rewrite sync_at.
  2:{ rewrite Hl, idx_of_slot by exact Hs.
      unfold idx_ok, TEXTURE_COUNT in Hs. lia. }
  destruct (streaming (texture w)); destruct (ready (texture w));
    cbn [andb c_state]; try (intros H; exfalso; apply H; reflexivity).
  destruct (Z.eqb_spec (syncs (texture w) !!! idx (st_s (state (texture w))))
              0) as [E|E]; cbn [c_state].
  - destruct (advance_d_others (state (texture w))) as (_ & _ & ->).
    intros H; exfalso; apply H; reflexivity.
  - destruct (classify_wait _); cbn [c_state].
    + auto.
    + destruct (advance_d_others (state (texture w))) as (_ & _ & ->).
      intros H; exfalso; apply H; reflexivity.
    + intros H; exfalso; apply H; reflexivity.
Qed.

Lemma bind_events_no_fence_call t d :
  forallb (fun e => negb (is_fence_delete e)) (bind_events t d) = true.
Proof. apply forallb_flat_map. reflexivity. Qed.

Lemma advance_d_events_no_fence_call s :
  forallb (fun e => negb (is_fence_delete e)) (advance_d_events s) = true.
Proof. unfold advance_d_events. destruct (d_advances s); reflexivity. Qed.

Lemma map_calls_published gl w i :
  map_calls (texture (published_world gl w)) i = map_calls (texture w) i.
Proof.
  unfold map_calls, published_world. cbn [texture].
  change (pboBufferSize (set_state ?s ?t)) with (pboBufferSize t).
  change (pboBufferSize (upd_tex ?i ?f ?t)) with (pboBufferSize t).
  change (tex_at (set_state ?s ?t) ?j) with (tex_at t j).
  rewrite tex_pbo_upd by reflexivity.
  destruct (tex_at_unmap_all (texture w) i) as (_ & ->).
  assert (pboBufferSize (unmap_all (texture w)) = pboBufferSize (texture w))
    as -> by exact (f_equal pboBufferSize (outside_unmap_all (texture w))).
  reflexivity.
Qed.

Lemma forallb_weaken (q q' : event -> bool) evs :
  (forall e, q e = true -> q' e = true) ->
  forallb q evs = true -> forallb q' evs = true.
Proof.
  intros H F. apply forallb_forall. intros e He.
  apply H. rewrite forallb_forall in F. apply F, He.
Qed.

Lemma unmap_calls_buffer t i : forallb is_buffer_call (unmap_calls t i) = true.
Proof. unfold unmap_calls. destruct (_ =? NULL); reflexivity. Qed.

(** The calls of an uploading [egl_texture_process], the remap apart. *)
Lemma upload_history_flat w :
  let t := texture w in
  let u := st_u (state t) in
  upload_history w =
  history w
  ++ atomic_load_explicit memory_order_acquire
     :: (unmap_calls t 0 ++ unmap_calls t 1 ++ unmap_calls t 2)
     ++ glBindBuffer GL_PIXEL_UNPACK_BUFFER (tex_pbo (tex_at t u))
        :: upload_events t u.
Proof.
  cbv zeta. unfold upload_history.
  rewrite unmap_events_flat, upload_calls_unmap. reflexivity.
Qed.

Lemma published_length gl w :
  length (tex (texture (published_world gl w))) = length (tex (texture w)).
Proof.
  unfold published_world. cbn [texture].
  change (tex (set_state ?s ?t)) with (tex t).
  rewrite length_tex_upd, length_tex_unmap_all. reflexivity.
Qed.

Lemma maps_set_ready b t : maps (set_ready b t) = maps t.
Proof. reflexivity. Qed.

(** The whole of an uploading [egl_texture_process]. *)
Lemma process_upload_calls gl w :
  streaming (texture w) = true ->
  idx_ok (st_u (state (texture w))) ->
  u_advances (state (texture w)) = true ->
  let t := texture w in
  let u := st_u (state t) in
  exists remap,
    history (exec (egl_texture_process gl) w) =
      upload_history w
      ++ [glFenceSync GL_SYNC_GPU_COMMANDS_COMPLETE 0; glFlush;
          atomic_store_explicit field_u (ring_next u) memory_order_release]
      ++ remap
    /\ forallb is_map_phase remap = true
    /\ (maps_succeed gl ->
        remap = map_calls t 0 ++ map_calls t 1 ++ map_calls t 2
                ++ [glBindBuffer GL_PIXEL_UNPACK_BUFFER 0]
        /\ (length (tex t) = 3%nat ->
            length (maps (texture (exec (egl_texture_process gl) w)))
              = 3%nat /\
            Forall (fun m => m <> NULL)
              (maps (texture (exec (egl_texture_process gl) w))))).
Proof.
  intros Hs Hu Hg. cbv zeta. unfold exec at 1 2 3.
  rewrite process_upload by assumption. cbn [snd]. cbv zeta.
  unfold with_texture. cbn [history texture].
  destruct (map_emits gl (published_world gl w)) as (remap & E & F).
  fold (exec (egl_texture_map gl) (published_world gl w)) in E.
  exists remap. split; [|split; [exact F|]].
  - rewrite E. unfold published_world. cbn [history].
    rewrite <- app_assoc. reflexivity.
  - intros Hok.
    destruct (map_all gl (published_world gl w) Hok)
      as (a0 & a1 & a2 & n0 & n1 & n2 & Em).
    cbv zeta in Em. unfold exec in E |- *. rewrite Em in E |- *.
    cbn [snd history texture] in E |- *.
    apply app_inv_head in E. rewrite <- E, !map_calls_published.
    split; [reflexivity|]. intros Hl.
    rewrite maps_set_ready, !maps_upd_map.
    pose proof (published_length gl w) as Hp. rewrite Hl in Hp.
    rewrite <- length_maps in Hp.
    destruct (maps (texture (published_world gl w)))
      as [|m0 [|m1 [|m2 [|]]]]; try discriminate Hp.
    cbn. split; [reflexivity|]. repeat constructor; assumption.
Qed.

(** ** Where the fences go *)

Lemma process_fence gl w :
  core_ok (core (texture w)) ->
  streaming (texture w) = true ->
  u_advances (state (texture w)) = true ->
  let w' := exec (egl_texture_process gl) w in
  let u := st_u (state (texture w)) in
  tex_sync (tex_at (texture w') u) = upload_fence gl w /\
  st_u (state (texture w')) = ring_next u /\
  ready (texture w') = true.
Proof.
  intros (Hw & Hu & Hs & Hd & Hl) Hst Hg. cbv zeta.
  cbn [core c_state c_syncs] in *.
  pose proof (process_core gl w Hu) as Hc. unfold core_process in Hc.
  cbn [core c_streaming c_state c_syncs c_ready] in Hc.
  rewrite Hst, Hg in Hc. cbn [andb] in Hc.
  pose proof (f_equal c_syncs Hc) as Hsy.
  pose proof (f_equal c_state Hc) as Hstate.
  pose proof (f_equal c_ready Hc) as Hready.
  unfold core in Hsy, Hstate, Hready.
  cbn [c_syncs c_state c_ready] in Hsy, Hstate, Hready.
  split; [|split].
  - rewrite sync_at.
    + rewrite Hsy, lookup_insert_slot by assumption.
      rewrite Z.eqb_refl. reflexivity.
    + rewrite <- length_syncs, Hsy, length_insert, Hl.
      rewrite idx_of_slot by exact Hu.
      unfold idx_ok, TEXTURE_COUNT in Hu. lia.
  - rewrite Hstate. reflexivity.
  - exact Hready.
Qed.

Lemma bind_fence gl w :
  core_ok (core (texture w)) ->
  streaming (texture w) = true ->
  ready (texture w) = true ->
  tex_sync (tex_at (texture w) (st_s (state (texture w)))) <> 0 ->
  classify_wait
    (client_wait_sync gl
       (history w ++ [atomic_load_explicit memory_order_acquire])) =
    fence_signaled ->
  let w' := exec (egl_texture_bind gl) w in
  let s := st_s (state (texture w)) in
  tex_sync (tex_at (texture w') s) = 0 /\
  st_s (state (texture w')) = ring_next s.
Proof.
  intros (Hw & Hu & Hs & Hd & Hl) Hst Hr H0 Hc. cbv zeta.
  cbn [core c_state c_syncs] in *.
  assert (Hlt : length (tex (texture w)) = 3%nat)
    by (rewrite <- length_syncs; exact Hl).
  assert (Hi : (idx (st_s (state (texture w))) < 3)%nat).
  { rewrite idx_of_slot by exact Hs.
    unfold idx_ok, TEXTURE_COUNT in Hs. lia. }
  pose proof (bind_core gl w Hs Hd Hlt) as Hk. unfold core_bind in Hk.
  cbn [core c_streaming c_state c_syncs c_ready] in Hk.
  rewrite Hst, Hr, Hc in Hk. cbn [andb] in Hk.
  rewrite sync_at in H0 by (rewrite Hlt; exact Hi).
  destruct (Z.eqb_spec (syncs (texture w) !!! idx (st_s (state (texture w))))
              0) as [E|_]; [contradiction|].
  pose proof (f_equal c_syncs Hk) as Hsy.
  pose proof (f_equal c_state Hk) as Hstate.
  unfold core in Hsy, Hstate.
  cbn [c_syncs c_state] in Hsy, Hstate.
  split.
  - rewrite sync_at.
    + rewrite Hsy, lookup_insert_slot by assumption.
      rewrite Z.eqb_refl. reflexivity.
    + rewrite <- length_syncs, Hsy, length_insert, Hl. exact Hi.
  - rewrite Hstate.
    destruct (advance_d_others
                (set_st_s (ring_next (st_s (state (texture w))))
                   (state (texture w)))) as (_ & _ & ->).
    reflexivity.
Qed.

Lemma no_fence_create_in_map_phase e :
  is_map_phase e = true -> negb (is_fence_create e) = true.
Proof. destruct e; cbn; congruence. Qed.

Lemma no_flush_in_map_phase e :
  is_map_phase e = true -> negb (is_flush e) = true.
Proof. destruct e; cbn; congruence. Qed.

Lemma no_fence_create_in_buffer_call e :
  is_buffer_call e = true -> negb (is_fence_create e) = true.
Proof. destruct e; cbn; congruence. Qed.

Lemma no_flush_in_buffer_call e :
  is_buffer_call e = true -> negb (is_flush e) = true.
Proof. destruct e; cbn; congruence. Qed.

(** An upload creates one fence and flushes once. *)
Lemma upload_counts (q : event -> bool) t u remap :
  (forall e, is_buffer_call e = true -> negb (q e) = true) ->
  (forall e, is_map_phase e = true -> negb (q e) = true) ->
  (forall a b, q (glBindTexture a b) = false) ->
  (forall a b, q (glPixelStorei a b) = false) ->
  (forall a b c d e f g h i, q (glTexSubImage2D a b c d e f g h i) = false) ->
  (forall a b c, q (atomic_store_explicit a b c) = false) ->
  q (atomic_load_explicit memory_order_acquire) = false ->
  forallb is_map_phase remap = true ->
  forall n,
  count_events q
    [glFenceSync GL_SYNC_GPU_COMMANDS_COMPLETE 0; glFlush] = n ->
  count_events q
    (atomic_load_explicit memory_order_acquire
     :: (unmap_calls t 0 ++ unmap_calls t 1 ++ unmap_calls t 2)
     ++ glBindBuffer GL_PIXEL_UNPACK_BUFFER (tex_pbo (tex_at t u))
        :: upload_events t u
     ++ [glFenceSync GL_SYNC_GPU_COMMANDS_COMPLETE 0; glFlush;
         atomic_store_explicit field_u (ring_next u) memory_order_release]
     ++ remap) = n.
Proof.
  intros Hb Hm Q1 Q2 Q3 Q4 Q5 F n Hn.
  assert (Hbind : forall a b, q (glBindBuffer a b) = false).
  { intros a b. specialize (Hm (glBindBuffer a b) eq_refl).
    destruct (q _); [discriminate|reflexivity]. }
  assert (Hun : forall i, count_events q (unmap_calls t i) = 0%nat).
  { intros i. apply count_events_none.
    apply (forallb_weaken is_buffer_call); [exact Hb|].
    apply unmap_calls_buffer. }
  assert (Hup : count_events q (upload_events t u) = 0%nat).
  { apply count_events_none. apply forallb_flat_map. intros p.
    cbn. rewrite Q1, Q2, Q3. reflexivity. }
  assert (Hre : count_events q remap = 0%nat).
  { apply count_events_none.
    apply (forallb_weaken is_map_phase); [exact Hm | exact F]. }
  rewrite count_events_cons, Q5.
  rewrite !count_events_app, !Hun.
  rewrite count_events_cons, Hbind, count_events_app, Hup.
  change [glFenceSync GL_SYNC_GPU_COMMANDS_COMPLETE 0; glFlush;
          atomic_store_explicit field_u (ring_next u) memory_order_release]
    with ([glFenceSync GL_SYNC_GPU_COMMANDS_COMPLETE 0; glFlush]
          ++ [atomic_store_explicit field_u (ring_next u)
                memory_order_release]).
  rewrite !count_events_app, Hn, Hre.
  rewrite count_events_cons, Q4. cbn. lia.
Qed.

(** The bindings do not depend on the state word or on the fences. *)
Lemma bind_events_clear s1 i t d :
  bind_events (set_state s1 (upd_tex i (set_tex_sync 0) t)) d
  = bind_events t d.
Proof.
  unfold bind_events.
  change (planeCount (set_state s1 (upd_tex i (set_tex_sync 0) t)))
    with (planeCount t).
  apply flat_map_ext. intros p. unfold bind_plane.
  change (sampler_at (set_state s1 (upd_tex i (set_tex_sync 0) t)) p)
    with (sampler_at t p).
  change (tex_at (set_state s1 (upd_tex i (set_tex_sync 0) t)) d)
    with (tex_at (upd_tex i (set_tex_sync 0) t) d).
  destruct (tex_at_upd i (set_tex_sync 0) t d) as [-> | ->]; reflexivity.
Qed.

Lemma state_commit_d s t : state t = s -> state (commit_d s t) = advance_d s.
Proof.
  intros <-. unfold commit_d, advance_d.
  destruct (d_advances (state t)); reflexivity.
Qed.

(** * The loops of the client *)

Lemma while_loop_stop fuel cond body w :
  cond (Main.app w) = false ->
  Main.while_loop (S fuel) cond body w = (Main.Finished, w).
Proof. intros H. cbn. unfold bind, Main.get_app. rewrite H. reflexivity. Qed.

Lemma while_loop_continue fuel cond body w w' :
  cond (Main.app w) = true ->
  body w = (Main.Continue, w') ->
  Main.while_loop (S fuel) cond body w = Main.while_loop fuel cond body w'.
Proof.
  intros H E. cbn. unfold bind, Main.get_app. rewrite H.
  cbn. rewrite E. reflexivity.
Qed.

Lemma while_loop_break fuel cond body w w' :
  cond (Main.app w) = true ->
  body w = (Main.Break, w') ->
  Main.while_loop (S fuel) cond body w = (Main.Finished, w').
Proof.
  intros H E. cbn. unfold bind, Main.get_app. rewrite H.
  cbn. rewrite E. reflexivity.
Qed.

Lemma while_loop_return fuel cond body w w' code :
  cond (Main.app w) = true ->
  body w = (Main.Return code, w') ->
  Main.while_loop (S fuel) cond body w = (Main.Returned code, w').
Proof.
  intros H E. cbn. unfold bind, Main.get_app. rewrite H.
  cbn. rewrite E. reflexivity.
Qed.

(** [n] iterations that end in [continue]. *)
Lemma while_loop_iterate fuel cond body n :
  forall ws : nat -> Main.World,
  (forall i, (i < n)%nat ->
     cond (Main.app (ws i)) = true /\ body (ws i) = (Main.Continue, ws (S i))) ->
  Main.while_loop (n + fuel) cond body (ws O)
  = Main.while_loop fuel cond body (ws n).
Proof.
  induction n as [|n IH]; intros ws H; [reflexivity|].
  destruct (H O ltac:(lia)) as (Hc & Hb).
  change (S n + fuel)%nat with (S (n + fuel)).
  rewrite (while_loop_continue _ _ _ _ _ Hc Hb).
  apply (IH (fun i => ws (S i))). intros i Hi. apply H. lia.
Qed.

Lemma logged_logged w a b : logged (logged w a) b = logged w (a ++ b).
Proof. unfold logged. cbn. rewrite <- app_assoc. reflexivity. Qed.

Lemma rounds_snoc n evs : rounds n evs ++ evs = rounds (S n) evs.
Proof.
  induction n as [|n IH]; cbn; [symmetry; apply app_nil_r|].
  rewrite <- app_assoc. f_equal. exact IH.
Qed.

(** ** One attempt at [lgmpClientInit] *)

Lemma client_init_iteration_spec env w :
  let status := Main.client_init env (Main.log w) in
  Main.client_init_iteration env w =
  match status with
  | Main.LGMP_OK => (Main.Break, logged w [Main.lgmpClientInit])
  | Main.LGMP_ERR_INVALID_SESSION | Main.LGMP_ERR_INVALID_MAGIC =>
    (Main.Continue, logged w init_round)
  | _ =>
    (Main.Return (-1),
     logged w [Main.lgmpClientInit;
               Main.DEBUG_ERROR_status "lgmpClientInit Failed: %s" status])
  end.
Proof.
  cbv zeta. unfold Main.client_init_iteration, bind, Main.call. cbn.
  destruct (Main.client_init env (Main.log w)); cbn; unfold logged; cbn;
    rewrite <- ?app_assoc; reflexivity.
Qed.

(** ** One attempt at [lgmpClientSubscribe] *)

Lemma subscribe_iteration_spec env q w :
  let status := Main.client_subscribe env (Main.log w) in
  Main.subscribe_iteration env q w =
  match status with
  | Main.LGMP_OK => (Main.Break, logged w [Main.lgmpClientSubscribe q])
  | Main.LGMP_ERR_NO_SUCH_QUEUE => (Main.Continue, logged w (subscribe_round q))
  | _ =>
    (Main.Break,
     stopped
       (logged w [Main.lgmpClientSubscribe q;
                  Main.DEBUG_ERROR_status "lgmpClientSubscribe Failed: %s"
                    status]))
  end.
Proof.
  cbv zeta. unfold Main.subscribe_iteration, bind, Main.call. cbn.
  destruct (Main.client_subscribe env (Main.log w)); cbn;
    unfold logged, stopped; cbn; rewrite <- ?app_assoc; reflexivity.
Qed.

(** The retries of [lg_run]. *)
Lemma init_retries env w n fuel :
  (forall i, (i < n)%nat ->
     init_transient
       (Main.client_init env (Main.log w ++ rounds i init_round)) = true) ->
  Main.lg_run_client_init env (n + fuel) w
  = Main.lg_run_client_init env fuel (logged w (rounds n init_round)).
Proof.
  intros H. unfold Main.lg_run_client_init.
  assert (E0 : w = logged w (rounds 0 init_round)).
  { unfold logged. cbn. rewrite app_nil_r. destruct w; reflexivity. }
  rewrite E0 at 1.
  apply (while_loop_iterate fuel (fun _ => true)
           (Main.client_init_iteration env) n
           (fun i => logged w (rounds i init_round))).
  intros i Hi. split; [reflexivity|].
  rewrite client_init_iteration_spec. cbv zeta.
  specialize (H i Hi). cbn [logged Main.log].
  destruct (Main.client_init env (Main.log w ++ rounds i init_round));
    try discriminate H; rewrite logged_logged, rounds_snoc; reflexivity.
Qed.

(** The retries of the subscription. *)
Lemma subscribe_retries env q w n fuel :
  Main.running (Main.app w) = true ->
  (forall i, (i < n)%nat ->
     subscribe_transient
       (Main.client_subscribe env
          (Main.log w ++ rounds i (subscribe_round q))) = true) ->
  Main.while_loop (n + fuel) Main.running (Main.subscribe_iteration env q) w
  = Main.while_loop fuel Main.running (Main.subscribe_iteration env q)
      (logged w (rounds n (subscribe_round q))).
Proof.
  intros Hr H.
  assert (E0 : w = logged w (rounds 0 (subscribe_round q))).
  { unfold logged. cbn. rewrite app_nil_r. destruct w; reflexivity. }
  rewrite E0 at 1.
  apply (while_loop_iterate fuel Main.running
           (Main.subscribe_iteration env q) n
           (fun i => logged w (rounds i (subscribe_round q)))).
  intros i Hi. split; [exact Hr|].
  rewrite subscribe_iteration_spec. cbv zeta.
  specialize (H i Hi). cbn [logged Main.log].
  destruct (Main.client_subscribe env
              (Main.log w ++ rounds i (subscribe_round q)));
    try discriminate H; rewrite logged_logged, rounds_snoc; reflexivity.
Qed.

(** ** The size of a frame *)

Lemma to_size_t_small x : 0 <= x < 2 ^ 64 -> to_size_t x = x.
Proof. intros H. unfold to_size_t. apply Z.mod_small. lia. Qed.

Lemma frame_switch_32bpp field_mod frame :
  Main.frame_type frame = Main.FRAME_TYPE_RGBA \/
  Main.frame_type frame = Main.FRAME_TYPE_BGRA \/
  Main.frame_type frame = Main.FRAME_TYPE_RGBA10 ->
  option_map fst (Main.frame_switch field_mod frame) =
  Some (to_size_t
          ((Main.frame_height frame * Main.frame_pitch frame) mod field_mod))
  /\ option_map (fun r => Main.lgr_bpp (snd r))
       (Main.frame_switch field_mod frame) = Some 32.
Proof.
  unfold Main.frame_switch. intros [-> | [-> | ->]]; split; reflexivity.
Qed.

Lemma frame_switch_yuv420 field_mod frame :
  Main.frame_type frame = Main.FRAME_TYPE_YUV420 ->
  let luma :=
    to_size_t
      ((Main.frame_height frame * Main.frame_width frame) mod field_mod) in
  option_map fst (Main.frame_switch field_mod frame) =
  Some (to_size_t (luma + to_size_t (luma / 4 * 2)))
  /\ option_map (fun r => Main.lgr_bpp (snd r))
       (Main.frame_switch field_mod frame) = Some 12.
Proof.
  unfold Main.frame_switch. intros ->. split; reflexivity.
Qed.

(** Without wrap-around. *)
Lemma yuv420_size_in_range field_mod hw :
  0 < field_mod <= 2 ^ 63 ->
  0 <= hw < field_mod ->
  let luma := to_size_t (hw mod field_mod) in
  to_size_t (luma + to_size_t (luma / 4 * 2)) = hw + 2 * (hw / 4).
Proof.
  intros Hm Hr. cbv zeta.
  rewrite (Z.mod_small hw field_mod) by lia.
  assert (H63 : 2 ^ 63 + 2 ^ 63 = 2 ^ 64) by reflexivity.
  assert (Hq : 0 <= hw / 4 * 2 <= hw) by mod_lia.
  rewrite (to_size_t_small hw) by lia.
  rewrite (to_size_t_small (hw / 4 * 2)) by lia.
  rewrite to_size_t_small by lia. lia.
Qed.

Lemma yuv420_size_three_halves hw :
  hw mod 4 = 0 -> hw + 2 * (hw / 4) = hw * 3 / 2.
Proof. intros H. mod_lia. Qed.

(** ** A frame of a type the client does not know *)

Lemma frame_iteration_unsupported env params field_mod w mem frame code :
  Main.client_process env (Main.log w) = (Main.LGMP_OK, (mem, frame)) ->
  Main.frame_type frame = Main.FRAME_TYPE_other code ->
  Main.frame_iteration env params field_mod w =
  (Main.Break,
   logged w [Main.lgmpClientProcess;
             Main.DEBUG_ERROR "Unsupported frameType";
             Main.lgmpClientMessageDone]).
Proof.
  intros Hp Ht. unfold Main.frame_iteration, bind, Main.call. cbn.
  rewrite Hp. unfold Main.frame_switch. rewrite Ht. cbn.
  unfold logged. cbn. rewrite <- !app_assoc. reflexivity.
Qed.

(** ** The layout is set by [egl_texture_setup] alone *)

Lemma warn_slow_keeps {X} (proj : EGL_Texture -> X) :
  respects (keeps proj) egl_warn_slow.
Proof. intros w. rewrite warn_slow_spec. destruct (warnDone w); reflexivity. Qed.

Lemma perform_keeps_layout gl c :
  is_setup c = false -> respects (keeps layout) (perform gl c).
Proof.
  destruct c; cbn [is_setup perform]; try discriminate; intros _.
  - unfold egl_texture_update. walk; try prims; try apply warn_slow_keeps.
  - unfold egl_texture_update_from_frame.
    walk; try prims; try apply warn_slow_keeps.
  - unfold egl_texture_process. walk; try prims;
      try (apply map_keeps; intros; reflexivity).
  - unfold egl_texture_bind, bind_streaming, bind_wait, bind_advance_d,
      bind_planes.
    walk; try prims.
  - unfold egl_texture_count. walk; try prims.
Qed.

Lemma run_keeps_layout gl cs :
  forallb (fun c => negb (is_setup c)) cs = true ->
  forall w, layout (texture (run gl cs w)) = layout (texture w).
Proof.
  induction cs as [|c cs IH]; intros H w; [reflexivity|].
  cbn [forallb] in H. apply andb_prop in H as (Hc & Hcs).
  rewrite run_cons, IH by exact Hcs.
  apply (perform_keeps_layout gl c).
  destruct (is_setup c); [discriminate|reflexivity].
Qed.

(** ** What [egl_texture_setup] leaves behind *)

Lemma switch_outside f wd ht sd t count t' :
  switch_pixFmt f wd ht sd t = Some (count, t') ->
  planeCount t' = planeCount t /\ samplers t' = samplers t /\
  tex t' = tex t /\ state t' = state t /\ streaming t' = streaming t.
Proof.
  unfold switch_pixFmt.
  destruct f; intros H; inversion H; subst; repeat split; reflexivity.
Qed.

Lemma setup_realloc_skip gl count w :
  count <= planeCount (texture w) -> setup_realloc gl count w = (tt, w).
Proof.
  intros H. unfold setup_realloc, bind, get_texture. cbn.
  destruct (Z.ltb_spec (planeCount (texture w)) count); [lia|reflexivity].
Qed.

Lemma realloc_objects_planeCount gl count :
  respects (keeps planeCount) (realloc_objects gl count).
Proof. apply realloc_objects_keeps; reflexivity. Qed.

Lemma setup_realloc_planeCount gl count w :
  planeCount (texture (exec (setup_realloc gl count) w))
  = Z.max (planeCount (texture w)) count.
Proof.
  unfold exec, setup_realloc, bind, get_texture. cbn [fst snd].
  destruct (Z.ltb_spec (planeCount (texture w)) count) as [H|H];
    cbn [when].
  - destruct (realloc_objects gl count w) as [[] w1]. cbn. lia.
  - cbn. lia.
Qed.

(** The layout the [switch] has chosen survives the rest of the setup. *)
Lemma setup_tail_keeps gl count str {X} (proj : EGL_Texture -> X) :
  (forall i v t, proj (upd_tex i (set_tex_t v) t) = proj t) ->
  (forall v t, proj (set_samplers v t) = proj t) ->
  (forall v t, proj (set_planeCount v t) = proj t) ->
  (forall i p t, proj (upd_tex i (set_tex_map p) t) = proj t) ->
  (forall i n t,
     proj (upd_tex i (fun x => set_tex_hasPBO true (set_tex_pbo n x)) t)
     = proj t) ->
  forall w,
  proj (texture (snd (setup_storage gl count str
                        (exec (setup_realloc gl count) w))))
  = proj (texture w).
Proof.
  intros H1 H2 H3 H4 H5 w.
  rewrite (setup_storage_keeps gl count str proj H4 H5
             (exec (setup_realloc gl count) w)).
  apply (setup_realloc_keeps gl count proj H1 H2 H3 w).
Qed.

Lemma setup_result gl f wd ht sd str w count t' :
  switch_pixFmt f wd ht sd
    (set_state zero_state (set_params f wd ht sd str (texture w)))
  = Some (count, t') ->
  let t2 := texture (exec (egl_texture_setup gl f wd ht sd str) w) in
  planes t2 = planes t' /\ offsets t2 = offsets t' /\
  format t2 = format t' /\ dataType t2 = dataType t' /\
  pboBufferSize t2 = pboBufferSize t' /\
  planeCount t2 = Z.max (planeCount (texture w)) count.
Proof.
  intros H. cbv zeta. unfold exec at 1 2 3 4 5 6. rewrite setup_spec.
  cbv zeta. rewrite H.
  set (w1 := {| texture := t'; warnDone := warnDone w;
                history := history w ++
                  [atomic_store_explicit_v 0 memory_order_relaxed] |}).
  rewrite (setup_tail_keeps gl count str planes) by reflexivity.
  rewrite (setup_tail_keeps gl count str offsets) by reflexivity.
  rewrite (setup_tail_keeps gl count str format) by reflexivity.
  rewrite (setup_tail_keeps gl count str dataType) by reflexivity.
  rewrite (setup_tail_keeps gl count str pboBufferSize) by reflexivity.
  do 5 (split; [reflexivity|]).
  rewrite (setup_storage_keeps gl count str planeCount
             ltac:(reflexivity) ltac:(reflexivity)
             (exec (setup_realloc gl count) w1)).
  rewrite setup_realloc_planeCount.
  destruct (switch_outside _ _ _ _ _ _ _ H) as (Hp & _).
  change (planeCount (texture w1)) with (planeCount t'). rewrite Hp.
  reflexivity.
Qed.

(** A setup that needs no more planes than the texture has makes no call
    to create or delete textures or samplers. *)
Lemma setup_storage_emits gl count str :
  respects (emits_only (fun e => negb (is_realloc e)))
    (setup_storage gl count str).
Proof.
  unfold setup_storage. walk; try prims.
  intros w. apply (emits_only_weaken is_map_phase); [|apply map_emits].
  intros e. destruct e; cbn; congruence.
Qed.

(** ** What an upload passes to [glTexSubImage2D] *)

Lemma flat_map_none {X} (g : event -> list X) evs :
  (forall e, In e evs -> g e = []) -> flat_map g evs = [].
Proof.
  induction evs as [|e evs IH]; intros H; [reflexivity|].
  cbn. rewrite (H e) by (left; reflexivity). apply IH.
  intros e' He'. apply H. right. exact He'.
Qed.

Lemma flat_map_none_if {X} (g : event -> list X) (q : event -> bool) evs :
  (forall e, q e = true -> g e = []) ->
  forallb q evs = true -> flat_map g evs = [].
Proof.
  intros H F. apply flat_map_none. intros e He. apply H.
  rewrite forallb_forall in F. apply F, He.
Qed.

Lemma count_tex_uploads evs :
  count_events is_tex_upload evs = length (upload_args evs).
Proof.
  induction evs as [|e evs IH]; [reflexivity|].
  rewrite count_events_cons, IH. unfold upload_args. cbn [flat_map].
  rewrite length_app. destruct e; reflexivity.
Qed.

(** The calls of an uploading [egl_texture_process], after those made
    before. *)
Lemma process_calls gl w :
  streaming (texture w) = true ->
  idx_ok (st_u (state (texture w))) ->
  u_advances (state (texture w)) = true ->
  let t := texture w in
  let u := st_u (state t) in
  exists remap,
    history (exec (egl_texture_process gl) w) =
      history w
      ++ atomic_load_explicit memory_order_acquire
         :: (unmap_calls t 0 ++ unmap_calls t 1 ++ unmap_calls t 2)
         ++ glBindBuffer GL_PIXEL_UNPACK_BUFFER (tex_pbo (tex_at t u))
            :: upload_events t u
         ++ [glFenceSync GL_SYNC_GPU_COMMANDS_COMPLETE 0; glFlush;
             atomic_store_explicit field_u (ring_next u) memory_order_release]
         ++ remap
    /\ forallb is_map_phase remap = true.
Proof.
  intros Hst Hu Hg. cbv zeta.
  destruct (process_upload_calls gl w Hst Hu Hg) as (remap & E & F & _).
  exists remap. split; [|exact F].
  rewrite E, upload_history_flat. cbv zeta.
  repeat (rewrite <- app_assoc; cbn [app]). reflexivity.
Qed.

(** Reading the upload calls off such a history. *)
Lemma upload_extract {X} (g : event -> list X) t u remap :
  (forall e, is_buffer_call e = true -> g e = []) ->
  (forall e, is_map_phase e = true -> g e = []) ->
  g (atomic_load_explicit memory_order_acquire) = [] ->
  g (glFenceSync GL_SYNC_GPU_COMMANDS_COMPLETE 0) = [] ->
  g glFlush = [] ->
  (forall a b c, g (atomic_store_explicit a b c) = []) ->
  forallb is_map_phase remap = true ->
  flat_map g
    (atomic_load_explicit memory_order_acquire
     :: (unmap_calls t 0 ++ unmap_calls t 1 ++ unmap_calls t 2)
     ++ glBindBuffer GL_PIXEL_UNPACK_BUFFER (tex_pbo (tex_at t u))
        :: upload_events t u
     ++ [glFenceSync GL_SYNC_GPU_COMMANDS_COMPLETE 0; glFlush;
         atomic_store_explicit field_u (ring_next u) memory_order_release]
     ++ remap)
  = flat_map g (upload_events t u).
Proof.
  intros Hb Hm G1 G2 G3 G4 F.
  assert (Hun : forall i, flat_map g (unmap_calls t i) = []).
  { intros i. apply (flat_map_none_if g is_buffer_call); [exact Hb|].
    apply unmap_calls_buffer. }
  cbn [flat_map]. rewrite G1. cbn [app].
  rewrite !flat_map_app, !Hun. cbn [app flat_map].
  rewrite (Hm (glBindBuffer _ _)) by reflexivity. cbn [app].
  rewrite flat_map_app. cbn [flat_map].
  rewrite G2, G3, G4, (flat_map_none_if g is_map_phase remap Hm F).
  cbn [app]. apply app_nil_r.
Qed.

(** The uploads of a texture with three planes. *)
Lemma upload_events_three t u :
  planeCount t = 3 ->
  upload_events t u
  = upload_plane t u 0 ++ upload_plane t u 1 ++ upload_plane t u 2.
Proof.
  intros H. unfold upload_events. rewrite H. reflexivity.
Qed.

(** ** Row lengths of the two upload paths *)

Lemma row_lengths_upload t u :
  row_lengths (upload_events t u)
  = map (fun p => plane_at t p 2) (plane_range (planeCount t)).
Proof.
  unfold row_lengths, upload_events.
  induction (plane_range (planeCount t)) as [|p l IH]; [reflexivity|].
  cbn [flat_map map]. rewrite flat_map_app, IH. reflexivity.
Qed.

Lemma row_lengths_direct t buffer :
  row_lengths (direct_events t buffer)
  = map (fun p => plane_at t p 0) (plane_range (planeCount t)).
Proof.
  unfold row_lengths, direct_events.
  induction (plane_range (planeCount t)) as [|p l IH]; [reflexivity|].
  cbn [flat_map map]. rewrite flat_map_app, IH. reflexivity.
Qed.

Lemma row_lengths_app a b : row_lengths (a ++ b) = row_lengths a ++ row_lengths b.
Proof. apply flat_map_app. Qed.

(** ** Reallocation in [egl_texture_setup] *)

Lemma makes_call_later {A B} e (m : M A) (k : A -> M B) :
  respects (emits_only (fun _ => true)) m ->
  (forall a, respects (makes_call e) (k a)) ->
  respects (makes_call e) (bind m k).
Proof.
  intros Hm Hk w. unfold bind. destruct (Hm w) as (e1 & E1 & _).
  destruct (m w) as [x w1]. cbn [snd] in E1.
  destruct (Hk x w1) as (a & b & E). exists (e1 ++ a), b.
  rewrite E, E1, <- !app_assoc. reflexivity.
Qed.

Lemma makes_call_first {A B} e (m : M A) (k : A -> M B) :
  respects (makes_call e) m ->
  (forall a, respects (emits_only (fun _ => true)) (k a)) ->
  respects (makes_call e) (bind m k).
Proof.
  intros Hm Hk w. unfold bind. destruct (Hm w) as (a & b & E1).
  destruct (m w) as [x w1]. cbn [snd] in E1.
  destruct (Hk x w1) as (e2 & E & _). exists a. exists (b ++ e2).
  rewrite E, E1, <- !app_assoc. reflexivity.
Qed.

Lemma makes_call_call {A} (f : list event -> A) e :
  respects (makes_call e) (call f e).
Proof. intros w. exists [], []. reflexivity. Qed.

Lemma realloc_objects_generates gl count :
  respects (makes_call (glGenSamplers count)) (realloc_objects gl count).
Proof.
  unfold realloc_objects.
  apply makes_call_later; [prims_get|]. intros t0.
  apply makes_call_later; [walk; prims|]. intros ?.
  apply makes_call_later; [walk; prims|]. intros ?.
  apply makes_call_later; [prims_get|]. intros t.
  apply makes_call_first; [apply makes_call_call|].
  intros names. walk; prims.
Qed.

Lemma setup_realloc_generates gl count w :
  planeCount (texture w) < count ->
  makes_call (glGenSamplers count) w (snd (setup_realloc gl count w)).
Proof.
  intros H. unfold setup_realloc, bind at 1, get_texture.
  destruct (Z.ltb_spec (planeCount (texture w)) count); [|lia].
  cbn [when].
  apply (makes_call_first (glGenSamplers count)
           (realloc_objects gl count)
           (fun _ => modify_texture (set_planeCount count))).
  - apply realloc_objects_generates.
  - intros ?. prims.
Qed.

Lemma fmap_tex_upd {X} (g : Tex -> X) i f t :
  (forall x, g (f x) = g x) -> g <$> tex (upd_tex i f t) = g <$> tex t.
Proof.
  intros Hf. unfold upd_tex. cbn. generalize (idx i) as n.
  induction (tex t) as [|x l IH]; intros [|n]; cbn; auto.
  - rewrite Hf. reflexivity.
  - f_equal. apply IH.
Qed.

Lemma setup_planeCount gl f wd ht sd str w :
  planeCount (texture (exec (egl_texture_setup gl f wd ht sd str) w))
  = match switch_pixFmt f wd ht sd
            (set_state zero_state (set_params f wd ht sd str (texture w)))
    with
    | Some (count, _) => Z.max (planeCount (texture w)) count
    | None => planeCount (texture w)
    end.
Proof.
  destruct (switch_pixFmt f wd ht sd _) as [[count t']|] eqn:H.
  - apply (setup_result gl f wd ht sd str w count t' H).
  - unfold exec. rewrite setup_spec. cbv zeta. rewrite H. reflexivity.
Qed.

(** A setup that needs no more planes than there are: no texture or
    sampler is created or deleted, and the names stay. *)
Lemma setup_no_realloc gl f wd ht sd str w count t' :
  switch_pixFmt f wd ht sd
    (set_state zero_state (set_params f wd ht sd str (texture w)))
  = Some (count, t') ->
  count <= planeCount (texture w) ->
  let w' := exec (egl_texture_setup gl f wd ht sd str) w in
  emits_only (fun e => negb (is_realloc e)) w w' /\
  samplers (texture w') = samplers (texture w) /\
  tex_t <$> tex (texture w') = tex_t <$> tex (texture w).
Proof.
  intros H Hc. cbv zeta. unfold exec at 1 2 3. rewrite setup_spec.
  cbv zeta. rewrite H.
  destruct (switch_outside _ _ _ _ _ _ _ H) as (Hp & Hsm & Htx & _).
  set (w1 := {| texture := t'; warnDone := warnDone w;
                history := history w ++
                  [atomic_store_explicit_v 0 memory_order_relaxed] |}).
  unfold exec. rewrite (setup_realloc_skip gl count w1)
    by (change (planeCount (texture w1)) with (planeCount t');
        rewrite Hp; exact Hc).
  cbn [snd]. split; [|split].
  - destruct (setup_storage_emits gl count str w1) as (evs & E & F).
    exists (atomic_store_explicit_v 0 memory_order_relaxed :: evs).
    split; [|exact F]. rewrite E. unfold w1. cbn [history].
    rewrite <- app_assoc. reflexivity.
  - rewrite (setup_storage_keeps gl count str samplers
               ltac:(reflexivity) ltac:(reflexivity) w1).
    exact Hsm.
  - rewrite (setup_storage_keeps gl count str (fun t => tex_t <$> tex t)
               ltac:(intros; apply fmap_tex_upd; reflexivity)
               ltac:(intros; apply fmap_tex_upd; reflexivity) w1).
    change (texture w1) with t'. rewrite Htx. reflexivity.
Qed.

(** A setup that needs more planes creates the samplers anew. *)
Lemma setup_does_realloc gl f wd ht sd str w count t' :
  switch_pixFmt f wd ht sd
    (set_state zero_state (set_params f wd ht sd str (texture w)))
  = Some (count, t') ->
  planeCount (texture w) < count ->
  makes_call (glGenSamplers count) w
    (exec (egl_texture_setup gl f wd ht sd str) w).
Proof.
  intros H Hc. unfold exec at 1. rewrite setup_spec. cbv zeta. rewrite H.
  destruct (switch_outside _ _ _ _ _ _ _ H) as (Hp & _).
  set (w1 := {| texture := t'; warnDone := warnDone w;
                history := history w ++
                  [atomic_store_explicit_v 0 memory_order_relaxed] |}).
  destruct (setup_realloc_generates gl count w1) as (a & b & E1).
  { change (planeCount (texture w1)) with (planeCount t').
    rewrite Hp. exact Hc. }
  destruct (setup_storage_emits gl count str (exec (setup_realloc gl count) w1))
    as (evs & E & _).
  exists (atomic_store_explicit_v 0 memory_order_relaxed :: a), (b ++ evs).
  rewrite E. unfold exec. rewrite E1. unfold w1. cbn [history].
  rewrite <- !app_assoc. reflexivity.
Qed.

(** The plane count never goes down. *)
Lemma perform_planeCount gl c w :
  planeCount (texture w) <= planeCount (texture (exec (perform gl c) w)).
Proof.
  destruct (is_setup c) eqn:Hc.
  - destruct c; try discriminate Hc. cbn [perform].
    rewrite exec_perform_bind, setup_planeCount.
    destruct (switch_pixFmt _ _ _ _ _) as [[count t']|]; lia.
  - pose proof (perform_keeps_layout gl c Hc w) as E. unfold keeps in E.
    apply (f_equal (fun l => fst (fst (fst (fst (fst l)))))) in E.
    cbn in E. unfold exec. rewrite E. lia.
Qed.

Lemma run_planeCount gl cs :
  forall w, planeCount (texture w) <= planeCount (texture (run gl cs w)).
Proof.
  induction cs as [|c cs IH]; intros w; [cbn; lia|].
  rewrite run_cons. pose proof (perform_planeCount gl c w).
  pose proof (IH (exec (perform gl c) w)). lia.
Qed.

(** ** [egl_texture_update_from_frame] without streaming *)

Lemma update_from_frame_idle frame w :
  streaming (texture w) = false ->
  egl_texture_update_from_frame frame w = (false, w).
Proof.
  intros Hs. unfold egl_texture_update_from_frame, bind, get_texture.
  rewrite Hs. reflexivity.
Qed.

Lemma layout_eq t t' :
  layout t = layout t' ->
  planeCount t = planeCount t' /\ planes t = planes t' /\
  offsets t = offsets t' /\ format t = format t' /\
  dataType t = dataType t' /\ pboBufferSize t = pboBufferSize t'.
Proof. unfold layout. intros H. inversion H. auto 10. Qed.

(** * Further properties of texture.c *)

(** ** The slow warning *)

#[global] Instance warn_once_step : Step warn_once.
Proof.
  split.
  - intros w. exists []. rewrite app_nil_r.
    destruct (warnDone w); repeat split; auto.
  - intros a b c (e1 & H1 & M1 & C1) (e2 & H2 & M2 & C2).
    exists (e1 ++ e2). rewrite H2, H1, app_assoc, count_events_app, C1, C2.
    split; [reflexivity|]. split; [auto|].
    destruct (warnDone a), (warnDone b), (warnDone c); try reflexivity;
      try (specialize (M1 eq_refl); discriminate);
      try (specialize (M2 eq_refl); discriminate).
Qed.

Lemma once_emit e : is_debug_warn e = false -> respects warn_once (emit e).
Proof.
  intros H w. exists [e]. cbn [snd emit history warnDone].
  rewrite count_events_cons, H. destruct (warnDone w); repeat split; auto.
Qed.

Lemma once_call {A} (f : list event -> A) e :
  is_debug_warn e = false -> respects warn_once (call f e).
Proof.
  intros H w. exists [e]. cbn [snd call history warnDone].
  rewrite count_events_cons, H. destruct (warnDone w); repeat split; auto.
Qed.

Lemma once_modify f : respects warn_once (modify_texture f).
Proof.
  intros w. exists []. cbn [snd modify_texture history warnDone].
  rewrite app_nil_r. destruct (warnDone w); repeat split; auto.
Qed.

Lemma once_warn_slow : respects warn_once egl_warn_slow.
Proof.
  intros w. rewrite warn_slow_spec. cbn [snd history warnDone].
  exists (if warnDone w then [] else slow_warning).
  destruct (warnDone w); repeat split; auto.
Qed.

Ltac prims_once :=
  first [ apply once_emit; reflexivity | apply once_call; reflexivity
        | apply once_modify | apply once_warn_slow ].

Lemma map_from_once gl n :
  forall i, respects warn_once (egl_texture_map_from gl i n).
Proof.
  induction n as [|n IH]; intros i; cbn [egl_texture_map_from].
  - apply respects_ret; typeclasses eauto.
  - walk; try prims_once. apply IH.
Qed.

Lemma map_once gl : respects warn_once (egl_texture_map gl).
Proof.
  unfold egl_texture_map.
  apply respects_bind; [typeclasses eauto | apply map_from_once |].
  intros ok. walk; prims_once.
Qed.

Lemma setup_once gl f wd ht sd str :
  respects warn_once (egl_texture_setup gl f wd ht sd str).
Proof.
  unfold egl_texture_setup, setup_realloc, realloc_objects, setup_storage.
  walk; try prims_once; apply map_once.
Qed.

Lemma perform_once gl c : respects warn_once (perform gl c).
Proof.
  destruct c; cbn [perform].
  - apply respects_bind; [typeclasses eauto | apply setup_once |].
    intros ?. apply respects_ret; typeclasses eauto.
  - unfold egl_texture_update. walk; try prims_once.
  - unfold egl_texture_update_from_frame. walk; try prims_once.
  - unfold egl_texture_process. walk; try prims_once; apply map_once.
  - unfold egl_texture_bind, bind_streaming, bind_wait, bind_advance_d,
      bind_planes.
    walk; try prims_once.
  - unfold egl_texture_count. walk; try prims_once.
Qed.

Lemma run_once gl cs : forall w, warn_once w (run gl cs w).
Proof.
  induction cs as [|c cs IH]; intros w; [apply step_refl|].
  rewrite run_cons. eapply step_trans; [apply perform_once | apply IH].
Qed.

Lemma free_once allocated : respects warn_once (egl_texture_free allocated).
Proof.
  unfold egl_texture_free. walk; try prims_once.
Qed.

(** ** The [ready] flag and the fences along a run *)

Lemma ready_perform call fence status c p :
  is_setup call = false ->
  core_ok c ->
  0 <= adv_u p -> c_ready c = (0 <? adv_u p) ->
  let c' := core_perform call fence status c in
  let p' := count_moves (c_state c) (c_state c') p in
  0 <= adv_u p' /\ c_ready c' = (0 <? adv_u p').
Proof.
  intros Hn (Hw & Hu & Hs & Hd & Hl) H0 Hr. cbv zeta.
  destruct call; cbn [core_perform]; try discriminate Hn.
  - unfold core_update. destruct (_ && _); cbn [c_state c_ready];
      unfold count_moves; cbn [adv_u st_u set_st_w];
      rewrite moved_same, Z.add_0_r; auto.
  - unfold core_update. destruct (_ && _); cbn [c_state c_ready];
      unfold count_moves; cbn [adv_u st_u set_st_w];
      rewrite moved_same, Z.add_0_r; auto.
  - unfold core_process. destruct (_ && _); cbn [c_state c_ready];
      unfold count_moves; cbn [adv_u st_u set_st_u].
    + rewrite moved_next. split; [lia|]. symmetry. apply Z.ltb_lt. lia.
    + rewrite moved_same, Z.add_0_r. auto.
  - assert (E : st_u (c_state (core_bind status c)) = st_u (c_state c)
                /\ c_ready (core_bind status c) = c_ready c).
    { unfold core_bind. destruct (_ && _); [|auto].
      destruct (_ =? 0); cbn [c_state c_ready].
      - split; [apply advance_d_others | reflexivity].
      - destruct (classify_wait status); cbn [c_state c_ready].
        + split; [|reflexivity].
          destruct (advance_d_others
                      (set_st_s (ring_next (st_s (c_state c))) (c_state c)))
            as (_ & -> & _). reflexivity.
        + split; [apply advance_d_others | reflexivity].
        + auto. }
    destruct E as (E1 & E2). unfold count_moves. cbn [adv_u].
    rewrite E1, E2, moved_same, Z.add_0_r. auto.
  - rewrite same_progress. auto.
Qed.

Lemma run_counting_ready gl cs :
  forallb (fun c => negb (is_setup c)) cs = true ->
  forall w p,
    core_ok (core (texture w)) ->
    0 <= adv_u p -> ready (texture w) = (0 <? adv_u p) ->
    let r := run_counting gl cs (w, p) in
    0 <= adv_u (snd r) /\ ready (texture (fst r)) = (0 <? adv_u (snd r)).
Proof.
  induction cs as [|call cs IH]; intros Hn w p Hok H0 Hr; [split; assumption|].
  cbn [forallb] in Hn. apply andb_true_iff in Hn as (Hc & Hn).
  apply negb_true_iff in Hc.
  rewrite run_counting_cons.
  pose proof (ready_perform call (upload_fence gl w)
                (client_wait_sync gl
                   (history w ++ [atomic_load_explicit memory_order_acquire]))
                (core (texture w)) p Hc Hok H0 Hr) as Hstep.
  cbv zeta in Hstep. rewrite <- perform_core in Hstep by exact Hok.
  destruct Hstep as (H0' & Hr').
  apply IH; [exact Hn | | exact H0' | exact Hr'].
  rewrite perform_core by exact Hok. apply core_perform_ok, Hok.
Qed.

(** The slot the uploader fills next holds no fence. *)
Lemma window_free_slot c p :
  core_ok c -> ring_inv c p -> c_syncs c !!! idx (st_u (c_state c)) = 0.
Proof.
  intros (Hw & Hu & Hs & Hd & Hl) (Hr & Hf).
  destruct (Z.eq_dec (c_syncs c !!! idx (st_u (c_state c))) 0) as [E|E];
    [exact E|].
  exfalso. destruct (Hf _ Hu E) as (k & Hk & Hm).
  destruct Hr as (_ & Eu & _ & _ & _ & _ & _ & _ & Hus & _).
  rewrite Eu in Hm. unfold TEXTURE_COUNT in *. mod_lia.
Qed.

(** ** A second setup *)

Lemma stale_fence_core a b c fence st1 st2 :
  b <> 0 -> fence <> 0 ->
  classify_wait st1 = fence_signaled ->
  classify_wait st2 = fence_signaled ->
  c_state
    (core_bind st2
       (core_bind st1
          (core_process fence
             (core_update
                {| c_state := zero_state; c_syncs := [a; b; c];
                   c_streaming := true; c_ready := false |}))))
  = {| st_w := 1; st_u := 1; st_s := 2; st_d := 1 |}.
Proof.
  intros Hb Hf H1 H2.
  assert (E1 : core_process fence
                 (core_update
                    {| c_state := zero_state; c_syncs := [a; b; c];
                       c_streaming := true; c_ready := false |})
               = {| c_state := {| st_w := 1; st_u := 1; st_s := 0;
                                  st_d := 0 |};
                    c_syncs := [fence; b; c];
                    c_streaming := true; c_ready := true |})
    by (vm_compute; reflexivity).
  rewrite E1. clear E1.
  assert (E2 : core_bind st1
                 {| c_state := {| st_w := 1; st_u := 1; st_s := 0;
                                  st_d := 0 |};
                    c_syncs := [fence; b; c];
                    c_streaming := true; c_ready := true |}
               = {| c_state := {| st_w := 1; st_u := 1; st_s := 1;
                                  st_d := 0 |};
                    c_syncs := [0; b; c];
                    c_streaming := true; c_ready := true |}).
  { unfold core_bind. cbn [c_streaming c_ready andb c_state c_syncs st_s].
    change ([fence; b; c] !!! idx 0) with fence.
    destruct (Z.eqb_spec fence 0) as [E|_]; [contradiction|]. rewrite H1.
    vm_compute. reflexivity. }
  rewrite E2. clear E2.
  unfold core_bind. cbn [c_streaming c_ready andb c_state c_syncs st_s].
  change ([0; b; c] !!! idx 1) with b.
  destruct (Z.eqb_spec b 0) as [E|_]; [contradiction|]. rewrite H2.
  vm_compute. reflexivity.
Qed.

Lemma reachable_perform gl w c :
  reachable gl w -> reachable gl (exec (perform gl c) w).
Proof.
  intros (w0 & cs & ->). exists w0, (cs ++ [c]).
  unfold run. rewrite foldl_app. reflexivity.
Qed.

Lemma reachable_run gl cs :
  forall w, reachable gl w -> reachable gl (run gl cs w).
Proof.
  induction cs as [|c cs IH]; intros w H; [exact H|].
  rewrite run_cons. apply IH, reachable_perform, H.
Qed.

Lemma reachable_setup gl f wd ht sd str w :
  reachable gl w -> reachable gl (exec (egl_texture_setup gl f wd ht sd str) w).
Proof.
  intros H. rewrite <- exec_perform_bind.
  apply (reachable_perform gl w (do_setup f wd ht sd str) H).
Qed.

Lemma setup_no_fence_call gl f wd ht sd str :
  respects (emits_only (fun e => negb (is_fence_delete e || is_fence_wait e)))
    (egl_texture_setup gl f wd ht sd str).
Proof.
  unfold egl_texture_setup, setup_realloc, realloc_objects, setup_storage.
  walk; try prims.
  intros w0. apply (emits_only_weaken is_map_phase); [|apply map_emits].
  intros ev. destruct ev; cbn; congruence.
Qed.

Lemma reachable_sync_at gl w i :
  reachable gl w -> idx_ok i ->
  tex_sync (tex_at (texture w) i) = syncs (texture w) !!! idx i.
Proof.
  intros H Hi. pose proof (reachable_core_ok gl w H) as (_ & _ & _ & _ & Hl).
  cbn [core c_syncs] in Hl. rewrite length_syncs in Hl.
  apply sync_at. rewrite Hl, idx_of_slot by exact Hi.
  unfold idx_ok, TEXTURE_COUNT in Hi. lia.
Qed.

(** ** The buffers of the slots *)

Lemma any_calls {A} (m : M A) w :
  respects (emits_only (fun _ => true)) m ->
  exists evs, history (snd (m w)) = history w ++ evs.
Proof. intros H. destruct (H w) as (evs & E & _). exists evs. exact E. Qed.

Lemma bind_seq {A B} (m : M A) (k : M B) w : (m ;; k) w = k (exec m w).
Proof. unfold bind, exec. destruct (m w). reflexivity. Qed.

Lemma exec_seq {A B} (m : M A) (k : M B) w :
  exec (m ;; k) w = exec k (exec m w).
Proof. unfold exec. rewrite bind_seq. reflexivity. Qed.

(** A loop establishes what each turn extends. *)
Lemma for_from_inv (I : Z -> World -> Prop) (body : Z -> M unit) :
  (forall k w, I k w -> I (k + 1) (exec (body k) w)) ->
  forall n i w, I i w -> I (i + Z.of_nat n) (exec (for_from i n body) w).
Proof.
  intros Hb n. induction n as [|n IH]; intros i w Hi.
  - cbn. rewrite Z.add_0_r. exact Hi.
  - cbn [for_from]. unfold exec. rewrite bind_seq.
    replace (i + Z.of_nat (S n)) with (i + 1 + Z.of_nat n) by lia.
    apply IH, Hb, Hi.
Qed.

Lemma hasPBOs_upd i f t :
  (forall x, tex_hasPBO (f x) = tex_hasPBO x) ->
  hasPBOs (upd_tex i f t) = hasPBOs t.
Proof. intros H. apply fmap_tex_upd, H. Qed.

Lemma hasPBOs_set i n t :
  hasPBOs (upd_tex i (fun x => set_tex_hasPBO true (set_tex_pbo n x)) t)
  = <[idx i := true]> (hasPBOs t).
Proof.
  unfold hasPBOs, upd_tex. cbn. generalize (idx i) as k.
  induction (tex t) as [|x l IH]; intros [|k]; cbn; auto.
  f_equal. apply IH.
Qed.

Lemma length_hasPBOs t : length (hasPBOs t) = length (tex t).
Proof. unfold hasPBOs. apply length_fmap. Qed.

(** One turn of the buffer loop of [egl_texture_setup]. *)
Lemma pbo_turn gl i w :
  exists n,
    texture
      (exec
         (let* t := get_texture in
          when (tex_hasPBO (tex_at t i))
            (emit (glDeleteBuffers 1 [tex_pbo (tex_at t i)])) ;;
          let* names := gen_into gl (glGenBuffers 1) 1
                          [tex_pbo (tex_at t i)] in
          modify_texture
            (upd_tex i (fun x => set_tex_hasPBO true
                                   (set_tex_pbo (names !!! 0%nat) x))) ;;
          let* t := get_texture in
          emit (glBindBuffer GL_PIXEL_UNPACK_BUFFER (tex_pbo (tex_at t i))) ;;
          emit (glBufferStorage GL_PIXEL_UNPACK_BUFFER (pboBufferSize t) NULL
                  GL_MAP_WRITE_BIT)) w)
    = upd_tex i (fun x => set_tex_hasPBO true (set_tex_pbo n x)) (texture w).
Proof.
  unfold exec, bind, get_texture, gen_into, call, modify_texture, emit.
  cbn [fst snd]. destruct (tex_hasPBO (tex_at (texture w) i));
    cbn [when texture snd]; eexists; reflexivity.
Qed.

(** [egl_texture_map] on slots that are not mapped: it says true exactly
    when it has mapped all three. *)
Lemma map_outcome gl w :
  maps (texture w) = [NULL; NULL; NULL] ->
  let r := egl_texture_map gl w in
  (fst r = true <-> Forall (fun m => m <> NULL) (maps (texture (snd r))))
  /\ (fst r = false ->
      exists evs i n,
        history (snd r) = history w ++ evs ++
          [EGL_ERROR "glMapBufferRange failed for %d of %lu bytes" [i; n]]).
Proof.
  intros Hm. cbv zeta. unfold egl_texture_map.
  change (Z.to_nat TEXTURE_COUNT) with 3%nat. cbn [egl_texture_map_from].
  unfold bind, get_texture, emit, call, modify_texture, ret.
  cbn [texture warnDone history].
  set (a0 := map_buffer_range gl _).
  destruct (Z.eqb_spec a0 NULL) as [E0|E0]; cbn [fst snd texture history].
  { rewrite maps_upd_map, Hm. cbn. split.
    - split; [discriminate|]. intros F. inversion F. contradiction.
    - intros _. rewrite <- !app_assoc. cbn [app].
      eexists [_; _], _, _. reflexivity. }
  set (a1 := map_buffer_range gl _).
  destruct (Z.eqb_spec a1 NULL) as [E1|E1]; cbn [fst snd texture history].
  { rewrite !maps_upd_map, Hm. cbn. split.
    - split; [discriminate|]. intros F. inversion F as [|? ? _ F1].
      inversion F1. contradiction.
    - intros _. rewrite <- !app_assoc. cbn [app].
      eexists [_; _; _; _], _, _. reflexivity. }
  set (a2 := map_buffer_range gl _).
  destruct (Z.eqb_spec a2 NULL) as [E2|E2]; cbn [fst snd texture history].
  { rewrite !maps_upd_map, Hm. cbn. split.
    - split; [discriminate|]. intros F. inversion F as [|? ? _ F1].
      inversion F1 as [|? ? _ F2]. inversion F2. contradiction.
    - intros _. rewrite <- !app_assoc. cbn [app].
      eexists [_; _; _; _; _; _], _, _. reflexivity. }
  rewrite !maps_upd_map, Hm. cbn. split.
  - split; [|reflexivity]. intros _. repeat constructor; assumption.
  - discriminate.
Qed.

(** The storage part of [egl_texture_setup]: every slot is given a
    buffer, and the answer is true exactly when every slot is mapped. *)
Lemma setup_storage_outcome gl count str w :
  length (tex (texture w)) = 3%nat ->
  let r := setup_storage gl count str w in
  hasPBOs (texture (snd r)) = [true; true; true]
  /\ length (tex (texture (snd r))) = 3%nat
  /\ (fst r = true <-> Forall (fun m => m <> NULL) (maps (texture (snd r))))
  /\ (maps_succeed gl -> fst r = true)
  /\ (fst r = false ->
      exists evs i n,
        history (snd r) = history w ++ evs ++
          [EGL_ERROR "glMapBufferRange failed for %d of %lu bytes" [i; n]]).
Proof.
  intros Hl. cbv zeta. unfold setup_storage.
  rewrite !bind_seq.
  match goal with
  | |- context [exec (for_loop TEXTURE_COUNT ?b) (exec egl_texture_unmap ?x)] =>
    set (body := b); set (w2 := x)
  end.
  assert (Hl2 : length (tex (texture w2)) = 3%nat).
  { unfold w2, exec. cbn [emit snd texture].
    match goal with
    | |- length (tex (texture (snd (?m w)))) = _ =>
      assert (Hk1 : respects (keeps tex) m) by (walk; prims);
      rewrite (Hk1 w)
    end.
    exact Hl. }
  assert (Hh2 : exists pre, history w2 = history w ++ pre).
  { unfold w2, exec. cbn [emit snd history].
    match goal with
    | |- exists pre, history (snd (?m w)) ++ _ = _ =>
      destruct (any_calls m w ltac:(walk; prims)) as (e1 & E1)
    end.
    rewrite E1. eexists. rewrite <- app_assoc. reflexivity. }
  set (w3 := exec egl_texture_unmap w2).
  assert (E3 : texture w3 = unmap_all (texture w2))
    by (unfold w3, exec; rewrite unmap_spec; reflexivity).
  assert (Hl3 : length (tex (texture w3)) = 3%nat)
    by (rewrite E3, length_tex_unmap_all; exact Hl2).
  assert (Hm3 : maps (texture w3) = [NULL; NULL; NULL])
    by (rewrite E3; apply maps_unmap_all, Hl2).
  assert (Hh6 : exists pre,
            history (exec (for_loop TEXTURE_COUNT body) w3)
            = history w ++ pre).
  { destruct Hh2 as (p2 & E2).
    destruct (any_calls egl_texture_unmap w2 ltac:(walk; prims))
      as (e3 & E3').
    destruct (any_calls (for_loop TEXTURE_COUNT body) w3
                ltac:(unfold body; walk; prims)) as (e4 & E4).
    unfold exec at 1. rewrite E4. unfold w3, exec at 1. rewrite E3', E2.
    eexists. rewrite <- !app_assoc. reflexivity. }
  change (for_loop TEXTURE_COUNT body) with (for_from 0 3 body) in *.
  cbn [for_from] in *. rewrite !exec_seq in *.
  change (exec (ret tt) ?x) with x in *.
  destruct (pbo_turn gl 0 w3) as (n0 & E0).
  fold (body 0) in E0. set (w4 := exec (body 0) w3) in *.
  destruct (pbo_turn gl (0 + 1) w4) as (n1 & E1).
  fold (body (0 + 1)) in E1. set (w5 := exec (body (0 + 1)) w4) in *.
  destruct (pbo_turn gl (0 + 1 + 1) w5) as (n2 & E2).
  fold (body (0 + 1 + 1)) in E2. set (w6 := exec (body (0 + 1 + 1)) w5) in *.
  assert (Hp6 : hasPBOs (texture w6) = [true; true; true]).
  { rewrite E2, E1, E0, !hasPBOs_set.
    rewrite <- length_hasPBOs in Hl3.
    destruct (hasPBOs (texture w3)) as [|a [|b [|c [|]]]];
      try discriminate Hl3. reflexivity. }
  assert (Hl6 : length (tex (texture w6)) = 3%nat)
    by (rewrite E2, E1, E0, !length_tex_upd; exact Hl3).
  assert (Hm6 : maps (texture w6) = [NULL; NULL; NULL])
    by (rewrite E2, E1, E0, !maps_upd by reflexivity; exact Hm3).
  destruct (map_outcome gl w6 Hm6) as (Hiff & Herr).
  assert (Herr' : fst (egl_texture_map gl w6) = false ->
            exists evs i n,
              history (snd (egl_texture_map gl w6)) = history w ++ evs ++
                [EGL_ERROR "glMapBufferRange failed for %d of %lu bytes"
                   [i; n]]).
  { intros Hf. destruct (Herr Hf) as (evs & i & n & E).
    destruct Hh6 as (pre & Ep). exists (pre ++ evs), i, n.
    rewrite E, Ep, <- !app_assoc. reflexivity. }
  clear Herr.
  unfold bind.
  pose proof (map_keeps gl hasPBOs
                ltac:(intros; apply hasPBOs_upd; reflexivity) w6) as Hk.
  pose proof (map_keeps gl (fun t => length (tex t))
                ltac:(intros; apply length_tex_upd) w6) as Hkl.
  unfold keeps in Hk, Hkl. cbv beta in Hkl.
  assert (Hok : maps_succeed gl -> fst (egl_texture_map gl w6) = true).
  { intros Hs. destruct (map_all gl w6 Hs)
      as (a0 & a1 & a2 & _ & _ & _ & E).
    cbv zeta in E. rewrite E. reflexivity. }
  destruct (egl_texture_map gl w6) as [[|] w7]; unfold ret;
    cbn [fst snd] in *.
  - split; [rewrite Hk; exact Hp6|]. split; [rewrite Hkl; exact Hl6|].
    split; [exact Hiff|]. split; [reflexivity | exact Herr'].
  - split; [rewrite Hk; exact Hp6|]. split; [rewrite Hkl; exact Hl6|].
    split; [exact Hiff|]. split; [exact Hok | exact Herr'].
Qed.

Lemma setup_outcome gl f wd ht sd str w count t' :
  switch_pixFmt f wd ht sd
    (set_state zero_state (set_params f wd ht sd str (texture w)))
  = Some (count, t') ->
  length (tex (texture w)) = 3%nat ->
  let r := egl_texture_setup gl f wd ht sd str w in
  hasPBOs (texture (snd r)) = [true; true; true]
  /\ length (tex (texture (snd r))) = 3%nat
  /\ (fst r = true <-> Forall (fun m => m <> NULL) (maps (texture (snd r))))
  /\ (maps_succeed gl -> fst r = true)
  /\ (fst r = false ->
      exists evs i n,
        history (snd r) = history w ++ evs ++
          [EGL_ERROR "glMapBufferRange failed for %d of %lu bytes" [i; n]]).
Proof.
  intros H Hl. cbv zeta. rewrite setup_spec. cbv zeta. rewrite H.
  set (w1 := {| texture := t'; warnDone := warnDone w;
                history := history w ++
                  [atomic_store_explicit_v 0 memory_order_relaxed] |}).
  assert (Hl1 : length (tex (texture (exec (setup_realloc gl count) w1)))
                = 3%nat).
  { pose proof (setup_realloc_keeps gl count (fun t => length (tex t))
                  ltac:(intros; apply length_tex_upd) ltac:(reflexivity)
                  ltac:(reflexivity) w1) as K.
    unfold keeps in K. cbv beta in K. unfold exec. rewrite K.
    cbn [texture w1].
    destruct (switch_outside _ _ _ _ _ _ _ H) as (_ & _ & -> & _).
    exact Hl. }
  destruct (setup_storage_outcome gl count str _ Hl1)
    as (P1 & P2 & P3 & P4 & P5).
  split; [exact P1|]. split; [exact P2|]. split; [exact P3|].
  split; [exact P4|].
  intros Hf. destruct (P5 Hf) as (evs & i & n & E).
  destruct (any_calls (setup_realloc gl count) w1
              ltac:(unfold setup_realloc, realloc_objects; walk; prims))
    as (e1 & E1).
  unfold exec in E |- *. rewrite E, E1. cbn [history w1].
  exists ([atomic_store_explicit_v 0 memory_order_relaxed] ++ e1 ++ evs),
    i, n.
  rewrite <- !app_assoc. reflexivity.
Qed.

Lemma supported_format f wd ht sd t :
  (forall code, f <> EGL_PF_other code) ->
  exists count t', switch_pixFmt f wd ht sd t = Some (count, t').
Proof.
  intros H. unfold switch_pixFmt. destruct f; try (eexists _, _; reflexivity).
  destruct (H code eq_refl).
Qed.

(** A slot that owns a buffer has it mapped. *)
Lemma owned_mapped_of_maps t :
  Forall (fun m => m <> NULL) (maps t) ->
  Forall (fun x => tex_hasPBO x = true -> tex_map x <> NULL) (tex t).
Proof.
  unfold maps. rewrite Forall_fmap. intros F.
  eapply Forall_impl; [exact F|]. intros x H _. exact H.
Qed.

Lemma owned_mapped_same t t' :
  (fun x => (tex_hasPBO x, tex_map x)) <$> tex t'
  = (fun x => (tex_hasPBO x, tex_map x)) <$> tex t ->
  Forall (fun x => tex_hasPBO x = true -> tex_map x <> NULL) (tex t) ->
  Forall (fun x => tex_hasPBO x = true -> tex_map x <> NULL) (tex t').
Proof.
  intros E F.
  assert (G : forall l : list Tex,
            Forall (fun x => tex_hasPBO x = true -> tex_map x <> NULL) l <->
            Forall (fun p : bool * Z => fst p = true -> snd p <> NULL)
              ((fun x => (tex_hasPBO x, tex_map x)) <$> l)).
  { intros l. rewrite Forall_fmap. reflexivity. }
  apply G. rewrite E. apply G, F.
Qed.

Lemma perform_owned_mapped gl c w :
  maps_succeed gl -> reachable gl w ->
  Forall (fun x => tex_hasPBO x = true -> tex_map x <> NULL)
    (tex (texture w)) ->
  Forall (fun x => tex_hasPBO x = true -> tex_map x <> NULL)
    (tex (texture (exec (perform gl c) w))).
Proof.
  intros Hs Hr J.
  pose proof (reachable_core_ok gl w Hr) as Hok.
  pose proof Hok as (Hw & Hu & _ & _ & Hl).
  cbn [core c_state c_syncs] in Hw, Hu, Hl. rewrite length_syncs in Hl.
  destruct c; cbn [perform]; rewrite exec_perform_bind.
  - destruct (switch_pixFmt f wd ht sd
                (set_state zero_state
                   (set_params f wd ht sd str (texture w))))
      as [[count t']|] eqn:E.
    + destruct (setup_outcome gl f wd ht sd str w count t' E Hl)
        as (_ & _ & Hiff & Htrue).
      apply owned_mapped_of_maps, Hiff, Htrue, Hs.
    + unfold exec. rewrite setup_spec. cbv zeta. rewrite E. exact J.
  - apply (owned_mapped_same (texture w)); [|exact J]. f_equal.
    assert (K : respects (keeps tex) (egl_texture_update buffer))
      by (unfold egl_texture_update; walk; try prims; apply warn_slow_keeps).
    apply K.
  - apply (owned_mapped_same (texture w)); [|exact J]. f_equal.
    assert (K : respects (keeps tex) (egl_texture_update_from_frame frame))
      by (unfold egl_texture_update_from_frame; walk; try prims;
          apply warn_slow_keeps).
    apply K.
  - destruct (streaming (texture w)) eqn:Hst.
    + destruct (u_advances (state (texture w))) eqn:Hg.
      * destruct (process_upload_calls gl w Hst Hu Hg)
          as (remap & _ & _ & Hm).
        destruct (Hm Hs) as (_ & Hall). destruct (Hall Hl) as (_ & F).
        apply owned_mapped_of_maps, F.
      * unfold exec. rewrite process_skip by assumption. exact J.
    + unfold exec. rewrite process_idle by assumption. exact J.
  - apply (owned_mapped_same (texture w)); [|exact J].
    assert (K : respects
                  (keeps (fun t => (fun x => (tex_hasPBO x, tex_map x))
                                     <$> tex t))
                  (egl_texture_bind gl)).
    { unfold egl_texture_bind, bind_streaming, bind_wait, bind_advance_d,
        bind_planes.
      walk; try prims; apply fmap_tex_upd; reflexivity. }
    apply K.
  - exact J.
Qed.

Lemma run_owned_mapped gl cs :
  maps_succeed gl ->
  forall w, reachable gl w ->
  Forall (fun x => tex_hasPBO x = true -> tex_map x <> NULL)
    (tex (texture w)) ->
  Forall (fun x => tex_hasPBO x = true -> tex_map x <> NULL)
    (tex (texture (run gl cs w))).
Proof.
  intros Hs. induction cs as [|c cs IH]; intros w Hr J; [exact J|].
  rewrite run_cons. apply IH.
  - apply reachable_perform, Hr.
  - apply perform_owned_mapped; assumption.
Qed.

(** A slot keeps its buffer. *)
Lemma perform_hasPBOs gl c w :
  length (tex (texture w)) = 3%nat ->
  hasPBOs (texture w) = [true; true; true] ->
  hasPBOs (texture (exec (perform gl c) w)) = [true; true; true].
Proof.
  intros Hl H. destruct (is_setup c) eqn:Hc.
  - destruct c; try discriminate Hc. cbn [perform].
    rewrite exec_perform_bind.
    destruct (switch_pixFmt f wd ht sd
                (set_state zero_state
                   (set_params f wd ht sd str (texture w))))
      as [[count t']|] eqn:E.
    + apply (setup_outcome gl f wd ht sd str w count t' E Hl).
    + unfold exec. rewrite setup_spec. cbv zeta. rewrite E. exact H.
  - rewrite <- H.
    assert (K : respects (keeps hasPBOs) (perform gl c)).
    { destruct c; cbn [perform]; try discriminate Hc.
      - unfold egl_texture_update. walk; try prims; apply warn_slow_keeps.
      - unfold egl_texture_update_from_frame.
        walk; try prims; apply warn_slow_keeps.
      - unfold egl_texture_process. walk; try prims;
          try (apply hasPBOs_upd; reflexivity).
        apply map_keeps. intros. apply hasPBOs_upd. reflexivity.
      - unfold egl_texture_bind, bind_streaming, bind_wait, bind_advance_d,
          bind_planes.
        walk; try prims; apply hasPBOs_upd; reflexivity.
      - unfold egl_texture_count. walk; try prims. }
    apply K.
Qed.

Lemma run_hasPBOs gl cs :
  forall w, reachable gl w ->
  hasPBOs (texture w) = [true; true; true] ->
  hasPBOs (texture (run gl cs w)) = [true; true; true].
Proof.
  induction cs as [|c cs IH]; intros w Hr H; [exact H|].
  rewrite run_cons. apply IH; [apply reachable_perform, Hr|].
  apply perform_hasPBOs; [|exact H].
  pose proof (reachable_core_ok gl w Hr) as (_ & _ & _ & _ & Hl).
  cbn [core c_syncs] in Hl. rewrite length_syncs in Hl. exact Hl.
Qed.

Lemma reachable_owned_mapped gl w :
  maps_succeed gl -> reachable gl w ->
  Forall (fun x => tex_hasPBO x = true -> tex_map x <> NULL)
    (tex (texture w)).
Proof.
  intros Hs (w0 & cs & ->). apply run_owned_mapped; [exact Hs| |].
  - exists w0, []. reflexivity.
  - rewrite init_world. repeat constructor; discriminate.
Qed.

Lemma reachable_length gl w : reachable gl w -> length (tex (texture w)) = 3%nat.
Proof.
  intros Hr. pose proof (reachable_core_ok gl w Hr) as (_ & _ & _ & _ & Hl).
  cbn [core c_syncs] in Hl. rewrite length_syncs in Hl. exact Hl.
Qed.

Lemma all_mapped t :
  length (tex t) = 3%nat ->
  hasPBOs t = [true; true; true] ->
  Forall (fun x => tex_hasPBO x = true -> tex_map x <> NULL) (tex t) ->
  Forall (fun m => m <> NULL) (maps t)
  /\ forall i, idx_ok i -> tex_map (tex_at t i) <> NULL.
Proof.
  unfold hasPBOs, maps, tex_at. intros Hl Hp F.
  destruct (tex t) as [|x [|y [|z [|]]]]; try discriminate Hl.
  cbn in Hp. injection Hp as Hx Hy Hz.
  inversion F as [|? ? Fx F1]. inversion F1 as [|? ? Fy F2].
  inversion F2 as [|? ? Fz _]. subst.
  split; [repeat constructor; auto|].
  intros i Hi. rewrite idx_of_slot by exact Hi.
  unfold idx_ok, TEXTURE_COUNT in Hi.
  assert (i = 0 \/ i = 1 \/ i = 2) as [->|[->| ->]] by lia; cbn; auto.
Qed.

(** ** egl_texture_free *)

#[global] Arguments free_slot_events : simpl never.
#[global] Arguments free_slot : simpl never.

Lemma free_turn i w :
  (let* t := get_texture in
   when (tex_hasPBO (tex_at t i)) (
     emit (glBindBuffer GL_PIXEL_UNPACK_BUFFER (tex_pbo (tex_at t i))) ;;
     when (negb (tex_map (tex_at t i) =? NULL)) (
       emit (glUnmapBuffer GL_PIXEL_UNPACK_BUFFER) ;;
       modify_texture (upd_tex i (set_tex_map NULL))) ;;
     emit (glDeleteBuffers 1 [tex_pbo (tex_at t i)]) ;;
     when (negb (tex_sync (tex_at t i) =? 0))
       (emit (glDeleteSync (tex_sync (tex_at t i))))) ;;
   when (0 <? planeCount t)
     (emit (glDeleteTextures (planeCount t)
              (take (Z.to_nat (planeCount t)) (tex_t (tex_at t i)))))) w
  = (tt, {| texture := free_slot i (texture w); warnDone := warnDone w;
            history := history w ++ free_slot_events (texture w) i |}).
Proof.
  unfold free_slot, free_slot_events, bind, get_texture, emit,
    modify_texture, ret.
  destruct w as [t wd h]. cbn [texture warnDone history].
  destruct (tex_hasPBO (tex_at t i)); cbn [when andb];
    destruct (tex_map (tex_at t i) =? NULL); cbn [when negb];
    destruct (tex_sync (tex_at t i) =? 0); cbn [when negb];
    destruct (0 <? planeCount t); cbn;
    rewrite <- ?app_assoc; cbn; rewrite ?app_nil_r; reflexivity.
Qed.

Lemma free_spec w :
  let t := texture w in
  egl_texture_free true w =
  (false,
   {| texture := if streaming t
                 then free_slot 2 (free_slot 1 (free_slot 0 t))
                 else free_slot 0 t;
      warnDone := warnDone w;
      history :=
        history w ++ free_samplers t
        ++ (if streaming t
            then free_slot_events t 0
                 ++ free_slot_events (free_slot 0 t) 1
                 ++ free_slot_events (free_slot 1 (free_slot 0 t)) 2
            else free_slot_events t 0)
        ++ [glBindBuffer GL_PIXEL_UNPACK_BUFFER 0] |}).
Proof.
  cbv zeta. unfold egl_texture_free. cbn [negb].
  unfold bind at 1, get_texture at 1. rewrite bind_seq.
  set (w1 := exec (when (0 <? planeCount (texture w)) _) w).
  assert (E1 : w1 = with_history w (free_samplers (texture w))).
  { unfold w1, free_samplers, exec, with_history.
    destruct (0 <? planeCount (texture w)); cbn; [reflexivity|].
    rewrite app_nil_r. destruct w; reflexivity. }
  rewrite bind_seq.
  destruct (streaming (texture w)).
  - change (for_loop TEXTURE_COUNT ?b) with (for_from 0 3 b).
    cbn [for_from]. rewrite !exec_seq. unfold exec.
    rewrite (free_turn 0), (free_turn (0 + 1)), (free_turn (0 + 1 + 1)).
    cbn [snd texture warnDone history ret]. rewrite E1.
    unfold with_history, emit, bind, ret. cbn [texture warnDone history].
    rewrite <- !app_assoc. reflexivity.
  - change (for_loop 1 ?b) with (for_from 0 1 b).
    cbn [for_from]. rewrite !exec_seq. unfold exec.
    rewrite (free_turn 0).
    cbn [snd texture warnDone history ret]. rewrite E1.
    unfold with_history, emit, bind, ret. cbn [texture warnDone history].
    rewrite <- !app_assoc. reflexivity.
Qed.

Lemma free_slot_events_other i j t :
  idx i <> idx j -> free_slot_events (free_slot i t) j = free_slot_events t j.
Proof.
  intros H. unfold free_slot. destruct (_ && _); [|reflexivity].
  unfold free_slot_events. rewrite tex_at_upd_ne by exact H. reflexivity.
Qed.

Lemma free_slot_other i j t :
  idx i <> idx j -> tex_at (free_slot i t) j = tex_at t j.
Proof.
  intros H. unfold free_slot. destruct (_ && _); [|reflexivity].
  apply tex_at_upd_ne, H.
Qed.

(** The calls for one slot, counted. *)
Lemma free_slot_counts t i :
  count_events is_buffer_delete (free_slot_events t i)
  = (if tex_hasPBO (tex_at t i) then 1%nat else 0%nat)
  /\ count_events is_unmap (free_slot_events t i)
     = (if tex_hasPBO (tex_at t i) && negb (tex_map (tex_at t i) =? NULL)
        then 1%nat else 0%nat)
  /\ count_events is_fence_delete (free_slot_events t i)
     = (if tex_hasPBO (tex_at t i) && negb (tex_sync (tex_at t i) =? 0)
        then 1%nat else 0%nat)
  /\ count_events is_texture_delete (free_slot_events t i)
     = (if 0 <? planeCount t then 1%nat else 0%nat).
Proof.
  unfold free_slot_events.
  destruct (tex_hasPBO (tex_at t i)); destruct (tex_map (tex_at t i) =? NULL);
    destruct (tex_sync (tex_at t i) =? 0); destruct (0 <? planeCount t);
    repeat split; reflexivity.
Qed.

Lemma free_samplers_counts t :
  count_events is_buffer_delete (free_samplers t) = 0%nat
  /\ count_events is_unmap (free_samplers t) = 0%nat
  /\ count_events is_fence_delete (free_samplers t) = 0%nat
  /\ count_events is_texture_delete (free_samplers t) = 0%nat.
Proof.
  unfold free_samplers. destruct (0 <? planeCount t); repeat split;
    reflexivity.
Qed.

Lemma maps_free_slot i t :
  maps (free_slot i t)
  = if tex_hasPBO (tex_at t i) then <[idx i := NULL]> (maps t) else maps t.
Proof.
  unfold free_slot. destruct (tex_hasPBO (tex_at t i)); cbn [andb];
    [|reflexivity].
  destruct (Z.eqb_spec (tex_map (tex_at t i)) NULL) as [E|E]; cbn [negb].
  - symmetry. unfold maps, tex_at in *.
    destruct (decide (idx i < length (tex t))%nat) as [Hl|Hl].
    + apply list_insert_id. rewrite list_lookup_fmap.
      rewrite (list_lookup_lookup_total_lt _ _ Hl). cbn. f_equal. exact E.
    + apply list_insert_ge. rewrite length_fmap. lia.
  - apply maps_upd_map.
Qed.

(** * Further properties of main.c *)

(** ** The text conversions of the clipboard *)

Lemma take_insert_next (l : list Z) p c :
  (p < length l)%nat -> take (S p) (<[p := c]> l) = take p l ++ [c].
Proof.
  intros H. rewrite (take_S_r _ _ c).
  - rewrite take_insert_ge by lia. reflexivity.
  - apply list_lookup_insert_eq. exact H.
Qed.

Lemma length_crlf_le data : (length (crlf data) <= 2 * length data)%nat.
Proof.
  induction data as [|c data IH]; [cbn; lia|].
  unfold crlf in *. cbn [flat_map]. rewrite length_app.
  destruct (c =? 10); cbn [length]; lia.
Qed.

Lemma crlf_app a b : crlf (a ++ b) = crlf a ++ crlf b.
Proof. unfold crlf. apply flat_map_app. Qed.

(** The loop from position [i], with [rest] still to read. *)
Lemma unix2dos_from rest :
  forall fuel before buffer,
    (length rest < fuel)%nat ->
    Z.of_nat (length (before ++ rest)) < 2 ^ 32 ->
    (length (crlf before) + 2 * length rest <= length buffer)%nat ->
    take (length (crlf before)) buffer = crlf before ->
    exists buffer',
      Clipboard.unix2dos fuel (before ++ rest)
        (Z.of_nat (length (before ++ rest))) (Z.of_nat (length before))
        (buffer, Z.of_nat (length (crlf before)),
         Z.of_nat (length (crlf before)))
      = Some (buffer', Z.of_nat (length (crlf (before ++ rest))))
      /\ take (length (crlf (before ++ rest))) buffer'
         = crlf (before ++ rest)
      /\ length buffer' = length buffer.
Proof.
  induction rest as [|c rest IH]; intros fuel before buffer Hf Hs Hb Ht.
  - destruct fuel as [|fuel]; [cbn in Hf; lia|].
    rewrite app_nil_r in *. cbn [Clipboard.unix2dos].
    rewrite Z.ltb_irrefl. exists buffer. auto.
  - destruct fuel as [|fuel]; [cbn in Hf; lia|].
    cbn [Clipboard.unix2dos].
    rewrite length_app in Hs. cbn [length] in Hs, Hb, Hf.
    destruct (Z.ltb_spec (Z.of_nat (length before))
                (Z.of_nat (length (before ++ c :: rest)))) as [_|Hn];
      [|rewrite length_app in Hn; cbn [length] in Hn; lia].
    rewrite Nat2Z.id.
    assert (Ec : (before ++ c :: rest) !!! length before = c).
    { rewrite lookup_total_app_r by lia. rewrite Nat.sub_diag. reflexivity. }
    rewrite Ec.
    assert (Ei : Clipboard.to_uint32 (Z.of_nat (length before) + 1)
                 = Z.of_nat (length (before ++ [c]))).
    { unfold Clipboard.to_uint32. rewrite length_app. cbn [length].
      rewrite Z.mod_small by lia. lia. }
    assert (Espec : before ++ c :: rest = (before ++ [c]) ++ rest)
      by (rewrite <- app_assoc; reflexivity).
    pose proof (length_crlf_le before) as Hle.
    assert (H64 : 2 ^ 32 < 2 ^ 64) by reflexivity.
    destruct (Z.eqb_spec c 10) as [E10|E10].
    + rewrite !Nat2Z.id.
      assert (Eq1 : Z.of_nat (length (crlf before)) + 1
                    = Z.of_nat (S (length (crlf before)))) by lia.
      rewrite (to_size_t_small (Z.of_nat (length (crlf before)) + 1))
        by lia.
      rewrite Eq1, Nat2Z.id.
      assert (Hcr : crlf (before ++ [c]) = crlf before ++ [13; 10]).
      { rewrite crlf_app. unfold crlf at 2. cbn [flat_map].
        rewrite E10. cbn. reflexivity. }
      assert (Hlen : length (crlf (before ++ [c]))
                     = S (S (length (crlf before))))
        by (rewrite Hcr, length_app; cbn [length]; lia).
      rewrite to_size_t_small by lia.
      replace (Z.of_nat (S (length (crlf before))) + 1)
        with (Z.of_nat (length (crlf (before ++ [c])))) by lia.
      rewrite Ei, Espec.
      destruct (IH fuel (before ++ [c])
                  (<[S (length (crlf before)) := c]>
                     (<[length (crlf before) := 13]> buffer)))
        as (b' & R1 & R2 & R3).
      * lia.
      * rewrite <- Espec, length_app. cbn [length]. lia.
      * rewrite !length_insert, Hlen. lia.
      * rewrite Hlen, take_insert_next by (rewrite length_insert; lia).
        rewrite take_insert_next by lia.
        rewrite Ht, Hcr, E10, <- app_assoc. reflexivity.
      * exists b'. rewrite R1. split; [reflexivity|]. split; [exact R2|].
        rewrite R3, !length_insert. reflexivity.
    + rewrite !Nat2Z.id.
      assert (Hcr : crlf (before ++ [c]) = crlf before ++ [c]).
      { rewrite crlf_app. unfold crlf at 2. cbn [flat_map].
        destruct (Z.eqb_spec c 10); [contradiction|]. cbn. reflexivity. }
      assert (Hlen : length (crlf (before ++ [c]))
                     = S (length (crlf before)))
        by (rewrite Hcr, length_app; cbn [length]; lia).
      rewrite to_size_t_small by lia.
      replace (Z.of_nat (length (crlf before)) + 1)
        with (Z.of_nat (length (crlf (before ++ [c])))) by lia.
      rewrite Ei, Espec.
      destruct (IH fuel (before ++ [c])
                  (<[length (crlf before) := c]> buffer))
        as (b' & R1 & R2 & R3).
      * lia.
      * rewrite <- Espec, length_app. cbn [length]. lia.
      * rewrite !length_insert, Hlen. lia.
      * rewrite Hlen, take_insert_next by lia.
        rewrite Ht, Hcr. reflexivity.
      * exists b'. rewrite R1. split; [reflexivity|]. split; [exact R2|].
        rewrite R3, !length_insert. reflexivity.
Qed.

Lemma strip_cr_app a b : strip_cr (a ++ b) = strip_cr a ++ strip_cr b.
Proof. unfold strip_cr. apply List.filter_app. Qed.

Lemma length_strip_cr_le data : (length (strip_cr data) <= length data)%nat.
Proof. unfold strip_cr. apply List.filter_length_le. Qed.

(** The part of the buffer still to read. *)
Lemma unread_head (buffer : list Z) i c rest :
  take (S (length rest)) (drop i buffer) = c :: rest ->
  buffer !!! i = c /\ (i < length buffer)%nat /\
  take (length rest) (drop (S i) buffer) = rest.
Proof.
  intros H.
  assert (H0 : buffer !! i = Some c).
  { pose proof (f_equal (fun l => l !! 0%nat) H) as E. cbn in E.
    rewrite lookup_take_lt in E by lia. rewrite lookup_drop in E.
    rewrite Nat.add_0_r in E. exact E. }
  split; [apply list_lookup_total_correct, H0|].
  split; [apply lookup_lt_Some in H0; exact H0|].
  replace (S i) with (i + 1)%nat by lia. rewrite <- drop_drop.
  rewrite take_drop_commute. cbn [Nat.add]. rewrite H. reflexivity.
Qed.

Lemma dos2unix_from rest :
  forall fuel before buffer,
    (length rest < fuel)%nat ->
    Z.of_nat (length (before ++ rest)) < 2 ^ 32 ->
    take (length (strip_cr before)) buffer = strip_cr before ->
    take (length rest) (drop (length before) buffer) = rest ->
    exists buffer',
      Clipboard.dos2unix fuel (Z.of_nat (length (before ++ rest)))
        (Z.of_nat (length before))
        (buffer, Z.of_nat (length (strip_cr before)),
         Z.of_nat (length (strip_cr before) + length rest))
      = Some (buffer', Z.of_nat (length (strip_cr (before ++ rest))))
      /\ take (length (strip_cr (before ++ rest))) buffer'
         = strip_cr (before ++ rest)
      /\ length buffer' = length buffer.
Proof.
  induction rest as [|c rest IH]; intros fuel before buffer Hf Hs Ht Hr.
  - destruct fuel as [|fuel]; [cbn in Hf; lia|].
    rewrite app_nil_r in *. cbn [Clipboard.dos2unix length].
    rewrite Z.ltb_irrefl, Nat.add_0_r. exists buffer. auto.
  - destruct fuel as [|fuel]; [cbn in Hf; lia|].
    cbn [Clipboard.dos2unix].
    rewrite length_app in Hs. cbn [length] in Hs, Hf, Hr.
    destruct (Z.ltb_spec (Z.of_nat (length before))
                (Z.of_nat (length (before ++ c :: rest)))) as [_|Hn];
      [|rewrite length_app in Hn; cbn [length] in Hn; lia].
    rewrite Nat2Z.id.
    destruct (unread_head buffer (length before) c rest Hr)
      as (Ec & Hlt & Hr').
    rewrite Ec.
    assert (Ei : Clipboard.to_uint32 (Z.of_nat (length before) + 1)
                 = Z.of_nat (length (before ++ [c]))).
    { unfold Clipboard.to_uint32. rewrite length_app. cbn [length].
      rewrite Z.mod_small by lia. lia. }
    assert (Espec : before ++ c :: rest = (before ++ [c]) ++ rest)
      by (rewrite <- app_assoc; reflexivity).
    assert (Hlb : length (before ++ [c]) = S (length before))
      by (rewrite length_app; cbn [length]; lia).
    pose proof (length_strip_cr_le before) as Hle.
    destruct (Z.eqb_spec c 13) as [E13|E13].
    + assert (Hcr : strip_cr (before ++ [c]) = strip_cr before).
      { rewrite strip_cr_app. unfold strip_cr at 2. cbn [List.filter].
        rewrite E13. cbn. apply app_nil_r. }
      assert (En : Clipboard.to_uint32
                     (Z.of_nat (length (strip_cr before)
                                + length (c :: rest)) - 1)
                   = Z.of_nat (length (strip_cr (before ++ [c]))
                               + length rest)).
      { unfold Clipboard.to_uint32. rewrite Hcr. cbn [length].
        rewrite Z.mod_small by lia. lia. }
      rewrite En, Ei, Espec.
      rewrite <- (f_equal (@length Z) Hcr).
      destruct (IH fuel (before ++ [c]) buffer) as (b' & R1 & R2 & R3).
      * lia.
      * rewrite <- Espec, length_app. cbn [length]. lia.
      * rewrite Hcr. exact Ht.
      * rewrite Hlb. exact Hr'.
      * exists b'. auto.
    + rewrite ?Nat2Z.id.
      assert (Hcr : strip_cr (before ++ [c]) = strip_cr before ++ [c]).
      { rewrite strip_cr_app. unfold strip_cr at 2. cbn [List.filter].
        destruct (Z.eqb_spec c 13); [contradiction|]. reflexivity. }
      assert (Hlen : length (strip_cr (before ++ [c]))
                     = S (length (strip_cr before)))
        by (rewrite Hcr, length_app; cbn [length]; lia).
      replace (Z.of_nat (length (strip_cr before)) + 1)
        with (Z.of_nat (length (strip_cr (before ++ [c])))) by lia.
      replace (Z.of_nat (length (strip_cr before) + length (c :: rest)))
        with (Z.of_nat (length (strip_cr (before ++ [c])) + length rest))
        by (cbn [length]; lia).
      rewrite Ei, Espec.
      destruct (IH fuel (before ++ [c])
                  (<[length (strip_cr before) := c]> buffer))
        as (b' & R1 & R2 & R3).
      * lia.
      * rewrite <- Espec, length_app. cbn [length]. lia.
      * rewrite Hlen, take_insert_next by lia. rewrite Ht, Hcr.
        reflexivity.
      * rewrite Hlb, drop_insert_lt by lia. exact Hr'.
      * exists b'. rewrite R1. split; [reflexivity|]. split; [exact R2|].
        rewrite R3, length_insert. reflexivity.
Qed.
Lemma strip_cr_crlf data : strip_cr (crlf data) = strip_cr data.
Proof.
  induction data as [|c l IH]; [reflexivity|].
  change (crlf (c :: l))
    with ((if c =? 10 then [13; 10] else [c]) ++ crlf l).
  rewrite strip_cr_app, IH.
  destruct (Z.eqb_spec c 10) as [->|Hc]; [reflexivity|].
  unfold strip_cr. cbn [List.filter app].
  destruct (negb (c =? 13)); reflexivity.
Qed.

Lemma length_crlf_ge data : (length data <= length (crlf data))%nat.
Proof.
  induction data as [|c l IH]; [cbn; lia|].
  unfold crlf in *. cbn [flat_map]. rewrite length_app.
  destruct (c =? 10); cbn [length]; lia.
Qed.

Lemma strip_cr_id data : Forall (fun c => c <> 13) data -> strip_cr data = data.
Proof.
  intros H. induction H as [|c l Hc _ IH]; [reflexivity|].
  unfold strip_cr in *. cbn [List.filter]. rewrite IH.
  destruct (Z.eqb_spec c 13); [contradiction|reflexivity].
Qed.
(** ** The list of pending clipboard requests *)

Lemma requests_fold params reqs :
  Clipboard.clipboardToLocal params = true ->
  forall w,
    let w1 := fold_left
                (fun w r => snd (Clipboard.clipboardRequest params (fst r)
                                   (snd r) w)) reqs w in
    Clipboard.cbRequestList (Clipboard.app w1)
    = Clipboard.cbRequestList (Clipboard.app w)
      ++ ((fun r => {| Clipboard.cbr_type := Clipboard.cbType (Clipboard.app w);
                       Clipboard.cbr_replyFn := fst r;
                       Clipboard.cbr_opaque := snd r |}) <$> reqs)
    /\ Clipboard.log w1
       = Clipboard.log w
         ++ ((fun _ => Clipboard.spice_clipboard_request
                         (Clipboard.cbType (Clipboard.app w))) <$> reqs)
    /\ Clipboard.cbType (Clipboard.app w1) = Clipboard.cbType (Clipboard.app w).
Proof.
  intros Hl. induction reqs as [|r reqs IH]; intros w; cbv zeta.
  - cbn. rewrite !app_nil_r. auto.
  - cbn [fold_left fmap list_fmap].
    specialize (IH (snd (Clipboard.clipboardRequest params (fst r) (snd r) w))).
    cbv zeta in IH. destruct IH as (I1 & I2 & I3).
    rewrite I1, I2, I3. unfold Clipboard.clipboardRequest. rewrite Hl.
    destruct w as [a lg]. cbn. rewrite <- !app_assoc. auto.
Qed.

Lemma replies_fold params msgs :
  Clipboard.clipboardToLocal params = true ->
  Forall (fun m : Clipboard.SpiceDataType * list Z * Z =>
            fst (fst m) <> Clipboard.SPICE_DATA_TEXT) msgs ->
  forall fuel w,
    let w2 := fold_left
                (fun w m => snd (Clipboard.spiceClipboardData params fuel
                                   (fst (fst m)) (snd (fst m)) (snd m) w))
                msgs w in
    Clipboard.cbRequestList (Clipboard.app w2)
    = drop (length msgs) (Clipboard.cbRequestList (Clipboard.app w))
    /\ Clipboard.log w2
       = Clipboard.log w
         ++ zip_with
              (fun cbr m =>
                 Clipboard.replyFn_call (Clipboard.cbr_replyFn cbr)
                   (Clipboard.cbr_opaque cbr) (fst (fst m)) (snd (fst m))
                   (snd m))
              (Clipboard.cbRequestList (Clipboard.app w)) msgs
    /\ Clipboard.cbType (Clipboard.app w2) = Clipboard.cbType (Clipboard.app w).
Proof.
  intros Hl Hm fuel. induction Hm as [|m msgs Hm _ IH]; intros w; cbv zeta.
  - cbn. destruct (Clipboard.cbRequestList (Clipboard.app w));
      cbn; rewrite ?app_nil_r; auto.
  - cbn [fold_left length].
    specialize (IH (snd (Clipboard.spiceClipboardData params fuel
                           (fst (fst m)) (snd (fst m)) (snd m) w))).
    cbv zeta in IH. destruct IH as (I1 & I2 & I3).
    rewrite I1, I2, I3. unfold Clipboard.spiceClipboardData. rewrite Hl.
    cbn [negb].
    destruct m as [[t b] n]. cbn [fst snd] in *.
    destruct w as [a lg].
    destruct t; try contradiction; cbn [Clipboard.is_spice_text];
      unfold bind, Clipboard.get_app; cbn [Clipboard.app];
      (destruct (Clipboard.cbRequestList a) as [|cbr rest] eqn:Eq;
       cbn; rewrite ?Eq; cbn; rewrite ?drop_nil, ?app_nil_r, <- ?app_assoc;
       auto).
Qed.
(** The 32-bit counter of the unix2dos loop stays below a bound of 2^32
    or more. *)
Lemma unix2dos_no_exit data size :
  2 ^ 32 <= size ->
  forall fuel i st,
    0 <= i < 2 ^ 32 -> Clipboard.unix2dos fuel data size i st = None.
Proof.
  intros Hs. induction fuel as [|k IH]; intros i [[b p] n] Hi;
    [reflexivity|].
  cbn [Clipboard.unix2dos].
  destruct (Z.ltb_spec i size) as [_|Hge]; [|lia].
  assert (Hn : 0 <= Clipboard.to_uint32 (i + 1) < 2 ^ 32)
    by (unfold Clipboard.to_uint32; apply Z.mod_pos_bound; lia).
  destruct (data !!! Z.to_nat i =? 10); apply IH; exact Hn.
Qed.
(** ** The frame loop of [frameThread] *)

Lemma main_count_app p a b :
  main_count p (a ++ b) = (main_count p a + main_count p b)%nat.
Proof. unfold main_count. rewrite List.filter_app, length_app. reflexivity. Qed.

Lemma frame_iteration_turn env params field_mod w :
  let r := Main.frame_iteration env params field_mod w in
  exists evs,
    Main.log (snd r) = Main.log w ++ evs
    /\ Main.running (Main.app (snd r)) = Main.running (Main.app w)
    /\ frame_turn_ok (fst r) evs.
Proof.
  cbv zeta. unfold Main.frame_iteration, bind, Main.call.
  destruct (Main.client_process env (Main.log w)) as [status [mem frame]].
  destruct w as [a lg]. cbn [Main.app Main.log].
  destruct status;
    try (cbn; rewrite <- ?app_assoc; eexists; split; [reflexivity|];
         split; [reflexivity|];
         unfold frame_turn_ok; cbn; repeat split; fail).
  destruct (Main.frame_switch field_mod frame) as [[ds fmt]|].
  2:{ cbn. rewrite <- ?app_assoc. eexists. split; [reflexivity|].
      split; [reflexivity|]. unfold frame_turn_ok; cbn; repeat split. }
  unfold Main.get_app, when. cbn [Main.app Main.log].
  destruct (negb (Main.frame_width frame =? Main.srcSize_x a)
            || negb (Main.frame_height frame =? Main.srcSize_y a));
    [destruct (Main.autoResize params)|];
    cbn;
    match goal with
    | |- context [Main.frame_event env ?h] =>
        destruct (Main.frame_event env h)
    end;
    cbn; rewrite <- ?app_assoc; cbn;
    (eexists; split; [reflexivity|]; split; [reflexivity|];
     unfold frame_turn_ok; cbn; repeat split).
Qed.

(** The calls of a whole run of the loop. *)
Lemma frame_loop_turns env params field_mod fuel :
  forall w,
    let r := Main.while_loop fuel Main.running
               (Main.frame_iteration env params field_mod) w in
    exists evs,
      Main.log (snd r) = Main.log w ++ evs
      /\ Main.running (Main.app (snd r)) = Main.running (Main.app w)
      /\ (let n p := main_count p evs in
          let failed := n (is_error_line "lgmpClientProcess Failed: %s") in
          let refused :=
            n (is_error_line "renderer on frame event returned failure") in
          let unsupported := n (is_error_line "Unsupported frameType") in
          (n is_client_process
           = n is_poll_sleep + n is_message_done + refused + failed)%nat
          /\ (n is_message_done + refused
              = n is_on_frame_event + unsupported)%nat
          /\ (unsupported + refused + failed <= 1)%nat
          /\ match fst r with
             | Main.OutOfFuel => (unsupported + refused + failed = 0)%nat
             | Main.Finished => True
             | Main.Returned _ => False
             end).
Proof.
  induction fuel as [|k IH]; intros w; cbv zeta.
  - exists []. cbn. rewrite app_nil_r. repeat split; auto.
  - destruct (Main.running (Main.app w)) eqn:Hr.
    2:{ rewrite (while_loop_stop _ _ _ _ Hr).
        exists []. cbn. rewrite app_nil_r, Hr. repeat split; auto. }
    destruct (frame_iteration_turn env params field_mod w)
      as (e1 & L1 & R1 & T1). cbv zeta in L1, R1, T1.
    destruct (Main.frame_iteration env params field_mod w) as [c w1] eqn:Eb.
    cbn [fst snd] in *. unfold frame_turn_ok in T1. cbv zeta in T1.
    destruct T1 as (P1 & P2 & P3 & P4).
    destruct c.
    + rewrite (while_loop_continue _ _ _ _ _ Hr Eb).
      specialize (IH w1). cbv zeta in IH.
      destruct IH as (e2 & L2 & R2 & Q1 & Q2 & Q3 & Q4).
      exists (e1 ++ e2). rewrite L2, L1, R2, R1, Hr, <- app_assoc.
      split; [reflexivity|]. split; [reflexivity|].
      rewrite !main_count_app.
      split; [lia|]. split; [lia|]. split; [lia|].
      destruct (fst (Main.while_loop k Main.running
                       (Main.frame_iteration env params field_mod) w1));
        auto; lia.
    + rewrite (while_loop_break _ _ _ _ _ Hr Eb).
      exists e1. cbn [fst snd]. rewrite L1, R1, Hr.
      repeat split; auto; lia.
    + contradiction.
Qed.
(** ** The mouse sensitivity keys *)

Lemma press_spec k w :
  let v := Keys.mouseSens w in
  let v' := match k with
            | Keys.SDL_SCANCODE_INSERT => if v <? 9 then v + 1 else v
            | Keys.SDL_SCANCODE_DELETE => if -9 <? v then v - 1 else v
            end in
  snd (Keys.press k w)
  = {| Keys.mouseSens := v';
       Keys.log := Keys.log w
                   ++ [Keys.app_alert_INFO (Keys.sensitivity_message v')] |}.
Proof.
  cbv zeta. destruct w as [v lg], k; cbn;
    unfold Keys.mouse_sens_inc, Keys.mouse_sens_dec, bind, when,
      Keys.get_mouseSens; cbn.
  - destruct (v <? 9); reflexivity.
  - destruct (-9 <? v); reflexivity.
Qed.

Lemma presses_snoc ks k w :
  Keys.presses (ks ++ [k]) w = snd (Keys.press k (Keys.presses ks w)).
Proof. unfold Keys.presses. rewrite fold_left_app. reflexivity. Qed.

Lemma presses_bounded ks :
  forall w,
    -9 <= Keys.mouseSens w <= 9 ->
    let w1 := Keys.presses ks w in
    -9 <= Keys.mouseSens w1 <= 9
    /\ exists alerts,
         Keys.log w1 = Keys.log w ++ alerts
         /\ length alerts = length ks
         /\ Forall (fun e => exists v, -9 <= v <= 9 /\
                      e = Keys.app_alert_INFO (Keys.sensitivity_message v))
              alerts
         /\ (ks <> [] ->
             last alerts
             = Some (Keys.app_alert_INFO
                       (Keys.sensitivity_message (Keys.mouseSens w1)))).
Proof.
  induction ks as [|k ks IH] using rev_ind; intros w Hw; cbv zeta.
  - split; [exact Hw|]. exists []. cbn. rewrite app_nil_r.
    repeat split; auto. congruence.
  - rewrite presses_snoc. destruct (IH w Hw) as (Hb & al & L & N & F & _).
    rewrite press_spec. cbv zeta. cbn [Keys.mouseSens Keys.log].
    set (v := Keys.mouseSens (Keys.presses ks w)) in *.
    set (v' := match k with
               | Keys.SDL_SCANCODE_INSERT => if v <? 9 then v + 1 else v
               | Keys.SDL_SCANCODE_DELETE => if -9 <? v then v - 1 else v
               end).
    assert (Hv' : -9 <= v' <= 9).
    { subst v'. destruct k;
        [destruct (Z.ltb_spec v 9) | destruct (Z.ltb_spec (-9) v)]; lia. }
    split; [exact Hv'|].
    exists (al ++ [Keys.app_alert_INFO (Keys.sensitivity_message v')]).
    rewrite L, <- app_assoc, !length_app, N. cbn [length].
    split; [reflexivity|]. split; [reflexivity|]. split.
    + apply Forall_app. split; [exact F|].
      constructor; [|constructor]. exists v'. auto.
    + intros _. apply last_snoc.
Qed.

Lemma presses_insert n :
  forall w,
    Keys.mouseSens w <= 9 ->
    Keys.mouseSens (Keys.presses (repeat Keys.SDL_SCANCODE_INSERT n) w)
    = Z.min 9 (Keys.mouseSens w + Z.of_nat n).
Proof.
  induction n as [|n IH]; intros w Hw; [cbn; lia|].
  cbn [repeat Keys.presses fold_left].
  change (fold_left (fun w k => snd (Keys.press k w)) ?l ?x)
    with (Keys.presses l x).
  rewrite IH; rewrite press_spec; cbv zeta; cbn [Keys.mouseSens];
    destruct (Z.ltb_spec (Keys.mouseSens w) 9); lia.
Qed.

Lemma presses_delete n :
  forall w,
    -9 <= Keys.mouseSens w ->
    Keys.mouseSens (Keys.presses (repeat Keys.SDL_SCANCODE_DELETE n) w)
    = Z.max (-9) (Keys.mouseSens w - Z.of_nat n).
Proof.
  induction n as [|n IH]; intros w Hw; [cbn; lia|].
  cbn [repeat Keys.presses fold_left].
  change (fold_left (fun w k => snd (Keys.press k w)) ?l ?x)
    with (Keys.presses l x).
  rewrite IH; rewrite press_spec; cbv zeta; cbn [Keys.mouseSens];
    destruct (Z.ltb_spec (-9) (Keys.mouseSens w)); lia.
Qed.

Lemma lg_run_mouseSens_spec p w :
  snd (Keys.lg_run_mouseSens p w)
  = {| Keys.mouseSens := Z.max (-9) (Z.min 9 p); Keys.log := Keys.log w |}.
Proof.
  unfold Keys.lg_run_mouseSens, bind, Keys.set_mouseSens, Keys.get_mouseSens.
  cbn.
  destruct (Z.ltb_spec p (-9)); [cbn; f_equal; lia|].
  destruct (Z.ltb_spec 9 p); cbn; f_equal; lia.
Qed.
(** ** The message loop of [cursorThread] *)

Lemma cursor_count_app p a b :
  cursor_count p (a ++ b) = (cursor_count p a + cursor_count p b)%nat.
Proof.
  unfold cursor_count. rewrite List.filter_app, length_app. reflexivity.
Qed.

Lemma cursor_loop_ok_nil a : cursor_loop_ok a a [].
Proof.
  unfold cursor_loop_ok. cbn. rewrite andb_true_r. repeat split; auto; lia.
Qed.

(** Two stretches, the first without a failed [lgmpClientProcess]. *)
Lemma cursor_loop_ok_app a a1 a2 e1 e2 :
  cursor_loop_ok a a1 e1 ->
  n_process_failed (cursor_counts e1) = 0%nat ->
  cursor_loop_ok a1 a2 e2 ->
  cursor_loop_ok a a2 (e1 ++ e2).
Proof.
  unfold cursor_loop_ok. cbv zeta. unfold cursor_counts.
  cbn [n_process n_sleep n_done n_mouse_event n_mouse_shape n_align
       n_invalid_type n_shape_failed n_process_failed].
  intros (A1 & A2 & A4 & A5 & A6 & A7 & A8 & A9 & A10 & A11 & A12) F1
         (B1 & B2 & B4 & B5 & B6 & B7 & B8 & B9 & B10 & B11 & B12).
  rewrite !cursor_count_app.
  rewrite F1 in *. cbn [Nat.eqb] in A12. rewrite andb_true_r in A12.
  assert (D : cursor_count is_align e1 = 1%nat
              \/ cursor_count is_align e1 = 0%nat) by lia.
  repeat split; try lia.
  - destruct D as [E|E]; [specialize (B9 (A10 E))|]; lia.
  - intros Ha. specialize (A9 Ha). specialize (B9 (A11 Ha)). lia.
  - intros Hn. destruct D as [E|E]; [apply B11, A10, E|apply B10; lia].
  - intros Ha. apply B11, A11, Ha.
  - rewrite B12, A12. reflexivity.
Qed.

Ltac cursor_norm :=
  cbv -[app cursor_loop_ok cursor_counts Cursor.mouse_shape Cursor.align
        Z.add].

Ltac cursor_answers env :=
  repeat match goal with
         | |- context [Cursor.mouse_shape env ?h] =>
             destruct (Cursor.mouse_shape env h); cursor_norm
         | |- context [Cursor.align env ?h ?v] =>
             destruct (Cursor.align env h v) as [? ?]; cursor_norm
         end.

Ltac cursor_turn_done env :=
  cursor_norm; cursor_answers env;
  rewrite <- ?app_assoc; cbn [app];
  eexists; (split; [reflexivity|]);
  unfold cursor_loop_ok, cursor_counts; cbn;
  rewrite ?andb_true_r, ?andb_false_r;
  repeat split; auto; try lia; try discriminate.

(** What one turn of the loop calls. *)
Lemma cursor_iteration_turn env poll sz w :
  let r := Cursor.cursor_iteration env poll sz w in
  exists evs,
    Cursor.log (snd r) = Cursor.log w ++ evs
    /\ cursor_loop_ok (Cursor.app w) (Cursor.app (snd r)) evs
    /\ n_process (cursor_counts evs) = 1%nat
    /\ match fst r with
       | Main.Continue => n_process_failed (cursor_counts evs) = 0%nat
       | Main.Break => n_process_failed (cursor_counts evs) = 1%nat
       | Main.Return _ => False
       end.
Proof.
  cbv zeta. destruct w as [a lg].
  unfold Cursor.cursor_iteration, Cursor.cursor_shape, bind, Cursor.call,
    Cursor.emit, Cursor.modify_app, Cursor.get_app, when, ret.
  cbn [Cursor.app Cursor.log].
  destruct (Cursor.client_process env lg) as [status msg].
  destruct msg as [fv fp fs mem cur].
  destruct cur as [mx my ctype cw ch cp].
  destruct a as [run upd vis draw inview cx cy hpos hal hsrc hloc].
  destruct status.
  - destruct fp; [destruct hal, hsrc, hloc|];
      (destruct fs; [destruct ctype|]); cursor_turn_done env.
  - cursor_turn_done env.
  - cursor_turn_done env.
  - cursor_turn_done env.
  - destruct upd; cursor_turn_done env.
  - cursor_turn_done env.
Qed.

Lemma cursor_loop_stop fuel cond body w :
  cond (Cursor.app w) = false ->
  Cursor.while_loop (S fuel) cond body w = (Main.Finished, w).
Proof. intros H. cbn. unfold bind, Cursor.get_app. rewrite H. reflexivity. Qed.

Lemma cursor_loop_continue fuel cond body w w' :
  cond (Cursor.app w) = true ->
  body w = (Main.Continue, w') ->
  Cursor.while_loop (S fuel) cond body w = Cursor.while_loop fuel cond body w'.
Proof.
  intros H E. cbn. unfold bind, Cursor.get_app. rewrite H.
  cbn. rewrite E. reflexivity.
Qed.

Lemma cursor_loop_break fuel cond body w w' :
  cond (Cursor.app w) = true ->
  body w = (Main.Break, w') ->
  Cursor.while_loop (S fuel) cond body w = (Main.Finished, w').
Proof.
  intros H E. cbn. unfold bind, Cursor.get_app. rewrite H.
  cbn. rewrite E. reflexivity.
Qed.

(** The calls of a whole run of the loop. *)
Lemma cursor_loop_turns env poll sz fuel :
  forall w,
    let r := Cursor.while_loop fuel Cursor.running
               (Cursor.cursor_iteration env poll sz) w in
    exists evs,
      Cursor.log (snd r) = Cursor.log w ++ evs
      /\ cursor_loop_ok (Cursor.app w) (Cursor.app (snd r)) evs
      /\ match fst r with
         | Main.OutOfFuel => n_process_failed (cursor_counts evs) = 0%nat
         | Main.Finished => True
         | Main.Returned _ => False
         end.
Proof.
  induction fuel as [|k IH]; intros w; cbv zeta.
  - exists []. cbn. rewrite app_nil_r. split; [reflexivity|].
    split; [apply cursor_loop_ok_nil|reflexivity].
  - destruct (Cursor.running (Cursor.app w)) eqn:Hr.
    2:{ rewrite (cursor_loop_stop _ _ _ _ Hr).
        exists []. cbn. rewrite app_nil_r. split; [reflexivity|].
        split; [apply cursor_loop_ok_nil|exact I]. }
    destruct (cursor_iteration_turn env poll sz w) as (e1 & L1 & K1 & P1 & C1).
    cbv zeta in L1, K1, C1.
    destruct (Cursor.cursor_iteration env poll sz w) as [c w1] eqn:Eb.
    cbn [fst snd] in *.
    destruct c.
    + rewrite (cursor_loop_continue _ _ _ _ _ Hr Eb).
      specialize (IH w1). cbv zeta in IH.
      destruct IH as (e2 & L2 & K2 & C2).
      exists (e1 ++ e2). rewrite L2, L1, <- app_assoc.
      split; [reflexivity|].
      split; [exact (cursor_loop_ok_app _ _ _ _ _ K1 C1 K2)|].
      destruct (fst (Cursor.while_loop k Cursor.running
                       (Cursor.cursor_iteration env poll sz) w1)); auto.
      unfold cursor_counts in *. cbn [n_process_failed] in *.
      rewrite cursor_count_app. lia.
    + rewrite (cursor_loop_break _ _ _ _ _ Hr Eb).
      exists e1. cbn [fst snd]. split; [exact L1|]. split; [exact K1|exact I].
    + contradiction.
Qed.
(** A loop whose body only adds calls only adds calls. *)
Lemma cursor_loop_extends cond body :
  (forall w, exists evs, Cursor.log (snd (body w)) = Cursor.log w ++ evs) ->
  forall fuel w,
    exists evs,
      Cursor.log (snd (Cursor.while_loop fuel cond body w))
      = Cursor.log w ++ evs.
Proof.
  intros Hb. induction fuel as [|k IH]; intros w.
  - exists []. cbn. rewrite app_nil_r. reflexivity.
  - destruct (cond (Cursor.app w)) eqn:Hc.
    2:{ rewrite (cursor_loop_stop _ _ _ _ Hc). exists [].
        cbn. rewrite app_nil_r. reflexivity. }
    destruct (Hb w) as (e1 & L1).
    destruct (body w) as [c w1] eqn:Eb. cbn [snd] in L1.
    destruct c.
    + rewrite (cursor_loop_continue _ _ _ _ _ Hc Eb).
      destruct (IH w1) as (e2 & L2). exists (e1 ++ e2).
      rewrite L2, L1, <- app_assoc. reflexivity.
    + rewrite (cursor_loop_break _ _ _ _ _ Hc Eb). exists e1. exact L1.
    + cbn. unfold bind, Cursor.get_app. rewrite Hc. cbn. rewrite Eb.
      exists e1. exact L1.
Qed.

Lemma cursor_subscribe_extends env w :
  exists evs,
    Cursor.log (snd (Cursor.subscribe_iteration env w)) = Cursor.log w ++ evs.
Proof.
  unfold Cursor.subscribe_iteration, bind, Cursor.call.
  destruct (Cursor.client_subscribe env (Cursor.log w)); cbn;
    rewrite <- ?app_assoc; eexists; reflexivity.
Qed.
(** ** The keys held down *)

Section KeysDown.

Variable usb_to_ps2 : list Z.
Variable beyond_table : Z.

Local Abbreviation ps2 := (Input.ps2_of usb_to_ps2 beyond_table).
Local Abbreviation down_in := (keys_down_in usb_to_ps2 beyond_table).
Local Abbreviation down_as := (keys_down_as usb_to_ps2 beyond_table).

Lemma keys_down_in_split c kd i n m :
  down_in c kd i (n + m) = (down_in c kd i n + down_in c kd (i + n) m)%nat.
Proof.
  unfold keys_down_in. rewrite seq_app, List.filter_app, length_app.
  reflexivity.
Qed.

Lemma keys_down_in_one c kd j :
  down_in c kd j 1
  = if (kd !!! j) && (ps2 (Z.of_nat j) =? c) then 1%nat else 0%nat.
Proof.
  unfold keys_down_in. cbn [seq List.filter].
  destruct ((kd !!! j) && (ps2 (Z.of_nat j) =? c)); reflexivity.
Qed.

Lemma keys_down_in_insert_out c kd j v i n :
  (j < i \/ i + n <= j)%nat ->
  down_in c (<[j := v]> kd) i n = down_in c kd i n.
Proof.
  intros H. unfold keys_down_in. f_equal. apply List.filter_ext_in.
  intros k Hk. apply in_seq in Hk.
  rewrite list_lookup_total_insert_ne by lia. reflexivity.
Qed.

(** Marking one key changes the count of its own code only. *)
Lemma keys_down_as_insert c kd j v :
  (j < length kd)%nat ->
  (down_as c (<[j := v]> kd)
   + (if (kd !!! j) && (ps2 (Z.of_nat j) =? c)%Z then 1 else 0)
   = down_as c kd
     + (if v && (ps2 (Z.of_nat j) =? c)%Z then 1 else 0))%nat.
Proof.
  intros Hj. unfold keys_down_as. rewrite length_insert.
  replace (length kd) with (j + (1 + (length kd - j - 1)))%nat by lia.
  rewrite !keys_down_in_split, !keys_down_in_one.
  rewrite !keys_down_in_insert_out by lia.
  rewrite list_lookup_total_insert_eq by exact Hj.
  cbn [Nat.add]. lia.
Qed.

Lemma mapped_only_insert kd j v :
  mapped_only usb_to_ps2 beyond_table kd ->
  (v = true -> ps2 (Z.of_nat j) <> 0) ->
  mapped_only usb_to_ps2 beyond_table (<[j := v]> kd).
Proof.
  intros Hm Hv k Hk Hd. rewrite length_insert in Hk.
  destruct (Nat.eq_dec j k) as [->|Hne].
  - rewrite list_lookup_total_insert_eq in Hd by exact Hk. auto.
  - rewrite list_lookup_total_insert_ne in Hd by exact Hne. auto.
Qed.

End KeysDown.
(** ** The key cases of [eventFilter] *)

Lemma input_count_app p a b :
  input_count p (a ++ b) = (input_count p a + input_count p b)%nat.
Proof.
  unfold input_count. rewrite List.filter_app, length_app. reflexivity.
Qed.

Lemma bind_unit_snd {W B} (m : St W unit) (k : St W B) w :
  (m ;; k) w = k (snd (m w)).
Proof. unfold bind. destruct (m w) as [[] w']. reflexivity. Qed.

Section KeyEvents.

Variable env : Input.Env.
Variable params : Input.AppParams.
Variable usb_to_ps2 : list Z.
Variable beyond_table : Z.

Local Abbreviation ps2 := (Input.ps2_of usb_to_ps2 beyond_table).
Local Abbreviation balance := (keys_balance usb_to_ps2 beyond_table).

(** No key message taken, no key marked. *)
Lemma keys_balance_same a a' evs :
  Input.keyDown a' = Input.keyDown a ->
  forallb (fun e => match e with
                    | Input.spice_key_down _ true
                    | Input.spice_key_up _ true => false
                    | _ => true
                    end) evs = true ->
  balance a a' evs.
Proof.
  intros Hk He. unfold keys_balance. rewrite Hk.
  split; [reflexivity|]. split; [auto|]. intros c.
  assert (H0 : input_count (is_sent_up c) evs = 0%nat
               /\ input_count (is_sent_down c) evs = 0%nat).
  { clear Hk. unfold input_count.
    induction evs as [|e evs IH]; [split; reflexivity|].
    cbn [forallb] in He. apply andb_true_iff in He. destruct He as [H1 H2].
    destruct (IH H2) as [I1 I2]. cbn [List.filter].
    destruct e as [| | |? [|]|? [|]| | | | | | | | | | |];
      try discriminate H1; cbn; auto. }
  destruct H0 as [-> ->]. reflexivity.
Qed.

Lemma keys_balance_trans a a1 a2 e1 e2 :
  balance a a1 e1 -> balance a1 a2 e2 -> balance a a2 (e1 ++ e2).
Proof.
  intros (L1 & M1 & B1) (L2 & M2 & B2). unfold keys_balance.
  split; [congruence|]. split; [auto|]. intros c.
  specialize (B1 c). specialize (B2 c). rewrite !input_count_app. lia.
Qed.

Lemma mapScancode_spec sc w :
  Input.mapScancode usb_to_ps2 beyond_table sc w
  = (ps2 sc,
     {| Input.app := Input.app w;
        Input.log :=
          Input.log w
          ++ (if ps2 sc =? 0
              then [Input.DEBUG_WARN "Unable to map USB scan code: %x\n" sc]
              else []) |}).
Proof.
  unfold Input.mapScancode, Input.ps2_of.
  destruct ((Z.of_nat (length usb_to_ps2) <? sc)
            || (Input.table_at usb_to_ps2 beyond_table sc =? 0)) eqn:E.
  - reflexivity.
  - apply orb_false_iff in E. destruct E as [_ E]. rewrite E.
    destruct w as [a lg]. cbn. rewrite app_nil_r. reflexivity.
Qed.

(** Marking the key [sc] down after the guest took its key-down. *)
Lemma keys_balance_down a sc :
  0 <= sc < Z.of_nat (length (Input.keyDown a)) ->
  Input.keyDown a !!! Z.to_nat sc = false ->
  ps2 sc <> 0 ->
  balance a (Input.set_keyDown sc true a) [Input.spice_key_down (ps2 sc) true].
Proof.
  intros Hsc Hd Hp. unfold keys_balance. cbn [Input.set_keyDown Input.keyDown].
  split; [apply length_insert|]. split.
  - intros Hm. apply mapped_only_insert; [exact Hm|].
    intros _. rewrite Z2Nat.id by lia. exact Hp.
  - intros c.
    pose proof (keys_down_as_insert usb_to_ps2 beyond_table c
                  (Input.keyDown a) (Z.to_nat sc) true ltac:(lia)) as H.
    rewrite Hd, Z2Nat.id in H by lia. cbn [andb] in H.
    unfold input_count. cbn [List.filter is_sent_up is_sent_down].
    destruct (ps2 sc =? c); cbn [length]; lia.
Qed.

(** Marking the key [sc] up, with or without the guest taking the
    key-up. *)
Lemma keys_balance_up a sc :
  0 <= sc < Z.of_nat (length (Input.keyDown a)) ->
  Input.keyDown a !!! Z.to_nat sc = true ->
  balance a (Input.set_keyDown sc false a) [Input.spice_key_up (ps2 sc) true].
Proof.
  intros Hsc Hd. unfold keys_balance. cbn [Input.set_keyDown Input.keyDown].
  split; [apply length_insert|]. split.
  - intros Hm. apply mapped_only_insert; [exact Hm|]. discriminate.
  - intros c.
    pose proof (keys_down_as_insert usb_to_ps2 beyond_table c
                  (Input.keyDown a) (Z.to_nat sc) false ltac:(lia)) as H.
    rewrite Hd, Z2Nat.id in H by lia. cbn [andb] in H.
    unfold input_count. cbn [List.filter is_sent_up is_sent_down].
    destruct (ps2 sc =? c); cbn [length]; lia.
Qed.

Ltac same_keys :=
  eexists; split; [reflexivity|];
  apply keys_balance_same; reflexivity.

Lemma key_down_case_balance sc w :
  0 <= sc < Z.of_nat (length (Input.keyDown (Input.app w))) ->
  let w' := snd (Input.key_down_case env params usb_to_ps2 beyond_table sc w) in
  exists evs,
    Input.log w' = Input.log w ++ evs
    /\ balance (Input.app w) (Input.app w') evs.
Proof.
  intros Hsc. cbv zeta. destruct w as [a lg]. cbn [Input.app Input.log] in *.
  unfold Input.key_down_case, bind, Input.get_app. cbn [Input.app].
  destruct (sc =? Input.escapeKey params).
  { cbn. exists []. rewrite app_nil_r. split; [reflexivity|].
    apply keys_balance_same; reflexivity. }
  destruct (Input.escapeActive a).
  { cbn. exists []. rewrite app_nil_r. split; [reflexivity|].
    apply keys_balance_same; reflexivity. }
  destruct (Input.input_off params a).
  { cbn. exists []. rewrite app_nil_r. split; [reflexivity|].
    apply keys_balance_same; reflexivity. }
  rewrite mapScancode_spec. cbn [Input.app Input.log].
  destruct (Z.eqb_spec (ps2 sc) 0) as [Hz|Hnz].
  { cbn. same_keys. }
  rewrite app_nil_r.
  destruct (Input.keyDown a !!! Z.to_nat sc) eqn:Hd; cbn [negb].
  { cbn. exists []. rewrite app_nil_r. split; [reflexivity|].
    apply keys_balance_same; reflexivity. }
  unfold Input.ask. cbn [Input.app Input.log].
  destruct (Input.key_down env lg).
  - cbn. eexists. split; [reflexivity|].
    apply keys_balance_down; assumption.
  - cbn. rewrite <- app_assoc. same_keys.
Qed.


Hypothesis callback_keeps_keys :
  forall h a, Input.keyDown (Input.callback env h a) = Input.keyDown a.

Lemma key_up_escape_keeps sc w :
  let w' := snd (Input.key_up_escape env params sc w) in
  exists evs,
    Input.log w' = Input.log w ++ evs
    /\ Input.keyDown (Input.app w') = Input.keyDown (Input.app w)
    /\ forallb (fun e => match e with
                         | Input.spice_key_down _ _
                         | Input.spice_key_up _ _ => false
                         | _ => true
                         end) evs = true.
Proof.
  cbv zeta. destruct w as [a lg].
  unfold Input.key_up_escape, bind, Input.get_app, when.
  cbn [Input.app Input.log].
  destruct (Input.escapeActive a).
  2:{ exists []. cbn. rewrite app_nil_r. auto. }
  destruct (Input.escapeAction a =? -1).
  - destruct (Input.useSpiceInput params).
    + destruct (Input.serverMode a); cbn;
        destruct (sc =? Input.escapeKey params); cbn;
        rewrite <- ?app_assoc; cbn;
        (eexists; split; [reflexivity|]; split; reflexivity).
    + cbn. destruct (sc =? Input.escapeKey params); cbn;
        exists []; rewrite app_nil_r; auto.
  - destruct (negb (Input.bindings a !!! Z.to_nat sc =? NULL)); cbn;
      destruct (sc =? Input.escapeKey params); cbn;
      rewrite ?callback_keeps_keys;
      try (eexists; split; [reflexivity|]; split; reflexivity);
      exists []; rewrite app_nil_r; auto.
Qed.

Lemma key_up_case_balance sc w :
  0 <= sc < Z.of_nat (length (Input.keyDown (Input.app w))) ->
  let w' := snd (Input.key_up_case env params usb_to_ps2 beyond_table sc w) in
  exists evs,
    Input.log w' = Input.log w ++ evs
    /\ balance (Input.app w) (Input.app w') evs.
Proof.
  intros Hsc. cbv zeta. unfold Input.key_up_case.
  rewrite (bind_unit_snd (Input.key_up_escape env params sc)).
  destruct (key_up_escape_keeps sc w) as (e0 & L0 & K0 & N0).
  cbv zeta in L0, K0.
  set (w0 := snd (Input.key_up_escape env params sc w)) in *.
  clearbody w0.
  assert (B0 : balance (Input.app w) (Input.app w0) e0).
  { apply keys_balance_same; [exact K0|].
    clear -N0. induction e0 as [|e l IH]; [reflexivity|].
    cbn [forallb] in *. apply andb_true_iff in N0. destruct N0 as [H1 H2].
    rewrite (IH H2), andb_true_r. destruct e; try discriminate H1; auto;
      match goal with |- context [match ?b with _ => _ end] => destruct b end;
      auto. }
  rewrite <- K0 in Hsc.
  match goal with
  | |- exists evs, Input.log (snd (?m w0)) = _ /\ _ =>
      cut (exists evs,
              Input.log (snd (m w0)) = Input.log w0 ++ evs
              /\ balance (Input.app w0) (Input.app (snd (m w0))) evs)
  end.
  { intros (e1 & L1 & B1). exists (e0 ++ e1). split.
    - rewrite app_assoc, <- L0. exact L1.
    - exact (keys_balance_trans _ _ _ _ _ B0 B1). }
  clear L0 K0 N0 B0 e0 w. destruct w0 as [a lg].
  cbn [Input.app Input.log] in *.
  unfold bind, Input.get_app. cbn [Input.app].
  destruct (Input.input_off params a).
  { cbn. exists []. rewrite app_nil_r. split; [reflexivity|].
    apply keys_balance_same; reflexivity. }
  destruct (Input.keyDown a !!! Z.to_nat sc) eqn:Hd; cbn [negb].
  2:{ cbn. exists []. rewrite app_nil_r. split; [reflexivity|].
      apply keys_balance_same; reflexivity. }
  rewrite mapScancode_spec. cbn [Input.app Input.log].
  destruct (Z.eqb_spec (ps2 sc) 0) as [Hz|Hnz].
  { cbn. same_keys. }
  rewrite app_nil_r.
  unfold Input.ask. cbn [Input.app Input.log].
  destruct (Input.key_up env lg).
  - cbn. eexists. split; [reflexivity|].
    apply keys_balance_up; assumption.
  - cbn. rewrite <- app_assoc. same_keys.
Qed.


Ltac mouse_answers :=
  repeat match goal with
         | |- context [Input.mouse_press env ?h] =>
             destruct (Input.mouse_press env h); cbn
         | |- context [Input.mouse_release env ?h] =>
             destruct (Input.mouse_release env h); cbn
         | |- context [Input.mouse_position env ?h] =>
             destruct (Input.mouse_position env h); cbn
         end.

Lemma mouse_wheel_case_balance y w :
  let w' := snd (Input.mouse_wheel_case env params y w) in
  exists evs,
    Input.log w' = Input.log w ++ evs
    /\ balance (Input.app w) (Input.app w') evs.
Proof.
  cbv zeta. destruct w as [a lg].
  unfold Input.mouse_wheel_case, bind, Input.get_app, Input.ask, when,
    Input.emit, ret.
  cbn [Input.app Input.log].
  destruct (Input.pointer_off params a).
  { cbn. exists []. rewrite app_nil_r. split; [reflexivity|].
    apply keys_balance_same; reflexivity. }
  cbn. mouse_answers; rewrite <- ?app_assoc; same_keys.
Qed.

Lemma mouse_button_case_balance down button x y w :
  let w' := snd (Input.mouse_button_case env params down button x y w) in
  exists evs,
    Input.log w' = Input.log w ++ evs
    /\ balance (Input.app w) (Input.app w') evs.
Proof.
  cbv zeta. destruct w as [a lg].
  unfold Input.mouse_button_case, bind, Input.get_app, Input.ask, when,
    Input.emit, ret.
  cbn [Input.app Input.log].
  destruct (Input.pointer_off params a).
  { cbn. exists []. rewrite app_nil_r. split; [reflexivity|].
    apply keys_balance_same; reflexivity. }
  destruct (3 <? button).
  { cbn. exists []. rewrite app_nil_r. split; [reflexivity|].
    apply keys_balance_same; reflexivity. }
  destruct down; cbn; mouse_answers; rewrite <- ?app_assoc; same_keys.
Qed.

Lemma eventFilter_balance e w :
  scancode_in (length (Input.keyDown (Input.app w))) e ->
  let r := Input.eventFilter env params usb_to_ps2 beyond_table e w in
  fst r = 0
  /\ exists evs,
       Input.log (snd r) = Input.log w ++ evs
       /\ balance (Input.app w) (Input.app (snd r)) evs.
Proof.
  intros He. cbv zeta. unfold Input.eventFilter.
  rewrite bind_unit_snd. cbn [ret fst snd]. split; [reflexivity|].
  destruct e; cbn [scancode_in] in He.
  - apply key_down_case_balance, He.
  - apply key_up_case_balance, He.
  - apply mouse_wheel_case_balance.
  - apply mouse_button_case_balance.
  - apply mouse_button_case_balance.
Qed.

Lemma filter_events_balance es :
  forall w,
    Forall (scancode_in (length (Input.keyDown (Input.app w)))) es ->
    let w' := Input.filter_events env params usb_to_ps2 beyond_table es w in
    exists evs,
      Input.log w' = Input.log w ++ evs
      /\ balance (Input.app w) (Input.app w') evs.
Proof.
  induction es as [|e es IH]; intros w H; cbv zeta.
  - exists []. cbn. rewrite app_nil_r. split; [reflexivity|].
    apply keys_balance_same; reflexivity.
  - inversion H as [|? ? He Hes]; subst.
    cbn [Input.filter_events fold_left].
    destruct (eventFilter_balance e w He) as (_ & e1 & L1 & B1).
    cbv zeta in L1, B1.
    set (w1 := snd (Input.eventFilter env params usb_to_ps2 beyond_table e w))
      in *.
    assert (Hes1 : Forall (scancode_in
                             (length (Input.keyDown (Input.app w1)))) es).
    { destruct B1 as (Hl & _). rewrite Hl. exact Hes. }
    destruct (IH w1 Hes1) as (e2 & L2 & B2). cbv zeta in L2, B2.
    exists (e1 ++ e2). split.
    + unfold Input.filter_events in L2. rewrite L2, L1, <- app_assoc.
      reflexivity.
    + exact (keys_balance_trans _ _ _ _ _ B1 B2).
Qed.

End KeyEvents.
(** ** The keys released by [lg_shutdown] *)

Section ReleaseKeys.

Variable env : Input.Env.
Variable params : Input.AppParams.
Variable usb_to_ps2 : list Z.
Variable beyond_table : Z.

Local Abbreviation ps2 := (Input.ps2_of usb_to_ps2 beyond_table).

Lemma release_key_spec j w :
  (j < length (Input.keyDown (Input.app w)))%nat ->
  mapped_only usb_to_ps2 beyond_table (Input.keyDown (Input.app w)) ->
  snd (Input.release_key env usb_to_ps2 beyond_table (Z.of_nat j) w)
  = if (Input.keyDown (Input.app w) !!! j : bool)
    then {| Input.app := Input.set_keyDown (Z.of_nat j) false (Input.app w);
            Input.log :=
              Input.log w
              ++ [Input.spice_key_up (ps2 (Z.of_nat j))
                    (Input.key_up env (Input.log w))] |}
    else w.
Proof.
  intros Hj Hm. destruct w as [a lg]. cbn [Input.app Input.log] in *.
  unfold Input.release_key, bind, Input.get_app, when.
  cbn [Input.app Input.log]. rewrite Nat2Z.id.
  destruct (Input.keyDown a !!! j) eqn:Hd; [|reflexivity].
  rewrite mapScancode_spec. cbn [Input.app Input.log].
  pose proof (Hm j Hj Hd) as Hp.
  destruct (Z.eqb_spec (ps2 (Z.of_nat j)) 0) as [Hz|_]; [contradiction|].
  rewrite app_nil_r. reflexivity.
Qed.

Lemma release_from n :
  forall j w,
    let kd := Input.keyDown (Input.app w) in
    (j + n <= length kd)%nat ->
    mapped_only usb_to_ps2 beyond_table kd ->
    let w' := snd (for_from (Z.of_nat j) n
                   (Input.release_key env usb_to_ps2 beyond_table) w) in
    let kd' := Input.keyDown (Input.app w') in
    exists evs,
      Input.log w' = Input.log w ++ evs
      /\ length kd' = length kd
      /\ (forall k, (j <= k < j + n)%nat -> kd' !!! k = false)
      /\ (forall k, (k < j \/ j + n <= k)%nat -> kd' !!! k = kd !!! k)
      /\ (forall c, input_count (is_up_call c) evs
                    = keys_down_in usb_to_ps2 beyond_table c kd j n)
      /\ (forall c, input_count (is_sent_down c) evs = 0%nat).
Proof.
  induction n as [|n IH]; intros j w; cbv zeta; intros Hn Hm.
  - exists []. cbn. rewrite app_nil_r.
    repeat split; auto. intros k Hk. lia.
  - cbn [for_from]. rewrite bind_unit_snd.
    rewrite release_key_spec by (try assumption; lia).
    replace (Z.of_nat j + 1) with (Z.of_nat (S j)) by lia.
    set (kd := Input.keyDown (Input.app w)) in *.
    destruct (kd !!! j) eqn:Hd.
    + set (w1 := {| Input.app := Input.set_keyDown (Z.of_nat j) false
                                   (Input.app w);
                    Input.log := Input.log w
                      ++ [Input.spice_key_up (ps2 (Z.of_nat j))
                            (Input.key_up env (Input.log w))] |}).
      assert (K1 : Input.keyDown (Input.app w1) = <[j := false]> kd).
      { subst w1 kd. cbn. rewrite Nat2Z.id. reflexivity. }
      destruct (IH (S j) w1) as (e2 & L2 & N2 & F2 & O2 & U2 & D2).
      { rewrite K1, length_insert. lia. }
      { rewrite K1. apply mapped_only_insert; [exact Hm|discriminate]. }
      rewrite K1 in *. rewrite length_insert in N2.
      exists (Input.spice_key_up (ps2 (Z.of_nat j))
                (Input.key_up env (Input.log w)) :: e2).
      split; [rewrite L2; subst w1; cbn; rewrite <- app_assoc; reflexivity|].
      split; [exact N2|]. split; [|split; [|split]].
      * intros k Hk. destruct (Nat.eq_dec k j) as [->|Hne].
        -- rewrite O2 by lia. apply list_lookup_total_insert_eq. lia.
        -- apply F2. lia.
      * intros k Hk. rewrite O2 by lia.
        apply list_lookup_total_insert_ne. lia.
      * intros c. change (S n) with (1 + n)%nat.
        rewrite keys_down_in_split, keys_down_in_one, Hd. cbn [andb].
        replace (j + 1)%nat with (S j) by lia.
        change (input_count (is_up_call c) (?e :: e2))
          with (input_count (is_up_call c) ([e] ++ e2)).
        rewrite input_count_app, U2.
        rewrite keys_down_in_insert_out by lia.
        unfold input_count. cbn [List.filter is_up_call].
        destruct (ps2 (Z.of_nat j) =? c); reflexivity.
      * intros c.
        change (input_count (is_sent_down c) (?e :: e2))
          with (input_count (is_sent_down c) ([e] ++ e2)).
        rewrite input_count_app, D2. reflexivity.
    + destruct (IH (S j) w) as (e2 & L2 & N2 & F2 & O2 & U2 & D2);
        [fold kd; lia|exact Hm|].
      fold kd in N2, F2, O2, U2.
      exists e2. split; [exact L2|]. split; [exact N2|].
      split; [|split; [|split]].
      * intros k Hk. destruct (Nat.eq_dec k j) as [->|Hne].
        -- rewrite O2 by lia. exact Hd.
        -- apply F2. lia.
      * intros k Hk. apply O2. lia.
      * intros c. change (S n) with (1 + n)%nat.
        rewrite keys_down_in_split, keys_down_in_one, Hd. cbn [andb].
        replace (j + 1)%nat with (S j) by lia. rewrite U2. reflexivity.
      * exact D2.
Qed.

End ReleaseKeys.

Lemma keys_down_in_none usb_to_ps2 beyond_table c kd i n :
  (forall k, (i <= k < i + n)%nat -> kd !!! k = false) ->
  keys_down_in usb_to_ps2 beyond_table c kd i n = 0%nat.
Proof.
  intros H. unfold keys_down_in.
  rewrite (List.filter_ext_in _ (fun _ => false)).
  - induction (seq i n); [reflexivity|exact IHl].
  - intros k Hk. apply in_seq in Hk. rewrite H by lia. reflexivity.
Qed.

Lemma mapped_only_none usb_to_ps2 beyond_table n :
  mapped_only usb_to_ps2 beyond_table (replicate n false).
Proof.
  intros j Hj Hd. rewrite length_replicate in Hj.
  rewrite lookup_total_replicate_2 in Hd by exact Hj. discriminate Hd.
Qed.

(** The whole block of [lg_shutdown], spice still connected. *)
Lemma lg_shutdown_keys_spec env params usb_to_ps2 beyond_table t_spice w :
  let kd := Input.keyDown (Input.app w) in
  Input.useSpiceInput params = true ->
  Input.ready env (Input.log w) = true ->
  mapped_only usb_to_ps2 beyond_table kd ->
  let w' := snd (Input.lg_shutdown_keys env params usb_to_ps2 beyond_table
                   (Z.of_nat (length kd)) t_spice w) in
  let kd' := Input.keyDown (Input.app w') in
  exists evs,
    Input.log w' = Input.log w ++ evs
    /\ length kd' = length kd
    /\ (forall k, (k < length kd)%nat -> kd' !!! k = false)
    /\ (forall c, input_count (is_up_call c) evs
                  = keys_down_as usb_to_ps2 beyond_table c kd)
    /\ (forall c, input_count (is_sent_down c) evs = 0%nat).
Proof.
  cbv zeta. intros Hu Hr Hm.
  set (w0 := {| Input.app := Input.app w;
                Input.log := Input.log w ++ [Input.spice_ready true] |}).
  set (w1 := snd (for_from 0 (length (Input.keyDown (Input.app w)))
                    (Input.release_key env usb_to_ps2 beyond_table) w0)).
  assert (E : snd (Input.lg_shutdown_keys env params usb_to_ps2 beyond_table
                     (Z.of_nat (length (Input.keyDown (Input.app w))))
                     t_spice w)
              = {| Input.app := Input.app w1;
                   Input.log :=
                     Input.log w1 ++ [Input.spice_disconnect]
                     ++ (if t_spice then [Input.lgJoinThread_spice]
                         else []) |}).
  { unfold Input.lg_shutdown_keys. rewrite Hu.
    unfold bind at 1. unfold Input.ask at 1. rewrite Hr. cbv zeta.
    cbn [when]. rewrite bind_unit_snd.
    unfold for_loop. rewrite Nat2Z.id. fold w0. fold w1.
    destruct t_spice; unfold bind, Input.emit, when, ret; cbn;
      rewrite <- ?app_assoc; reflexivity. }
  rewrite E. cbn [Input.app Input.log].
  assert (K0 : Input.keyDown (Input.app w0) = Input.keyDown (Input.app w))
    by reflexivity.
  destruct (release_from env usb_to_ps2 beyond_table
              (length (Input.keyDown (Input.app w))) 0%nat w0)
    as (e1 & L1 & N1 & F1 & _ & U1 & D1).
  { rewrite K0. cbn. lia. }
  { rewrite K0. exact Hm. }
  change (Z.of_nat 0) with 0 in *. rewrite K0 in *. fold w1 in L1, N1, F1.
  exists ([Input.spice_ready true] ++ e1 ++ [Input.spice_disconnect]
          ++ (if t_spice then [Input.lgJoinThread_spice] else [])).
  rewrite L1. unfold w0 at 1. cbn [Input.log]. rewrite <- !app_assoc.
  split; [reflexivity|]. split; [exact N1|].
  split; [intros k Hk; apply F1; lia|].
  split; intros c; rewrite !input_count_app; [rewrite U1|rewrite D1];
    unfold keys_down_as; destruct t_spice; cbn; lia.
Qed.
(** ** Spice input switched off *)

Section InputOff.

Variable env : Input.Env.
Variable params : Input.AppParams.
Variable usb_to_ps2 : list Z.
Variable beyond_table : Z.

Hypothesis spice_off : Input.useSpiceInput params = false.

Lemma input_off_true a : Input.input_off params a = true.
Proof. unfold Input.input_off. rewrite spice_off. apply orb_true_r. Qed.

Lemma pointer_off_true a : Input.pointer_off params a = true.
Proof.
  unfold Input.pointer_off. rewrite spice_off. cbn [negb].
  rewrite orb_true_r. reflexivity.
Qed.

Lemma eventFilter_spice_off e w :
  exists evs,
    Input.log (snd (Input.eventFilter env params usb_to_ps2 beyond_table e w))
    = Input.log w ++ evs
    /\ forallb is_keybind_callback evs = true.
Proof.
  unfold Input.eventFilter. rewrite bind_unit_snd. cbn [ret snd].
  destruct w as [a lg]. destruct e.
  - unfold Input.key_down_case, bind, Input.get_app. cbn [Input.app].
    rewrite input_off_true.
    destruct (sc =? Input.escapeKey params); [|destruct (Input.escapeActive a)];
      cbn; exists []; rewrite app_nil_r; auto.
  - unfold Input.key_up_case. rewrite bind_unit_snd.
    unfold bind at 1. unfold Input.get_app at 1. rewrite input_off_true.
    cbn [ret snd].
    unfold Input.key_up_escape, bind, Input.get_app, when.
    cbn [Input.app]. rewrite spice_off.
    destruct (Input.escapeActive a);
      [|cbn; exists []; rewrite app_nil_r; auto].
    destruct (Input.escapeAction a =? -1).
    + cbn. destruct (sc =? Input.escapeKey params); cbn;
        exists []; rewrite app_nil_r; auto.
    + destruct (negb (Input.bindings a !!! Z.to_nat sc =? NULL)); cbn;
        destruct (sc =? Input.escapeKey params); cbn;
        try (eexists; split; reflexivity);
        exists []; rewrite app_nil_r; auto.
  - unfold Input.mouse_wheel_case, bind, Input.get_app. cbn [Input.app].
    rewrite pointer_off_true. cbn. exists []. rewrite app_nil_r. auto.
  - unfold Input.mouse_button_case, bind, Input.get_app. cbn [Input.app].
    rewrite pointer_off_true. cbn. exists []. rewrite app_nil_r. auto.
  - unfold Input.mouse_button_case, bind, Input.get_app. cbn [Input.app].
    rewrite pointer_off_true. cbn. exists []. rewrite app_nil_r. auto.
Qed.

Lemma filter_events_spice_off es :
  forall w,
    exists evs,
      Input.log (Input.filter_events env params usb_to_ps2 beyond_table es w)
      = Input.log w ++ evs
      /\ forallb is_keybind_callback evs = true.
Proof.
  induction es as [|e es IH]; intros w.
  - exists []. cbn. rewrite app_nil_r. auto.
  - cbn [Input.filter_events fold_left].
    destruct (eventFilter_spice_off e w) as (e1 & L1 & C1).
    destruct (IH (snd (Input.eventFilter env params usb_to_ps2 beyond_table
                         e w))) as (e2 & L2 & C2).
    exists (e1 ++ e2). unfold Input.filter_events in L2.
    rewrite L2, L1, <- app_assoc, forallb_app, C1, C2. auto.
Qed.

End InputOff.

(** * The claims *)

(** C1.  The state word keeps its ring order.  Take a texture object
    fresh from [egl_texture_init], set it up once (any format, any size,
    streaming or not, whatever the GL driver answers), and then make any
    sequence of calls of [egl_texture_update],
    [egl_texture_update_from_frame], [egl_texture_process],
    [egl_texture_bind] and [egl_texture_count].  Count how often each of
    the four indices has moved.  Then, at the end of the run:
    - each index is its number of moves modulo 3, the counts are ordered
      [d <= s <= u <= w], and [w] is less than a lap ahead of [u], [u]
      less than a lap ahead of [s] and of [d]: no stage has crossed
      another;
    - a further [egl_texture_process] moves [u] only if [u <> w],
      [(u+1) mod 3 <> s] and [(u+1) mod 3 <> d], and then to
      [(u+1) mod 3];
    - a further [egl_texture_bind] moves [d] only if [d <> s] and
      [(d+1) mod 3 <> s] (for the [s] the call leaves behind), and then
      to [(d+1) mod 3].
    A run with a second [egl_texture_setup] is not covered: the setup
    keeps the fences of the slots, and the order can then be lost, as the
    run after the witness shows. *)
Theorem ring_order_from_setup gl f wd ht sd str w0 cs :
  forallb (fun c => negb (is_setup c)) cs = true ->
  let start := exec (egl_texture_setup gl f wd ht sd str)
                 (exec (egl_texture_init true) w0) in
  let w := fst (run_counting gl cs (start, no_progress)) in
  let p := snd (run_counting gl cs (start, no_progress)) in
  ring_ordered (state (texture w)) p
  /\ (let w' := exec (egl_texture_process gl) w in
      st_u (state (texture w')) <> st_u (state (texture w)) ->
      st_u (state (texture w)) <> st_w (state (texture w)) /\
      ring_next (st_u (state (texture w))) <> st_s (state (texture w)) /\
      ring_next (st_u (state (texture w))) <> st_d (state (texture w)) /\
      st_u (state (texture w')) = ring_next (st_u (state (texture w))))
  /\ (let w' := exec (egl_texture_bind gl) w in
      st_d (state (texture w')) <> st_d (state (texture w)) ->
      st_d (state (texture w)) <> st_s (state (texture w')) /\
      ring_next (st_d (state (texture w))) <> st_s (state (texture w')) /\
      st_d (state (texture w')) = ring_next (st_d (state (texture w)))).
Proof.
  intros Hn. cbv zeta.
  destruct (first_setup_inv gl f wd ht sd str w0) as (Hok & Hi).
  destruct (run_counting_inv gl cs Hn _ _ Hok Hi) as (Hok' & (Hr & _)).
  split; [exact Hr|]. split.
  - apply process_advance_guard, Hok'.
  - apply bind_advance_guard, Hok'.
Qed.

(** The run [demo_calls] on a 640x480 YUV420 streaming texture: the
    producer has lapped the display slot, and the order holds. *)
Lemma ring_order_from_setup_witness :
  let r := run_counting sample_gl demo_calls (yuv_world, no_progress) in
  state (texture (fst r)) = {| st_w := 1; st_u := 2; st_s := 2; st_d := 1 |}
  /\ snd r = {| adv_w := 4; adv_u := 2; adv_s := 2; adv_d := 1 |}
  /\ ring_ordered (state (texture (fst r))) (snd r).
Proof.
  split; [vm_compute; reflexivity|]. split; [vm_compute; reflexivity|].
  exact (proj1 (ring_order_from_setup sample_gl EGL_PF_YUV420 640 480 640
                  true blank_world demo_calls eq_refl)).
Defined.

(** C1, the run that breaks the order.  A texture from
    [egl_texture_init] is set up, two frames are copied in and uploaded
    but never bound, so that slots 0 and 1 hold a fence each, and the
    texture is set up again: the state word is zeroed, the fences stay.
    One more frame is copied in and uploaded, and [egl_texture_bind] is
    called twice.  The second bind finds the old fence of slot 1, which
    the driver reports as signalled, and moves [s] to 2 while [u] is 1:
    the word ends as [w = 1, u = 1, s = 2, d = 1], which no count of
    moves puts in ring order, since [d] and [u] are equal and [s] is
    not. *)
Lemma ring_order_lost_after_second_setup :
  let calls := [do_setup EGL_PF_YUV420 640 480 640 true;
                do_update 1; do_process; do_update 2; do_process;
                do_setup EGL_PF_YUV420 640 480 640 true;
                do_update 3; do_process; do_bind; do_bind] in
  let w := run sample_gl calls (exec (egl_texture_init true) blank_world) in
  reachable sample_gl w
  /\ state (texture w) = {| st_w := 1; st_u := 1; st_s := 2; st_d := 1 |}
  /\ forall p, ~ ring_ordered (state (texture w)) p.
Proof.
  cbv zeta.
  assert (E : state
                (texture
                   (run sample_gl
                      [do_setup EGL_PF_YUV420 640 480 640 true;
                       do_update 1; do_process; do_update 2; do_process;
                       do_setup EGL_PF_YUV420 640 480 640 true;
                       do_update 3; do_process; do_bind; do_bind]
                      (exec (egl_texture_init true) blank_world)))
              = {| st_w := 1; st_u := 1; st_s := 2; st_d := 1 |})
    by (vm_compute; reflexivity).
  split; [eexists _, _; reflexivity|]. split; [exact E|].
  intros p. rewrite E. unfold ring_ordered, TEXTURE_COUNT.
  cbn [st_w st_u st_s st_d].
  intros (Hw & Hu & Hs & Hd & H1 & H2 & H3 & H4 & H5 & H6).
  pose proof (Z.div_mod (adv_w p) 3 ltac:(lia)) as Dw.
  pose proof (Z.div_mod (adv_u p) 3 ltac:(lia)) as Du.
  pose proof (Z.div_mod (adv_s p) 3 ltac:(lia)) as Ds.
  pose proof (Z.div_mod (adv_d p) 3 ltac:(lia)) as Dd.
  rewrite <- Hw in Dw. rewrite <- Hu in Du. rewrite <- Hs in Ds.
  rewrite <- Hd in Dd. lia.
Qed.

(** C2.  The producer on a streaming texture, for a write index that is
    a slot of the ring.  If [(w+1) mod 3 = u], both
    [egl_texture_update] and [egl_texture_update_from_frame] return
    [true] after the acquire load and [egl_warn_slow], which logs its
    warning only if it never did before: the texture object (state word
    and slots) is untouched and nothing is copied.  Otherwise they copy
    into the buffer slot [w] is mapped at ([memcpy] of [pboBufferSize]
    bytes, resp. [framebuffer_read]), then store [(w+1) mod 3] to [w]
    with release order, and return [true]. *)
Theorem update_streaming_contract buffer frame w :
  streaming (texture w) = true ->
  idx_ok (st_w (state (texture w))) ->
  let t := texture w in
  let s := state t in
  let next := ring_next (st_w s) in
  (next = st_u s ->
   let dropped :=
     {| texture := t; warnDone := true;
        history := history w ++
          atomic_load_explicit memory_order_acquire ::
          (if warnDone w then [] else slow_warning) |} in
   egl_texture_update buffer w = (true, dropped) /\
   egl_texture_update_from_frame frame w = (true, dropped) /\
   count_events is_slot_write
     (atomic_load_explicit memory_order_acquire ::
      (if warnDone w then [] else slow_warning)) = 0%nat)
  /\
  (next <> st_u s ->
   egl_texture_update buffer w =
   (true,
    {| texture := set_state (set_st_w next s) t;
       warnDone := warnDone w;
       history := history w ++
         [atomic_load_explicit memory_order_acquire;
          memcpy (tex_map (tex_at t (st_w s))) buffer (pboBufferSize t);
          atomic_store_explicit field_w next memory_order_release] |}) /\
   egl_texture_update_from_frame frame w =
   (true,
    {| texture := set_state (set_st_w next s) t;
       warnDone := warnDone w;
       history := history w ++
         [atomic_load_explicit memory_order_acquire;
          framebuffer_read frame (tex_map (tex_at t (st_w s)))
            (stride t) (height t) (width t) (bpp t) (stride t);
          atomic_store_explicit field_w next memory_order_release] |})).
Proof.
  intros Hs Hw. cbv zeta. split; intros Hn.
  - rewrite update_overrun, update_from_frame_overrun by assumption.
    repeat split. destruct (warnDone w); reflexivity.
  - rewrite update_copy, update_from_frame_copy by assumption.
    split; reflexivity.
Qed.

(** On the fresh 640x480 texture the first update fills slot 0; two
    updates later the producer is stopped by the uploader, and warns. *)
Lemma update_streaming_contract_witness :
  fst (egl_texture_update 1 yuv_world) = true /\
  state (texture (exec (egl_texture_update 1) yuv_world)) =
    {| st_w := 1; st_u := 0; st_s := 0; st_d := 0 |} /\
  (let full := run sample_gl [do_update 1; do_update 2] yuv_world in
   egl_texture_update 3 full =
   (true, {| texture := texture full; warnDone := true;
             history := history full ++
               atomic_load_explicit memory_order_acquire :: slow_warning |})).
Proof.
  assert (H0 : idx_ok (st_w (state (texture yuv_world))))
    by slot_ok.
  pose proof (update_streaming_contract 1 0 yuv_world eq_refl H0) as (_ & Hc).
  destruct (Hc ltac:(vm_compute; discriminate)) as (E & _).
  split; [rewrite E; reflexivity|]. split; [unfold exec; rewrite E; reflexivity|].
  cbv zeta.
  assert (H2 : idx_ok (st_w (state (texture
                 (run sample_gl [do_update 1; do_update 2] yuv_world)))))
    by slot_ok.
  pose proof (update_streaming_contract 3 0
                (run sample_gl [do_update 1; do_update 2] yuv_world)
                eq_refl H2) as (Hd & _).
  destruct (Hd ltac:(vm_compute; reflexivity)) as (E' & _).
  exact E'.
Defined.



(** C4.  [egl_texture_bind] on a streaming texture, with [s] and [d] slot
    indices and [status] the answer of the driver to the wait.  Not ready:
    it returns NOT_READY after the load of the state word, with no call
    to the driver.  Ready and slot [s] has a fence: it waits on it with a
    time-out of 20 000 000 ns; on ALREADY_SIGNALED or CONDITION_SATISFIED
    it deletes the fence, clears it in the slot, stores
    [s = (s+1) mod 3] with release, and goes on to the bindings; on
    TIMEOUT_EXPIRED it deletes nothing, leaves [s] as it was, and goes on
    to the bindings; on WAIT_FAILED or INVALID_VALUE it deletes the fence,
    clears it in the slot, logs the failure and returns ERROR with no
    binding made and the state word as it was.  Ready and no fence in
    slot [s]: it goes on to the bindings without a wait.  Going on to the
    bindings is: move [d] by one if [d <> s] and [(d+1) mod 3 <> s], for the
    [s] just published, then bind the textures of slot [d], and return
    OK. *)
Theorem bind_streaming_cases gl w :
  streaming (texture w) = true ->
  idx_ok (st_s (state (texture w))) ->
  idx_ok (st_d (state (texture w))) ->
  let t := texture w in
  let s := st_s (state t) in
  let fence := tex_sync (tex_at t s) in
  let load := atomic_load_explicit memory_order_acquire in
  let status := client_wait_sync gl (history w ++ [load]) in
  let wait := glClientWaitSync fence 0 20000000 in
  let r := egl_texture_bind gl w in
  (ready t = false ->
   r = (EGL_TEX_STATUS_NOTREADY, with_history w [load]))
  /\
  (ready t = true -> fence = 0 ->
   r = (EGL_TEX_STATUS_OK,
        {| texture := commit_d (state t) t;
           warnDone := warnDone w;
           history := history w ++ [load]
                      ++ advance_d_events (state t)
                      ++ bind_events t (st_d (advance_d (state t))) |}))
  /\
  (ready t = true -> fence <> 0 ->
   (status = GL_ALREADY_SIGNALED \/ status = GL_CONDITION_SATISFIED ->
    let s1 := set_st_s (ring_next s) (state t) in
    r = (EGL_TEX_STATUS_OK,
         {| texture := commit_d s1
                         (set_state s1 (upd_tex s (set_tex_sync 0) t));
            warnDone := warnDone w;
            history := history w
                       ++ [load; wait; glDeleteSync fence;
                           atomic_store_explicit field_s (ring_next s)
                             memory_order_release]
                       ++ advance_d_events s1
                       ++ bind_events t (st_d (advance_d s1)) |})
    /\ state (texture (snd r)) = advance_d s1
    /\ st_s (state (texture (snd r))) = ring_next s)
   /\
   (status = GL_TIMEOUT_EXPIRED ->
    r = (EGL_TEX_STATUS_OK,
         {| texture := commit_d (state t) t;
            warnDone := warnDone w;
            history := history w ++ [load; wait]
                       ++ advance_d_events (state t)
                       ++ bind_events t (st_d (advance_d (state t))) |})
    /\ state (texture (snd r)) = advance_d (state t)
    /\ st_s (state (texture (snd r))) = s)
   /\
   (status = GL_WAIT_FAILED \/ status = GL_INVALID_VALUE ->
    r = (EGL_TEX_STATUS_ERROR,
         {| texture := upd_tex s (set_tex_sync 0) t;
            warnDone := warnDone w;
            history := history w
                       ++ [load; wait; glDeleteSync fence;
                           EGL_ERROR "glClientWaitSync failed" []] |}))).
Proof.
  intros Hst Hs Hd. cbv zeta. split; [|split].
  - intros Hr. apply bind_not_ready; assumption.
  - intros Hr H0. rewrite bind_no_fence by assumption.
    unfold bind_finish, with_history. cbn [texture warnDone history].
    rewrite bind_events_commit, <- app_assoc. reflexivity.
  - intros Hr H0. split; [|split]; intros Hstatus.
    + assert (Hc : classify_wait
                     (client_wait_sync gl
                        (history w ++
                         [atomic_load_explicit memory_order_acquire]))
                   = fence_signaled)
        by (destruct Hstatus as [-> | ->]; reflexivity).
      rewrite bind_signaled by assumption.
      unfold bind_finish, scheduled_world, wait_call.
      cbn [texture warnDone history snd].
      change (state (set_state ?s ?t)) with s.
      rewrite bind_events_commit, bind_events_clear, <- app_assoc.
      split; [reflexivity|].
      rewrite state_commit_d by reflexivity. split; [reflexivity|].
      destruct (advance_d_others
                  (set_st_s (ring_next (st_s (state (texture w))))
                     (state (texture w)))) as (_ & _ & ->).
      reflexivity.
    + assert (Hc : classify_wait
                     (client_wait_sync gl
                        (history w ++
                         [atomic_load_explicit memory_order_acquire]))
                   = fence_pending)
        by (rewrite Hstatus; reflexivity).
      rewrite bind_pending by assumption.
      unfold bind_finish, with_history, wait_call.
      cbn [texture warnDone history snd].
      rewrite bind_events_commit, <- app_assoc.
      split; [reflexivity|].
      rewrite state_commit_d by reflexivity. split; [reflexivity|].
      destruct (advance_d_others (state (texture w))) as (_ & _ & ->).
      reflexivity.
    + assert (Hc : classify_wait
                     (client_wait_sync gl
                        (history w ++
                         [atomic_load_explicit memory_order_acquire]))
                   = fence_failed)
        by (destruct Hstatus as [-> | ->]; reflexivity).
      rewrite bind_failed by assumption. reflexivity.
Qed.

(** A bind after the first upload on a 640x480 YUV420 streaming texture,
    with a driver that reports every fence as signalled: [s] moves to 1,
    and [d] stays, since the slot after it is the new [s]. *)
Lemma bind_streaming_cases_witness :
  let w := run sample_gl [do_update 1; do_process] yuv_world in
  let r := egl_texture_bind sample_gl w in
  streaming (texture w) = true /\
  idx_ok (st_s (state (texture w))) /\
  idx_ok (st_d (state (texture w))) /\
  state (texture (snd r)) = {| st_w := 1; st_u := 1; st_s := 1; st_d := 0 |}.
Proof.
  cbv zeta.
  assert (Hs : idx_ok (st_s (state (texture
                 (run sample_gl [do_update 1; do_process] yuv_world)))))
    by slot_ok.
  assert (Hd : idx_ok (st_d (state (texture
                 (run sample_gl [do_update 1; do_process] yuv_world)))))
    by slot_ok.
  split; [reflexivity|]. split; [exact Hs|]. split; [exact Hd|].
  destruct (bind_streaming_cases sample_gl
              (run sample_gl [do_update 1; do_process] yuv_world)
              eq_refl Hs Hd) as (_ & _ & H).
  destruct H as (Hsig & _ & _);
    [vm_compute; reflexivity | vm_compute; discriminate |].
  destruct (Hsig (or_introl eq_refl)) as (_ & E & _).
  rewrite E. vm_compute. reflexivity.
Defined.






(** C7.  Session start and queue subscription tell errors to wait out from
    fatal ones.  One attempt: when [lgmpClientInit] answers INVALID_SESSION
    or INVALID_MAGIC, [lg_run] waits for events for 1000 ms and goes round
    again; when [lgmpClientSubscribe] answers NO_SUCH_QUEUE, the thread
    sleeps 1000 us and goes round again.  Whole loops, entered with [n]
    such answers ahead and room for one more iteration: if the next answer
    of [lgmpClientInit] is OK the loop is left after [n] waits and [n+1]
    calls; if it is any other error the error is logged and [lg_run]
    returns -1.  If the next answer of [lgmpClientSubscribe] is OK the loop
    is left with [running] still set; if it is any other error the error is
    logged, [running] is cleared, and the loop is left. *)
Theorem session_and_subscribe_retry env q w n fuel :
  (n < fuel)%nat ->
  ((init_transient (Main.client_init env (Main.log w)) = true ->
    Main.client_init_iteration env w =
    (Main.Continue,
     logged w [Main.lgmpClientInit; Main.SDL_WaitEventTimeout 1000]))
   /\
   (subscribe_transient (Main.client_subscribe env (Main.log w)) = true ->
    Main.subscribe_iteration env q w =
    (Main.Continue,
     logged w [Main.lgmpClientSubscribe q; Main.usleep 1000])))
  /\
  ((forall i, (i < n)%nat ->
      init_transient
        (Main.client_init env (Main.log w ++ rounds i init_round)) = true) ->
   let w' := logged w (rounds n init_round) in
   let status := Main.client_init env (Main.log w') in
   let r := Main.lg_run_client_init env fuel w in
   (status = Main.LGMP_OK ->
    r = (Main.Finished, logged w' [Main.lgmpClientInit]))
   /\
   (status <> Main.LGMP_OK -> init_transient status = false ->
    r = (Main.Returned (-1),
         logged w' [Main.lgmpClientInit;
                    Main.DEBUG_ERROR_status "lgmpClientInit Failed: %s"
                      status])))
  /\
  (Main.running (Main.app w) = true ->
   (forall i, (i < n)%nat ->
      subscribe_transient
        (Main.client_subscribe env
           (Main.log w ++ rounds i (subscribe_round q))) = true) ->
   let w' := logged w (rounds n (subscribe_round q)) in
   let status := Main.client_subscribe env (Main.log w') in
   let r := Main.while_loop fuel Main.running
              (Main.subscribe_iteration env q) w in
   (status = Main.LGMP_OK ->
    r = (Main.Finished, logged w' [Main.lgmpClientSubscribe q])
    /\ Main.running (Main.app (snd r)) = true)
   /\
   (status <> Main.LGMP_OK -> subscribe_transient status = false ->
    r = (Main.Finished,
         stopped
           (logged w' [Main.lgmpClientSubscribe q;
                       Main.DEBUG_ERROR_status
                         "lgmpClientSubscribe Failed: %s" status]))
    /\ Main.running (Main.app (snd r)) = false)).
Proof.
  intros Hfuel.
  replace fuel with (n + S (fuel - n - 1))%nat by lia.
  split; [split|split].
  - intros H. rewrite client_init_iteration_spec. cbv zeta.
    destruct (Main.client_init env (Main.log w)); try discriminate H;
      reflexivity.
  - intros H. rewrite subscribe_iteration_spec. cbv zeta.
    destruct (Main.client_subscribe env (Main.log w)); try discriminate H;
      reflexivity.
  - intros H. cbv zeta. rewrite (init_retries env w n _ H).
    unfold Main.lg_run_client_init.
    pose proof (client_init_iteration_spec env
                  (logged w (rounds n init_round))) as E.
    cbv zeta in E. split.
    + intros Hs. rewrite Hs in E.
      apply while_loop_break; [reflexivity | exact E].
    + intros Hs Ht.
      apply while_loop_return; [reflexivity|]. rewrite E.
      destruct (Main.client_init env
                  (Main.log (logged w (rounds n init_round))));
        try discriminate Ht; try reflexivity.
      exfalso. apply Hs. reflexivity.
  - intros Hr H. cbv zeta. rewrite (subscribe_retries env q w n _ Hr H).
    pose proof (subscribe_iteration_spec env q
                  (logged w (rounds n (subscribe_round q)))) as E.
    cbv zeta in E. split.
    + intros Hs. rewrite Hs in E.
      rewrite (while_loop_break _ Main.running _
                 (logged w (rounds n (subscribe_round q))) _ Hr E).
      split; [reflexivity | exact Hr].
    + intros Hs Ht.
      erewrite (while_loop_break _ Main.running _
                  (logged w (rounds n (subscribe_round q))));
        [ | exact Hr | rewrite E ].
      * split; reflexivity.
      * destruct (Main.client_subscribe env
                    (Main.log (logged w (rounds n (subscribe_round q)))));
          try discriminate Ht; try reflexivity.
        exfalso. apply Hs. reflexivity.
Qed.

(** A host that comes up after two attempts: [lg_run] waits twice, one
    second each, and the third call succeeds. *)
Lemma session_and_subscribe_retry_witness :
  (2 < 5)%nat /\
  Main.lg_run_client_init late_host 5 started =
  (Main.Finished,
   logged started
     [Main.lgmpClientInit; Main.SDL_WaitEventTimeout 1000;
      Main.lgmpClientInit; Main.SDL_WaitEventTimeout 1000;
      Main.lgmpClientInit]).
Proof.
  split; [lia|].
  destruct (session_and_subscribe_retry late_host Main.LGMP_Q_FRAME started
              2 5 ltac:(lia)) as (_ & Hinit & _).
  destruct Hinit as (Hok & _).
  - intros [|[|i]] Hi; [reflexivity | reflexivity | lia].
  - rewrite Hok by reflexivity. reflexivity.
Defined.



(** C9.  [egl_texture_setup] never lowers [planeCount]: with [count] the
    plane count of the new format, the texture is left with the larger of
    the old [planeCount] and [count] (and with the old one when the format
    is not supported).  When [count] does not exceed the old [planeCount]
    the setup makes no call that creates or deletes textures or samplers,
    and the sampler and texture names stay as they were; when it does, the
    samplers are created anew.  No run of calls of the interface lowers
    [planeCount] either.  So after a YUV420 setup of a new texture and a
    BGRA setup after it, [egl_texture_count] returns 3. *)
Theorem planeCount_monotone gl f wd ht sd str w :
  let w' := exec (egl_texture_setup gl f wd ht sd str) w in
  let old := planeCount (texture w) in
  old <= planeCount (texture w')
  /\ (forall count t',
      switch_pixFmt f wd ht sd
        (set_state zero_state (set_params f wd ht sd str (texture w)))
      = Some (count, t') ->
      planeCount (texture w') = Z.max old count
      /\ (count <= old ->
          (exists evs, history w' = history w ++ evs /\
                       forallb (fun e => negb (is_realloc e)) evs = true)
          /\ samplers (texture w') = samplers (texture w)
          /\ tex_t <$> tex (texture w') = tex_t <$> tex (texture w))
      /\ (old < count -> makes_call (glGenSamplers count) w w'))
  /\ (switch_pixFmt f wd ht sd
        (set_state zero_state (set_params f wd ht sd str (texture w)))
      = None -> planeCount (texture w') = old)
  /\ (forall cs, old <= planeCount (texture (run gl cs w)))
  /\ (let w1 := exec (egl_texture_setup gl EGL_PF_YUV420 wd ht sd str)
                  (exec (egl_texture_init true) w) in
      fst (egl_texture_count w1) = 3
      /\ forall wd2 ht2 sd2 str2,
         let w2 := exec (egl_texture_setup gl EGL_PF_BGRA wd2 ht2 sd2 str2)
                     w1 in
         fst (egl_texture_count w2) = 3
         /\ option_map fst
              (switch_pixFmt EGL_PF_BGRA wd2 ht2 sd2 (texture w1)) = Some 1).
Proof.
  cbv zeta. split; [|split; [|split; [|split]]].
  - rewrite setup_planeCount.
    destruct (switch_pixFmt _ _ _ _ _) as [[count t']|]; lia.
  - intros count t' H. split; [|split].
    + rewrite setup_planeCount, H. reflexivity.
    + intros Hc. apply (setup_no_realloc gl f wd ht sd str w count t' H Hc).
    + intros Hc. apply (setup_does_realloc gl f wd ht sd str w count t' H Hc).
  - intros H. rewrite setup_planeCount, H. reflexivity.
  - intros cs. apply run_planeCount.
  - assert (H1 : planeCount
                   (texture
                      (exec (egl_texture_setup gl EGL_PF_YUV420 wd ht sd str)
                         (exec (egl_texture_init true) w))) = 3)
      by (rewrite setup_planeCount; reflexivity).
    split; [exact H1|]. intros wd2 ht2 sd2 str2. split; [|reflexivity].
    change (fst (egl_texture_count ?x)) with (planeCount (texture x)).
    rewrite setup_planeCount. cbn [switch_pixFmt]. rewrite H1. reflexivity.
Qed.

(** C10.  On a texture that is not streaming
    [egl_texture_update_from_frame] returns false and leaves everything as
    it was: no call is made (the state word is not loaded, the frame is
    not read, nothing is written to a slot) and the texture object is
    unchanged.  [egl_texture_update] on the same texture returns true
    after uploading the planes. *)
Theorem update_from_frame_requires_streaming frame buffer w :
  streaming (texture w) = false ->
  egl_texture_update_from_frame frame w = (false, w)
  /\ history (exec (egl_texture_update_from_frame frame) w) = history w
  /\ state (texture (exec (egl_texture_update_from_frame frame) w))
     = state (texture w)
  /\ tex (texture (exec (egl_texture_update_from_frame frame) w))
     = tex (texture w)
  /\ fst (egl_texture_update buffer w) = true
  /\ history (exec (egl_texture_update buffer) w)
     = history w ++ direct_events (texture w) buffer
       ++ [glBindTexture GL_TEXTURE_2D 0].
Proof.
  intros Hs. unfold exec.
  rewrite update_from_frame_idle, update_direct by exact Hs.
  repeat split; reflexivity.
Qed.

(** A 640x480 BGRA texture that is not streaming. *)
Lemma update_from_frame_requires_streaming_witness :
  let w := run sample_gl [do_setup EGL_PF_BGRA 640 480 4096 false]
             (exec (egl_texture_init true) blank_world) in
  streaming (texture w) = false /\
  egl_texture_update_from_frame 7 w = (false, w).
Proof.
  cbv zeta. split; [reflexivity|].
  apply (update_from_frame_requires_streaming 7 0
           (run sample_gl [do_setup EGL_PF_BGRA 640 480 4096 false]
              (exec (egl_texture_init true) blank_world))
           eq_refl).
Defined.

(** * Further properties *)

(** X1.  Each index of the state word has one writer:
    [egl_texture_update] and [egl_texture_update_from_frame] change at
    most [w], [egl_texture_process] at most [u], [egl_texture_bind] at
    most [s] and [d], and [egl_texture_count] none, whatever the texture
    holds and whatever the driver answers. *)
Theorem state_word_single_writer gl buffer frame w :
  let s := state (texture w) in
  let after {A} (m : M A) := state (texture (exec m w)) in
  (st_u (after (egl_texture_update buffer)) = st_u s /\
   st_s (after (egl_texture_update buffer)) = st_s s /\
   st_d (after (egl_texture_update buffer)) = st_d s)
  /\
  (st_u (after (egl_texture_update_from_frame frame)) = st_u s /\
   st_s (after (egl_texture_update_from_frame frame)) = st_s s /\
   st_d (after (egl_texture_update_from_frame frame)) = st_d s)
  /\
  (st_w (after (egl_texture_process gl)) = st_w s /\
   st_s (after (egl_texture_process gl)) = st_s s /\
   st_d (after (egl_texture_process gl)) = st_d s)
  /\
  (st_w (after (egl_texture_bind gl)) = st_w s /\
   st_u (after (egl_texture_bind gl)) = st_u s)
  /\
  after egl_texture_count = s.
Proof.
  cbv beta zeta.
  assert (Hup : respects
                  (keeps (fun t => (st_u (state t), st_s (state t),
                                    st_d (state t))))
                  (egl_texture_update buffer)).
  { unfold egl_texture_update. walk; try prims; apply warn_slow_keeps. }
  assert (Hfr : respects
                  (keeps (fun t => (st_u (state t), st_s (state t),
                                    st_d (state t))))
                  (egl_texture_update_from_frame frame)).
  { unfold egl_texture_update_from_frame.
    walk; try prims; apply warn_slow_keeps. }
  assert (Hpr : respects
                  (keeps (fun t => (st_w (state t), st_s (state t),
                                    st_d (state t))))
                  (egl_texture_process gl)).
  { unfold egl_texture_process. walk; try prims.
    apply map_keeps. reflexivity. }
  assert (Hbi : respects
                  (keeps (fun t => (st_w (state t), st_u (state t))))
                  (egl_texture_bind gl)).
  { unfold egl_texture_bind, bind_streaming, bind_wait, bind_advance_d,
      bind_planes.
    walk; try prims. }
  specialize (Hup w). specialize (Hfr w). specialize (Hpr w).
  specialize (Hbi w). unfold keeps in *.
  inversion Hup. inversion Hfr. inversion Hpr. inversion Hbi.
  unfold exec. repeat split; congruence.
Qed.

(** X2.  The slow warning is printed at most once, however many calls
    follow and whatever they are: over any run of the interface the two
    warning lines appear together when the flag of [egl_warn_slow] goes
    from clear to set, and not at all when it was set before or is still
    clear after; once set the flag stays set, also across
    [egl_texture_setup]. *)
Theorem slow_warning_once gl cs w :
  let w' := run gl cs w in
  exists evs,
    history w' = history w ++ evs
    /\ (count_events is_debug_warn evs <= 2)%nat
    /\ (warnDone w = true ->
        warnDone w' = true /\ count_events is_debug_warn evs = 0%nat)
    /\ (warnDone w' = false -> count_events is_debug_warn evs = 0%nat)
    /\ (warnDone w = false -> warnDone w' = true ->
        count_events is_debug_warn evs = 2%nat).
Proof.
  cbv zeta. destruct (run_once gl cs w) as (evs & E & M & C).
  exists evs. split; [exact E|]. rewrite C.
  destruct (warnDone w), (warnDone (run gl cs w)); repeat split; auto;
    try discriminate; try (specialize (M eq_refl); discriminate); intros;
    discriminate.
Qed.

(** X3.  [ready] says that a frame has been uploaded since the setup.
    For a texture fresh from [egl_texture_init] and set up once, after any
    run of calls other than a setup the flag is set exactly when
    [egl_texture_process] has moved [u] at least once; so until the first
    upload a streaming [egl_texture_bind] answers NOT_READY, having loaded
    the state word and made no call to the driver. *)
Theorem ready_iff_uploaded gl f wd ht sd str w0 cs :
  forallb (fun c => negb (is_setup c)) cs = true ->
  let start := exec (egl_texture_setup gl f wd ht sd str)
                 (exec (egl_texture_init true) w0) in
  let w := fst (run_counting gl cs (start, no_progress)) in
  let p := snd (run_counting gl cs (start, no_progress)) in
  ready (texture start) = false
  /\ ready (texture w) = (0 <? adv_u p)
  /\ (streaming (texture w) = true -> adv_u p = 0 ->
      egl_texture_bind gl w
      = (EGL_TEX_STATUS_NOTREADY,
         with_history w [atomic_load_explicit memory_order_acquire])).
Proof.
  intros Hn. cbv zeta.
  destruct (first_setup_inv gl f wd ht sd str w0) as (Hok & _).
  assert (Hr0 : ready
                  (texture
                     (exec (egl_texture_setup gl f wd ht sd str)
                        (exec (egl_texture_init true) w0))) = false).
  { change (ready ?t) with (c_ready (core t)). rewrite setup_core.
    reflexivity. }
  destruct (run_counting_ready gl cs Hn _ no_progress Hok
              ltac:(cbn; lia) Hr0) as (H0 & Hr).
  split; [exact Hr0|]. split; [exact Hr|].
  intros Hs Hu. apply bind_not_ready; [exact Hs|].
  rewrite Hr, Hu. reflexivity.
Qed.

(** On the 640x480 YUV420 texture: not ready after two updates, ready
    after the upload that follows. *)
Lemma ready_iff_uploaded_witness :
  forallb (fun c => negb (is_setup c)) [do_update 1; do_update 2] = true /\
  ready (texture (run sample_gl [do_update 1; do_update 2] yuv_world))
  = false /\
  ready (texture
           (run sample_gl [do_update 1; do_update 2; do_process] yuv_world))
  = true.
Proof.
  split; [reflexivity|]. split.
  - destruct (ready_iff_uploaded sample_gl EGL_PF_YUV420 640 480 640 true
                blank_world [do_update 1; do_update 2] eq_refl)
      as (_ & H & _).
    refine (eq_trans _ (eq_trans H _)); vm_compute; reflexivity.
  - destruct (ready_iff_uploaded sample_gl EGL_PF_YUV420 640 480 640 true
                blank_world [do_update 1; do_update 2; do_process] eq_refl)
      as (_ & H & _).
    refine (eq_trans _ (eq_trans H _)); vm_compute; reflexivity.
Defined.

(** X4.  No fence is lost by an upload.  For a texture fresh from
    [egl_texture_init] and set up once, after any run of calls other than
    a setup: a slot holds a fence only if it has been uploaded and not
    yet scheduled, at most two slots do, and slot [u], where the next
    [egl_texture_process] stores its new fence, holds none. *)
Theorem upload_overwrites_no_fence gl f wd ht sd str w0 cs :
  forallb (fun c => negb (is_setup c)) cs = true ->
  let start := exec (egl_texture_setup gl f wd ht sd str)
                 (exec (egl_texture_init true) w0) in
  let w := fst (run_counting gl cs (start, no_progress)) in
  let p := snd (run_counting gl cs (start, no_progress)) in
  let t := texture w in
  tex_sync (tex_at t (st_u (state t))) = 0
  /\ (forall i, idx_ok i -> tex_sync (tex_at t i) <> 0 ->
      exists k, adv_s p <= k < adv_u p /\ k mod 3 = i)
  /\ adv_u p - adv_s p <= 2.
Proof.
  intros Hn. cbv zeta.
  destruct (first_setup_inv gl f wd ht sd str w0) as (Hok & Hi).
  destruct (run_counting_inv gl cs Hn _ _ Hok Hi) as (Hok' & Hinv).
  set (r := run_counting gl cs
              (exec (egl_texture_setup gl f wd ht sd str)
                 (exec (egl_texture_init true) w0), no_progress)) in *.
  pose proof Hok' as (Hw & Hu & Hs & Hd & Hl).
  cbn [core c_state c_syncs] in Hw, Hu, Hs, Hd, Hl.
  rewrite length_syncs in Hl.
  assert (Hat : forall i, idx_ok i ->
                  tex_sync (tex_at (texture (fst r)) i)
                  = syncs (texture (fst r)) !!! idx i).
  { intros i Hi'. apply sync_at. rewrite Hl, idx_of_slot by exact Hi'.
    unfold idx_ok, TEXTURE_COUNT in Hi'. lia. }
  split; [|split].
  - rewrite Hat by exact Hu. apply (window_free_slot _ _ Hok' Hinv).
  - intros i Hi' Hne. rewrite Hat in Hne by exact Hi'.
    destruct Hinv as (_ & Hf). apply (Hf i Hi' Hne).
  - destruct Hinv as (Hr & _).
    destruct Hr as (_ & _ & _ & _ & _ & _ & _ & _ & Hus & _).
    unfold TEXTURE_COUNT in Hus. lia.
Qed.

(** The run [demo_calls]: two uploads, both scheduled, no fence left. *)
Lemma upload_overwrites_no_fence_witness :
  forallb (fun c => negb (is_setup c)) demo_calls = true /\
  tex_sync (tex_at (texture (run sample_gl demo_calls yuv_world)) 2) = 0.
Proof.
  split; [reflexivity|].
  destruct (upload_overwrites_no_fence sample_gl EGL_PF_YUV420 640 480 640
              true blank_world demo_calls eq_refl) as (H & _).
  refine (eq_trans _ H); vm_compute; reflexivity.
Defined.

(** X5.  [egl_texture_setup] resets the state word but not the fences:
    it makes no [glDeleteSync] or [glClientWaitSync] call and leaves
    [tex[i].sync] of every slot as it was.  So when slot 1 still holds a
    fence at a second, streaming, setup, and the driver hands out fences
    and reports every fence as signalled, then after one update, one
    upload and two binds [s] is 2 while [u] is 1: the second bind has
    scheduled, and made current for display, slot 1, into which nothing
    was uploaded since the setup. *)
Theorem setup_keeps_fences gl f wd ht sd buffer w :
  reachable gl w ->
  tex_sync (tex_at (texture w) 1) <> 0 ->
  (forall h, fence_sync gl h <> 0) ->
  (forall h, classify_wait (client_wait_sync gl h) = fence_signaled) ->
  let w1 := exec (egl_texture_setup gl f wd ht sd true) w in
  let w2 := run gl [do_update buffer; do_process; do_bind; do_bind] w1 in
  (exists evs,
     history w1 = history w ++ evs /\
     forallb (fun e => negb (is_fence_delete e || is_fence_wait e)) evs
     = true)
  /\ syncs (texture w1) = syncs (texture w)
  /\ state (texture w1) = {| st_w := 0; st_u := 0; st_s := 0; st_d := 0 |}
  /\ state (texture w2) = {| st_w := 1; st_u := 1; st_s := 2; st_d := 1 |}.
Proof.
  intros Hreach Hstale Hfence Hsig. cbv zeta.
  pose proof (setup_core gl f wd ht sd true w) as Hc.
  split; [apply setup_no_fence_call|].
  split; [exact (f_equal c_syncs Hc)|].
  split; [exact (f_equal c_state Hc)|].
  pose proof (reachable_setup gl f wd ht sd true w Hreach) as R1.
  set (w1 := exec (egl_texture_setup gl f wd ht sd true) w) in *.
  rewrite !run_cons. change (run gl [] ?x) with x.
  set (w2 := exec (perform gl (do_update buffer)) w1).
  set (w3 := exec (perform gl do_process) w2).
  set (w4 := exec (perform gl do_bind) w3).
  pose proof (reachable_perform gl w1 (do_update buffer) R1) as R2.
  pose proof (reachable_perform gl w2 do_process R2) as R3.
  pose proof (reachable_perform gl w3 do_bind R3) as R4.
  change (state (texture ?x)) with (c_state (core (texture x))).
  rewrite (perform_core gl do_bind w4) by exact (reachable_core_ok gl _ R4).
  unfold w4. rewrite (perform_core gl do_bind w3)
    by exact (reachable_core_ok gl _ R3).
  unfold w3. rewrite (perform_core gl do_process w2)
    by exact (reachable_core_ok gl _ R2).
  unfold w2. rewrite (perform_core gl (do_update buffer) w1)
    by exact (reachable_core_ok gl _ R1).
  rewrite Hc. cbn [core_perform]. unfold core_setup.
  cbn [core c_syncs].
  pose proof (reachable_core_ok gl w Hreach) as (_ & _ & _ & _ & Hl).
  cbn [core c_syncs] in Hl.
  rewrite (reachable_sync_at gl w 1 Hreach) in Hstale
    by (unfold idx_ok, TEXTURE_COUNT; lia).
  destruct (syncs (texture w)) as [|a [|b [|c [|]]]]; try discriminate Hl.
  apply stale_fence_core; auto. apply Hfence.
Qed.

(** Two frames uploaded and none bound, then the second setup. *)
Lemma setup_keeps_fences_witness :
  let w := run sample_gl [do_update 1; do_process; do_update 2; do_process]
             yuv_world in
  let w1 := exec (egl_texture_setup sample_gl EGL_PF_BGRA 640 480 2560 true)
              w in
  tex_sync (tex_at (texture w) 1) <> 0 /\
  state (texture
           (run sample_gl [do_update 3; do_process; do_bind; do_bind] w1))
  = {| st_w := 1; st_u := 1; st_s := 2; st_d := 1 |}.
Proof.
  cbv zeta.
  assert (H1 : tex_sync
                 (tex_at
                    (texture
                       (run sample_gl
                          [do_update 1; do_process; do_update 2; do_process]
                          yuv_world)) 1) <> 0)
    by (vm_compute; discriminate).
  split; [exact H1|].
  refine (proj2 (proj2 (proj2
    (setup_keeps_fences sample_gl EGL_PF_BGRA 640 480 2560 3 _ _ H1 _ _)))).
  - exists blank_world,
      [do_setup EGL_PF_YUV420 640 480 640 true;
       do_update 1; do_process; do_update 2; do_process].
    vm_compute. reflexivity.
  - intros h. cbn. lia.
  - intros h. reflexivity.
Defined.

(** X6.  What [egl_texture_setup] answers and leaves behind, on a texture
    obtained from [egl_texture_init] by calls of the interface.  With a
    pixel format it does not know it answers false after it has stored
    the new format, size and streaming flag, cleared [ready] and zeroed
    the state word: it logs the error, makes no call to the driver, and
    leaves the layout, the plane count and the slots as they were.  With
    a format it knows, every slot owns a buffer afterwards; it answers
    true exactly when all three buffers are mapped, which is the case if
    [glMapBufferRange] never fails, and when it answers false the last
    thing it did was to log the failed mapping. *)
Theorem setup_outcome_cases gl f wd ht sd str w :
  reachable gl w ->
  let r := egl_texture_setup gl f wd ht sd str w in
  let t' := texture (snd r) in
  ((exists code, f = EGL_PF_other code) ->
   fst r = false
   /\ history (snd r)
      = history w ++ [atomic_store_explicit_v 0 memory_order_relaxed;
                      DEBUG_ERROR "Unsupported pixel format"]
   /\ (pixFmt t', width t', height t', stride t', streaming t')
      = (f, wd, ht, sd, str)
   /\ ready t' = false
   /\ state t' = {| st_w := 0; st_u := 0; st_s := 0; st_d := 0 |}
   /\ layout t' = layout (texture w)
   /\ tex t' = tex (texture w))
  /\
  ((forall code, f <> EGL_PF_other code) ->
   hasPBOs t' = [true; true; true]
   /\ (fst r = true <-> Forall (fun m => m <> NULL) (maps t'))
   /\ (maps_succeed gl -> fst r = true)
   /\ (fst r = false ->
       exists evs i n,
         history (snd r) = history w ++ evs ++
           [EGL_ERROR "glMapBufferRange failed for %d of %lu bytes"
              [i; n]])).
Proof.
  intros Hr. cbv zeta. split.
  - intros (code & ->). rewrite setup_spec. cbv zeta. cbn [switch_pixFmt].
    cbn [fst snd texture history]. rewrite <- app_assoc.
    repeat split; reflexivity.
  - intros Hf.
    destruct (supported_format f wd ht sd
                (set_state zero_state
                   (set_params f wd ht sd str (texture w))) Hf)
      as (count & t' & E).
    destruct (setup_outcome gl f wd ht sd str w count t' E
                (reachable_length gl w Hr)) as (P1 & _ & P3 & P4 & P5).
    auto.
Qed.

(** The first setup of a new texture, with a driver that maps every
    buffer. *)
Lemma setup_outcome_cases_witness :
  reachable sample_gl (exec (egl_texture_init true) blank_world) /\
  fst (egl_texture_setup sample_gl EGL_PF_YUV420 640 480 640 true
         (exec (egl_texture_init true) blank_world)) = true.
Proof.
  assert (R : reachable sample_gl (exec (egl_texture_init true) blank_world))
    by (exists blank_world, []; reflexivity).
  split; [exact R|].
  destruct (setup_outcome_cases sample_gl EGL_PF_YUV420 640 480 640 true
              _ R) as (_ & H).
  destruct H as (_ & _ & Hok & _); [discriminate|].
  apply Hok. intros h. unfold NULL. cbn. lia.
Defined.

(** X7.  With a driver whose [glMapBufferRange] never fails, a slot that
    owns a buffer has it mapped whenever a call of the interface has
    returned.  After a setup with a known format every slot owns a
    buffer, and keeps it through any further calls, setups among them:
    all three slots are mapped, and so is the slot [w] that the next
    [egl_texture_update] copies into. *)
Theorem buffers_stay_mapped gl f wd ht sd str w cs :
  reachable gl w ->
  maps_succeed gl ->
  (forall code, f <> EGL_PF_other code) ->
  let w1 := exec (egl_texture_setup gl f wd ht sd str) w in
  let t := texture (run gl cs w1) in
  Forall (fun x => tex_hasPBO x = true -> tex_map x <> NULL)
    (tex (texture w))
  /\ hasPBOs t = [true; true; true]
  /\ Forall (fun m => m <> NULL) (maps t)
  /\ tex_map (tex_at t (st_w (state t))) <> NULL.
Proof.
  intros Hr Hs Hf. cbv zeta.
  split; [apply (reachable_owned_mapped gl w Hs Hr)|].
  destruct (supported_format f wd ht sd
              (set_state zero_state
                 (set_params f wd ht sd str (texture w))) Hf)
    as (count & t' & E).
  destruct (setup_outcome gl f wd ht sd str w count t' E
              (reachable_length gl w Hr)) as (P1 & _).
  pose proof (reachable_setup gl f wd ht sd str w Hr) as R1.
  pose proof (reachable_run gl cs _ R1) as R2.
  pose proof (run_hasPBOs gl cs _ R1 P1) as P2.
  destruct (all_mapped _ (reachable_length gl _ R2) P2
              (reachable_owned_mapped gl _ Hs R2)) as (A1 & A2).
  split; [exact P2|]. split; [exact A1|].
  apply A2. apply (reachable_core_ok gl _ R2).
Qed.

(** The run [demo_calls] after the setup of the 640x480 YUV420
    texture. *)
Lemma buffers_stay_mapped_witness :
  reachable sample_gl (exec (egl_texture_init true) blank_world) /\
  maps_succeed sample_gl /\
  hasPBOs (texture (run sample_gl demo_calls yuv_world))
  = [true; true; true].
Proof.
  assert (R : reachable sample_gl (exec (egl_texture_init true) blank_world))
    by (exists blank_world, []; reflexivity).
  assert (S : maps_succeed sample_gl) by (intros h; unfold NULL; cbn; lia).
  split; [exact R|]. split; [exact S|].
  destruct (buffers_stay_mapped sample_gl EGL_PF_YUV420 640 480 640 true
              _ demo_calls R S) as (_ & H & _); [discriminate|].
  exact H.
Defined.

(** X8.  [egl_texture_free] on a streaming texture whose three slots own
    a buffer releases what the slots hold: it deletes the three buffers,
    unmaps each buffer that is mapped, deletes each fence that is set, and
    deletes the textures of the three slots when the texture has planes;
    it ends with the unbinding of the unpack buffer, leaves no slot
    mapped, and returns the caller's pointer as NULL.  Called again on
    that NULL pointer it does nothing. *)
Theorem free_releases_all_slots w :
  streaming (texture w) = true ->
  length (tex (texture w)) = 3%nat ->
  hasPBOs (texture w) = [true; true; true] ->
  let t := texture w in
  let r := egl_texture_free true w in
  fst r = false
  /\ (exists evs,
        history (snd r)
        = history w ++ evs ++ [glBindBuffer GL_PIXEL_UNPACK_BUFFER 0]
        /\ count_events is_buffer_delete evs = 3%nat
        /\ count_events is_unmap evs = live_maps t
        /\ count_events is_fence_delete evs = live_fences t
        /\ count_events is_texture_delete evs
           = if 0 <? planeCount t then 3%nat else 0%nat)
  /\ maps (texture (snd r)) = [NULL; NULL; NULL]
  /\ egl_texture_free false w = (false, w).
Proof.
  intros Hst Hl Hp. cbv zeta. rewrite free_spec. cbv zeta. rewrite Hst.
  cbn [fst snd history texture].
  rewrite (free_slot_events_other 1 2), !(free_slot_events_other 0)
    by discriminate.
  destruct (tex (texture w)) as [|x [|y [|z [|]]]] eqn:Et;
    try discriminate Hl.
  assert (T0 : tex_at (texture w) 0 = x)
    by (unfold tex_at; rewrite Et; reflexivity).
  assert (T1 : tex_at (texture w) 1 = y)
    by (unfold tex_at; rewrite Et; reflexivity).
  assert (T2 : tex_at (texture w) 2 = z)
    by (unfold tex_at; rewrite Et; reflexivity).
  unfold hasPBOs in Hp. rewrite Et in Hp. cbn in Hp.
  injection Hp as Px Py Pz.
  split; [reflexivity|]. split; [|split; [|reflexivity]].
  - exists (free_samplers (texture w)
            ++ free_slot_events (texture w) 0
            ++ free_slot_events (texture w) 1
            ++ free_slot_events (texture w) 2).
    split; [rewrite <- !app_assoc; reflexivity|].
    destruct (free_samplers_counts (texture w)) as (S1 & S2 & S3 & S4).
    destruct (free_slot_counts (texture w) 0) as (A1 & A2 & A3 & A4).
    destruct (free_slot_counts (texture w) 1) as (B1 & B2 & B3 & B4).
    destruct (free_slot_counts (texture w) 2) as (C1 & C2 & C3 & C4).
    rewrite !count_events_app, S1, S2, S3, S4, A1, A2, A3, A4, B1, B2, B3,
      B4, C1, C2, C3, C4, T0, T1, T2, Px, Py, Pz.
    cbn [andb]. unfold live_maps, live_fences, maps, syncs. rewrite Et.
    cbn [fmap list_fmap List.filter].
    split; [reflexivity|].
    split; [destruct (tex_map x =? NULL), (tex_map y =? NULL),
              (tex_map z =? NULL); reflexivity|].
    split; [destruct (tex_sync x =? 0), (tex_sync y =? 0),
              (tex_sync z =? 0); reflexivity|].
    destruct (0 <? planeCount (texture w)); reflexivity.
  - rewrite !maps_free_slot, (free_slot_other 1 2), !(free_slot_other 0)
      by discriminate.
    rewrite T0, T1, T2, Px, Py, Pz. unfold maps. rewrite Et. reflexivity.
Qed.

(** The 640x480 YUV420 texture after two uploads and one bind: three
    buffers, all mapped, one fence left. *)
Lemma free_releases_all_slots_witness :
  let w := run sample_gl [do_update 1; do_process; do_update 2; do_process;
                          do_bind] yuv_world in
  streaming (texture w) = true /\
  length (tex (texture w)) = 3%nat /\
  hasPBOs (texture w) = [true; true; true] /\
  live_fences (texture w) = 1%nat /\
  maps (texture (snd (egl_texture_free true w))) = [NULL; NULL; NULL].
Proof.
  cbv zeta.
  split; [vm_compute; reflexivity|]. split; [vm_compute; reflexivity|].
  split; [vm_compute; reflexivity|]. split; [vm_compute; reflexivity|].
  refine (proj1 (proj2 (proj2
    (free_releases_all_slots _ _ _ _)))); vm_compute; reflexivity.
Defined.

(** X9.  [egl_texture_free] on a texture that is not streaming visits
    slot 0 only.  When all three slots own a buffer, as they do after any
    setup with a known format, it deletes one buffer and, if the texture
    has planes, the textures of one slot; slots 1 and 2 are left as they
    were, their buffers neither unmapped nor deleted and their textures
    not deleted. *)
Theorem free_non_streaming_slot0 w :
  streaming (texture w) = false ->
  length (tex (texture w)) = 3%nat ->
  hasPBOs (texture w) = [true; true; true] ->
  let t := texture w in
  let r := egl_texture_free true w in
  fst r = false
  /\ (exists evs,
        history (snd r)
        = history w ++ evs ++ [glBindBuffer GL_PIXEL_UNPACK_BUFFER 0]
        /\ count_events is_buffer_delete evs = 1%nat
        /\ count_events is_texture_delete evs
           = (if 0 <? planeCount t then 1%nat else 0%nat)
        /\ (count_events is_unmap evs <= 1)%nat
        /\ (count_events is_fence_delete evs <= 1)%nat)
  /\ tex_at (texture (snd r)) 1 = tex_at t 1
  /\ tex_at (texture (snd r)) 2 = tex_at t 2
  /\ tex_hasPBO (tex_at t 1) = true
  /\ tex_hasPBO (tex_at t 2) = true.
Proof.
  intros Hst Hl Hp. cbv zeta. rewrite free_spec. cbv zeta. rewrite Hst.
  cbn [fst snd history texture].
  destruct (tex (texture w)) as [|x [|y [|z [|]]]] eqn:Et;
    try discriminate Hl.
  assert (T0 : tex_at (texture w) 0 = x)
    by (unfold tex_at; rewrite Et; reflexivity).
  assert (T1 : tex_at (texture w) 1 = y)
    by (unfold tex_at; rewrite Et; reflexivity).
  assert (T2 : tex_at (texture w) 2 = z)
    by (unfold tex_at; rewrite Et; reflexivity).
  unfold hasPBOs in Hp. rewrite Et in Hp. cbn in Hp.
  injection Hp as Px Py Pz.
  split; [reflexivity|]. split.
  - exists (free_samplers (texture w) ++ free_slot_events (texture w) 0).
    split; [rewrite <- !app_assoc; reflexivity|].
    destruct (free_samplers_counts (texture w)) as (S1 & S2 & S3 & S4).
    destruct (free_slot_counts (texture w) 0) as (A1 & A2 & A3 & A4).
    rewrite !count_events_app, S1, S2, S3, S4, A1, A2, A3, A4, T0, Px.
    cbn [andb]. split; [reflexivity|]. split; [reflexivity|].
    split; [destruct (tex_map x =? NULL) | destruct (tex_sync x =? 0)]; cbn; lia.
  - rewrite !(free_slot_other 0) by discriminate.
    rewrite T1, T2. auto.
Qed.

(** A 640x480 BGRA texture set up without streaming: three buffers are
    created and mapped, one is deleted. *)
Lemma free_non_streaming_slot0_witness :
  let w := run sample_gl [do_setup EGL_PF_BGRA 640 480 2560 false]
             (exec (egl_texture_init true) blank_world) in
  streaming (texture w) = false /\
  length (tex (texture w)) = 3%nat /\
  hasPBOs (texture w) = [true; true; true] /\
  live_maps (texture w) = 3%nat /\
  live_maps (texture (snd (egl_texture_free true w))) = 2%nat.
Proof.
  cbv zeta.
  split; [vm_compute; reflexivity|]. split; [vm_compute; reflexivity|].
  split; [vm_compute; reflexivity|]. split; [vm_compute; reflexivity|].
  pose proof (free_non_streaming_slot0
                (run sample_gl [do_setup EGL_PF_BGRA 640 480 2560 false]
                   (exec (egl_texture_init true) blank_world))
                ltac:(vm_compute; reflexivity) ltac:(vm_compute; reflexivity)
                ltac:(vm_compute; reflexivity)) as (_ & _ & H1 & H2 & _).
  vm_compute. reflexivity.
Defined.
(** X10.  The two clipboard type conversions of main.c are inverse to each
    other on the five data types they know (text, PNG, BMP, TIFF, JPEG)
    and log nothing there.  Every other value, the NONE of either side
    included, is turned into the NONE of the other side with one error
    line, so a converted type is always a known one or NONE. *)
Theorem clipboard_type_round_trip
    (t : Clipboard.LG_ClipboardData) (s : Clipboard.SpiceDataType)
    (w : Clipboard.World) :
  let to_spice := Clipboard.clipboard_type_to_spice_type in
  let to_clip := Clipboard.spice_type_to_clipboard_type in
  (if known_clipboard t
   then snd (to_spice t w) = w
        /\ known_spice (fst (to_spice t w)) = true
        /\ to_clip (fst (to_spice t w)) w = (t, w)
   else to_spice t w
        = (Clipboard.SPICE_DATA_NONE,
           clip_logged w [Clipboard.DEBUG_ERROR "invalid clipboard data type"]))
  /\ (if known_spice s
      then snd (to_clip s w) = w
           /\ known_clipboard (fst (to_clip s w)) = true
           /\ to_spice (fst (to_clip s w)) w = (s, w)
      else to_clip s w
           = (Clipboard.LG_CLIPBOARD_DATA_NONE,
              clip_logged w [Clipboard.DEBUG_ERROR "invalid spice data type"]))
  /\ (fst (to_spice t w) = Clipboard.SPICE_DATA_NONE
      \/ known_spice (fst (to_spice t w)) = true)
  /\ (fst (to_clip s w) = Clipboard.LG_CLIPBOARD_DATA_NONE
      \/ known_clipboard (fst (to_clip s w)) = true).
Proof.
  cbv zeta. repeat split.
  - destruct t; cbn; auto.
  - destruct s; cbn; auto.
  - destruct t; cbn; auto.
  - destruct s; cbn; auto.
Qed.
(** X11.  [clipboardData] with clipboard sharing to the VM on and a text of
    [size] bytes, [size] below 2^32, in a fresh buffer of [2 * size]
    bytes: the loop ends, and the one call made is [spice_clipboard_data]
    with type text and a buffer that starts with the text in which every
    line feed has a carriage return before it.  The size passed is the
    length of that converted text cut to 32 bits, so it is the length
    whenever that is below 2^32.  A text without line feeds is sent
    byte for byte, and data of another known type is sent as it came,
    unconverted. *)
Theorem clipboardData_text_crlf
    (params : Clipboard.AppParams) (fuel : nat) (fresh data : list Z)
    (w : Clipboard.World) :
  Clipboard.clipboardToVM params = true ->
  Z.of_nat (length data) < 2 ^ 32 ->
  length fresh = (2 * length data)%nat ->
  (length data < fuel)%nat ->
  let size := Z.of_nat (length data) in
  let sent := crlf data in
  (exists buffer,
      Clipboard.clipboardData params fuel fresh
        Clipboard.LG_CLIPBOARD_DATA_TEXT data size w
      = (Some tt,
         clip_logged w
           [Clipboard.spice_clipboard_data Clipboard.SPICE_DATA_TEXT buffer
              (Clipboard.to_uint32 (Z.of_nat (length sent)))])
      /\ take (length sent) buffer = sent
      /\ length buffer = length fresh)
  /\ (Z.of_nat (length sent) < 2 ^ 32 ->
      Clipboard.to_uint32 (Z.of_nat (length sent)) = Z.of_nat (length sent))
  /\ (length data <= length sent <= 2 * length data)%nat
  /\ (Forall (fun c => c <> 10) data -> sent = data)
  /\ (forall t,
        known_clipboard t = true ->
        t <> Clipboard.LG_CLIPBOARD_DATA_TEXT ->
        exists s,
          known_spice s = true /\
          Clipboard.clipboardData params fuel fresh t data size w
          = (Some tt,
             clip_logged w
               [Clipboard.spice_clipboard_data s data size])).
Proof.
  intros Hvm Hsz Hlen Hfuel. cbv zeta.
  split; [|split; [|split; [|split]]].
  - assert (Hfrom := unix2dos_from data fuel [] fresh Hfuel Hsz).
    destruct Hfrom as (b & R1 & R2 & R3); [cbn; lia|reflexivity|].
    exists b. cbn [app length crlf flat_map] in R1, R2.
    change (Z.of_nat 0) with 0 in R1.
    unfold Clipboard.clipboardData. rewrite Hvm. cbn [negb Clipboard.is_text].
    rewrite R1. split; [reflexivity|]. split; [exact R2|exact R3].
  - intros H. unfold Clipboard.to_uint32. apply Z.mod_small. lia.
  - split; [|apply length_crlf_le].
    clear. induction data as [|c l IH]; [cbn; lia|].
    unfold crlf in *. cbn [flat_map]. rewrite length_app.
    destruct (c =? 10); cbn [length]; lia.
  - clear. intros H. induction H as [|c l Hc _ IH]; [reflexivity|].
    unfold crlf in *. cbn [flat_map]. rewrite IH.
    destruct (Z.eqb_spec c 10); [contradiction|reflexivity].
  - intros t Hk Ht. unfold Clipboard.clipboardData. rewrite Hvm.
    cbn [negb].
    assert (Hu : Clipboard.to_uint32 (Z.of_nat (length data))
                 = Z.of_nat (length data))
      by (unfold Clipboard.to_uint32; apply Z.mod_small; lia).
    destruct t; try discriminate Hk; try contradiction;
      cbn [Clipboard.is_text];
      (eexists; split; [|cbn; rewrite Hu; reflexivity]; reflexivity).
Qed.

(** Two lines of text, eleven bytes, become thirteen. *)
Lemma clipboardData_text_crlf_witness :
  let params := {| Clipboard.clipboardToVM := true;
                   Clipboard.clipboardToLocal := true |} in
  let data := [104; 105; 10; 116; 104; 101; 114; 101; 10; 111; 107] in
  let w := {| Clipboard.app :=
                {| Clipboard.cbType := Clipboard.SPICE_DATA_NONE;
                   Clipboard.cbRequestList := [];
                   Clipboard.lgc := true;
                   Clipboard.lgc_has_notice := true;
                   Clipboard.lgc_has_release := true;
                   Clipboard.lgc_has_request := true |};
              Clipboard.log := [] |} in
  crlf data = [104; 105; 13; 10; 116; 104; 101; 114; 101; 13; 10; 111; 107]
  /\ exists buffer,
       Clipboard.clipboardData params 12 (repeat 0 22)
         Clipboard.LG_CLIPBOARD_DATA_TEXT data 11 w
       = (Some tt,
          clip_logged w
            [Clipboard.spice_clipboard_data Clipboard.SPICE_DATA_TEXT buffer
               13])
       /\ take 13 buffer = crlf data.
Proof.
  cbv zeta. split; [reflexivity|].
  destruct (clipboardData_text_crlf
              {| Clipboard.clipboardToVM := true;
                 Clipboard.clipboardToLocal := true |}
              12 (repeat 0 22)
              [104; 105; 10; 116; 104; 101; 114; 101; 10; 111; 107]
              {| Clipboard.app :=
                   {| Clipboard.cbType := Clipboard.SPICE_DATA_NONE;
                      Clipboard.cbRequestList := [];
                      Clipboard.lgc := true;
                      Clipboard.lgc_has_notice := true;
                      Clipboard.lgc_has_release := true;
                      Clipboard.lgc_has_request := true |};
                 Clipboard.log := [] |})
    as ((b & R1 & R2 & _) & _).
  - reflexivity.
  - cbn. lia.
  - reflexivity.
  - cbn. lia.
  - exists b. split; [exact R1|exact R2].
Defined.
(** X12.  [spiceClipboardData] with clipboard sharing to the local side on
    and a text whose first [size] bytes are [data]: the loop ends, the
    buffer is rewritten in place so that it starts with [data] without
    its carriage returns, and the size becomes the length of that.  The
    oldest pending request is taken off the list and its reply function
    is called once with its own opaque pointer, the type, that buffer
    and that size; with no request pending nothing is called and the
    data is dropped.  Data of another type is replied as it came. *)
Theorem spiceClipboardData_text_strips_cr
    (params : Clipboard.AppParams) (fuel : nat) (buffer data : list Z)
    (w : Clipboard.World) :
  Clipboard.clipboardToLocal params = true ->
  Z.of_nat (length data) < 2 ^ 32 ->
  take (length data) buffer = data ->
  (length data < fuel)%nat ->
  let size := Z.of_nat (length data) in
  let got := strip_cr data in
  let reply t b n :=
    match Clipboard.cbRequestList (Clipboard.app w) with
    | [] => w
    | cbr :: rest =>
      {| Clipboard.app := Clipboard.set_cbRequestList rest (Clipboard.app w);
         Clipboard.log :=
           Clipboard.log w
           ++ [Clipboard.replyFn_call (Clipboard.cbr_replyFn cbr)
                 (Clipboard.cbr_opaque cbr) t b n] |}
    end in
  (exists buffer',
      Clipboard.spiceClipboardData params fuel Clipboard.SPICE_DATA_TEXT
        buffer size w
      = (Some tt,
         reply Clipboard.SPICE_DATA_TEXT buffer' (Z.of_nat (length got)))
      /\ take (length got) buffer' = got
      /\ length buffer' = length buffer)
  /\ (length got <= length data)%nat
  /\ (Forall (fun c => c <> 13) data -> got = data)
  /\ Forall (fun c => c <> 13) got
  /\ (forall t,
        t <> Clipboard.SPICE_DATA_TEXT ->
        Clipboard.spiceClipboardData params fuel t buffer size w
        = (Some tt, reply t buffer size)).
Proof.
  intros Hl Hsz Htake Hfuel. cbv zeta.
  split; [|split; [|split; [|split]]].
  - assert (Hfrom := dos2unix_from data fuel [] buffer Hfuel Hsz).
    destruct Hfrom as (b & R1 & R2 & R3); [reflexivity|exact Htake|].
    exists b. cbn [app length strip_cr List.filter Nat.add] in R1, R2.
    change (Z.of_nat 0) with 0 in R1.
    unfold Clipboard.spiceClipboardData. rewrite Hl.
    cbn [negb Clipboard.is_spice_text]. rewrite R1.
    split; [|split; [exact R2|exact R3]].
    destruct w as [a lg]. cbn [Clipboard.app Clipboard.log].
    unfold bind, Clipboard.get_app. cbn [Clipboard.app].
    destruct (Clipboard.cbRequestList a) as [|cbr rest]; reflexivity.
  - apply length_strip_cr_le.
  - clear. intros H. induction H as [|c l Hc _ IH]; [reflexivity|].
    unfold strip_cr in *. cbn [List.filter]. rewrite IH.
    destruct (Z.eqb_spec c 13); [contradiction|reflexivity].
  - clear. induction data as [|c l IH]; [constructor|].
    unfold strip_cr in *. cbn [List.filter].
    destruct (Z.eqb_spec c 13); cbn [negb]; [exact IH|].
    constructor; assumption.
  - intros t Ht. unfold Clipboard.spiceClipboardData. rewrite Hl.
    cbn [negb].
    destruct w as [a lg]. cbn [Clipboard.app Clipboard.log].
    destruct t; try contradiction; cbn [Clipboard.is_spice_text];
      unfold bind, Clipboard.get_app; cbn [Clipboard.app];
      destruct (Clipboard.cbRequestList a) as [|cbr rest]; reflexivity.
Qed.

(** A reply of thirteen bytes with two line ends, one request pending. *)
Lemma spiceClipboardData_text_strips_cr_witness :
  let params := {| Clipboard.clipboardToVM := true;
                   Clipboard.clipboardToLocal := true |} in
  let data := [104; 105; 13; 10; 116; 104; 101; 114; 101; 13; 10; 111; 107] in
  let cbr := {| Clipboard.cbr_type := Clipboard.SPICE_DATA_TEXT;
                Clipboard.cbr_replyFn := 4096;
                Clipboard.cbr_opaque := 8192 |} in
  let w := {| Clipboard.app :=
                {| Clipboard.cbType := Clipboard.SPICE_DATA_TEXT;
                   Clipboard.cbRequestList := [cbr];
                   Clipboard.lgc := true;
                   Clipboard.lgc_has_notice := true;
                   Clipboard.lgc_has_release := true;
                   Clipboard.lgc_has_request := true |};
              Clipboard.log := [] |} in
  strip_cr data = [104; 105; 10; 116; 104; 101; 114; 101; 10; 111; 107]
  /\ exists buffer',
       Clipboard.spiceClipboardData params 14 Clipboard.SPICE_DATA_TEXT
         data 13 w
       = (Some tt,
          {| Clipboard.app :=
               Clipboard.set_cbRequestList [] (Clipboard.app w);
             Clipboard.log :=
               [Clipboard.replyFn_call 4096 8192 Clipboard.SPICE_DATA_TEXT
                  buffer' 11] |})
       /\ take 11 buffer' = strip_cr data.
Proof.
  cbv zeta. split; [reflexivity|].
  destruct (spiceClipboardData_text_strips_cr
              {| Clipboard.clipboardToVM := true;
                 Clipboard.clipboardToLocal := true |}
              14
              [104; 105; 13; 10; 116; 104; 101; 114; 101; 13; 10; 111; 107]
              [104; 105; 13; 10; 116; 104; 101; 114; 101; 13; 10; 111; 107]
              {| Clipboard.app :=
                   {| Clipboard.cbType := Clipboard.SPICE_DATA_TEXT;
                      Clipboard.cbRequestList :=
                        [{| Clipboard.cbr_type := Clipboard.SPICE_DATA_TEXT;
                            Clipboard.cbr_replyFn := 4096;
                            Clipboard.cbr_opaque := 8192 |}];
                      Clipboard.lgc := true;
                      Clipboard.lgc_has_notice := true;
                      Clipboard.lgc_has_release := true;
                      Clipboard.lgc_has_request := true |};
                 Clipboard.log := [] |})
    as ((b & R1 & R2 & _) & _).
  - reflexivity.
  - cbn. lia.
  - reflexivity.
  - cbn. lia.
  - exists b. split; [exact R1|exact R2].
Defined.
(** X13.  A text sent to the guest by [clipboardData] and handed back
    unchanged to [spiceClipboardData] reaches the reply function as the
    original text without its carriage returns: the line feeds keep their
    place, the carriage returns put in on the way out are taken out on
    the way back, and so is every carriage return the text had.  A
    text without carriage returns comes back byte for byte. *)
Theorem clipboard_text_round_trip
    (params : Clipboard.AppParams) (fuel : nat) (fresh data : list Z)
    (w : Clipboard.World) :
  Clipboard.clipboardToVM params = true ->
  Clipboard.clipboardToLocal params = true ->
  Z.of_nat (length (crlf data)) < 2 ^ 32 ->
  length fresh = (2 * length data)%nat ->
  (length (crlf data) < fuel)%nat ->
  exists sent back,
    Clipboard.clipboardData params fuel fresh
      Clipboard.LG_CLIPBOARD_DATA_TEXT data (Z.of_nat (length data)) w
    = (Some tt,
       clip_logged w
         [Clipboard.spice_clipboard_data Clipboard.SPICE_DATA_TEXT sent
            (Z.of_nat (length (crlf data)))])
    /\ take (length (strip_cr data)) back = strip_cr data
    /\ (Forall (fun c => c <> 13) data -> strip_cr data = data)
    /\ forall w' cbr rest,
         Clipboard.cbRequestList (Clipboard.app w') = cbr :: rest ->
         Clipboard.spiceClipboardData params fuel Clipboard.SPICE_DATA_TEXT
           sent (Z.of_nat (length (crlf data))) w'
         = (Some tt,
            {| Clipboard.app :=
                 Clipboard.set_cbRequestList rest (Clipboard.app w');
               Clipboard.log :=
                 Clipboard.log w'
                 ++ [Clipboard.replyFn_call (Clipboard.cbr_replyFn cbr)
                       (Clipboard.cbr_opaque cbr) Clipboard.SPICE_DATA_TEXT
                       back (Z.of_nat (length (strip_cr data)))] |}).
Proof.
  intros Hvm Hl Hsz Hlen Hfuel.
  pose proof (length_crlf_ge data) as Hge.
  assert (Hsz0 : Z.of_nat (length ([] ++ data)) < 2 ^ 32)
    by (cbn [app]; lia).
  assert (Hf0 : (length data < fuel)%nat) by lia.
  assert (Hfrom := unix2dos_from data fuel [] fresh Hf0 Hsz0).
  destruct Hfrom as (sent & R1 & R2 & R3); [cbn; lia|reflexivity|].
  cbn [app length crlf flat_map] in R1, R2.
  change (Z.of_nat 0) with 0 in R1.
  assert (Hback := dos2unix_from (crlf data) fuel [] sent Hfuel Hsz).
  destruct Hback as (back & B1 & B2 & B3); [reflexivity|exact R2|].
  cbn [app length strip_cr List.filter Nat.add] in B1, B2.
  change (Z.of_nat 0) with 0 in B1.
  fold (strip_cr (crlf data)) in B1, B2. rewrite strip_cr_crlf in B1, B2.
  exists sent, back. split; [|split; [exact B2|split; [apply strip_cr_id|]]].
  - unfold Clipboard.clipboardData. rewrite Hvm.
    cbn [negb Clipboard.is_text]. rewrite R1.
    assert (Hu : Clipboard.to_uint32 (Z.of_nat (length (crlf data)))
                 = Z.of_nat (length (crlf data)))
      by (unfold Clipboard.to_uint32; apply Z.mod_small; lia).
    unfold crlf in Hu |- *. rewrite Hu. reflexivity.
  - intros w' cbr rest Hq. unfold Clipboard.spiceClipboardData. rewrite Hl.
    cbn [negb Clipboard.is_spice_text]. rewrite B1.
    destruct w' as [a lg]. cbn [Clipboard.app Clipboard.log] in *.
    unfold bind, Clipboard.get_app. cbn [Clipboard.app]. rewrite Hq.
    reflexivity.
Qed.

(** Two lines that end in line feeds go out as thirteen bytes and come
    back as the eleven they were. *)
Lemma clipboard_text_round_trip_witness :
  let params := {| Clipboard.clipboardToVM := true;
                   Clipboard.clipboardToLocal := true |} in
  let data := [104; 105; 10; 116; 104; 101; 114; 101; 10; 111; 107] in
  let w := {| Clipboard.app :=
                {| Clipboard.cbType := Clipboard.SPICE_DATA_TEXT;
                   Clipboard.cbRequestList := [];
                   Clipboard.lgc := true;
                   Clipboard.lgc_has_notice := true;
                   Clipboard.lgc_has_release := true;
                   Clipboard.lgc_has_request := true |};
              Clipboard.log := [] |} in
  strip_cr data = data
  /\ exists sent back,
       Clipboard.clipboardData params 14 (repeat 0 22)
         Clipboard.LG_CLIPBOARD_DATA_TEXT data 11 w
       = (Some tt,
          clip_logged w
            [Clipboard.spice_clipboard_data Clipboard.SPICE_DATA_TEXT sent
               13])
       /\ take 11 back = data.
Proof.
  cbv zeta. split; [reflexivity|].
  destruct (clipboard_text_round_trip
              {| Clipboard.clipboardToVM := true;
                 Clipboard.clipboardToLocal := true |}
              14 (repeat 0 22)
              [104; 105; 10; 116; 104; 101; 114; 101; 10; 111; 107]
              {| Clipboard.app :=
                   {| Clipboard.cbType := Clipboard.SPICE_DATA_TEXT;
                      Clipboard.cbRequestList := [];
                      Clipboard.lgc := true;
                      Clipboard.lgc_has_notice := true;
                      Clipboard.lgc_has_release := true;
                      Clipboard.lgc_has_request := true |};
                 Clipboard.log := [] |})
    as (sent & back & R1 & R2 & _).
  - reflexivity.
  - reflexivity.
  - cbn. lia.
  - reflexivity.
  - cbn. lia.
  - exists sent, back. split; [exact R1|exact R2].
Defined.
(** X14.  The pending clipboard requests are served first in, first out.
    Each [clipboardRequest] asks the guest for the type of the latest
    notice that was passed on ([state.cbType], which [spiceClipboardNotice]
    sets only when a local clipboard with a notice handler exists) and
    appends the reply function to the list; each [spiceClipboardData]
    takes the oldest entry off the list and calls its reply function with
    its own opaque pointer.  So the k-th data message goes to the k-th
    pending request, and data messages beyond the pending requests call
    nothing.  (The list is the one of ll.c, with [ll_push] at the tail and
    [ll_shift] from the head.) *)
Theorem clipboard_requests_fifo
    (params : Clipboard.AppParams) (t : Clipboard.SpiceDataType)
    (reqs : list (pointer * pointer))
    (msgs : list (Clipboard.SpiceDataType * list Z * Z))
    (fuel : nat) (w : Clipboard.World) :
  Clipboard.clipboardToLocal params = true ->
  Forall (fun m => fst (fst m) <> Clipboard.SPICE_DATA_TEXT) msgs ->
  let a := Clipboard.app w in
  let w0 := snd (Clipboard.spiceClipboardNotice params t w) in
  let w1 := fold_left
              (fun w r => snd (Clipboard.clipboardRequest params (fst r)
                                 (snd r) w)) reqs w0 in
  let w2 := fold_left
              (fun w m => snd (Clipboard.spiceClipboardData params fuel
                                 (fst (fst m)) (snd (fst m)) (snd m) w))
              msgs w1 in
  let ty := if Clipboard.lgc a && Clipboard.lgc_has_notice a
            then t else Clipboard.cbType a in
  let queue :=
    Clipboard.cbRequestList a
    ++ ((fun r => {| Clipboard.cbr_type := ty;
                     Clipboard.cbr_replyFn := fst r;
                     Clipboard.cbr_opaque := snd r |}) <$> reqs) in
  Clipboard.cbRequestList (Clipboard.app w1) = queue
  /\ Clipboard.log w1
     = Clipboard.log w0
       ++ ((fun _ => Clipboard.spice_clipboard_request ty) <$> reqs)
  /\ Clipboard.cbRequestList (Clipboard.app w2)
     = drop (length msgs) queue
  /\ Clipboard.log w2
     = Clipboard.log w1
       ++ zip_with
            (fun cbr m =>
               Clipboard.replyFn_call (Clipboard.cbr_replyFn cbr)
                 (Clipboard.cbr_opaque cbr) (fst (fst m)) (snd (fst m))
                 (snd m))
            queue msgs.
Proof.
  intros Hl Hm. cbv zeta.
  set (w0 := snd (Clipboard.spiceClipboardNotice params t w)).
  assert (H0 : Clipboard.cbRequestList (Clipboard.app w0)
               = Clipboard.cbRequestList (Clipboard.app w)
               /\ Clipboard.cbType (Clipboard.app w0)
                  = (if Clipboard.lgc (Clipboard.app w)
                        && Clipboard.lgc_has_notice (Clipboard.app w)
                     then t else Clipboard.cbType (Clipboard.app w))).
  { subst w0. unfold Clipboard.spiceClipboardNotice. rewrite Hl.
    destruct w as [a lg]. cbn [negb Clipboard.app].
    unfold bind, Clipboard.get_app. cbn [Clipboard.app].
    destruct (Clipboard.lgc a), (Clipboard.lgc_has_notice a); cbn;
      try (split; reflexivity).
    destruct t; cbn; split; reflexivity. }
  destruct H0 as (Q0 & T0).
  destruct (requests_fold params reqs Hl w0) as (R1 & R2 & _).
  rewrite Q0, T0 in R1. rewrite T0 in R2.
  split; [exact R1|]. split; [exact R2|].
  match goal with
  | |- context [fold_left _ msgs ?x] =>
      destruct (replies_fold params msgs Hl Hm fuel x) as (D1 & D2 & _)
  end.
  rewrite R1 in D1, D2. split; [exact D1|exact D2].
Qed.

(** A notice of a PNG, two requests, three replies: the first two replies
    reach the two requesters in turn, the third reaches nobody. *)
Lemma clipboard_requests_fifo_witness :
  let params := {| Clipboard.clipboardToVM := true;
                   Clipboard.clipboardToLocal := true |} in
  let w := {| Clipboard.app :=
                {| Clipboard.cbType := Clipboard.SPICE_DATA_NONE;
                   Clipboard.cbRequestList := [];
                   Clipboard.lgc := true;
                   Clipboard.lgc_has_notice := true;
                   Clipboard.lgc_has_release := true;
                   Clipboard.lgc_has_request := true |};
              Clipboard.log := [] |} in
  let png := Clipboard.SPICE_DATA_PNG in
  let after :=
    fold_left
      (fun w m => snd (Clipboard.spiceClipboardData params 0
                         (fst (fst m)) (snd (fst m)) (snd m) w))
      [(png, [1], 1); (png, [2], 1); (png, [3], 1)]
      (fold_left
         (fun w r => snd (Clipboard.clipboardRequest params (fst r)
                            (snd r) w))
         [(100, 101); (200, 201)]
         (snd (Clipboard.spiceClipboardNotice params png w))) in
  Clipboard.cbRequestList (Clipboard.app after) = []
  /\ Clipboard.log after
     = [Clipboard.lgc_notice Clipboard.LG_CLIPBOARD_DATA_PNG;
        Clipboard.spice_clipboard_request png;
        Clipboard.spice_clipboard_request png;
        Clipboard.replyFn_call 100 101 png [1] 1;
        Clipboard.replyFn_call 200 201 png [2] 1].
Proof.
  cbv zeta.
  pose proof (clipboard_requests_fifo
                {| Clipboard.clipboardToVM := true;
                   Clipboard.clipboardToLocal := true |}
                Clipboard.SPICE_DATA_PNG
                [(100, 101); (200, 201)]
                [(Clipboard.SPICE_DATA_PNG, [1], 1);
                 (Clipboard.SPICE_DATA_PNG, [2], 1);
                 (Clipboard.SPICE_DATA_PNG, [3], 1)]
                0%nat
                {| Clipboard.app :=
                     {| Clipboard.cbType := Clipboard.SPICE_DATA_NONE;
                        Clipboard.cbRequestList := [];
                        Clipboard.lgc := true;
                        Clipboard.lgc_has_notice := true;
                        Clipboard.lgc_has_release := true;
                        Clipboard.lgc_has_request := true |};
                   Clipboard.log := [] |}
                eq_refl) as H.
  cbv zeta in H.
  destruct H as (_ & H2 & H3 & H4).
  - repeat constructor; discriminate.
  - split; [exact H3|]. rewrite H4, H2. reflexivity.
Defined.

(** X16.  The frame loop of [frameThread] accounts for every message.
    Over any run of the loop, each [lgmpClientProcess] is followed by
    exactly one of: a poll sleep (queue empty), [lgmpClientMessageDone],
    the error line of a failed [lgmpClientProcess], or the error line of
    a frame the renderer refused.  A message is acknowledged with
    [lgmpClientMessageDone] when [on_frame_event] took it and when its
    frame type is unsupported (then without [on_frame_event]); the one
    message on which [on_frame_event] fails is left unacknowledged.  At
    most one of the three errors happens, none while the loop still runs,
    the loop never returns from the function and never touches
    [state.running]. *)
Theorem frame_loop_accounts_for_messages
    (env : Main.Env) (params : Main.AppParams) (field_mod : Z)
    (fuel : nat) (w : Main.World) :
  let r := Main.while_loop fuel Main.running
             (Main.frame_iteration env params field_mod) w in
  exists evs,
    Main.log (snd r) = Main.log w ++ evs
    /\ Main.running (Main.app (snd r)) = Main.running (Main.app w)
    /\ (let n p := main_count p evs in
        let failed := n (is_error_line "lgmpClientProcess Failed: %s") in
        let refused :=
          n (is_error_line "renderer on frame event returned failure") in
        let unsupported := n (is_error_line "Unsupported frameType") in
        (n is_client_process
         = n is_poll_sleep + n is_message_done + refused + failed)%nat
        /\ (n is_message_done + refused
            = n is_on_frame_event + unsupported)%nat
        /\ (unsupported + refused + failed <= 1)%nat
        /\ match fst r with
           | Main.OutOfFuel => (unsupported + refused + failed = 0)%nat
           | Main.Finished => True
           | Main.Returned _ => False
           end).
Proof. exact (frame_loop_turns env params field_mod fuel w). Qed.
(** X17.  [frameThread] after a subscription that fails for good: when
    [lgmpClientSubscribe] answers LGMP_ERR_NO_SUCH_QUEUE [n] times and then
    an error that is neither that nor LGMP_OK, the thread logs the error,
    makes no [lgmpClientProcess] call at all, still calls
    [lgmpClientUnsubscribe] once on the queue it never got, leaves
    [state.running] cleared and returns 0.  When [state.running] is
    already clear after the startup wait it returns 0 at once, without
    subscribing or unsubscribing. *)
Theorem frameThread_failed_subscription
    (env : Main.Env) (params : Main.AppParams) (field_mod : Z)
    (w : Main.World) (n fuel : nat) :
  let start := [Main.SDL_SetThreadPriority_HIGH; Main.lgWaitEvent_startup] in
  let round := subscribe_round Main.LGMP_Q_FRAME in
  let status :=
    Main.client_subscribe env (Main.log w ++ start ++ rounds n round) in
  Main.running (Main.app w) = true ->
  (n < fuel)%nat ->
  (forall i, (i < n)%nat ->
     subscribe_transient
       (Main.client_subscribe env (Main.log w ++ start ++ rounds i round))
     = true) ->
  status <> Main.LGMP_OK ->
  subscribe_transient status = false ->
  Main.frameThread env params field_mod fuel w
  = (Some 0,
     stopped
       (logged w
          (start ++ rounds n round
           ++ [Main.lgmpClientSubscribe Main.LGMP_Q_FRAME;
               Main.DEBUG_ERROR_status "lgmpClientSubscribe Failed: %s"
                 status;
               Main.lgmpClientUnsubscribe])))
  /\ Main.frameThread env params field_mod fuel (stopped w)
     = (Some 0, logged (stopped w) start).
Proof.
  cbv zeta. intros Hr Hfuel Htr Hok Hnt.
  set (start := [Main.SDL_SetThreadPriority_HIGH; Main.lgWaitEvent_startup])
    in *.
  set (round := subscribe_round Main.LGMP_Q_FRAME) in *.
  split.
  2:{ unfold Main.frameThread, bind, Main.emit, Main.get_app, stopped, logged.
      cbn. rewrite <- app_assoc. reflexivity. }
  assert (E0 : forall (k : Main.World -> option Z * Main.World),
             (Main.emit Main.SDL_SetThreadPriority_HIGH ;;
              Main.emit Main.lgWaitEvent_startup ;;
              k) w = k (logged w start)).
  { intros k. unfold bind, Main.emit, logged. cbn.
    rewrite <- app_assoc. reflexivity. }
  unfold Main.frameThread. rewrite E0.
  unfold bind at 1. unfold Main.get_app at 1.
  change (Main.running (Main.app (logged w start)))
    with (Main.running (Main.app w)). rewrite Hr. cbn [negb].
  replace fuel with (n + S (fuel - n - 1))%nat at 1 by lia.
  unfold bind at 1.
  assert (Hr1 : Main.running (Main.app (logged w start)) = true) by exact Hr.
  assert (Htr1 : forall i, (i < n)%nat ->
            subscribe_transient
              (Main.client_subscribe env
                 (Main.log (logged w start) ++ rounds i round)) = true).
  { intros i Hi. cbn [logged Main.log]. rewrite <- app_assoc.
    apply Htr, Hi. }
  rewrite (subscribe_retries env Main.LGMP_Q_FRAME (logged w start) n _
             Hr1 Htr1).
  fold round. rewrite logged_logged.
  set (w' := logged w (start ++ rounds n round)).
  pose proof (subscribe_iteration_spec env Main.LGMP_Q_FRAME w') as E.
  cbv zeta in E.
  assert (Hs : Main.client_subscribe env (Main.log w')
               = Main.client_subscribe env
                   (Main.log w ++ start ++ rounds n round)) by reflexivity.
  rewrite Hs in E.
  remember (Main.client_subscribe env
              (Main.log w ++ start ++ rounds n round)) as status eqn:Est in *.
  clear Est Hs.
  assert (E' : Main.subscribe_iteration env Main.LGMP_Q_FRAME w'
               = (Main.Break,
                  stopped
                    (logged w'
                       [Main.lgmpClientSubscribe Main.LGMP_Q_FRAME;
                        Main.DEBUG_ERROR_status
                          "lgmpClientSubscribe Failed: %s" status]))).
  { rewrite E. destruct status; try reflexivity;
      [contradiction | discriminate Hnt]. }
  assert (Hr' : Main.running (Main.app w') = true) by exact Hr.
  rewrite (while_loop_break _ _ _ _ _ Hr' E').
  destruct fuel as [|fuel']; [lia|].
  unfold bind at 1.
  rewrite while_loop_stop by reflexivity.
  unfold bind, Main.emit, Main.modify_app, stopped, logged, w'. cbn.
  rewrite <- !app_assoc. reflexivity.
Qed.

(** A host whose frame queue does not exist twice and is then refused. *)
Lemma frameThread_failed_subscription_witness :
  let env :=
    {| Main.client_init := fun _ => Main.LGMP_OK;
       Main.client_subscribe := fun h =>
         if (length h <? 6)%nat then Main.LGMP_ERR_NO_SUCH_QUEUE
         else Main.LGMP_ERR_INVALID_SESSION;
       Main.client_process := fun _ => (Main.LGMP_OK, (0, yuv_frame));
       Main.frame_event := fun _ => true |} in
  let params := {| Main.framePollInterval := 1000;
                   Main.autoResize := false |} in
  Main.frameThread env params (2 ^ 32) 5 started
  = (Some 0,
     stopped
       (logged started
          [Main.SDL_SetThreadPriority_HIGH; Main.lgWaitEvent_startup;
           Main.lgmpClientSubscribe Main.LGMP_Q_FRAME; Main.usleep 1000;
           Main.lgmpClientSubscribe Main.LGMP_Q_FRAME; Main.usleep 1000;
           Main.lgmpClientSubscribe Main.LGMP_Q_FRAME;
           Main.DEBUG_ERROR_status "lgmpClientSubscribe Failed: %s"
             Main.LGMP_ERR_INVALID_SESSION;
           Main.lgmpClientUnsubscribe])).
Proof.
  cbv zeta.
  refine (proj1 (frameThread_failed_subscription
                   {| Main.client_init := fun _ => Main.LGMP_OK;
                      Main.client_subscribe := fun h =>
                        if (length h <? 6)%nat
                        then Main.LGMP_ERR_NO_SUCH_QUEUE
                        else Main.LGMP_ERR_INVALID_SESSION;
                      Main.client_process :=
                        fun _ => (Main.LGMP_OK, (0, yuv_frame));
                      Main.frame_event := fun _ => true |}
                   {| Main.framePollInterval := 1000;
                      Main.autoResize := false |}
                   (2 ^ 32) started 2 5 eq_refl _ _ _ eq_refl)).
  - lia.
  - intros [|[|i]] Hi; [reflexivity|reflexivity|lia].
  - discriminate.
Defined.
(** X18.  The mouse sensitivity stays within -9 .. 9.  [lg_run] clamps
    [params.mouseSens] into that range, and from then on, whatever keys
    are pressed, [mouse_sens_inc] and [mouse_sens_dec] keep it there: the
    factor [mouseSens + 10] of the mouse motion stays within 1 .. 19.
    Every key press raises exactly one alert, also at the ends of the
    range where the value no longer moves, and the last alert shows the
    value now in force.  [n] presses of Insert give [min 9 (v + n)], [n]
    presses of Delete give [max (-9) (v - n)]. *)
Theorem mouse_sensitivity_bounded
    (params_mouseSens : Z) (ks : list Keys.key) (n : nat) (w : Keys.World) :
  let w0 := snd (Keys.lg_run_mouseSens params_mouseSens w) in
  let w1 := Keys.presses ks w0 in
  let v0 := Keys.mouseSens w0 in
  v0 = Z.max (-9) (Z.min 9 params_mouseSens)
  /\ Keys.log w0 = Keys.log w
  /\ -9 <= Keys.mouseSens w1 <= 9
  /\ 1 <= Keys.mouseSens w1 + 10 <= 19
  /\ (exists alerts,
        Keys.log w1 = Keys.log w0 ++ alerts
        /\ length alerts = length ks
        /\ Forall (fun e => exists v, -9 <= v <= 9 /\
                     e = Keys.app_alert_INFO (Keys.sensitivity_message v))
             alerts
        /\ (ks <> [] ->
            last alerts
            = Some (Keys.app_alert_INFO
                      (Keys.sensitivity_message (Keys.mouseSens w1)))))
  /\ Keys.mouseSens (Keys.presses (repeat Keys.SDL_SCANCODE_INSERT n) w0)
     = Z.min 9 (v0 + Z.of_nat n)
  /\ Keys.mouseSens (Keys.presses (repeat Keys.SDL_SCANCODE_DELETE n) w0)
     = Z.max (-9) (v0 - Z.of_nat n)
  /\ Keys.sensitivity_message 9 = "Sensitivity: +9"%string
  /\ Keys.sensitivity_message 0 = "Sensitivity: 0"%string
  /\ Keys.sensitivity_message (-9) = "Sensitivity: -9"%string.
Proof.
  cbv zeta. rewrite lg_run_mouseSens_spec. cbn [Keys.mouseSens Keys.log].
  set (w0 := {| Keys.mouseSens := Z.max (-9) (Z.min 9 params_mouseSens);
                Keys.log := Keys.log w |}).
  assert (H0 : -9 <= Keys.mouseSens w0 <= 9) by (cbn; lia).
  destruct (presses_bounded ks w0 H0) as (Hb & Ha).
  split; [reflexivity|]. split; [reflexivity|]. split; [exact Hb|].
  split; [lia|]. split; [exact Ha|].
  split; [apply (presses_insert n w0); lia|].
  split; [apply (presses_delete n w0); lia|].
  repeat split.
Qed.
(** X19.  The message loop of [cursorThread] acknowledges every message
    exactly once.  Over any run of the loop, each [lgmpClientProcess] is
    followed by exactly one of: a poll sleep (queue empty),
    [lgmpClientMessageDone], or the error line of a failed
    [lgmpClientProcess].  The errors "Invalid cursor type" and "Failed to
    update mouse shape" each come with their [lgmpClientMessageDone], do
    not end the loop, and take the place of the [on_mouse_event] of that
    message.  A failed [lgmpClientProcess] happens at most once, and it is
    what clears [state.running] inside the loop.  [alignMouseWithHost] is
    called at most once, and not at all once [haveAligned] is set, which
    then stays set. *)
Theorem cursor_loop_acknowledges_once
    (env : Cursor.Env) (cursorPollInterval sizeof_KVMFRCursor : Z)
    (fuel : nat) (w : Cursor.World) :
  let r := Cursor.while_loop fuel Cursor.running
             (Cursor.cursor_iteration env cursorPollInterval
                sizeof_KVMFRCursor) w in
  let a := Cursor.app w in
  let a' := Cursor.app (snd r) in
  exists evs,
    Cursor.log (snd r) = Cursor.log w ++ evs
    /\ (let c := cursor_counts evs in
        (n_process c = n_sleep c + n_done c + n_process_failed c)%nat
        /\ (n_process_failed c <= 1)%nat
        /\ (n_invalid_type c + n_shape_failed c <= n_done c)%nat
        /\ (n_mouse_shape c <= n_done c)%nat
        /\ (n_done c
            <= n_mouse_event c + n_invalid_type c + n_shape_failed c)%nat
        /\ (n_mouse_event c + n_invalid_type c + n_shape_failed c
            <= n_process c - n_process_failed c)%nat
        /\ (n_align c <= 1)%nat
        /\ (Cursor.haveAligned a = true -> n_align c = 0%nat)
        /\ (n_align c = 1%nat -> Cursor.haveAligned a' = true)
        /\ (Cursor.haveAligned a = true -> Cursor.haveAligned a' = true)
        /\ Cursor.running a'
           = Cursor.running a && (n_process_failed c =? 0)%nat
        /\ match fst r with
           | Main.OutOfFuel => n_process_failed c = 0%nat
           | Main.Finished => True
           | Main.Returned _ => False
           end).
Proof.
  cbv zeta.
  destruct (cursor_loop_turns env cursorPollInterval sizeof_KVMFRCursor
              fuel w) as (evs & L & K & C).
  cbv zeta in L, K, C. unfold cursor_loop_ok in K. cbv zeta in K.
  exists evs. split; [exact L|].
  destruct K as (K1 & K2 & K3 & K4 & K5 & K6 & K7 & K8 & K9 & K10 & K11).
  repeat (split; [assumption|]). exact C.
Qed.
(** X20.  [cursorThread] has no early return: it goes to
    [lgmpClientUnsubscribe] whatever happens.  Whenever the thread
    returns, it returns 0, [state.running] is clear, its first call was the
    wait for startup and its last call [lgmpClientUnsubscribe].  In
    particular, when [state.running] is already clear after the startup
    wait, both loops are skipped and the thread still calls
    [lgmpClientUnsubscribe], on a queue it never subscribed to. *)
Theorem cursorThread_always_unsubscribes
    (env : Cursor.Env) (cursorPollInterval sizeof_KVMFRCursor : Z)
    (fuel : nat) (w : Cursor.World) :
  let thread :=
    Cursor.cursorThread env cursorPollInterval sizeof_KVMFRCursor fuel in
  (forall r w',
      thread w = (Some r, w') ->
      r = 0
      /\ Cursor.running (Cursor.app w') = false
      /\ exists evs,
           Cursor.log w'
           = Cursor.log w ++ [Cursor.lgWaitEvent_startup] ++ evs
             ++ [Cursor.lgmpClientUnsubscribe])
  /\ (Cursor.running (Cursor.app w) = false ->
      (0 < fuel)%nat ->
      thread w
      = (Some 0,
         {| Cursor.app := Cursor.app w;
            Cursor.log := Cursor.log w
                          ++ [Cursor.lgWaitEvent_startup;
                              Cursor.lgmpClientUnsubscribe] |})).
Proof.
  cbv zeta. split.
  - intros r w' H. unfold Cursor.cursorThread in H.
    unfold bind at 1 in H. unfold Cursor.emit at 1 in H.
    set (w0 := {| Cursor.app := Cursor.app w;
                  Cursor.log := Cursor.log w ++ [Cursor.lgWaitEvent_startup] |})
      in H.
    unfold bind at 1 in H.
    destruct (cursor_loop_extends Cursor.running
                (Cursor.subscribe_iteration env)
                (cursor_subscribe_extends env) fuel w0) as (e1 & L1).
    destruct (Cursor.while_loop fuel Cursor.running
                (Cursor.subscribe_iteration env) w0) as [x1 w1].
    cbn [snd] in L1.
    assert (H' : (let* e2 := Cursor.while_loop fuel Cursor.running
                               (Cursor.cursor_iteration env cursorPollInterval
                                  sizeof_KVMFRCursor) in
                  match e2 with
                  | Main.OutOfFuel => ret None
                  | _ =>
                    Cursor.emit Cursor.lgmpClientUnsubscribe ;;
                    Cursor.modify_app (Cursor.set_running false) ;;
                    ret (Some 0)
                  end) w1 = (Some r, w')).
    { destruct x1; [discriminate H|exact H|exact H]. }
    clear H. unfold bind at 1 in H'.
    destruct (cursor_loop_turns env cursorPollInterval sizeof_KVMFRCursor
                fuel w1) as (e2 & L2 & _).
    cbv zeta in L2.
    destruct (Cursor.while_loop fuel Cursor.running
                (Cursor.cursor_iteration env cursorPollInterval
                   sizeof_KVMFRCursor) w1) as [x2 w2].
    cbn [snd] in L2.
    assert (H : (Some 0,
                 {| Cursor.app := Cursor.set_running false (Cursor.app w2);
                    Cursor.log := Cursor.log w2
                                  ++ [Cursor.lgmpClientUnsubscribe] |})
                = (Some r, w')).
    { destruct x2; [discriminate H'|exact H'|exact H']. }
    injection H as Hr Hw. subst r w'. cbn [Cursor.app Cursor.log].
    split; [reflexivity|]. split; [reflexivity|].
    exists (e1 ++ e2). rewrite L2, L1. subst w0. cbn [Cursor.log].
    rewrite <- !app_assoc. reflexivity.
  - intros Hr Hf. destruct fuel as [|k]; [lia|].
    unfold Cursor.cursorThread.
    unfold bind at 1. unfold Cursor.emit at 1.
    unfold bind at 1. rewrite cursor_loop_stop by exact Hr.
    unfold bind at 1. rewrite cursor_loop_stop by exact Hr.
    unfold bind, Cursor.emit, Cursor.modify_app, ret. cbn.
    rewrite <- app_assoc. f_equal. f_equal.
    destruct w as [a lg]. destruct a. cbn in *. rewrite Hr. reflexivity.
Qed.


